(* ===== verification/_CoqProject ===== *)
-Q . S2P
Prelude.v
Riscv.v
Memory.v
CString.v
Bytes.v
State.v
Spinlock.v
Sched.v
SchedSpec.v
Kalloc.v
Vm.v
PageTable.v
VmSpec.v
Uvm.v
UserCopy.v
UvmFork.v
VmExamples.v
Sleeplock.v
Virtio.v
SleepSpec.v
Uart.v
Printf.v
PrintfSpec.v
Console.v
Bio.v
BioRing.v
BioSpec.v
VirtioSpec.v
BioInit.v
Log.v
LogDisk.v
LogSpec.v
LogTxn.v
LogCrash.v
LogExamples.v
FsTxn.v
Fs.v
FsAlloc.v
FsFile.v
FsDir.v
Mkfs.v
MkfsFile.v
MkfsSpec.v
MkfsKernel.v
FsExamples.v
Pipe.v
File.v
Proc.v
ProcSpec.v
ForkSpec.v
UserProc.v
WaitSpec.v
ProcExamples.v
PipeSpec.v
Args.v
Exec.v
Sysproc.v
Sysfile.v
Syscall.v
SysprocSpec.v
PsSpec.v
Trap.v
TrapSpec.v
TrapExamples.v
Boot.v
User.v
Ulib.v
Uprintf.v
Filter.v
Grep.v
Coreutils.v
Messages.v
Pool.v
Unicast.v
Sh.v
ShSpec.v
ShSyntax.v
Umalloc.v
UmallocRing.v
UmallocSpec.v
