(* ===== verification/Prelude.v ===== *)
(** * xv6 with scheduling counters: a verification development

    The program is a teaching kernel for RISC-V multiprocessors (src/kernel), its user
    programs (src/user) and the tool that builds its disk image (src/mkfs).  It differs
    from the xv6 it derives from in the counters of [struct proc] ([runCount],
    [systemcallCount], [interruptCount], [preemptCount], [trapCount], [sleepCount]), in the
    system calls [getppid], [ps] and [getschedhistory], and in two message programs.

    ** The model

    The C functions are translated one by one, by name, to functions of the monad [M]
    below: a function of the kernel is a map from the machine's state [kst] (file State) to
    an outcome.  [Ok] is a return, [Panic] a call of panic (or what C leaves undefined),
    [Spin] a spin-wait that this hart cannot end, [Gone] a switch to another thread from
    which control never comes back, and [NoFuel] a loop that its bound has cut.  Integers
    are [Z] with their wrap-around written out; physical memory is a map of bytes, and page
    tables, the free list, trap frames and what the kernel copies to user space are bytes
    of it.  Tables of structures ([proc], [bcache], [itable], [ftable]) are lists of
    records.  A state belongs to one hart at a time: another thread acts when this one
    calls [swtch], through the parameter [environment], and module [Contention] of Spinlock
    treats the interleaving of harts at one lock.

    Parameters: [image] (addresses the linker chooses), [environment] (what other threads
    and devices do while this thread is switched out), [patience] (how often a waiting loop
    is followed), [disk_driver] (the disk as the buffer cache sees it, with its laws
    [disk_laws]; VirtioSpec proves them of the driver), [block_device] (what a virtio
    disk does with the requests it finds in memory), [host] (the files and the failures of
    the machine mkfs runs on).

    A user program is an interaction tree whose events are its system calls (file User);
    a theorem about one program lets it run against arbitrary or described answers, and
    Pool runs several of them, interleaved at their calls, over shared pipes.

    ** The files

    - Prelude: integers, the monad, list lemmas.  Riscv, Memory, Bytes: riscv.h and
      memlayout.h, physical memory, little-endian words and structures in byte lists.
    - CString: string.c.  State: the structures of the kernel and the global state.
    - Spinlock: spinlock.c.  Sched, SchedSpec: scheduling, sleep, wakeup and kill of
      proc.c.  Sleeplock, SleepSpec: sleeplock.c.
    - Kalloc: kalloc.c.  Vm: vm.c; PageTable, VmSpec, Uvm, UserCopy, UvmFork, VmExamples:
      its theorems and their instances.
    - Uart, Printf, Console: uart.c, printf.c, console.c; PrintfSpec: what printf sends.
    - Virtio: virtio_disk.c; VirtioSpec: its theorem, against a model of the device.
    - Bio: bio.c; BioRing, BioSpec, BioInit: the list of buffers, the cache as a map of
      blocks, its start.
    - Log: log.c; LogDisk, LogSpec, LogTxn, LogCrash: the log on the disk, the commit, the
      calls within an operation, crashes.  LogExamples: a concrete machine.
    - Fs: fs.c; FsTxn, FsAlloc, FsFile, FsDir: a block operation within an operation of
      the log, the bitmap, the contents of files, directories.
    - Mkfs: mkfs.c; MkfsFile, MkfsSpec, MkfsKernel: appending to a file, the image of the whole
      program, what fs.c finds in it.  FsExamples: the kernel on a concrete image.
    - Pipe, PipeSpec: pipe.c.  File, Proc, Args, Exec, Sysproc, Sysfile, Syscall, Trap,
      Boot: file.c, the rest of proc.c, the argument functions of syscall.c, exec.c,
      sysproc.c, sysfile.c, the dispatcher of syscall.c, trap.c with plic.c, and start.c
      with main.c.
    - UserProc, SysprocSpec, PsSpec, TrapSpec, TrapExamples: the system calls of the
      project from the trap to the return to user space.
    - User, Ulib, Uprintf: the system calls of user programs, ulib.c and the user's
      printf.c.  Filter, Grep, Coreutils: programs that read a stream, grep.c, and the small programs.
    - Messages, Pool, Unicast: broadcast.c and unicast.c, processes that share pipes, and
      the run of unicast.
    - Sh, ShSpec, ShSyntax: sh.c, its parser's termination, and its grammar.
    - Umalloc, UmallocRing, UmallocSpec: umalloc.c and its heap.

    ** What is proved

    - strings: [memmove] copies overlapping regions, [safestrcpy] truncates and terminates;
    - locks: [push_off] and [pop_off] match, a spin lock excludes every other hart;
    - memory: the allocator refines a stack of pages, [kfree] panics exactly on pages that
      are not the allocator's, page tables map what [mappages] is asked to map, [walkaddr]
      agrees with the MMU, and growing, copying and freeing an address space and copying in
      and out of it do what they promise, on every error path;
    - scheduling: [sleep], [yield], the scheduler, [wakeup] and [kill] change exactly what
      they should, counters included;
    - system calls: [getschedhistory] and a timer interrupt from trap to return, [ps] and
      [getppid];
    - storage, each layer over the one below: the disk driver moves one block between a
      buffer and the device; the buffer cache is a map of blocks; [log_write] records a
      block of the operation, and after a crash at any point of the commit recovery finds
      all of the operation's blocks or none; [balloc] and [bfree] keep the set of
      blocks in use; [readi] gives the bytes of a file; [dirlookup] searches the list of
      entries.  mkfs makes an image that is well formed and has the files it was given;
    - pipes: [pipewrite] and [piperead] refine a bounded queue;
    - user programs: [grep] prints the lines its matcher accepts, which are those of
      the pattern's language; [wc] counts; [malloc] and [free] refine a set of disjoint
      blocks; the shell's parser is total and reads back every command that is printed
      in its grammar; [unicast] delivers its message whatever the order of its processes.

    ** Bounds

    Loops over tables run over the table.  Loops over pages and bytes have fuel computed
    from the length they work on (for example [copy_fuel], [rw_fuel], or the length of what
    is left to append or parse), and the theorems show that it suffices.  The loop of the user's
    [free] and [malloc] has the number of headers the heap can hold.  The waiting loops of
    sleep locks, pipes, the console, the log and the disk driver are bounded by
    [patience], because nothing in the code bounds them; theorems about them ask for as many
    rounds as the environment they describe needs.

    ** Not modelled

    The assembly files (the C code sees [swtch] and the trampoline through the interface
    above), ramdisk.c (not built: it uses fields that [struct buf] no longer has),
    prototypes, what mkfs prints, hosts of mkfs that are not little-endian, and the test
    programs usertests.c, grind.c, forktest.c and stressfs.c. *)

From stdpp Require Export base gmap list strings.
From Stdlib Require Export ZArith Lia.
Open Scope Z_scope.

(** ** Machine integers

    C integers are [Z] kept in range by an explicit wrap-around. *)

Definition u8 (x : Z) : Z := x mod 2 ^ 8.
Definition u16 (x : Z) : Z := x mod 2 ^ 16.
Definition u32 (x : Z) : Z := x mod 2 ^ 32.
Definition u64 (x : Z) : Z := x mod 2 ^ 64.
Definition i32 (x : Z) : Z := (x + 2 ^ 31) mod 2 ^ 32 - 2 ^ 31.
Definition i16 (x : Z) : Z := (x + 2 ^ 15) mod 2 ^ 16 - 2 ^ 15.

Declare Scope c_scope.
Delimit Scope c_scope with C.
Notation "a +u b" := (u64 (a + b)) (at level 50, left associativity) : c_scope.
Notation "a -u b" := (u64 (a - b)) (at level 50, left associativity) : c_scope.
Open Scope c_scope.

Create Rewrite HintDb cint.

Lemma u64_small x : 0 <= x < 2 ^ 64 -> u64 x = x.
Proof. apply Z.mod_small. Qed.

Lemma u64_range x : 0 <= u64 x < 2 ^ 64.
Proof. apply Z.mod_pos_bound. lia. Qed.

Lemma u32_small x : 0 <= x < 2 ^ 32 -> u32 x = x.
Proof. apply Z.mod_small. Qed.

Lemma u32_range x : 0 <= u32 x < 2 ^ 32.
Proof. apply Z.mod_pos_bound. lia. Qed.

Lemma u8_small x : 0 <= x < 256 -> u8 x = x.
Proof. apply Z.mod_small. Qed.

Lemma u8_range x : 0 <= u8 x < 256.
Proof. unfold u8. apply (Z.mod_pos_bound x 256). lia. Qed.

Lemma i32_small x : - 2 ^ 31 <= x < 2 ^ 31 -> i32 x = x.
Proof. intros. unfold i32. rewrite Z.mod_small; lia. Qed.

Lemma i32_range x : - 2 ^ 31 <= i32 x < 2 ^ 31.
Proof. unfold i32. pose proof (Z.mod_pos_bound (x + 2 ^ 31) (2 ^ 32)). lia. Qed.

#[export] Hint Rewrite u64_small u32_small u8_small i32_small using lia : cint.

(** ** Bit masks *)

Lemma land_ones_low x k : 0 <= k -> Z.land x (Z.ones k) = x mod 2 ^ k.
Proof. intros. apply Z.land_ones. done. Qed.

(** Clearing the low [k] bits rounds down to a multiple of [2^k]. *)
Lemma land_lnot_ones x k : 0 <= k -> Z.land x (Z.lnot (Z.ones k)) = x - x mod 2 ^ k.
Proof.
  intros Hk. rewrite <- Z.ldiff_land, Z.ldiff_ones_r by done.
  rewrite Z.shiftr_div_pow2, Z.shiftl_mul_pow2 by done.
  pose proof (Z.div_mod x (2 ^ k)). lia.
Qed.

(** Disjoint bit ranges: [lor] of a multiple of [2^k] with a value below [2^k]
    is their sum. *)
Lemma lor_disjoint_add a b k :
  0 <= k -> a mod 2 ^ k = 0 -> 0 <= b < 2 ^ k -> Z.lor a b = a + b.
Proof.
  intros Hk Ha Hb. symmetry. apply Z.add_nocarry_lor.
  apply Z.bits_inj'; intros n Hn; rewrite Z.land_spec, Z.bits_0.
  destruct (decide (n < k)) as [Hlt|Hge].
  - rewrite <- (Z.mod_pow2_bits_low a k n), Ha, Z.bits_0 by lia. done.
  - rewrite <- (Z.mod_small b (2 ^ k)), Z.mod_pow2_bits_high, andb_false_r by lia. done.
Qed.

(** ** Lists *)

Lemma list_alter_insert_lookup {A} (f : A -> A) (i : nat) (l : list A) x :
  l !! i = Some x -> alter f i l = <[i := f x]> l.
Proof.
  intros E. apply list_eq. intros j. destruct (decide (i = j)) as [->|Hne].
  - rewrite list_lookup_alter_eq, E. rewrite list_lookup_insert_eq by by eapply lookup_lt_Some. done.
  - by rewrite list_lookup_alter_ne, list_lookup_insert_ne.
Qed.

(** ** The kernel monad

    A C function that runs in the kernel is a function from the state to an
    outcome.  [Panic] is a call of [panic]; [Spin] is a spin-wait that no step of
    this hart can end; [Gone s] says that control left this kernel thread for good
    in state [s]; [NoFuel] says that a loop was cut by its bound. *)

Inductive result (S A : Type) : Type :=
| Ok (a : A) (s : S)
| Panic (msg : string) (s : S)
| Spin (s : S)
| Gone (s : S)
| NoFuel.
Arguments Ok {S A} a s.
Arguments Panic {S A} msg s.
Arguments Spin {S A} s.
Arguments Gone {S A} s.
Arguments NoFuel {S A}.

Definition M (S A : Type) : Type := S -> result S A.

Section monad.
Context {S : Type}.

Definition bind {A B} (m : M S A) (k : A -> M S B) : M S B := fun s =>
  match m s with
  | Ok a s' => k a s'
  | Panic msg s' => Panic msg s'
  | Spin s' => Spin s'
  | Gone s' => Gone s'
  | NoFuel => NoFuel
  end.

Definition ret {A} (a : A) : M S A := fun s => Ok a s.
Definition panic {A} (msg : string) : M S A := fun s => Panic msg s.
(** Behaviour C leaves undefined (an array access out of bounds). *)
Definition undefined {A} : M S A := panic "undefined behaviour".
Definition gets {A} (f : S -> A) : M S A := fun s => Ok (f s) s.
Definition modify (f : S -> S) : M S unit := fun s => Ok tt (f s).

(** [for(i ...) body]: no early exit. *)
Fixpoint forM {I} (l : list I) (body : I -> M S unit) : M S unit :=
  match l with
  | [] => ret tt
  | i :: l' => bind (body i) (fun _ => forM l' body)
  end.

(** [for(i ...)] whose body may leave the loop with a value. *)
Fixpoint searchM {I R} (l : list I) (body : I -> M S (option R)) : M S (option R) :=
  match l with
  | [] => ret None
  | i :: l' => bind (body i) (fun r =>
      match r with Some x => ret (Some x) | None => searchM l' body end)
  end.

(** [while] with a loop-carried value and a bound on the number of iterations;
    [inl] continues, [inr] leaves the loop. *)
Fixpoint loopM {A B} (fuel : nat) (body : A -> M S (A + B)) (a : A) : M S B :=
  match fuel with
  | O => fun _ => NoFuel
  | Datatypes.S n => bind (body a) (fun r =>
      match r with inl a' => loopM n body a' | inr b => ret b end)
  end.

(** Total correctness: the computation returns, and the result satisfies [Q]. *)
Definition wp {A} (m : M S A) (Q : A -> S -> Prop) (s : S) : Prop :=
  match m s with Ok a s' => Q a s' | _ => False end.

Lemma bind_ok {A B} (m : M S A) (k : A -> M S B) s a s' :
  m s = Ok a s' -> bind m k s = k a s'.
Proof. unfold bind. by intros ->. Qed.

Lemma bind_ret {A B} (a : A) (k : A -> M S B) s : bind (ret a) k s = k a s.
Proof. done. Qed.
Lemma bind_gets {A B} (f : S -> A) (k : A -> M S B) s : bind (gets f) k s = k (f s) s.
Proof. done. Qed.
Lemma bind_modify {B} (f : S -> S) (k : unit -> M S B) s : bind (modify f) k s = k tt (f s).
Proof. done. Qed.

Lemma bind_panic {A B} (m : M S A) (k : A -> M S B) s msg s' :
  m s = Panic msg s' -> bind m k s = Panic msg s'.
Proof. unfold bind. by intros ->. Qed.

Lemma bind_gone {A B} (m : M S A) (k : A -> M S B) s s' :
  m s = Gone s' -> bind m k s = Gone s'.
Proof. unfold bind. by intros ->. Qed.

Lemma bind_inv {A B} (m : M S A) (k : A -> M S B) s b s' :
  bind m k s = Ok b s' -> exists a s1, m s = Ok a s1 /\ k a s1 = Ok b s'.
Proof. unfold bind. destruct (m s) eqn:E; intros; try done. eauto. Qed.

Lemma bind_assoc {A B C} (m : M S A) (f : A -> M S B) (g : B -> M S C) s :
  bind (bind m f) g s = bind m (fun a => bind (f a) g) s.
Proof. unfold bind. by destruct (m s). Qed.

Lemma wp_ok {A} (m : M S A) Q s : wp m Q s <-> exists a s', m s = Ok a s' /\ Q a s'.
Proof.
  unfold wp. split; [destruct (m s); intros; try done; by eauto|].
  intros (a & s' & -> & ?). done.
Qed.

Lemma wp_eq {A} (m : M S A) Q s a s' : m s = Ok a s' -> Q a s' -> wp m Q s.
Proof. unfold wp. by intros ->. Qed.

Lemma wp_bind {A B} (m : M S A) (k : A -> M S B) Q s :
  wp m (fun a s' => wp (k a) Q s') s -> wp (bind m k) Q s.
Proof. unfold wp, bind. by destruct (m s). Qed.

Lemma wp_ret {A} (a : A) (Q : A -> S -> Prop) s : Q a s -> wp (ret a) Q s.
Proof. done. Qed.
Lemma wp_gets {A} (f : S -> A) (Q : A -> S -> Prop) s : Q (f s) s -> wp (gets f) Q s.
Proof. done. Qed.
Lemma wp_modify (f : S -> S) (Q : unit -> S -> Prop) s : Q tt (f s) -> wp (modify f) Q s.
Proof. done. Qed.

Lemma wp_mono {A} (m : M S A) (P Q : A -> S -> Prop) s :
  wp m P s -> (forall a s', P a s' -> Q a s') -> wp m Q s.
Proof. unfold wp. destruct (m s); auto. Qed.

(** A loop invariant [I done s], indexed by the part of the range already seen. *)
Lemma wp_forM {I} (l : list I) (body : I -> M S unit) (Inv : list I -> S -> Prop) s :
  Inv [] s ->
  (forall pre i post s1, l = pre ++ i :: post -> Inv pre s1 ->
     wp (body i) (fun _ s2 => Inv (pre ++ [i]) s2) s1) ->
  wp (forM l body) (fun _ s' => Inv l s') s.
Proof.
  intros H0 Hstep.
  enough (forall post pre s1, l = pre ++ post -> Inv pre s1 ->
            wp (forM post body) (fun _ s' => Inv l s') s1) as H by by apply (H l []).
  induction post as [|i post IH]; intros pre s1 Hl HI; simpl.
  - rewrite app_nil_r in Hl. by subst.
  - apply wp_bind. eapply wp_mono; [by eapply Hstep|]. intros [] s2 H2.
    eapply IH; [|done]. by rewrite <- app_assoc.
Qed.

(** A search: [Inv pre] holds when none of [pre] was what is looked for. *)
Lemma wp_searchM {I R} (l : list I) (body : I -> M S (option R)) (Inv : list I -> S -> Prop)
    (Q : option R -> S -> Prop) s :
  Inv [] s ->
  (forall pre i post s1, l = pre ++ i :: post -> Inv pre s1 ->
     wp (body i) (fun r s2 => match r with Some x => Q (Some x) s2 | None => Inv (pre ++ [i]) s2 end) s1) ->
  (forall s', Inv l s' -> Q None s') ->
  wp (searchM l body) Q s.
Proof.
  intros H0 Hstep Hend.
  enough (forall post pre s1, l = pre ++ post -> Inv pre s1 -> wp (searchM post body) Q s1) as H by by apply (H l []).
  induction post as [|i post IH]; intros pre s1 Hl HI; simpl.
  - apply wp_ret, Hend. rewrite app_nil_r in Hl. by subst.
  - apply wp_bind. eapply wp_mono; [by eapply Hstep|]. intros [x|] s2 H2; [by apply wp_ret|].
    eapply IH; [|done]. by rewrite <- app_assoc.
Qed.

End monad.

Declare Scope m_scope.
Delimit Scope m_scope with M.
Notation "x <- m ;; k" := (bind m (fun x => k))
  (at level 100, m at next level, right associativity) : m_scope.
Notation "m ;; k" := (bind m (fun _ => k)) (at level 100, right associativity) : m_scope.
Open Scope m_scope.
