(* ===== verification/Riscv.v ===== *)
(** * RISC-V definitions

    The constants and macros of [kernel/riscv.h], [kernel/memlayout.h] and
    [kernel/param.h] that the modelled code uses: supervisor status bits, the Sv39
    page-table entry format, page rounding and the physical and virtual memory
    layout, with the arithmetic facts about them. *)

From S2P Require Import Prelude.

(** ** kernel/param.h *)

Definition NPROC : nat := 64.
Definition NCPU : nat := 8.
Definition NOFILE : nat := 16.
Definition NFILE : nat := 100.
Definition NINODE : nat := 50.
Definition NDEV : Z := 10.
Definition ROOTDEV : Z := 1.
Definition MAXARG : Z := 32.
Definition MAXOPBLOCKS : Z := 10.
Definition LOGSIZE : Z := MAXOPBLOCKS * 3.
Definition NBUF : nat := 30.
Definition FSSIZE : Z := 2000.
Definition MAXPATH : Z := 128.

(** ** kernel/fs.h *)

Definition ROOTINO : Z := 1.
Definition BSIZE : Z := 1024.
Definition FSMAGIC : Z := 0x10203040.
Definition NDIRECT : Z := 12.
Definition NINDIRECT : Z := BSIZE / 4.
Definition MAXFILE : Z := NDIRECT + NINDIRECT.
Definition IPB : Z := BSIZE / 64.
Definition BPB : Z := BSIZE * 8.
Definition DIRSIZ : Z := 14.

(** ** kernel/riscv.h: sstatus *)

Definition SSTATUS_SPP : Z := Z.shiftl 1 8.
Definition SSTATUS_SPIE : Z := Z.shiftl 1 5.
Definition SSTATUS_SIE : Z := Z.shiftl 1 1.

(** ** kernel/riscv.h: pages and page-table entries *)

Definition PGSIZE : Z := 4096.
Definition PGSHIFT : Z := 12.

Definition PGROUNDUP (sz : Z) : Z := Z.land (sz +u PGSIZE -u 1) (Z.lnot (PGSIZE - 1)).
Definition PGROUNDDOWN (a : Z) : Z := Z.land a (Z.lnot (PGSIZE - 1)).

Definition PTE_V : Z := Z.shiftl 1 0.
Definition PTE_R : Z := Z.shiftl 1 1.
Definition PTE_W : Z := Z.shiftl 1 2.
Definition PTE_X : Z := Z.shiftl 1 3.
Definition PTE_U : Z := Z.shiftl 1 4.

Definition PA2PTE (pa : Z) : Z := u64 (Z.shiftl (Z.shiftr pa 12) 10).
Definition PTE2PA (pte : Z) : Z := u64 (Z.shiftl (Z.shiftr pte 10) 12).
Definition PTE_FLAGS (pte : Z) : Z := Z.land pte 0x3FF.

Definition PXMASK : Z := 0x1FF.
Definition PXSHIFT (level : Z) : Z := PGSHIFT + 9 * level.
Definition PX (level va : Z) : Z := Z.land (Z.shiftr va (PXSHIFT level)) PXMASK.

Definition MAXVA : Z := Z.shiftl 1 (9 + 9 + 9 + 12 - 1).

Definition SATP_SV39 : Z := u64 (Z.shiftl 8 60).
Definition MAKE_SATP (pagetable : Z) : Z := Z.lor SATP_SV39 (Z.shiftr pagetable 12).

(** ** kernel/memlayout.h *)

Definition UART0 : Z := 0x10000000.
Definition UART0_IRQ : Z := 10.
Definition VIRTIO0 : Z := 0x10001000.
Definition VIRTIO0_IRQ : Z := 1.
Definition CLINT : Z := 0x2000000.
Definition CLINT_MTIMECMP (hartid : Z) : Z := CLINT + 0x4000 + 8 * hartid.
Definition CLINT_MTIME : Z := CLINT + 0xBFF8.
Definition PLIC : Z := 0x0c000000.
Definition PLIC_SENABLE (hart : Z) : Z := PLIC + 0x2080 + hart * 0x100.
Definition PLIC_SPRIORITY (hart : Z) : Z := PLIC + 0x201000 + hart * 0x2000.
Definition PLIC_SCLAIM (hart : Z) : Z := PLIC + 0x201004 + hart * 0x2000.
Definition KERNBASE : Z := 0x80000000.
Definition PHYSTOP : Z := KERNBASE + 128 * 1024 * 1024.
Definition TRAMPOLINE : Z := MAXVA - PGSIZE.
Definition KSTACK (p : Z) : Z := TRAMPOLINE - (p + 1) * 2 * PGSIZE.
Definition TRAPFRAME : Z := TRAMPOLINE - PGSIZE.

(** ** Facts *)

Ltac pgconst := unfold TRAPFRAME, KSTACK, TRAMPOLINE, PHYSTOP, KERNBASE, MAXVA, PGSIZE in *;
  change (Z.shiftl 1 (9 + 9 + 9 + 12 - 1)) with 274877906944 in *.

(** A page address: page aligned and a 56-bit physical address. *)
Definition page_aligned (a : Z) : Prop := a mod PGSIZE = 0.
#[export] Instance page_aligned_dec a : Decision (page_aligned a) := decide (_ = _).

Lemma PGROUNDDOWN_spec a : PGROUNDDOWN a = a - a mod PGSIZE.
Proof.
  unfold PGROUNDDOWN, PGSIZE. change (4096 - 1) with (Z.ones 12).
  rewrite land_lnot_ones by lia. done.
Qed.

Lemma PGROUNDDOWN_aligned a : page_aligned (PGROUNDDOWN a).
Proof.
  rewrite PGROUNDDOWN_spec. unfold page_aligned, PGSIZE.
  Z.to_euclidean_division_equations. lia.
Qed.

Lemma PGROUNDDOWN_bounds a : PGROUNDDOWN a <= a < PGROUNDDOWN a + PGSIZE.
Proof.
  rewrite PGROUNDDOWN_spec. unfold PGSIZE.
  pose proof (Z.mod_pos_bound a 4096). lia.
Qed.

Lemma PGROUNDDOWN_id a : page_aligned a -> PGROUNDDOWN a = a.
Proof. unfold page_aligned. rewrite PGROUNDDOWN_spec. lia. Qed.

Lemma PGROUNDUP_spec sz :
  0 <= sz -> sz + PGSIZE <= 2 ^ 64 -> PGROUNDUP sz = (sz + PGSIZE - 1) / PGSIZE * PGSIZE.
Proof.
  intros H0 H1. unfold PGROUNDUP, PGSIZE in *.
  destruct (decide (sz + 4096 = 2 ^ 64)) as [E|E].
  - assert (sz = 2 ^ 64 - 4096) as -> by lia. vm_compute. done.
  - rewrite (u64_small (sz + 4096)), u64_small by lia.
    change (4096 - 1) with (Z.ones 12). rewrite land_lnot_ones by lia.
    Z.to_euclidean_division_equations. lia.
Qed.

Lemma PGROUNDUP_bounds sz :
  0 <= sz -> sz + PGSIZE <= 2 ^ 64 ->
  sz <= PGROUNDUP sz < sz + PGSIZE /\ page_aligned (PGROUNDUP sz).
Proof.
  intros H0 H1. rewrite PGROUNDUP_spec by done. unfold page_aligned, PGSIZE.
  rewrite Z.mod_mul by lia. split; [|done]. Z.to_euclidean_division_equations. lia.
Qed.

Lemma PGROUNDUP_id a : 0 <= a -> a + PGSIZE <= 2 ^ 64 -> page_aligned a -> PGROUNDUP a = a.
Proof.
  intros ???. rewrite PGROUNDUP_spec by done. unfold page_aligned, PGSIZE in *.
  Z.to_euclidean_division_equations. lia.
Qed.

(** A virtual address below [MAXVA] is the sum of its three 9-bit indices and its
    12-bit page offset. *)
Lemma PX_spec l va : 0 <= l -> PX l va = va / 2 ^ (12 + 9 * l) mod 512.
Proof.
  intros. unfold PX, PXMASK, PXSHIFT, PGSHIFT. change 0x1FF with (Z.ones 9).
  rewrite Z.land_ones, Z.shiftr_div_pow2 by lia. done.
Qed.

Lemma PX_range l va : 0 <= l -> 0 <= PX l va < 512.
Proof. intros. rewrite PX_spec by done. apply Z.mod_pos_bound. lia. Qed.

Lemma PX_decompose va :
  0 <= va < MAXVA ->
  va = PX 2 va * 2 ^ 30 + PX 1 va * 2 ^ 21 + PX 0 va * 2 ^ 12 + va mod PGSIZE.
Proof.
  intros H. pgconst. rewrite !PX_spec by lia. simpl (12 + _).
  change (2 ^ (12 + 9 * 2)) with 1073741824. change (2 ^ (12 + 9 * 1)) with 2097152.
  change (2 ^ (12 + 9 * 0)) with 4096.
  change (2 ^ 30) with 1073741824. change (2 ^ 21) with 2097152. change (2 ^ 12) with 4096.
  Z.to_euclidean_division_equations. lia.
Qed.

Lemma PX_inj va vb :
  0 <= va < MAXVA -> 0 <= vb < MAXVA -> page_aligned va -> page_aligned vb ->
  PX 2 va = PX 2 vb -> PX 1 va = PX 1 vb -> PX 0 va = PX 0 vb -> va = vb.
Proof.
  unfold page_aligned. intros Ha Hb Aa Ab E2 E1 E0.
  rewrite (PX_decompose va), (PX_decompose vb) by done. congruence.
Qed.

(** ** Page-table entries *)

(** A physical page address that fits a page-table entry. *)
Definition pa_ok (pa : Z) : Prop := page_aligned pa /\ 0 <= pa < 2 ^ 56.

Lemma PA2PTE_spec pa : pa_ok pa -> PA2PTE pa = pa / 4.
Proof.
  intros [Ha Hr]. unfold PA2PTE, page_aligned, PGSIZE in *.
  rewrite Z.shiftr_div_pow2, Z.shiftl_mul_pow2 by lia.
  change (2 ^ 12) with 4096. change (2 ^ 10) with 1024.
  rewrite u64_small; Z.to_euclidean_division_equations; lia.
Qed.

Lemma PA2PTE_low pa : pa_ok pa -> PA2PTE pa mod 2 ^ 10 = 0.
Proof.
  intros H. rewrite PA2PTE_spec by done. destruct H as [Ha Hr].
  unfold page_aligned, PGSIZE in *. change (2 ^ 10) with 1024.
  Z.to_euclidean_division_equations. lia.
Qed.

(** Encoding an address with flags in the low ten bits and decoding it. *)
Lemma PTE2PA_PA2PTE pa flags :
  pa_ok pa -> 0 <= flags < 2 ^ 10 -> PTE2PA (Z.lor (PA2PTE pa) flags) = pa.
Proof.
  intros H Hf. rewrite (lor_disjoint_add _ _ 10) by (try apply PA2PTE_low; lia || done).
  rewrite PA2PTE_spec by done. destruct H as [Ha Hr].
  unfold PTE2PA, page_aligned, PGSIZE in *.
  rewrite Z.shiftr_div_pow2, Z.shiftl_mul_pow2 by lia.
  change (2 ^ 12) with 4096 in *. change (2 ^ 10) with 1024 in *.
  assert ((pa / 4 + flags) / 1024 * 4096 = pa) as -> by
    (Z.to_euclidean_division_equations; lia).
  rewrite u64_small; lia.
Qed.

Lemma PTE_FLAGS_PA2PTE pa flags :
  pa_ok pa -> 0 <= flags < 2 ^ 10 -> PTE_FLAGS (Z.lor (PA2PTE pa) flags) = flags.
Proof.
  intros H Hf. rewrite (lor_disjoint_add _ _ 10) by (try apply PA2PTE_low; lia || done).
  unfold PTE_FLAGS. change 0x3FF with (Z.ones 10). rewrite Z.land_ones by lia.
  rewrite Z.add_mod, PA2PTE_low by (done || lia). rewrite Z.add_0_l, Z.mod_mod by lia.
  apply Z.mod_small. done.
Qed.
