(* ===== verification/Memory.v ===== *)
(** * Byte memory

    Physical memory as a finite map from addresses to bytes, with little-endian
    loads and stores, and the memory and string routines of [kernel/string.c]
    translated over it.  RISC-V [char] is unsigned: a byte is an integer from 0 to
    255.  Addresses are plain integers; the code never forms a pointer that wraps. *)

From S2P Require Import Prelude.

(** ** Loads and stores *)

Notation memory := (gmap Z Z).

Definition rd8 (m : memory) (a : Z) : Z := u8 (default 0 (m !! a)).
Definition wr8 (m : memory) (a v : Z) : memory := <[a := u8 v]> m.

Fixpoint rdn (n : nat) (m : memory) (a : Z) : Z :=
  match n with
  | O => 0
  | S k => rd8 m a + 256 * rdn k m (a + 1)
  end.

Fixpoint wrn (n : nat) (m : memory) (a v : Z) : memory :=
  match n with
  | O => m
  | S k => wrn k (wr8 m a v) (a + 1) (v / 256)
  end.

Definition rd64 (m : memory) (a : Z) : Z := rdn 8 m a.
Definition wr64 (m : memory) (a v : Z) : memory := wrn 8 m a v.

(** The [n] bytes at [a], as a list. *)
Fixpoint rd_bytes (n : nat) (m : memory) (a : Z) : list Z :=
  match n with
  | O => []
  | S k => rd8 m a :: rd_bytes k m (a + 1)
  end.

(** ** kernel/string.c *)

(** The loops of [memset] and of the padding in [strncpy]. *)
Fixpoint memset_loop (k : nat) (m : memory) (p c : Z) : memory :=
  match k with
  | O => m
  | S k' => memset_loop k' (wr8 m p c) (p + 1) c
  end.

Definition memset (m : memory) (dst c n : Z) : memory := memset_loop (Z.to_nat n) m dst c.

Fixpoint memcmp_loop (k : nat) (m : memory) (s1 s2 : Z) : Z :=
  match k with
  | O => 0
  | S k' => if negb (rd8 m s1 =? rd8 m s2) then rd8 m s1 - rd8 m s2
            else memcmp_loop k' m (s1 + 1) (s2 + 1)
  end.

Definition memcmp (m : memory) (v1 v2 n : Z) : Z := memcmp_loop (Z.to_nat n) m v1 v2.

Fixpoint copy_up (k : nat) (m : memory) (d s : Z) : memory :=
  match k with
  | O => m
  | S k' => copy_up k' (wr8 m d (rd8 m s)) (d + 1) (s + 1)
  end.

Fixpoint copy_down (k : nat) (m : memory) (d s : Z) : memory :=
  match k with
  | O => m
  | S k' => copy_down k' (wr8 m (d - 1) (rd8 m (s - 1))) (d - 1) (s - 1)
  end.

Definition memmove (m : memory) (dst src n : Z) : memory :=
  if n =? 0 then m
  else if (src <? dst) && (src + n >? dst)
  then copy_down (Z.to_nat n) m (dst + n) (src + n)
  else copy_up (Z.to_nat n) m dst src.

Definition memcpy (m : memory) (dst src n : Z) : memory := memmove m dst src n.

Fixpoint strncmp_loop (k : nat) (m : memory) (p q : Z) : Z :=
  match k with
  | O => 0
  | S k' => if negb (rd8 m p =? 0) && (rd8 m p =? rd8 m q)
            then strncmp_loop k' m (p + 1) (q + 1)
            else rd8 m p - rd8 m q
  end.

Definition strncmp (m : memory) (p q n : Z) : Z := strncmp_loop (Z.to_nat n) m p q.

Fixpoint strncpy_loop (k : nat) (m : memory) (s t : Z) : memory :=
  match k with
  | O => m
  | S k' => let c := rd8 m t in
            let m1 := wr8 m s c in
            if c =? 0 then memset_loop k' m1 (s + 1) 0
            else strncpy_loop k' m1 (s + 1) (t + 1)
  end.

Definition strncpy (m : memory) (s t n : Z) : memory := strncpy_loop (Z.to_nat n) m s t.

Fixpoint safestrcpy_loop (k : nat) (m : memory) (s t : Z) : memory :=
  match k with
  | O => wr8 m s 0
  | S k' => let c := rd8 m t in
            let m1 := wr8 m s c in
            if c =? 0 then wr8 m1 (s + 1) 0
            else safestrcpy_loop k' m1 (s + 1) (t + 1)
  end.

Definition safestrcpy (m : memory) (s t n : Z) : memory :=
  if n <=? 0 then m else safestrcpy_loop (Z.to_nat (n - 1)) m s t.

(** [for(n = 0; s[n]; n++)]: [None] when no NUL occurs within the fuel. *)
Fixpoint strlen_loop (fuel : nat) (m : memory) (s n : Z) : option Z :=
  match fuel with
  | O => None
  | S f => if rd8 m (s + n) =? 0 then Some n else strlen_loop f m s (n + 1)
  end.

Definition strlen (fuel : nat) (m : memory) (s : Z) : option Z := strlen_loop fuel m s 0.

(** ** Load and store lemmas *)

Create Rewrite HintDb mem.

Lemma rd8_range m a : 0 <= rd8 m a < 256.
Proof. apply u8_range. Qed.

Lemma rd8_wr8 m a v b : rd8 (wr8 m a v) b = if decide (a = b) then u8 v else rd8 m b.
Proof.
  unfold rd8, wr8. rewrite lookup_insert. case_decide; [|done]. simpl.
  unfold u8. by rewrite Z.mod_mod.
Qed.

Lemma rd8_wr8_eq m a v : rd8 (wr8 m a v) a = u8 v.
Proof. rewrite rd8_wr8. by case_decide. Qed.

Lemma rd8_wr8_ne m a v b : a <> b -> rd8 (wr8 m a v) b = rd8 m b.
Proof. intros. rewrite rd8_wr8. by case_decide. Qed.

Lemma u8_rd8 m a : u8 (rd8 m a) = rd8 m a.
Proof. apply u8_small, rd8_range. Qed.

#[export] Hint Rewrite rd8_wr8_eq u8_rd8 : mem.
#[export] Hint Rewrite rd8_wr8_ne using lia : mem.

Lemma rdn_range n m a : 0 <= rdn n m a < 256 ^ Z.of_nat n.
Proof.
  revert a. induction n as [|n IH]; intros a; [simpl; lia|].
  rewrite Nat2Z.inj_succ, Z.pow_succ_r by lia. simpl.
  pose proof (rd8_range m a). pose proof (IH (a + 1)). lia.
Qed.

Lemma rd64_range m a : 0 <= rd64 m a < 2 ^ 64.
Proof. apply (rdn_range 8). Qed.

Lemma rdn_ext n m m' a :
  (forall i, 0 <= i < Z.of_nat n -> rd8 m (a + i) = rd8 m' (a + i)) ->
  rdn n m a = rdn n m' a.
Proof.
  revert a. induction n as [|n IH]; intros a H; [done|]. simpl.
  rewrite <- (Z.add_0_r a) at 1 3. rewrite H by lia. do 2 f_equal.
  apply IH. intros i Hi. rewrite <- Z.add_assoc. apply H. lia.
Qed.

Lemma rd_bytes_ext n m m' a :
  (forall i, 0 <= i < Z.of_nat n -> rd8 m (a + i) = rd8 m' (a + i)) ->
  rd_bytes n m a = rd_bytes n m' a.
Proof.
  revert a. induction n as [|n IH]; intros a H; [done|]. simpl.
  rewrite <- (Z.add_0_r a) at 1 3. rewrite H by lia. f_equal.
  apply IH. intros i Hi. rewrite <- Z.add_assoc. apply H. lia.
Qed.

Lemma length_rd_bytes n m a : length (rd_bytes n m a) = n.
Proof. revert a. induction n; intros; simpl; auto. Qed.

Lemma rd_bytes_lookup n m a (i : nat) :
  (i < n)%nat -> rd_bytes n m a !! i = Some (rd8 m (a + Z.of_nat i)).
Proof.
  revert a i. induction n as [|n IH]; intros a i Hi; [lia|].
  destruct i as [|i]; simpl; [by rewrite Z.add_0_r|].
  rewrite IH by lia. do 2 f_equal. lia.
Qed.

Lemma rd_bytes_app n k m a :
  rd_bytes (n + k) m a = rd_bytes n m a ++ rd_bytes k m (a + Z.of_nat n).
Proof.
  revert a. induction n as [|n IH]; intros a; simpl; [by rewrite Z.add_0_r|].
  rewrite IH. do 3 f_equal. lia.
Qed.

Lemma rd8_wrn_ne n m a v b :
  b < a \/ a + Z.of_nat n <= b -> rd8 (wrn n m a v) b = rd8 m b.
Proof.
  revert m a v. induction n as [|n IH]; intros m a v H; [done|]. simpl.
  rewrite IH by lia. autorewrite with mem. done.
Qed.

Lemma rdn_wrn n m a v : rdn n (wrn n m a v) a = v mod 256 ^ Z.of_nat n.
Proof.
  revert m a v. induction n as [|n IH]; intros m a v; [by rewrite Z.mod_1_r|].
  cbn [rdn wrn]. rewrite IH, rd8_wrn_ne by lia. autorewrite with mem.
  rewrite Nat2Z.inj_succ, Z.pow_succ_r by lia.
  unfold u8. change (2 ^ 8) with 256. rewrite Z.rem_mul_r by lia. done.
Qed.

Lemma rd64_wr64 m a v : 0 <= v < 2 ^ 64 -> rd64 (wr64 m a v) a = v.
Proof. intros. unfold rd64, wr64. rewrite rdn_wrn. by apply Z.mod_small. Qed.

Lemma rd64_wr64_ne m a v b :
  b + 8 <= a \/ a + 8 <= b -> rd64 (wr64 m a v) b = rd64 m b.
Proof. intros. apply rdn_ext. intros i Hi. apply rd8_wrn_ne. lia. Qed.

Lemma rd64_ext m m' a :
  (forall i, 0 <= i < 8 -> rd8 m (a + i) = rd8 m' (a + i)) -> rd64 m a = rd64 m' a.
Proof. apply (rdn_ext 8). Qed.

(** ** memset and memmove *)

Lemma rd8_memset_loop k m p c a :
  rd8 (memset_loop k m p c) a =
    if decide (p <= a < p + Z.of_nat k) then u8 c else rd8 m a.
Proof.
  revert m p. induction k as [|k IH]; intros m p; simpl.
  - case_decide; [lia|done].
  - rewrite IH, rd8_wr8. repeat case_decide; try lia; done.
Qed.

Lemma rd8_memset m p c n a :
  0 <= n -> rd8 (memset m p c n) a = if decide (p <= a < p + n) then u8 c else rd8 m a.
Proof. intros. unfold memset. rewrite rd8_memset_loop, Z2Nat.id by done. done. Qed.

(** Copying upwards is right when the source does not start below the
    destination inside it; copying downwards when it does not start above. *)
Lemma rd8_copy_up k m d s a :
  d <= s \/ s + Z.of_nat k <= d ->
  rd8 (copy_up k m d s) a =
    if decide (d <= a < d + Z.of_nat k) then rd8 m (s + (a - d)) else rd8 m a.
Proof.
  revert m d s. induction k as [|k IH]; intros m d s H; simpl.
  - case_decide; [lia|done].
  - rewrite IH by lia. rewrite !rd8_wr8, u8_rd8.
    repeat case_decide; try lia; f_equal; lia.
Qed.

Lemma rd8_copy_down k m d s a :
  s <= d \/ d <= s - Z.of_nat k ->
  rd8 (copy_down k m d s) a =
    if decide (d - Z.of_nat k <= a < d) then rd8 m (s + (a - d)) else rd8 m a.
Proof.
  revert m d s. induction k as [|k IH]; intros m d s H; simpl.
  - case_decide; [lia|done].
  - rewrite IH by lia. rewrite !rd8_wr8, u8_rd8.
    repeat case_decide; try lia; f_equal; lia.
Qed.

Lemma rd8_memmove m dst src n a :
  0 <= n ->
  rd8 (memmove m dst src n) a =
    if decide (dst <= a < dst + n) then rd8 m (src + (a - dst)) else rd8 m a.
Proof.
  intros Hn. unfold memmove. destruct (Z.eqb_spec n 0) as [->|Hn0].
  { case_decide; [lia|done]. }
  destruct ((src <? dst) && (src + n >? dst)) eqn:E.
  - rewrite rd8_copy_down by lia.
    repeat case_decide; try lia; f_equal; lia.
  - rewrite rd8_copy_up by lia.
    repeat case_decide; try lia; f_equal; lia.
Qed.

Lemma rd8_wr64_ne m a v b : ~ a <= b < a + 8 -> rd8 (wr64 m a v) b = rd8 m b.
Proof. intros Hb. apply rd8_wrn_ne. lia. Qed.

Lemma rd8_wrn_zero n m a j : 0 <= j < Z.of_nat n -> rd8 (wrn n m a 0) (a + j) = 0.
Proof.
  revert m a j. induction n as [|n IH]; intros m a j Hj; [lia|]. cbn [wrn]. change (0 / 256) with 0.
  destruct (decide (j = 0)) as [->|Hne].
  - rewrite Z.add_0_r, rd8_wrn_ne by lia. by autorewrite with mem.
  - replace (a + j) with (a + 1 + (j - 1)) by lia. apply IH. lia.
Qed.

Lemma rd8_wr64_zero m a j : 0 <= j < 8 -> rd8 (wr64 m a 0) (a + j) = 0.
Proof. apply (rd8_wrn_zero 8). Qed.

(** Storing the bytes of an object that lives outside page memory. *)
Fixpoint wr_bytes (m : memory) (a : Z) (l : list Z) : memory :=
  match l with [] => m | b :: l' => wr_bytes (wr8 m a b) (a + 1) l' end.

Lemma rd8_wr_bytes m a l b :
  rd8 (wr_bytes m a l) b =
    if decide (a <= b < a + Z.of_nat (length l))
    then u8 (default 0 (l !! Z.to_nat (b - a))) else rd8 m b.
Proof.
  revert m a. induction l as [|x l IH]; intros m a; simpl.
  - rewrite decide_False by lia. done.
  - rewrite IH. destruct (decide (a + 1 <= b < _)) as [Hi|Hi].
    + rewrite decide_True by lia.
      replace (Z.to_nat (b - a)) with (S (Z.to_nat (b - (a + 1)))) by lia. done.
    + destruct (decide (b = a)) as [->|Hne].
      * rewrite decide_True by lia. rewrite rd8_wr8_eq. by rewrite Z.sub_diag.
      * rewrite rd8_wr8_ne by done. rewrite decide_False by lia. done.
Qed.

Lemma wr_bytes_app m a l1 l2 :
  wr_bytes m a (l1 ++ l2) = wr_bytes (wr_bytes m a l1) (a + Z.of_nat (length l1)) l2.
Proof.
  revert m a. induction l1 as [|x l1 IH]; intros m a; simpl; [by rewrite Z.add_0_r|].
  rewrite IH. f_equal. lia.
Qed.

#[global] Opaque memset memmove rd64 wr64.
