(* ===== verification/CString.v ===== *)
(** * C strings: what [kernel/string.c] promises

    The routines of [kernel/string.c], translated in [Memory], meet specifications
    stated on lists of bytes.  [on_arrays] runs a routine on two separate C arrays
    that are fields of kernel structures (such as [p->name]). *)

From S2P Require Import Prelude Memory.

#[local] Transparent memmove.

(** The C string at [a] is [l]: no byte of [l] is NUL, and a NUL follows it. *)
Definition cstring (m : memory) (a : Z) (l : list Z) : Prop :=
  rd_bytes (length l) m a = l /\ Forall (fun c => c <> 0) l /\ rd8 m (a + Z.of_nat (length l)) = 0.

(** Write a list of bytes at [a]. *)
Fixpoint blit (m : memory) (a : Z) (l : list Z) : memory :=
  match l with
  | [] => m
  | c :: l' => blit (wr8 m a c) (a + 1) l'
  end.

(** A routine on a destination array and a source array that do not overlap. *)
Definition src_base : Z := 2 ^ 32.
Definition on_arrays (f : memory -> Z -> Z -> memory) (dst src : list Z) : list Z :=
  rd_bytes (length dst) (f (blit (blit ∅ 0 dst) src_base src) 0 src_base) 0.

(** [strncpy(dst, src, n)] and [safestrcpy(dst, src, n)] on separate arrays. *)
Definition strncpy_arr (dst src : list Z) (n : Z) : list Z :=
  on_arrays (fun m s t => strncpy m s t n) dst src.
Definition safestrcpy_arr (dst src : list Z) (n : Z) : list Z :=
  on_arrays (fun m s t => safestrcpy m s t n) dst src.

(** A string literal as an array with its terminating NUL. *)
Definition literal (s : string) : list Z :=
  map (fun c => Z.of_N (Ascii.N_of_ascii c)) (String.list_ascii_of_string s) ++ [0].

(** ** C strings in memory *)

Lemma cstring_cons m a c l :
  cstring m a (c :: l) <-> rd8 m a = c /\ c <> 0 /\ cstring m (a + 1) l.
Proof.
  unfold cstring. simpl. rewrite Forall_cons.
  replace (a + Z.of_nat (S (length l))) with (a + 1 + Z.of_nat (length l)) by lia.
  naive_solver congruence.
Qed.

Lemma cstring_nil m a : cstring m a [] <-> rd8 m a = 0.
Proof. unfold cstring. simpl. rewrite Z.add_0_r. naive_solver. Qed.

Lemma cstring_bytes m a l : cstring m a l -> Forall (fun c => 0 < c < 256) l.
Proof.
  revert a. induction l as [|c l IH]; intros a H; [constructor|].
  apply cstring_cons in H as (<- & Hne & H).
  constructor; [pose proof (rd8_range m a); lia|]. by eapply IH.
Qed.

(** Writing outside the string and its NUL keeps it. *)
Lemma cstring_ext m m' a l :
  (forall i, 0 <= i <= Z.of_nat (length l) -> rd8 m' (a + i) = rd8 m (a + i)) ->
  cstring m a l -> cstring m' a l.
Proof.
  intros H (H1 & H2 & H3). split; [|split; [done|]].
  - rewrite <- H1 at 2. apply rd_bytes_ext. intros. apply H. lia.
  - rewrite H by lia. done.
Qed.

Lemma rd8_blit m a l b :
  rd8 (blit m a l) b =
    if decide (a <= b < a + Z.of_nat (length l))
    then u8 (nth (Z.to_nat (b - a)) l 0) else rd8 m b.
Proof.
  revert m a. induction l as [|c l IH]; intros m a; simpl.
  - case_decide; [lia|done].
  - rewrite IH, rd8_wr8. repeat case_decide; try lia; try done.
    + replace (Z.to_nat (b - a)) with (S (Z.to_nat (b - (a + 1)))) by lia. done.
    + subst. by replace (Z.to_nat (b - b)) with 0%nat by lia.
Qed.

(** ** strlen, memcmp and strncmp *)

Lemma strlen_loop_spec m s l n fuel :
  cstring m (s + n) l -> (length l < fuel)%nat ->
  strlen_loop fuel m s n = Some (n + Z.of_nat (length l)).
Proof.
  revert n fuel. induction l as [|c l IH]; intros n fuel H Hf;
    (destruct fuel as [|fuel]; [simpl in Hf; lia|]); cbn [strlen_loop].
  - apply cstring_nil in H. rewrite H. simpl. f_equal. lia.
  - apply cstring_cons in H as (-> & Hne & H). rewrite (proj2 (Z.eqb_neq c 0)) by done.
    rewrite IH; [simpl; f_equal; lia| |simpl in Hf; lia].
    by rewrite Z.add_assoc.
Qed.

Lemma strlen_spec m s l fuel :
  cstring m s l -> (length l < fuel)%nat -> strlen fuel m s = Some (Z.of_nat (length l)).
Proof.
  intros. unfold strlen. erewrite strlen_loop_spec; [done| |done]. by rewrite Z.add_0_r.
Qed.

Lemma memcmp_loop_zero k m p q :
  memcmp_loop k m p q = 0 <-> rd_bytes k m p = rd_bytes k m q.
Proof.
  revert p q. induction k as [|k IH]; intros p q; simpl; [done|].
  destruct (Z.eqb_spec (rd8 m p) (rd8 m q)) as [E|E]; simpl.
  - rewrite IH, E. split; [by intros ->|by intros [= ->]].
  - split; [lia|]. intros [=]. done.
Qed.

Lemma strncmp_loop_zero k m p q l1 l2 :
  cstring m p l1 -> cstring m q l2 ->
  strncmp_loop k m p q = 0 <-> take k l1 = take k l2.
Proof.
  revert p q l1 l2. induction k as [|k IH]; intros p q l1 l2 H1 H2; simpl; [done|].
  destruct l1 as [|c1 l1], l2 as [|c2 l2]; rewrite ?cstring_nil, ?cstring_cons in *.
  - rewrite H1, H2. done.
  - destruct H2 as (H2 & Hne & _). rewrite H1, H2. simpl. split; [lia|done].
  - destruct H1 as (H1 & Hne & _). rewrite H1, H2.
    rewrite (proj2 (Z.eqb_neq c1 0)) by done. simpl. split; [lia|done].
  - destruct H1 as (-> & Hne1 & H1), H2 as (-> & Hne2 & H2).
    rewrite (proj2 (Z.eqb_neq c1 0)) by done. simpl.
    destruct (Z.eqb_spec c1 c2) as [->|E].
    + rewrite IH by done. split; [by intros ->|by intros [= ->]].
    + split; [lia|]. intros [=]. done.
Qed.

(** ** strncpy and safestrcpy *)

Lemma rd8_strncpy_loop_out k m s t a :
  a < s \/ s + Z.of_nat k <= a -> rd8 (strncpy_loop k m s t) a = rd8 m a.
Proof.
  revert m s t. induction k as [|k IH]; intros m s t H; [done|]. cbn [strncpy_loop].
  destruct (rd8 m t =? 0).
  - rewrite rd8_memset_loop. case_decide; [lia|]. autorewrite with mem. done.
  - rewrite IH by lia. autorewrite with mem. done.
Qed.

Lemma rd_bytes_zeros k m p : rd_bytes k (memset_loop k m p 0) p = replicate k 0.
Proof.
  apply list_eq_same_length with k; [by rewrite length_replicate|by rewrite length_rd_bytes|].
  intros i x y Hi Hx Hy. rewrite rd_bytes_lookup, rd8_memset_loop in Hx by done.
  rewrite lookup_replicate_2 in Hy by done.
  case_decide; [|lia]. inversion Hx; inversion Hy. done.
Qed.

Lemma strncpy_loop_spec k m s t l :
  cstring m t l -> s + Z.of_nat k <= t \/ t + Z.of_nat (length l) < s ->
  rd_bytes k (strncpy_loop k m s t) s = take k (l ++ replicate k 0).
Proof.
  revert m s t l. induction k as [|k IH]; intros m s t l H Hd; [done|].
  cbn [strncpy_loop rd_bytes]. destruct l as [|c l].
  - apply cstring_nil in H. rewrite H. simpl.
    rewrite rd8_memset_loop. case_decide; [lia|]. autorewrite with mem.
    rewrite rd_bytes_zeros. f_equal. symmetry. by apply firstn_all2; rewrite length_replicate.
  - pose proof H as Hc. apply cstring_cons in H as (Ht & Hne & H). rewrite Ht.
    rewrite (proj2 (Z.eqb_neq c 0)) by done. cbn [length app take] in *.
    rewrite rd8_strncpy_loop_out by lia. autorewrite with mem.
    f_equal; [apply u8_small; apply cstring_bytes in Hc; by inversion Hc; lia|].
    rewrite IH with (l := l).
    + rewrite !take_app. f_equal. rewrite !take_replicate. f_equal. lia.
    + eapply cstring_ext; [|exact H]. intros i Hi. autorewrite with mem. done.
    + lia.
Qed.

Lemma rd8_safestrcpy_loop_out k m s t a :
  a < s \/ s + Z.of_nat k < a -> rd8 (safestrcpy_loop k m s t) a = rd8 m a.
Proof.
  revert m s t. induction k as [|k IH]; intros m s t H; cbn [safestrcpy_loop].
  - autorewrite with mem. done.
  - destruct (rd8 m t =? 0); [by autorewrite with mem|].
    rewrite IH by lia. autorewrite with mem. done.
Qed.

Lemma safestrcpy_loop_spec k m s t l :
  cstring m t l -> s + Z.of_nat k < t \/ t + Z.of_nat (length l) < s ->
  cstring (safestrcpy_loop k m s t) s (take k l).
Proof.
  revert m s t l. induction k as [|k IH]; intros m s t l H Hd; cbn [safestrcpy_loop].
  - apply cstring_nil. autorewrite with mem. done.
  - destruct l as [|c l]; cbn [take length] in *.
    + apply cstring_nil in H. rewrite H. apply cstring_nil. simpl.
      by autorewrite with mem.
    + pose proof H as Hc. apply cstring_cons in H as (Ht & Hne & H). rewrite Ht.
      rewrite (proj2 (Z.eqb_neq c 0)) by done. apply cstring_cons. split; [|split; [done|]].
      * rewrite rd8_safestrcpy_loop_out by lia. autorewrite with mem.
        apply u8_small. apply cstring_bytes in Hc. inversion Hc; lia.
      * apply IH; [|lia]. eapply cstring_ext; [|exact H].
        intros i Hi. autorewrite with mem. done.
Qed.

(** Arrays passed through [on_arrays]. *)
Lemma blit_src dst src i :
  Z.of_nat (length dst) <= src_base -> 0 <= i ->
  rd8 (blit (blit ∅ 0 dst) src_base src) (src_base + i) = u8 (nth (Z.to_nat i) src 0).
Proof.
  intros Hd Hi. rewrite rd8_blit. case_decide as H.
  - by replace (src_base + i - src_base) with i by lia.
  - rewrite rd8_blit. case_decide; [lia|]. rewrite nth_overflow by lia. done.
Qed.

(** [l] is a C string held by the array [src]. *)
Definition arr_cstring (src l : list Z) : Prop :=
  exists rest, src = l ++ 0 :: rest /\ Forall (fun c => 0 < c < 256) l.

Lemma blit_cstring dst src l :
  Z.of_nat (length dst) <= src_base -> arr_cstring src l ->
  cstring (blit (blit ∅ 0 dst) src_base src) src_base l.
Proof.
  intros Hd (rest & -> & Hl).
  set (m := blit (blit ∅ 0 dst) src_base (l ++ 0 :: rest)).
  assert (forall i : nat, rd8 m (src_base + Z.of_nat i) = u8 (nth i (l ++ 0 :: rest) 0)) as Hm.
  { intros i. unfold m. rewrite blit_src by lia. by rewrite Nat2Z.id. }
  split; [|split].
  - apply list_eq_same_length with (length l); [done|by rewrite length_rd_bytes|].
    intros i x y Hi Hx Hy. rewrite rd_bytes_lookup, Hm in Hx by done.
    rewrite app_nth1 in Hx by done. inversion Hx; subst x.
    rewrite (nth_lookup_Some l i 0 y) by done.
    apply u8_small. rewrite Forall_lookup in Hl. specialize (Hl i y Hy). lia.
  - eapply Forall_impl; [exact Hl|]. simpl. lia.
  - rewrite Hm, app_nth2, Nat.sub_diag by lia. done.
Qed.

Lemma strncpy_arr_spec dst src l n :
  arr_cstring src l -> 0 <= n -> Z.of_nat (length dst) = n -> n <= src_base ->
  strncpy_arr dst src n = take (Z.to_nat n) (l ++ replicate (Z.to_nat n) 0).
Proof.
  intros Hs Hn Hd Hb. unfold strncpy_arr, on_arrays, strncpy.
  replace (length dst) with (Z.to_nat n) at 1 by lia.
  apply strncpy_loop_spec; [apply blit_cstring; [lia|done]|]. rewrite Z2Nat.id by lia. lia.
Qed.

(** ** Properties *)

(** [memmove] copies exactly the [n] source bytes as they were before the
    call, whatever the overlap of the two ranges, and writes nothing else. *)
Theorem memmove_correct m dst src n :
  0 <= n ->
  rd_bytes (Z.to_nat n) (memmove m dst src n) dst = rd_bytes (Z.to_nat n) m src /\
  (forall a, a < dst \/ dst + n <= a -> rd8 (memmove m dst src n) a = rd8 m a).
Proof.
  intros Hn. split.
  - apply list_eq_same_length with (Z.to_nat n); [by rewrite !length_rd_bytes..|].
    intros i x y Hi. rewrite !rd_bytes_lookup, rd8_memmove by lia.
    case_decide; [|lia]. replace (src + (dst + Z.of_nat i - dst)) with (src + Z.of_nat i) by lia.
    congruence.
  - intros a Ha. rewrite rd8_memmove by done. case_decide; [lia|done].
Qed.

Lemma memmove_correct_witness :
  rd_bytes 3 (memmove (blit ∅ 10 [1; 2; 3; 4]) 11 10 3) 11 = [1; 2; 3].
Proof. exact (proj1 (memmove_correct (blit ∅ 10 [1; 2; 3; 4]) 11 10 3 ltac:(lia))). Defined.

(** C37: [safestrcpy] always leaves a NUL-terminated string in the destination: the
    source string cut to [n-1] characters; it writes only the [n] bytes it was given. *)
Theorem safestrcpy_correct m s t n l :
  0 < n -> cstring m t l -> s + n <= t \/ t + Z.of_nat (length l) < s ->
  cstring (safestrcpy m s t n) s (take (Z.to_nat (n - 1)) l) /\
  (forall a, a < s \/ s + n <= a -> rd8 (safestrcpy m s t n) a = rd8 m a).
Proof.
  intros Hn Hl Hd. unfold safestrcpy. rewrite (proj2 (Z.leb_gt n 0)) by done. split.
  - apply safestrcpy_loop_spec; [done|]. lia.
  - intros a Ha. apply rd8_safestrcpy_loop_out. lia.
Qed.

Lemma safestrcpy_correct_witness :
  cstring (safestrcpy (blit ∅ 100 [105; 110; 105; 116; 0]) 0 100 4) 0 [105; 110; 105].
Proof.
  refine (proj1 (safestrcpy_correct (blit ∅ 100 [105; 110; 105; 116; 0]) 0 100 4
    [105; 110; 105; 116] ltac:(lia) _ ltac:(simpl; lia))).
  split; [by vm_compute|]. split; [repeat constructor; lia|by vm_compute].
Defined.
