(* ===== verification/Bytes.v ===== *)
(** * Blocks of bytes

    The contents of a disk block as a list of bytes, and the integers and arrays the file
    system keeps in it (little-endian, as the hardware stores them). *)

From S2P Require Import Prelude.

(** The value of a little-endian byte string, and the [n] bytes of a value. *)
Fixpoint le (l : list Z) : Z :=
  match l with [] => 0 | b :: l => b + 256 * le l end.
Fixpoint unle (n : nat) (v : Z) : list Z :=
  match n with O => [] | S n => v mod 256 :: unle n (v / 256) end.

(** [n] bytes from [off]; and [l] with [bs] written at [off]. *)
Definition slice (off n : Z) (l : list Z) : list Z := take (Z.to_nat n) (drop (Z.to_nat off) l).
Definition patch (l : list Z) (off : Z) (bs : list Z) : list Z :=
  take (Z.to_nat off) l ++ bs ++ drop (Z.to_nat off + length bs) l.

Definition get8 (l : list Z) (off : Z) : Z := le (slice off 1 l).
Definition get16 (l : list Z) (off : Z) : Z := le (slice off 2 l).
Definition get32 (l : list Z) (off : Z) : Z := le (slice off 4 l).
Definition get64 (l : list Z) (off : Z) : Z := le (slice off 8 l).
Definition set8 (l : list Z) (off v : Z) : list Z := patch l off (unle 1 v).
Definition set16 (l : list Z) (off v : Z) : list Z := patch l off (unle 2 v).
Definition set32 (l : list Z) (off v : Z) : list Z := patch l off (unle 4 v).

Lemma unle_length n v : length (unle n v) = n.
Proof. revert v. induction n; intros; simpl; [done|]. by rewrite IHn. Qed.

Lemma le_unle n v : le (unle n v) = v mod 256 ^ Z.of_nat n.
Proof.
  revert v. induction n as [|n IH]; intros v; simpl.
  - by rewrite Z.mod_1_r.
  - rewrite IH. replace (Z.of_nat (S n)) with (1 + Z.of_nat n) by lia.
    rewrite Z.pow_add_r, Z.pow_1_r by lia. rewrite Z.rem_mul_r by lia. lia.
Qed.

Lemma unle_bytes n v : Forall (fun b => 0 <= b < 256) (unle n v).
Proof.
  revert v. induction n; intros; simpl; constructor; [|done].
  apply Z.mod_pos_bound. lia.
Qed.

Lemma patch_length l off bs :
  0 <= off -> (Z.to_nat off + length bs <= length l)%nat -> length (patch l off bs) = length l.
Proof. intros. unfold patch. rewrite !length_app, length_take, length_drop. lia. Qed.

Lemma slice_patch_same l off bs :
  0 <= off -> (Z.to_nat off + length bs <= length l)%nat ->
  slice off (Z.of_nat (length bs)) (patch l off bs) = bs.
Proof.
  intros. unfold slice, patch. rewrite Nat2Z.id.
  rewrite drop_app_length' by (rewrite length_take; lia).
  by rewrite take_app_length.
Qed.

Lemma slice_patch_ne l off bs off' n :
  0 <= off -> 0 <= off' -> 0 <= n -> (Z.to_nat off + length bs <= length l)%nat ->
  off' + n <= off \/ off + Z.of_nat (length bs) <= off' ->
  slice off' n (patch l off bs) = slice off' n l.
Proof.
  intros. unfold slice, patch. apply list_eq. intros i.
  destruct (decide (i < Z.to_nat n)%nat);
    [|rewrite !lookup_take_ge by lia; done].
  rewrite !lookup_take_lt, !lookup_drop by lia.
  destruct (decide (Z.to_nat off' + i < Z.to_nat off)%nat).
  - rewrite lookup_app_l by (rewrite length_take; lia). by rewrite lookup_take_lt by lia.
  - rewrite lookup_app_r by (rewrite length_take; lia). rewrite length_take.
    rewrite lookup_app_r by lia. rewrite lookup_drop. f_equal. lia.
Qed.

Lemma get32_set32 l off v :
  0 <= off -> off + 4 <= Z.of_nat (length l) -> get32 (set32 l off v) off = u32 v.
Proof.
  intros. unfold get32, set32.
  pose proof (slice_patch_same l off (unle 4 v)) as Hs. rewrite unle_length in Hs.
  change (Z.of_nat 4) with 4 in Hs. rewrite Hs by lia. apply (le_unle 4).
Qed.

Lemma get32_set32_ne l off off' v :
  0 <= off -> 0 <= off' -> off + 4 <= Z.of_nat (length l) -> off' + 4 <= off \/ off + 4 <= off' ->
  get32 (set32 l off v) off' = get32 l off'.
Proof.
  intros. unfold get32, set32. f_equal.
  apply slice_patch_ne; rewrite ?unle_length; lia.
Qed.

Lemma set32_length l off v :
  0 <= off -> off + 4 <= Z.of_nat (length l) -> length (set32 l off v) = length l.
Proof. intros. apply patch_length; rewrite ?unle_length; lia. Qed.

(** ** Slices *)

Lemma slice_length off n l :
  0 <= off -> 0 <= n -> off + n <= Z.of_nat (length l) -> length (slice off n l) = Z.to_nat n.
Proof. intros. unfold slice. rewrite length_take, length_drop. lia. Qed.

Lemma slice_slice a n b m l :
  0 <= a -> 0 <= n -> 0 <= b -> a + n <= m -> slice a n (slice b m l) = slice (b + a) n l.
Proof.
  intros. unfold slice. apply list_eq. intros i. destruct (decide (i < Z.to_nat n)%nat).
  - rewrite !lookup_take_lt, !lookup_drop, lookup_take_lt, lookup_drop by lia. f_equal. lia.
  - by rewrite !lookup_take_ge by lia.
Qed.

Lemma slice_lookup off n l (i : nat) :
  Z.of_nat i < n -> slice off n l !! i = l !! (Z.to_nat off + i)%nat.
Proof. intros. unfold slice. by rewrite lookup_take_lt, lookup_drop by lia. Qed.

(** Bytes stay bytes. *)
Definition byte (b : Z) : Prop := 0 <= b < 256.

Lemma patch_bytes l off bs : Forall byte l -> Forall byte bs -> Forall byte (patch l off bs).
Proof.
  intros. unfold patch. rewrite !Forall_app. split; [by apply Forall_take|]. split; [done|by apply Forall_drop].
Qed.

Lemma map_u8_bytes l : Forall byte l -> map u8 l = l.
Proof. induction 1 as [|b l Hb _ IH]; [done|]. cbn [map]. by rewrite IH, u8_small. Qed.
