(* ===== verification/State.v ===== *)
(** * Kernel state

    The C structures of [kernel/spinlock.h], [sleeplock.h], [proc.h], [file.h],
    [fs.h] and [buf.h] as records with their fields, and the state of the whole
    kernel as one record.  A pointer into a static table is the index of the entry
    ([option nat] when it may be null); an address that is only compared (a sleep
    channel, a lock) is a constructor that names the object it points to. *)

From S2P Require Import Prelude Riscv Memory.

(** Addresses of the kernel image, fixed by the linker script. *)
Class image := Image {
  end_ : Z;          (* first address after the kernel *)
  etext : Z;         (* end of kernel text *)
  trampoline : Z;    (* the trampoline page *)
  uservec : Z;
  userret : Z;
  usertrap_pc : Z;
  kernelvec_pc : Z;
  forkret_pc : Z;
}.

(** ** Locks and sleep channels *)

(** The spin locks of the kernel: one constructor per lock variable or field. *)
Inductive lockref : Type :=
| L_kmem | L_pid | L_wait | L_tick | L_bcache | L_log | L_itable | L_ftable
| L_cons | L_uart | L_pr | L_vdisk
| L_proc (i : nat)      (* proc[i].lock *)
| L_buf (i : nat)       (* bcache.buf[i].lock.lk *)
| L_inode (i : nat)     (* itable.inode[i].lock.lk *)
| L_pipe (pa : Z).      (* the pipe in the page at [pa] *)

#[export] Instance lockref_eq_dec : EqDecision lockref.
Proof. solve_decision. Defined.

Definition lock_code (l : lockref) : nat * Z :=
  match l with
  | L_kmem => (0%nat, 0) | L_pid => (0%nat, 1) | L_wait => (0%nat, 2) | L_tick => (0%nat, 3)
  | L_bcache => (0%nat, 4) | L_log => (0%nat, 5) | L_itable => (0%nat, 6)
  | L_ftable => (0%nat, 7) | L_cons => (0%nat, 8) | L_uart => (0%nat, 9)
  | L_pr => (0%nat, 10) | L_vdisk => (0%nat, 11)
  | L_proc i => (1%nat, Z.of_nat i) | L_buf i => (2%nat, Z.of_nat i)
  | L_inode i => (3%nat, Z.of_nat i) | L_pipe p => (4%nat, p)
  end.

Definition lock_decode (c : nat * Z) : option lockref :=
  match c with
  | (O, 0) => Some L_kmem | (O, 1) => Some L_pid | (O, 2) => Some L_wait
  | (O, 3) => Some L_tick | (O, 4) => Some L_bcache | (O, 5) => Some L_log
  | (O, 6) => Some L_itable | (O, 7) => Some L_ftable | (O, 8) => Some L_cons
  | (O, 9) => Some L_uart | (O, 10) => Some L_pr | (O, 11) => Some L_vdisk
  | (1%nat, i) => Some (L_proc (Z.to_nat i)) | (2%nat, i) => Some (L_buf (Z.to_nat i))
  | (3%nat, i) => Some (L_inode (Z.to_nat i)) | (4%nat, p) => Some (L_pipe p)
  | _ => None
  end.

#[export] Instance lockref_countable : Countable lockref.
Proof.
  apply (inj_countable lock_code lock_decode).
  intros []; simpl; by rewrite ?Nat2Z.id.
Defined.

(** Addresses used as sleep channels; [Ch_null] is 0. *)
Inductive chan : Type :=
| Ch_null
| Ch_proc (i : nat)        (* &proc[i]: wait() *)
| Ch_ticks                 (* &ticks *)
| Ch_buf_lock (i : nat)    (* &bcache.buf[i].lock *)
| Ch_inode_lock (i : nat)  (* &itable.inode[i].lock *)
| Ch_log                   (* &log *)
| Ch_nread (pa : Z)        (* &pi->nread *)
| Ch_nwrite (pa : Z)       (* &pi->nwrite *)
| Ch_cons                  (* &cons.r *)
| Ch_uart                  (* &uart_tx_r *)
| Ch_disk_free             (* &disk.free[0] *)
| Ch_buf (i : nat).        (* &bcache.buf[i]: disk request *)

#[export] Instance chan_eq_dec : EqDecision chan.
Proof. solve_decision. Defined.

(** [struct spinlock] of kernel/spinlock.h. *)
Record spinlock := Spinlock {
  locked : Z;  (* is the lock held? *)
  lk_name : string;
  lk_cpu : option nat;  (* the cpu holding the lock *)
}.

Definition with_locked (v : Z) (r : spinlock) : spinlock :=
  Spinlock v (lk_name r) (lk_cpu r).
Definition with_lk_name (v : string) (r : spinlock) : spinlock :=
  Spinlock (locked r) v (lk_cpu r).
Definition with_lk_cpu (v : option nat) (r : spinlock) : spinlock :=
  Spinlock (locked r) (lk_name r) v.

(** ** kernel/proc.h *)

(** [struct context]: the callee-saved registers [s0] to [s11] are a list. *)
Record context := Context {
  c_ra : Z;
  c_sp : Z;
  c_s : list Z;
}.

Definition with_c_ra (v : Z) (r : context) : context :=
  Context v (c_sp r) (c_s r).
Definition with_c_sp (v : Z) (r : context) : context :=
  Context (c_ra r) v (c_s r).
Definition with_c_s (v : list Z) (r : context) : context :=
  Context (c_ra r) (c_sp r) v.

(** [struct cpu]. *)
Record cpu := Cpu {
  c_proc : option nat;  (* the process running on this cpu, or null *)
  c_context : context;
  noff : Z;  (* depth of push_off() nesting *)
  intena : Z;  (* were interrupts enabled before push_off()? *)
}.

Definition with_c_proc (v : option nat) (r : cpu) : cpu :=
  Cpu v (c_context r) (noff r) (intena r).
Definition with_c_context (v : context) (r : cpu) : cpu :=
  Cpu (c_proc r) v (noff r) (intena r).
Definition with_noff (v : Z) (r : cpu) : cpu :=
  Cpu (c_proc r) (c_context r) v (intena r).
Definition with_intena (v : Z) (r : cpu) : cpu :=
  Cpu (c_proc r) (c_context r) (noff r) v.

(** [enum procstate]. *)
Inductive procstate : Type := UNUSED | USED | SLEEPING | RUNNABLE | RUNNING | ZOMBIE.

#[export] Instance procstate_eq_dec : EqDecision procstate.
Proof. solve_decision. Defined.

(** [struct proc]; its lock is [L_proc i]. *)
Record proc := Proc {
  p_state : procstate;
  p_chan : chan;
  p_killed : Z;
  p_xstate : Z;
  p_pid : Z;
  runCount : Z;
  systemcallCount : Z;
  interruptCount : Z;
  preemptCount : Z;
  trapCount : Z;
  sleepCount : Z;
  p_parent : option nat;
  p_kstack : Z;
  p_sz : Z;
  p_pagetable : Z;
  p_trapframe : Z;  (* physical address of the trapframe page *)
  p_context : context;
  p_ofile : list (option nat);
  p_cwd : option nat;
  p_name : list Z;
}.

Definition with_p_state (v : procstate) (r : proc) : proc :=
  Proc v (p_chan r) (p_killed r) (p_xstate r) (p_pid r) (runCount r) (systemcallCount r)
    (interruptCount r) (preemptCount r) (trapCount r) (sleepCount r) (p_parent r) (p_kstack
    r) (p_sz r) (p_pagetable r) (p_trapframe r) (p_context r) (p_ofile r) (p_cwd r) (p_name
    r).
Definition with_p_chan (v : chan) (r : proc) : proc :=
  Proc (p_state r) v (p_killed r) (p_xstate r) (p_pid r) (runCount r) (systemcallCount r)
    (interruptCount r) (preemptCount r) (trapCount r) (sleepCount r) (p_parent r) (p_kstack
    r) (p_sz r) (p_pagetable r) (p_trapframe r) (p_context r) (p_ofile r) (p_cwd r) (p_name
    r).
Definition with_p_killed (v : Z) (r : proc) : proc :=
  Proc (p_state r) (p_chan r) v (p_xstate r) (p_pid r) (runCount r) (systemcallCount r)
    (interruptCount r) (preemptCount r) (trapCount r) (sleepCount r) (p_parent r) (p_kstack
    r) (p_sz r) (p_pagetable r) (p_trapframe r) (p_context r) (p_ofile r) (p_cwd r) (p_name
    r).
Definition with_p_xstate (v : Z) (r : proc) : proc :=
  Proc (p_state r) (p_chan r) (p_killed r) v (p_pid r) (runCount r) (systemcallCount r)
    (interruptCount r) (preemptCount r) (trapCount r) (sleepCount r) (p_parent r) (p_kstack
    r) (p_sz r) (p_pagetable r) (p_trapframe r) (p_context r) (p_ofile r) (p_cwd r) (p_name
    r).
Definition with_p_pid (v : Z) (r : proc) : proc :=
  Proc (p_state r) (p_chan r) (p_killed r) (p_xstate r) v (runCount r) (systemcallCount r)
    (interruptCount r) (preemptCount r) (trapCount r) (sleepCount r) (p_parent r) (p_kstack
    r) (p_sz r) (p_pagetable r) (p_trapframe r) (p_context r) (p_ofile r) (p_cwd r) (p_name
    r).
Definition with_runCount (v : Z) (r : proc) : proc :=
  Proc (p_state r) (p_chan r) (p_killed r) (p_xstate r) (p_pid r) v (systemcallCount r)
    (interruptCount r) (preemptCount r) (trapCount r) (sleepCount r) (p_parent r) (p_kstack
    r) (p_sz r) (p_pagetable r) (p_trapframe r) (p_context r) (p_ofile r) (p_cwd r) (p_name
    r).
Definition with_systemcallCount (v : Z) (r : proc) : proc :=
  Proc (p_state r) (p_chan r) (p_killed r) (p_xstate r) (p_pid r) (runCount r) v
    (interruptCount r) (preemptCount r) (trapCount r) (sleepCount r) (p_parent r) (p_kstack
    r) (p_sz r) (p_pagetable r) (p_trapframe r) (p_context r) (p_ofile r) (p_cwd r) (p_name
    r).
Definition with_interruptCount (v : Z) (r : proc) : proc :=
  Proc (p_state r) (p_chan r) (p_killed r) (p_xstate r) (p_pid r) (runCount r)
    (systemcallCount r) v (preemptCount r) (trapCount r) (sleepCount r) (p_parent r)
    (p_kstack r) (p_sz r) (p_pagetable r) (p_trapframe r) (p_context r) (p_ofile r) (p_cwd
    r) (p_name r).
Definition with_preemptCount (v : Z) (r : proc) : proc :=
  Proc (p_state r) (p_chan r) (p_killed r) (p_xstate r) (p_pid r) (runCount r)
    (systemcallCount r) (interruptCount r) v (trapCount r) (sleepCount r) (p_parent r)
    (p_kstack r) (p_sz r) (p_pagetable r) (p_trapframe r) (p_context r) (p_ofile r) (p_cwd
    r) (p_name r).
Definition with_trapCount (v : Z) (r : proc) : proc :=
  Proc (p_state r) (p_chan r) (p_killed r) (p_xstate r) (p_pid r) (runCount r)
    (systemcallCount r) (interruptCount r) (preemptCount r) v (sleepCount r) (p_parent r)
    (p_kstack r) (p_sz r) (p_pagetable r) (p_trapframe r) (p_context r) (p_ofile r) (p_cwd
    r) (p_name r).
Definition with_sleepCount (v : Z) (r : proc) : proc :=
  Proc (p_state r) (p_chan r) (p_killed r) (p_xstate r) (p_pid r) (runCount r)
    (systemcallCount r) (interruptCount r) (preemptCount r) (trapCount r) v (p_parent r)
    (p_kstack r) (p_sz r) (p_pagetable r) (p_trapframe r) (p_context r) (p_ofile r) (p_cwd
    r) (p_name r).
Definition with_p_parent (v : option nat) (r : proc) : proc :=
  Proc (p_state r) (p_chan r) (p_killed r) (p_xstate r) (p_pid r) (runCount r)
    (systemcallCount r) (interruptCount r) (preemptCount r) (trapCount r) (sleepCount r) v
    (p_kstack r) (p_sz r) (p_pagetable r) (p_trapframe r) (p_context r) (p_ofile r) (p_cwd
    r) (p_name r).
Definition with_p_kstack (v : Z) (r : proc) : proc :=
  Proc (p_state r) (p_chan r) (p_killed r) (p_xstate r) (p_pid r) (runCount r)
    (systemcallCount r) (interruptCount r) (preemptCount r) (trapCount r) (sleepCount r)
    (p_parent r) v (p_sz r) (p_pagetable r) (p_trapframe r) (p_context r) (p_ofile r) (p_cwd
    r) (p_name r).
Definition with_p_sz (v : Z) (r : proc) : proc :=
  Proc (p_state r) (p_chan r) (p_killed r) (p_xstate r) (p_pid r) (runCount r)
    (systemcallCount r) (interruptCount r) (preemptCount r) (trapCount r) (sleepCount r)
    (p_parent r) (p_kstack r) v (p_pagetable r) (p_trapframe r) (p_context r) (p_ofile r)
    (p_cwd r) (p_name r).
Definition with_p_pagetable (v : Z) (r : proc) : proc :=
  Proc (p_state r) (p_chan r) (p_killed r) (p_xstate r) (p_pid r) (runCount r)
    (systemcallCount r) (interruptCount r) (preemptCount r) (trapCount r) (sleepCount r)
    (p_parent r) (p_kstack r) (p_sz r) v (p_trapframe r) (p_context r) (p_ofile r) (p_cwd r)
    (p_name r).
Definition with_p_trapframe (v : Z) (r : proc) : proc :=
  Proc (p_state r) (p_chan r) (p_killed r) (p_xstate r) (p_pid r) (runCount r)
    (systemcallCount r) (interruptCount r) (preemptCount r) (trapCount r) (sleepCount r)
    (p_parent r) (p_kstack r) (p_sz r) (p_pagetable r) v (p_context r) (p_ofile r) (p_cwd r)
    (p_name r).
Definition with_p_context (v : context) (r : proc) : proc :=
  Proc (p_state r) (p_chan r) (p_killed r) (p_xstate r) (p_pid r) (runCount r)
    (systemcallCount r) (interruptCount r) (preemptCount r) (trapCount r) (sleepCount r)
    (p_parent r) (p_kstack r) (p_sz r) (p_pagetable r) (p_trapframe r) v (p_ofile r) (p_cwd
    r) (p_name r).
Definition with_p_ofile (v : list (option nat)) (r : proc) : proc :=
  Proc (p_state r) (p_chan r) (p_killed r) (p_xstate r) (p_pid r) (runCount r)
    (systemcallCount r) (interruptCount r) (preemptCount r) (trapCount r) (sleepCount r)
    (p_parent r) (p_kstack r) (p_sz r) (p_pagetable r) (p_trapframe r) (p_context r) v
    (p_cwd r) (p_name r).
Definition with_p_cwd (v : option nat) (r : proc) : proc :=
  Proc (p_state r) (p_chan r) (p_killed r) (p_xstate r) (p_pid r) (runCount r)
    (systemcallCount r) (interruptCount r) (preemptCount r) (trapCount r) (sleepCount r)
    (p_parent r) (p_kstack r) (p_sz r) (p_pagetable r) (p_trapframe r) (p_context r)
    (p_ofile r) v (p_name r).
Definition with_p_name (v : list Z) (r : proc) : proc :=
  Proc (p_state r) (p_chan r) (p_killed r) (p_xstate r) (p_pid r) (runCount r)
    (systemcallCount r) (interruptCount r) (preemptCount r) (trapCount r) (sleepCount r)
    (p_parent r) (p_kstack r) (p_sz r) (p_pagetable r) (p_trapframe r) (p_context r)
    (p_ofile r) (p_cwd r) v.

(** ** The hart: control and status registers, and [tp] *)

(** Registers of the hart that runs this kernel thread. *)
Record csrs := Csrs {
  sstatus : Z;
  sepc : Z;
  scause : Z;
  stval : Z;
  stvec : Z;
  sip : Z;
  satp : Z;
  tp : Z;  (* hart number, see cpuid() *)
}.

Definition with_sstatus (v : Z) (r : csrs) : csrs :=
  Csrs v (sepc r) (scause r) (stval r) (stvec r) (sip r) (satp r) (tp r).
Definition with_sepc (v : Z) (r : csrs) : csrs :=
  Csrs (sstatus r) v (scause r) (stval r) (stvec r) (sip r) (satp r) (tp r).
Definition with_scause (v : Z) (r : csrs) : csrs :=
  Csrs (sstatus r) (sepc r) v (stval r) (stvec r) (sip r) (satp r) (tp r).
Definition with_stval (v : Z) (r : csrs) : csrs :=
  Csrs (sstatus r) (sepc r) (scause r) v (stvec r) (sip r) (satp r) (tp r).
Definition with_stvec (v : Z) (r : csrs) : csrs :=
  Csrs (sstatus r) (sepc r) (scause r) (stval r) v (sip r) (satp r) (tp r).
Definition with_sip (v : Z) (r : csrs) : csrs :=
  Csrs (sstatus r) (sepc r) (scause r) (stval r) (stvec r) v (satp r) (tp r).
Definition with_satp (v : Z) (r : csrs) : csrs :=
  Csrs (sstatus r) (sepc r) (scause r) (stval r) (stvec r) (sip r) v (tp r).
Definition with_tp (v : Z) (r : csrs) : csrs :=
  Csrs (sstatus r) (sepc r) (scause r) (stval r) (stvec r) (sip r) (satp r) v.

(** ** kernel/sleeplock.h *)

(** The sleep locks of the kernel; the spin lock [lk] inside is [L_buf] or [L_inode]. *)
Inductive slockref : Type := SL_buf (i : nat) | SL_inode (i : nat).

#[export] Instance slockref_eq_dec : EqDecision slockref.
Proof. solve_decision. Defined.

#[export] Instance slockref_countable : Countable slockref.
Proof.
  apply (inj_countable' (fun l => match l with SL_buf i => inl i | SL_inode i => inr i end)
    (fun c => match c with inl i => SL_buf i | inr i => SL_inode i end)). by intros [].
Defined.

Definition sl_lk (l : slockref) : lockref :=
  match l with SL_buf i => L_buf i | SL_inode i => L_inode i end.
Definition sl_chan (l : slockref) : chan :=
  match l with SL_buf i => Ch_buf_lock i | SL_inode i => Ch_inode_lock i end.

(** [struct sleeplock] of kernel/sleeplock.h. *)
Record sleeplock := Sleeplock {
  sl_locked : Z;  (* is the lock held? *)
  sl_name : string;
  sl_pid : Z;  (* process holding lock *)
}.

Definition with_sl_locked (v : Z) (r : sleeplock) : sleeplock :=
  Sleeplock v (sl_name r) (sl_pid r).
Definition with_sl_name (v : string) (r : sleeplock) : sleeplock :=
  Sleeplock (sl_locked r) v (sl_pid r).
Definition with_sl_pid (v : Z) (r : sleeplock) : sleeplock :=
  Sleeplock (sl_locked r) (sl_name r) v.

(** ** kernel/buf.h *)

(** [struct buf]; its lock is [SL_buf i], [prev] and [next] are indices of [bcache.buf], with [NBUF] for [bcache.head]. *)
Record buf := Buf {
  b_valid : Z;  (* has data been read from disk? *)
  b_disk : Z;  (* does disk own buf? *)
  b_dev : Z;
  b_blockno : Z;
  b_refcnt : Z;
  b_prev : nat;  (* LRU cache list *)
  b_next : nat;
  b_data : list Z;
}.

Definition with_b_valid (v : Z) (r : buf) : buf :=
  Buf v (b_disk r) (b_dev r) (b_blockno r) (b_refcnt r) (b_prev r) (b_next r) (b_data r).
Definition with_b_disk (v : Z) (r : buf) : buf :=
  Buf (b_valid r) v (b_dev r) (b_blockno r) (b_refcnt r) (b_prev r) (b_next r) (b_data r).
Definition with_b_dev (v : Z) (r : buf) : buf :=
  Buf (b_valid r) (b_disk r) v (b_blockno r) (b_refcnt r) (b_prev r) (b_next r) (b_data r).
Definition with_b_blockno (v : Z) (r : buf) : buf :=
  Buf (b_valid r) (b_disk r) (b_dev r) v (b_refcnt r) (b_prev r) (b_next r) (b_data r).
Definition with_b_refcnt (v : Z) (r : buf) : buf :=
  Buf (b_valid r) (b_disk r) (b_dev r) (b_blockno r) v (b_prev r) (b_next r) (b_data r).
Definition with_b_prev (v : nat) (r : buf) : buf :=
  Buf (b_valid r) (b_disk r) (b_dev r) (b_blockno r) (b_refcnt r) v (b_next r) (b_data r).
Definition with_b_next (v : nat) (r : buf) : buf :=
  Buf (b_valid r) (b_disk r) (b_dev r) (b_blockno r) (b_refcnt r) (b_prev r) v (b_data r).
Definition with_b_data (v : list Z) (r : buf) : buf :=
  Buf (b_valid r) (b_disk r) (b_dev r) (b_blockno r) (b_refcnt r) (b_prev r) (b_next r) v.

(** ** kernel/log.c *)

(** [struct log], with the fields of [struct logheader]. *)
Record log := Log {
  l_start : Z;
  l_size : Z;
  l_outstanding : Z;  (* how many FS sys calls are executing *)
  l_committing : Z;  (* in commit(), please wait *)
  l_dev : Z;
  lh_n : Z;
  lh_block : list Z;  (* block[LOGSIZE] *)
}.

Definition with_l_start (v : Z) (r : log) : log :=
  Log v (l_size r) (l_outstanding r) (l_committing r) (l_dev r) (lh_n r) (lh_block r).
Definition with_l_size (v : Z) (r : log) : log :=
  Log (l_start r) v (l_outstanding r) (l_committing r) (l_dev r) (lh_n r) (lh_block r).
Definition with_l_outstanding (v : Z) (r : log) : log :=
  Log (l_start r) (l_size r) v (l_committing r) (l_dev r) (lh_n r) (lh_block r).
Definition with_l_committing (v : Z) (r : log) : log :=
  Log (l_start r) (l_size r) (l_outstanding r) v (l_dev r) (lh_n r) (lh_block r).
Definition with_l_dev (v : Z) (r : log) : log :=
  Log (l_start r) (l_size r) (l_outstanding r) (l_committing r) v (lh_n r) (lh_block r).
Definition with_lh_n (v : Z) (r : log) : log :=
  Log (l_start r) (l_size r) (l_outstanding r) (l_committing r) (l_dev r) v (lh_block r).
Definition with_lh_block (v : list Z) (r : log) : log :=
  Log (l_start r) (l_size r) (l_outstanding r) (l_committing r) (l_dev r) (lh_n r) v.

(** ** kernel/fs.h and kernel/file.h *)

(** [struct superblock]. *)
Record superblock := Superblock {
  sb_magic : Z;
  sb_size : Z;
  sb_nblocks : Z;
  sb_ninodes : Z;
  sb_nlog : Z;
  sb_logstart : Z;
  sb_inodestart : Z;
  sb_bmapstart : Z;
}.

Definition with_sb_magic (v : Z) (r : superblock) : superblock :=
  Superblock v (sb_size r) (sb_nblocks r) (sb_ninodes r) (sb_nlog r) (sb_logstart r)
    (sb_inodestart r) (sb_bmapstart r).
Definition with_sb_size (v : Z) (r : superblock) : superblock :=
  Superblock (sb_magic r) v (sb_nblocks r) (sb_ninodes r) (sb_nlog r) (sb_logstart r)
    (sb_inodestart r) (sb_bmapstart r).
Definition with_sb_nblocks (v : Z) (r : superblock) : superblock :=
  Superblock (sb_magic r) (sb_size r) v (sb_ninodes r) (sb_nlog r) (sb_logstart r)
    (sb_inodestart r) (sb_bmapstart r).
Definition with_sb_ninodes (v : Z) (r : superblock) : superblock :=
  Superblock (sb_magic r) (sb_size r) (sb_nblocks r) v (sb_nlog r) (sb_logstart r)
    (sb_inodestart r) (sb_bmapstart r).
Definition with_sb_nlog (v : Z) (r : superblock) : superblock :=
  Superblock (sb_magic r) (sb_size r) (sb_nblocks r) (sb_ninodes r) v (sb_logstart r)
    (sb_inodestart r) (sb_bmapstart r).
Definition with_sb_logstart (v : Z) (r : superblock) : superblock :=
  Superblock (sb_magic r) (sb_size r) (sb_nblocks r) (sb_ninodes r) (sb_nlog r) v
    (sb_inodestart r) (sb_bmapstart r).
Definition with_sb_inodestart (v : Z) (r : superblock) : superblock :=
  Superblock (sb_magic r) (sb_size r) (sb_nblocks r) (sb_ninodes r) (sb_nlog r) (sb_logstart
    r) v (sb_bmapstart r).
Definition with_sb_bmapstart (v : Z) (r : superblock) : superblock :=
  Superblock (sb_magic r) (sb_size r) (sb_nblocks r) (sb_ninodes r) (sb_nlog r) (sb_logstart
    r) (sb_inodestart r) v.

(** [struct inode]; its lock is [SL_inode i]. *)
Record inode := Inode {
  i_dev : Z;
  i_inum : Z;
  i_ref : Z;
  i_valid : Z;  (* inode has been read from disk? *)
  i_type : Z;
  i_major : Z;
  i_minor : Z;
  i_nlink : Z;
  i_size : Z;
  i_addrs : list Z;  (* addrs[NDIRECT+1] *)
}.

Definition with_i_dev (v : Z) (r : inode) : inode :=
  Inode v (i_inum r) (i_ref r) (i_valid r) (i_type r) (i_major r) (i_minor r) (i_nlink r)
    (i_size r) (i_addrs r).
Definition with_i_inum (v : Z) (r : inode) : inode :=
  Inode (i_dev r) v (i_ref r) (i_valid r) (i_type r) (i_major r) (i_minor r) (i_nlink r)
    (i_size r) (i_addrs r).
Definition with_i_ref (v : Z) (r : inode) : inode :=
  Inode (i_dev r) (i_inum r) v (i_valid r) (i_type r) (i_major r) (i_minor r) (i_nlink r)
    (i_size r) (i_addrs r).
Definition with_i_valid (v : Z) (r : inode) : inode :=
  Inode (i_dev r) (i_inum r) (i_ref r) v (i_type r) (i_major r) (i_minor r) (i_nlink r)
    (i_size r) (i_addrs r).
Definition with_i_type (v : Z) (r : inode) : inode :=
  Inode (i_dev r) (i_inum r) (i_ref r) (i_valid r) v (i_major r) (i_minor r) (i_nlink r)
    (i_size r) (i_addrs r).
Definition with_i_major (v : Z) (r : inode) : inode :=
  Inode (i_dev r) (i_inum r) (i_ref r) (i_valid r) (i_type r) v (i_minor r) (i_nlink r)
    (i_size r) (i_addrs r).
Definition with_i_minor (v : Z) (r : inode) : inode :=
  Inode (i_dev r) (i_inum r) (i_ref r) (i_valid r) (i_type r) (i_major r) v (i_nlink r)
    (i_size r) (i_addrs r).
Definition with_i_nlink (v : Z) (r : inode) : inode :=
  Inode (i_dev r) (i_inum r) (i_ref r) (i_valid r) (i_type r) (i_major r) (i_minor r) v
    (i_size r) (i_addrs r).
Definition with_i_size (v : Z) (r : inode) : inode :=
  Inode (i_dev r) (i_inum r) (i_ref r) (i_valid r) (i_type r) (i_major r) (i_minor r)
    (i_nlink r) v (i_addrs r).
Definition with_i_addrs (v : list Z) (r : inode) : inode :=
  Inode (i_dev r) (i_inum r) (i_ref r) (i_valid r) (i_type r) (i_major r) (i_minor r)
    (i_nlink r) (i_size r) v.

(** The type of a [struct file]. *)
Inductive ftype : Type := FD_NONE | FD_PIPE | FD_INODE | FD_DEVICE.

#[export] Instance ftype_eq_dec : EqDecision ftype.
Proof. solve_decision. Defined.

(** [struct file]; a pipe is named by the address of its page, 0 for null. *)
Record file := File {
  f_type : ftype;
  f_ref : Z;
  f_readable : Z;
  f_writable : Z;
  f_pipe : Z;
  f_ip : option nat;
  f_off : Z;
  f_major : Z;
}.

Definition with_f_type (v : ftype) (r : file) : file :=
  File v (f_ref r) (f_readable r) (f_writable r) (f_pipe r) (f_ip r) (f_off r) (f_major r).
Definition with_f_ref (v : Z) (r : file) : file :=
  File (f_type r) v (f_readable r) (f_writable r) (f_pipe r) (f_ip r) (f_off r) (f_major r).
Definition with_f_readable (v : Z) (r : file) : file :=
  File (f_type r) (f_ref r) v (f_writable r) (f_pipe r) (f_ip r) (f_off r) (f_major r).
Definition with_f_writable (v : Z) (r : file) : file :=
  File (f_type r) (f_ref r) (f_readable r) v (f_pipe r) (f_ip r) (f_off r) (f_major r).
Definition with_f_pipe (v : Z) (r : file) : file :=
  File (f_type r) (f_ref r) (f_readable r) (f_writable r) v (f_ip r) (f_off r) (f_major r).
Definition with_f_ip (v : option nat) (r : file) : file :=
  File (f_type r) (f_ref r) (f_readable r) (f_writable r) (f_pipe r) v (f_off r) (f_major
    r).
Definition with_f_off (v : Z) (r : file) : file :=
  File (f_type r) (f_ref r) (f_readable r) (f_writable r) (f_pipe r) (f_ip r) v (f_major r).
Definition with_f_major (v : Z) (r : file) : file :=
  File (f_type r) (f_ref r) (f_readable r) (f_writable r) (f_pipe r) (f_ip r) (f_off r) v.

(** [struct pipe] of kernel/pipe.c; its lock is [L_pipe pa]. *)
Record pipe := Pipe {
  pi_data : list Z;  (* data[PIPESIZE] *)
  pi_nread : Z;  (* number of bytes read *)
  pi_nwrite : Z;  (* number of bytes written *)
  pi_readopen : Z;  (* read fd is still open *)
  pi_writeopen : Z;  (* write fd is still open *)
}.

Definition with_pi_data (v : list Z) (r : pipe) : pipe :=
  Pipe v (pi_nread r) (pi_nwrite r) (pi_readopen r) (pi_writeopen r).
Definition with_pi_nread (v : Z) (r : pipe) : pipe :=
  Pipe (pi_data r) v (pi_nwrite r) (pi_readopen r) (pi_writeopen r).
Definition with_pi_nwrite (v : Z) (r : pipe) : pipe :=
  Pipe (pi_data r) (pi_nread r) v (pi_readopen r) (pi_writeopen r).
Definition with_pi_readopen (v : Z) (r : pipe) : pipe :=
  Pipe (pi_data r) (pi_nread r) (pi_nwrite r) v (pi_writeopen r).
Definition with_pi_writeopen (v : Z) (r : pipe) : pipe :=
  Pipe (pi_data r) (pi_nread r) (pi_nwrite r) (pi_readopen r) v.

(** The device behind an entry of [devsw]. *)
Inductive device : Type := D_console.

(** ** kernel/virtio.h and kernel/virtio_disk.c *)

(** Addresses in descriptors: the command header, the data of a buffer, the status byte. *)
Inductive daddr : Type := A_null | A_op (i : nat) | A_data (b : nat) | A_status (i : nat).

(** [struct virtq_desc]. *)
Record vdesc := Vdesc {
  d_addr : daddr;
  d_len : Z;
  d_flags : Z;
  d_next : Z;
}.

Definition with_d_addr (v : daddr) (r : vdesc) : vdesc :=
  Vdesc v (d_len r) (d_flags r) (d_next r).
Definition with_d_len (v : Z) (r : vdesc) : vdesc :=
  Vdesc (d_addr r) v (d_flags r) (d_next r).
Definition with_d_flags (v : Z) (r : vdesc) : vdesc :=
  Vdesc (d_addr r) (d_len r) v (d_next r).
Definition with_d_next (v : Z) (r : vdesc) : vdesc :=
  Vdesc (d_addr r) (d_len r) (d_flags r) v.

(** [struct virtio_blk_req]. *)
Record vreq := Vreq {
  r_type : Z;
  r_reserved : Z;
  r_sector : Z;
}.

Definition with_r_type (v : Z) (r : vreq) : vreq :=
  Vreq v (r_reserved r) (r_sector r).
Definition with_r_reserved (v : Z) (r : vreq) : vreq :=
  Vreq (r_type r) v (r_sector r).
Definition with_r_sector (v : Z) (r : vreq) : vreq :=
  Vreq (r_type r) (r_reserved r) v.

(** [struct disk]: the descriptor table and rings it shares with the device, and its own book-keeping. *)
Record vdisk := Vdisk {
  desc_pa : Z;  (* the pages of desc, avail and used *)
  avail_pa : Z;
  used_pa : Z;
  v_desc : list vdesc;
  avail_idx : Z;
  avail_ring : list Z;
  used_dev_idx : Z;  (* used->idx, written by the device *)
  used_ring : list Z;  (* the ids of used->ring *)
  v_free : list Z;  (* is a descriptor free? *)
  v_used_idx : Z;
  info_b : list (option nat);
  info_status : list Z;
  v_ops : list vreq;
}.

Definition with_desc_pa (v : Z) (r : vdisk) : vdisk :=
  Vdisk v (avail_pa r) (used_pa r) (v_desc r) (avail_idx r) (avail_ring r) (used_dev_idx r)
    (used_ring r) (v_free r) (v_used_idx r) (info_b r) (info_status r) (v_ops r).
Definition with_avail_pa (v : Z) (r : vdisk) : vdisk :=
  Vdisk (desc_pa r) v (used_pa r) (v_desc r) (avail_idx r) (avail_ring r) (used_dev_idx r)
    (used_ring r) (v_free r) (v_used_idx r) (info_b r) (info_status r) (v_ops r).
Definition with_used_pa (v : Z) (r : vdisk) : vdisk :=
  Vdisk (desc_pa r) (avail_pa r) v (v_desc r) (avail_idx r) (avail_ring r) (used_dev_idx r)
    (used_ring r) (v_free r) (v_used_idx r) (info_b r) (info_status r) (v_ops r).
Definition with_v_desc (v : list vdesc) (r : vdisk) : vdisk :=
  Vdisk (desc_pa r) (avail_pa r) (used_pa r) v (avail_idx r) (avail_ring r) (used_dev_idx r)
    (used_ring r) (v_free r) (v_used_idx r) (info_b r) (info_status r) (v_ops r).
Definition with_avail_idx (v : Z) (r : vdisk) : vdisk :=
  Vdisk (desc_pa r) (avail_pa r) (used_pa r) (v_desc r) v (avail_ring r) (used_dev_idx r)
    (used_ring r) (v_free r) (v_used_idx r) (info_b r) (info_status r) (v_ops r).
Definition with_avail_ring (v : list Z) (r : vdisk) : vdisk :=
  Vdisk (desc_pa r) (avail_pa r) (used_pa r) (v_desc r) (avail_idx r) v (used_dev_idx r)
    (used_ring r) (v_free r) (v_used_idx r) (info_b r) (info_status r) (v_ops r).
Definition with_used_dev_idx (v : Z) (r : vdisk) : vdisk :=
  Vdisk (desc_pa r) (avail_pa r) (used_pa r) (v_desc r) (avail_idx r) (avail_ring r) v
    (used_ring r) (v_free r) (v_used_idx r) (info_b r) (info_status r) (v_ops r).
Definition with_used_ring (v : list Z) (r : vdisk) : vdisk :=
  Vdisk (desc_pa r) (avail_pa r) (used_pa r) (v_desc r) (avail_idx r) (avail_ring r)
    (used_dev_idx r) v (v_free r) (v_used_idx r) (info_b r) (info_status r) (v_ops r).
Definition with_v_free (v : list Z) (r : vdisk) : vdisk :=
  Vdisk (desc_pa r) (avail_pa r) (used_pa r) (v_desc r) (avail_idx r) (avail_ring r)
    (used_dev_idx r) (used_ring r) v (v_used_idx r) (info_b r) (info_status r) (v_ops r).
Definition with_v_used_idx (v : Z) (r : vdisk) : vdisk :=
  Vdisk (desc_pa r) (avail_pa r) (used_pa r) (v_desc r) (avail_idx r) (avail_ring r)
    (used_dev_idx r) (used_ring r) (v_free r) v (info_b r) (info_status r) (v_ops r).
Definition with_info_b (v : list (option nat)) (r : vdisk) : vdisk :=
  Vdisk (desc_pa r) (avail_pa r) (used_pa r) (v_desc r) (avail_idx r) (avail_ring r)
    (used_dev_idx r) (used_ring r) (v_free r) (v_used_idx r) v (info_status r) (v_ops r).
Definition with_info_status (v : list Z) (r : vdisk) : vdisk :=
  Vdisk (desc_pa r) (avail_pa r) (used_pa r) (v_desc r) (avail_idx r) (avail_ring r)
    (used_dev_idx r) (used_ring r) (v_free r) (v_used_idx r) (info_b r) v (v_ops r).
Definition with_v_ops (v : list vreq) (r : vdisk) : vdisk :=
  Vdisk (desc_pa r) (avail_pa r) (used_pa r) (v_desc r) (avail_idx r) (avail_ring r)
    (used_dev_idx r) (used_ring r) (v_free r) (v_used_idx r) (info_b r) (info_status r) v.

(** ** kernel/console.c and kernel/uart.c *)

(** [cons] of kernel/console.c. *)
Record console := Console {
  cons_buf : list Z;  (* buf[INPUT_BUF_SIZE] *)
  cons_r : Z;  (* read index *)
  cons_w : Z;  (* write index *)
  cons_e : Z;  (* edit index *)
}.

Definition with_cons_buf (v : list Z) (r : console) : console :=
  Console v (cons_r r) (cons_w r) (cons_e r).
Definition with_cons_r (v : Z) (r : console) : console :=
  Console (cons_buf r) v (cons_w r) (cons_e r).
Definition with_cons_w (v : Z) (r : console) : console :=
  Console (cons_buf r) (cons_r r) v (cons_e r).
Definition with_cons_e (v : Z) (r : console) : console :=
  Console (cons_buf r) (cons_r r) (cons_w r) v.

(** The transmit buffer of kernel/uart.c, and what has gone through the device's registers. *)
Record uart := Uart {
  uart_tx_buf : list Z;
  uart_tx_w : Z;
  uart_tx_r : Z;
  uart_ier : Z;  (* interrupt enable register *)
  uart_lcr : Z;  (* line control register *)
  uart_fcr : Z;  (* FIFO control register *)
  uart_dll : Z;  (* divisor latch, low and high byte *)
  uart_dlm : Z;
  uart_lsr : list bool;  (* the next readings of LSR_TX_IDLE, and idle once they run out *)
  uart_rx : list Z;  (* received characters not yet read *)
  uart_tx : list Z;  (* characters sent *)
}.

Definition with_uart_tx_buf (v : list Z) (r : uart) : uart :=
  Uart v (uart_tx_w r) (uart_tx_r r) (uart_ier r) (uart_lcr r) (uart_fcr r) (uart_dll r)
    (uart_dlm r) (uart_lsr r) (uart_rx r) (uart_tx r).
Definition with_uart_tx_w (v : Z) (r : uart) : uart :=
  Uart (uart_tx_buf r) v (uart_tx_r r) (uart_ier r) (uart_lcr r) (uart_fcr r) (uart_dll r)
    (uart_dlm r) (uart_lsr r) (uart_rx r) (uart_tx r).
Definition with_uart_tx_r (v : Z) (r : uart) : uart :=
  Uart (uart_tx_buf r) (uart_tx_w r) v (uart_ier r) (uart_lcr r) (uart_fcr r) (uart_dll r)
    (uart_dlm r) (uart_lsr r) (uart_rx r) (uart_tx r).
Definition with_uart_ier (v : Z) (r : uart) : uart :=
  Uart (uart_tx_buf r) (uart_tx_w r) (uart_tx_r r) v (uart_lcr r) (uart_fcr r) (uart_dll r)
    (uart_dlm r) (uart_lsr r) (uart_rx r) (uart_tx r).
Definition with_uart_lcr (v : Z) (r : uart) : uart :=
  Uart (uart_tx_buf r) (uart_tx_w r) (uart_tx_r r) (uart_ier r) v (uart_fcr r) (uart_dll r)
    (uart_dlm r) (uart_lsr r) (uart_rx r) (uart_tx r).
Definition with_uart_fcr (v : Z) (r : uart) : uart :=
  Uart (uart_tx_buf r) (uart_tx_w r) (uart_tx_r r) (uart_ier r) (uart_lcr r) v (uart_dll r)
    (uart_dlm r) (uart_lsr r) (uart_rx r) (uart_tx r).
Definition with_uart_dll (v : Z) (r : uart) : uart :=
  Uart (uart_tx_buf r) (uart_tx_w r) (uart_tx_r r) (uart_ier r) (uart_lcr r) (uart_fcr r) v
    (uart_dlm r) (uart_lsr r) (uart_rx r) (uart_tx r).
Definition with_uart_dlm (v : Z) (r : uart) : uart :=
  Uart (uart_tx_buf r) (uart_tx_w r) (uart_tx_r r) (uart_ier r) (uart_lcr r) (uart_fcr r)
    (uart_dll r) v (uart_lsr r) (uart_rx r) (uart_tx r).
Definition with_uart_lsr (v : list bool) (r : uart) : uart :=
  Uart (uart_tx_buf r) (uart_tx_w r) (uart_tx_r r) (uart_ier r) (uart_lcr r) (uart_fcr r)
    (uart_dll r) (uart_dlm r) v (uart_rx r) (uart_tx r).
Definition with_uart_rx (v : list Z) (r : uart) : uart :=
  Uart (uart_tx_buf r) (uart_tx_w r) (uart_tx_r r) (uart_ier r) (uart_lcr r) (uart_fcr r)
    (uart_dll r) (uart_dlm r) (uart_lsr r) v (uart_tx r).
Definition with_uart_tx (v : list Z) (r : uart) : uart :=
  Uart (uart_tx_buf r) (uart_tx_w r) (uart_tx_r r) (uart_ier r) (uart_lcr r) (uart_fcr r)
    (uart_dll r) (uart_dlm r) (uart_lsr r) (uart_rx r) v.

(** ** The kernel *)

(** The state of the kernel, as seen by one hart. *)
Record kst := Kst {
  regs : csrs;
  cpus : list cpu;  (* cpus[NCPU] *)
  locks : gmap lockref spinlock;  (* every spin lock *)
  mem : memory;  (* physical memory *)
  freelist : Z;  (* kmem.freelist *)
  kernel_pagetable : Z;
  procs : list proc;  (* proc[NPROC] *)
  initproc : option nat;
  nextpid : Z;
  ticks : Z;
  nswtch : nat;  (* context switches made by this thread *)
  slocks : gmap slockref sleeplock;  (* every sleep lock *)
  bufs : list buf;  (* bcache.buf[NBUF], then bcache.head *)
  lg : log;
  disk : gmap Z (list Z);  (* the blocks of the disk *)
  dwrites : list (Z * list Z);  (* blocks written to the disk so far, in order *)
  vd : vdisk;
  sb : superblock;
  inodes : list inode;  (* itable.inode[NINODE] *)
  files : list file;  (* ftable.file[NFILE] *)
  pipes : gmap Z pipe;  (* pipes by the address of their page *)
  devsw : list (option device);  (* devsw[NDEV] *)
  cons_st : console;
  uart_st : uart;
  mmio : gmap Z Z;  (* other memory-mapped device registers *)
  pr_locking : Z;
  panicked : Z;
  started : Z;  (* main's started: hart 0 has set up the kernel *)
  first_ret : bool;  (* forkret's static first *)
}.

Definition with_regs (v : csrs) (r : kst) : kst :=
  Kst v (cpus r) (locks r) (mem r) (freelist r) (kernel_pagetable r) (procs r) (initproc r)
    (nextpid r) (ticks r) (nswtch r) (slocks r) (bufs r) (lg r) (disk r) (dwrites r) (vd r)
    (sb r) (inodes r) (files r) (pipes r) (devsw r) (cons_st r) (uart_st r) (mmio r)
    (pr_locking r) (panicked r) (started r) (first_ret r).
Definition with_cpus (v : list cpu) (r : kst) : kst :=
  Kst (regs r) v (locks r) (mem r) (freelist r) (kernel_pagetable r) (procs r) (initproc r)
    (nextpid r) (ticks r) (nswtch r) (slocks r) (bufs r) (lg r) (disk r) (dwrites r) (vd r)
    (sb r) (inodes r) (files r) (pipes r) (devsw r) (cons_st r) (uart_st r) (mmio r)
    (pr_locking r) (panicked r) (started r) (first_ret r).
Definition with_locks (v : gmap lockref spinlock) (r : kst) : kst :=
  Kst (regs r) (cpus r) v (mem r) (freelist r) (kernel_pagetable r) (procs r) (initproc r)
    (nextpid r) (ticks r) (nswtch r) (slocks r) (bufs r) (lg r) (disk r) (dwrites r) (vd r)
    (sb r) (inodes r) (files r) (pipes r) (devsw r) (cons_st r) (uart_st r) (mmio r)
    (pr_locking r) (panicked r) (started r) (first_ret r).
Definition with_mem (v : memory) (r : kst) : kst :=
  Kst (regs r) (cpus r) (locks r) v (freelist r) (kernel_pagetable r) (procs r) (initproc r)
    (nextpid r) (ticks r) (nswtch r) (slocks r) (bufs r) (lg r) (disk r) (dwrites r) (vd r)
    (sb r) (inodes r) (files r) (pipes r) (devsw r) (cons_st r) (uart_st r) (mmio r)
    (pr_locking r) (panicked r) (started r) (first_ret r).
Definition with_freelist (v : Z) (r : kst) : kst :=
  Kst (regs r) (cpus r) (locks r) (mem r) v (kernel_pagetable r) (procs r) (initproc r)
    (nextpid r) (ticks r) (nswtch r) (slocks r) (bufs r) (lg r) (disk r) (dwrites r) (vd r)
    (sb r) (inodes r) (files r) (pipes r) (devsw r) (cons_st r) (uart_st r) (mmio r)
    (pr_locking r) (panicked r) (started r) (first_ret r).
Definition with_kernel_pagetable (v : Z) (r : kst) : kst :=
  Kst (regs r) (cpus r) (locks r) (mem r) (freelist r) v (procs r) (initproc r) (nextpid r)
    (ticks r) (nswtch r) (slocks r) (bufs r) (lg r) (disk r) (dwrites r) (vd r) (sb r)
    (inodes r) (files r) (pipes r) (devsw r) (cons_st r) (uart_st r) (mmio r) (pr_locking r)
    (panicked r) (started r) (first_ret r).
Definition with_procs (v : list proc) (r : kst) : kst :=
  Kst (regs r) (cpus r) (locks r) (mem r) (freelist r) (kernel_pagetable r) v (initproc r)
    (nextpid r) (ticks r) (nswtch r) (slocks r) (bufs r) (lg r) (disk r) (dwrites r) (vd r)
    (sb r) (inodes r) (files r) (pipes r) (devsw r) (cons_st r) (uart_st r) (mmio r)
    (pr_locking r) (panicked r) (started r) (first_ret r).
Definition with_initproc (v : option nat) (r : kst) : kst :=
  Kst (regs r) (cpus r) (locks r) (mem r) (freelist r) (kernel_pagetable r) (procs r) v
    (nextpid r) (ticks r) (nswtch r) (slocks r) (bufs r) (lg r) (disk r) (dwrites r) (vd r)
    (sb r) (inodes r) (files r) (pipes r) (devsw r) (cons_st r) (uart_st r) (mmio r)
    (pr_locking r) (panicked r) (started r) (first_ret r).
Definition with_nextpid (v : Z) (r : kst) : kst :=
  Kst (regs r) (cpus r) (locks r) (mem r) (freelist r) (kernel_pagetable r) (procs r)
    (initproc r) v (ticks r) (nswtch r) (slocks r) (bufs r) (lg r) (disk r) (dwrites r) (vd
    r) (sb r) (inodes r) (files r) (pipes r) (devsw r) (cons_st r) (uart_st r) (mmio r)
    (pr_locking r) (panicked r) (started r) (first_ret r).
Definition with_ticks (v : Z) (r : kst) : kst :=
  Kst (regs r) (cpus r) (locks r) (mem r) (freelist r) (kernel_pagetable r) (procs r)
    (initproc r) (nextpid r) v (nswtch r) (slocks r) (bufs r) (lg r) (disk r) (dwrites r)
    (vd r) (sb r) (inodes r) (files r) (pipes r) (devsw r) (cons_st r) (uart_st r) (mmio r)
    (pr_locking r) (panicked r) (started r) (first_ret r).
Definition with_nswtch (v : nat) (r : kst) : kst :=
  Kst (regs r) (cpus r) (locks r) (mem r) (freelist r) (kernel_pagetable r) (procs r)
    (initproc r) (nextpid r) (ticks r) v (slocks r) (bufs r) (lg r) (disk r) (dwrites r) (vd
    r) (sb r) (inodes r) (files r) (pipes r) (devsw r) (cons_st r) (uart_st r) (mmio r)
    (pr_locking r) (panicked r) (started r) (first_ret r).
Definition with_slocks (v : gmap slockref sleeplock) (r : kst) : kst :=
  Kst (regs r) (cpus r) (locks r) (mem r) (freelist r) (kernel_pagetable r) (procs r)
    (initproc r) (nextpid r) (ticks r) (nswtch r) v (bufs r) (lg r) (disk r) (dwrites r) (vd
    r) (sb r) (inodes r) (files r) (pipes r) (devsw r) (cons_st r) (uart_st r) (mmio r)
    (pr_locking r) (panicked r) (started r) (first_ret r).
Definition with_bufs (v : list buf) (r : kst) : kst :=
  Kst (regs r) (cpus r) (locks r) (mem r) (freelist r) (kernel_pagetable r) (procs r)
    (initproc r) (nextpid r) (ticks r) (nswtch r) (slocks r) v (lg r) (disk r) (dwrites r)
    (vd r) (sb r) (inodes r) (files r) (pipes r) (devsw r) (cons_st r) (uart_st r) (mmio r)
    (pr_locking r) (panicked r) (started r) (first_ret r).
Definition with_lg (v : log) (r : kst) : kst :=
  Kst (regs r) (cpus r) (locks r) (mem r) (freelist r) (kernel_pagetable r) (procs r)
    (initproc r) (nextpid r) (ticks r) (nswtch r) (slocks r) (bufs r) v (disk r) (dwrites r)
    (vd r) (sb r) (inodes r) (files r) (pipes r) (devsw r) (cons_st r) (uart_st r) (mmio r)
    (pr_locking r) (panicked r) (started r) (first_ret r).
Definition with_disk (v : gmap Z (list Z)) (r : kst) : kst :=
  Kst (regs r) (cpus r) (locks r) (mem r) (freelist r) (kernel_pagetable r) (procs r)
    (initproc r) (nextpid r) (ticks r) (nswtch r) (slocks r) (bufs r) (lg r) v (dwrites r)
    (vd r) (sb r) (inodes r) (files r) (pipes r) (devsw r) (cons_st r) (uart_st r) (mmio r)
    (pr_locking r) (panicked r) (started r) (first_ret r).
Definition with_dwrites (v : list (Z * list Z)) (r : kst) : kst :=
  Kst (regs r) (cpus r) (locks r) (mem r) (freelist r) (kernel_pagetable r) (procs r)
    (initproc r) (nextpid r) (ticks r) (nswtch r) (slocks r) (bufs r) (lg r) (disk r) v (vd
    r) (sb r) (inodes r) (files r) (pipes r) (devsw r) (cons_st r) (uart_st r) (mmio r)
    (pr_locking r) (panicked r) (started r) (first_ret r).
Definition with_vd (v : vdisk) (r : kst) : kst :=
  Kst (regs r) (cpus r) (locks r) (mem r) (freelist r) (kernel_pagetable r) (procs r)
    (initproc r) (nextpid r) (ticks r) (nswtch r) (slocks r) (bufs r) (lg r) (disk r)
    (dwrites r) v (sb r) (inodes r) (files r) (pipes r) (devsw r) (cons_st r) (uart_st r)
    (mmio r) (pr_locking r) (panicked r) (started r) (first_ret r).
Definition with_sb (v : superblock) (r : kst) : kst :=
  Kst (regs r) (cpus r) (locks r) (mem r) (freelist r) (kernel_pagetable r) (procs r)
    (initproc r) (nextpid r) (ticks r) (nswtch r) (slocks r) (bufs r) (lg r) (disk r)
    (dwrites r) (vd r) v (inodes r) (files r) (pipes r) (devsw r) (cons_st r) (uart_st r)
    (mmio r) (pr_locking r) (panicked r) (started r) (first_ret r).
Definition with_inodes (v : list inode) (r : kst) : kst :=
  Kst (regs r) (cpus r) (locks r) (mem r) (freelist r) (kernel_pagetable r) (procs r)
    (initproc r) (nextpid r) (ticks r) (nswtch r) (slocks r) (bufs r) (lg r) (disk r)
    (dwrites r) (vd r) (sb r) v (files r) (pipes r) (devsw r) (cons_st r) (uart_st r) (mmio
    r) (pr_locking r) (panicked r) (started r) (first_ret r).
Definition with_files (v : list file) (r : kst) : kst :=
  Kst (regs r) (cpus r) (locks r) (mem r) (freelist r) (kernel_pagetable r) (procs r)
    (initproc r) (nextpid r) (ticks r) (nswtch r) (slocks r) (bufs r) (lg r) (disk r)
    (dwrites r) (vd r) (sb r) (inodes r) v (pipes r) (devsw r) (cons_st r) (uart_st r) (mmio
    r) (pr_locking r) (panicked r) (started r) (first_ret r).
Definition with_pipes (v : gmap Z pipe) (r : kst) : kst :=
  Kst (regs r) (cpus r) (locks r) (mem r) (freelist r) (kernel_pagetable r) (procs r)
    (initproc r) (nextpid r) (ticks r) (nswtch r) (slocks r) (bufs r) (lg r) (disk r)
    (dwrites r) (vd r) (sb r) (inodes r) (files r) v (devsw r) (cons_st r) (uart_st r) (mmio
    r) (pr_locking r) (panicked r) (started r) (first_ret r).
Definition with_devsw (v : list (option device)) (r : kst) : kst :=
  Kst (regs r) (cpus r) (locks r) (mem r) (freelist r) (kernel_pagetable r) (procs r)
    (initproc r) (nextpid r) (ticks r) (nswtch r) (slocks r) (bufs r) (lg r) (disk r)
    (dwrites r) (vd r) (sb r) (inodes r) (files r) (pipes r) v (cons_st r) (uart_st r) (mmio
    r) (pr_locking r) (panicked r) (started r) (first_ret r).
Definition with_cons_st (v : console) (r : kst) : kst :=
  Kst (regs r) (cpus r) (locks r) (mem r) (freelist r) (kernel_pagetable r) (procs r)
    (initproc r) (nextpid r) (ticks r) (nswtch r) (slocks r) (bufs r) (lg r) (disk r)
    (dwrites r) (vd r) (sb r) (inodes r) (files r) (pipes r) (devsw r) v (uart_st r) (mmio
    r) (pr_locking r) (panicked r) (started r) (first_ret r).
Definition with_uart_st (v : uart) (r : kst) : kst :=
  Kst (regs r) (cpus r) (locks r) (mem r) (freelist r) (kernel_pagetable r) (procs r)
    (initproc r) (nextpid r) (ticks r) (nswtch r) (slocks r) (bufs r) (lg r) (disk r)
    (dwrites r) (vd r) (sb r) (inodes r) (files r) (pipes r) (devsw r) (cons_st r) v (mmio
    r) (pr_locking r) (panicked r) (started r) (first_ret r).
Definition with_mmio (v : gmap Z Z) (r : kst) : kst :=
  Kst (regs r) (cpus r) (locks r) (mem r) (freelist r) (kernel_pagetable r) (procs r)
    (initproc r) (nextpid r) (ticks r) (nswtch r) (slocks r) (bufs r) (lg r) (disk r)
    (dwrites r) (vd r) (sb r) (inodes r) (files r) (pipes r) (devsw r) (cons_st r) (uart_st
    r) v (pr_locking r) (panicked r) (started r) (first_ret r).
Definition with_pr_locking (v : Z) (r : kst) : kst :=
  Kst (regs r) (cpus r) (locks r) (mem r) (freelist r) (kernel_pagetable r) (procs r)
    (initproc r) (nextpid r) (ticks r) (nswtch r) (slocks r) (bufs r) (lg r) (disk r)
    (dwrites r) (vd r) (sb r) (inodes r) (files r) (pipes r) (devsw r) (cons_st r) (uart_st
    r) (mmio r) v (panicked r) (started r) (first_ret r).
Definition with_panicked (v : Z) (r : kst) : kst :=
  Kst (regs r) (cpus r) (locks r) (mem r) (freelist r) (kernel_pagetable r) (procs r)
    (initproc r) (nextpid r) (ticks r) (nswtch r) (slocks r) (bufs r) (lg r) (disk r)
    (dwrites r) (vd r) (sb r) (inodes r) (files r) (pipes r) (devsw r) (cons_st r) (uart_st
    r) (mmio r) (pr_locking r) v (started r) (first_ret r).
Definition with_started (v : Z) (r : kst) : kst :=
  Kst (regs r) (cpus r) (locks r) (mem r) (freelist r) (kernel_pagetable r) (procs r)
    (initproc r) (nextpid r) (ticks r) (nswtch r) (slocks r) (bufs r) (lg r) (disk r)
    (dwrites r) (vd r) (sb r) (inodes r) (files r) (pipes r) (devsw r) (cons_st r) (uart_st
    r) (mmio r) (pr_locking r) (panicked r) v (first_ret r).
Definition with_first_ret (v : bool) (r : kst) : kst :=
  Kst (regs r) (cpus r) (locks r) (mem r) (freelist r) (kernel_pagetable r) (procs r)
    (initproc r) (nextpid r) (ticks r) (nswtch r) (slocks r) (bufs r) (lg r) (disk r)
    (dwrites r) (vd r) (sb r) (inodes r) (files r) (pipes r) (devsw r) (cons_st r) (uart_st
    r) (mmio r) (pr_locking r) (panicked r) (started r) v.

(** The kernel monad over this state. *)
Notation K := (M kst).

(** What the rest of the system does while this kernel thread is switched out:
    [env n s] is the state in which it is resumed after its [n]-th switch, [None] if
    it is never resumed. *)
Class environment := env : nat -> kst -> option kst.

(** The zero-initialised structures of the BSS. *)
Definition context0 : context := Context 0 0 (replicate 12 0).
Definition cpu0 : cpu := Cpu None context0 0 0.
Definition proc0 : proc :=
  Proc UNUSED Ch_null 0 0 0 0 0 0 0 0 0 None 0 0 0 0 context0
    (replicate NOFILE None) None (replicate 16 0).
Definition spinlock0 : spinlock := Spinlock 0 EmptyString None.
Definition csrs0 : csrs := Csrs 0 0 0 0 0 0 0 0.
Definition sleeplock0 : sleeplock := Sleeplock 0 EmptyString 0.
Definition buf0 : buf := Buf 0 0 0 0 0 0 0 (replicate 1024 0).
Definition log0 : log := Log 0 0 0 0 0 0 (replicate (Z.to_nat LOGSIZE) 0).
Definition superblock0 : superblock := Superblock 0 0 0 0 0 0 0 0.
Definition inode0 : inode := Inode 0 0 0 0 0 0 0 0 0 (replicate 13 0).
Definition file0 : file := File FD_NONE 0 0 0 0 None 0 0.
Definition pipe0 : pipe := Pipe (replicate 512 0) 0 0 0 0.
Definition vdesc0 : vdesc := Vdesc A_null 0 0 0.
Definition vreq0 : vreq := Vreq 0 0 0.
Definition vdisk0 : vdisk :=
  Vdisk 0 0 0 (replicate 8 vdesc0) 0 (replicate 8 0) 0 (replicate 8 0) (replicate 8 0) 0
    (replicate 8 None) (replicate 8 0) (replicate 8 vreq0).
Definition console0 : console := Console (replicate 128 0) 0 0 0.
Definition uart0 : uart := Uart (replicate 32 0) 0 0 0 0 0 0 0 [] [] [].
Definition kst0 : kst :=
  Kst csrs0 (replicate NCPU cpu0) ∅ ∅ 0 0 (replicate NPROC proc0) None 1 0 0
    ∅ (replicate (S NBUF) buf0) log0 ∅ [] vdisk0 superblock0 (replicate NINODE inode0)
    (replicate NFILE file0) ∅ (replicate 10 None) console0 uart0 ∅ 0 0 0 true.

(** ** Access to the tables *)

Definition pget (i : nat) : K proc := gets (fun s => default proc0 (procs s !! i)).
Definition pset (i : nat) (f : proc -> proc) : K unit :=
  modify (fun s => with_procs (alter f i (procs s)) s).
Definition plist : list nat := seq 0 NPROC.
Definition bufget (i : nat) : K buf := gets (fun s => default buf0 (bufs s !! i)).
Definition bufset (i : nat) (f : buf -> buf) : K unit :=
  modify (fun s => with_bufs (alter f i (bufs s)) s).
Definition lgset (f : log -> log) : K unit := modify (fun s => with_lg (f (lg s)) s).
Definition vdset (f : vdisk -> vdisk) : K unit := modify (fun s => with_vd (f (vd s)) s).
Definition ipget (i : nat) : K inode := gets (fun s => default inode0 (inodes s !! i)).
Definition ipset (i : nat) (f : inode -> inode) : K unit :=
  modify (fun s => with_inodes (alter f i (inodes s)) s).
Definition fget (i : nat) : K file := gets (fun s => default file0 (files s !! i)).
Definition fset (i : nat) (f : file -> file) : K unit :=
  modify (fun s => with_files (alter f i (files s)) s).
Definition piget (pa : Z) : K pipe := gets (fun s => default pipe0 (pipes s !! pa)).
Definition piset (pa : Z) (f : pipe -> pipe) : K unit :=
  modify (fun s => with_pipes (<[pa := f (default pipe0 (pipes s !! pa))]> (pipes s)) s).
Definition consset (f : console -> console) : K unit :=
  modify (fun s => with_cons_st (f (cons_st s)) s).
Definition uartset (f : uart -> uart) : K unit :=
  modify (fun s => with_uart_st (f (uart_st s)) s).

(** A memory-mapped register holds what was last written to it; what a device does to its
    registers happens in the environment. *)
Definition mmio_rd (a : Z) : K Z := gets (fun s => default 0 (mmio s !! a)).
Definition mmio_wr (a v : Z) : K unit := modify (fun s => with_mmio (<[a := v]> (mmio s)) s).

(** Normalises updates and projections of [kst] in the goal. *)
Ltac kst_cbv :=
  cbv beta iota delta [
    regs cpus locks mem freelist kernel_pagetable procs initproc nextpid ticks nswtch
    slocks bufs lg disk dwrites vd sb inodes files pipes devsw cons_st uart_st mmio
    pr_locking panicked started first_ret with_regs with_cpus with_locks with_mem
    with_freelist with_kernel_pagetable with_procs with_initproc with_nextpid with_ticks
    with_nswtch with_slocks with_bufs with_lg with_disk with_dwrites with_vd with_sb
    with_inodes with_files with_pipes with_devsw with_cons_st with_uart_st with_mmio
    with_pr_locking with_panicked with_started with_first_ret].
