(* ===== verification/Spinlock.v ===== *)
(** * Spin locks: kernel/spinlock.c

    [push_off]/[pop_off], [acquire], [release] and [holding] as the hart that runs
    them sees them, and (module [Contention]) the same code run by several harts
    that interleave at every access to the lock. *)

From S2P Require Import Prelude Riscv Memory State.

(** ** riscv.h: interrupt enable of this hart *)

Definition r_sstatus : K Z := gets (fun s => sstatus (regs s)).
Definition w_sstatus (x : Z) : K unit :=
  modify (fun s => with_regs (with_sstatus x (regs s)) s).

Definition intr_on : K unit := x <- r_sstatus;; w_sstatus (Z.lor x SSTATUS_SIE).
Definition intr_off : K unit :=
  x <- r_sstatus;; w_sstatus (Z.land x (Z.lnot SSTATUS_SIE)).
Definition intr_get : K Z :=
  x <- r_sstatus;; ret (if Z.land x SSTATUS_SIE =? 0 then 0 else 1).

(** ** proc.c: cpuid and mycpu *)

Definition cpuid : K Z := gets (fun s => i32 (tp (regs s))).
(** A [struct cpu *] is the index in [cpus]. *)
Definition mycpu : K nat := id <- cpuid;; ret (Z.to_nat id).

Definition cget (i : nat) : K cpu := gets (fun s => default cpu0 (cpus s !! i)).
Definition cset (i : nat) (f : cpu -> cpu) : K unit :=
  modify (fun s => with_cpus (alter f i (cpus s)) s).

Definition lget (l : lockref) : K spinlock := gets (fun s => default spinlock0 (locks s !! l)).
Definition lset (l : lockref) (v : spinlock) : K unit :=
  modify (fun s => with_locks (<[l := v]> (locks s)) s).

(** ** spinlock.c *)

Definition initlock (l : lockref) (name : string) : K unit := lset l (Spinlock 0 name None).

Definition holding (l : lockref) : K bool :=
  lk <- lget l;;
  c <- mycpu;;
  ret (negb (locked lk =? 0) && bool_decide (lk_cpu lk = Some c)).

Definition push_off : K unit :=
  old <- intr_get;;
  intr_off;;
  c <- mycpu;;
  me <- cget c;;
  (if noff me =? 0 then cset c (with_intena old) else ret tt);;
  cset c (fun c => with_noff (noff c + 1) c).

Definition pop_off : K unit :=
  c <- mycpu;;
  i <- intr_get;;
  if negb (i =? 0) then panic "pop_off - interruptible" else
  me <- cget c;;
  if noff me <? 1 then panic "pop_off" else
  cset c (fun c => with_noff (noff c - 1) c);;
  me <- cget c;;
  if (noff me =? 0) && negb (intena me =? 0) then intr_on else ret tt.

(** [while(__sync_lock_test_and_set(&lk->locked, 1) != 0)]: no step of this hart
    ends the wait when another cpu holds the lock. *)
Definition test_and_set (l : lockref) : K unit :=
  lk <- lget l;;
  if locked lk =? 0 then lset l (with_locked 1 lk) else fun s => Spin s.

Definition acquire (l : lockref) : K unit :=
  push_off;;
  h <- holding l;;
  if h then panic "acquire" else
  test_and_set l;;
  c <- mycpu;;
  lk <- lget l;;
  lset l (with_lk_cpu (Some c) lk).

Definition release (l : lockref) : K unit :=
  h <- holding l;;
  if negb h then panic "release" else
  lk <- lget l;;
  lset l (with_lk_cpu None lk);;
  lk <- lget l;;
  lset l (with_locked 0 lk);;
  pop_off.

Create HintDb lock.

(** ** Closed forms

    [acquire] and [release] as state transformers, for the states in which they
    neither panic nor wait. *)

Definition me (s : kst) : nat := Z.to_nat (i32 (tp (regs s))).
Definition sie (s : kst) : Z := if Z.land (sstatus (regs s)) SSTATUS_SIE =? 0 then 0 else 1.
Definition lock_free (l : lockref) (s : kst) : Prop :=
  exists nm, locks s !! l = Some (Spinlock 0 nm None).
Definition lock_held (l : lockref) (s : kst) : Prop :=
  exists nm, locks s !! l = Some (Spinlock 1 nm (Some (me s))).

(** The hart is one of [cpus], and interrupts are off while [noff] is positive. *)
Definition hart_ok (s : kst) : Prop :=
  exists c, cpus s !! me s = Some c /\ 0 <= noff c /\ (0 < noff c -> sie s = 0).

Definition push_cpu (old : Z) (c : cpu) : cpu :=
  with_noff (noff c + 1) (if noff c =? 0 then with_intena old c else c).
Definition intr_off_regs (r : csrs) : csrs :=
  with_sstatus (Z.land (sstatus r) (Z.lnot SSTATUS_SIE)) r.
Definition intr_on_regs (r : csrs) : csrs := with_sstatus (Z.lor (sstatus r) SSTATUS_SIE) r.

Definition pushed (s : kst) : kst :=
  with_cpus (alter (push_cpu (sie s)) (me s) (cpus s)) (with_regs (intr_off_regs (regs s)) s).

Definition take_lock (l : lockref) (s : kst) : kst :=
  with_locks (<[l := Spinlock 1 (lk_name (default spinlock0 (locks s !! l))) (Some (me s))]>
    (locks s)) (pushed s).

Definition pop_regs (c : cpu) (r : csrs) : csrs :=
  if (noff c =? 1) && negb (intena c =? 0) then intr_on_regs r else r.
Definition popped (s : kst) : kst :=
  with_cpus (alter (fun c => with_noff (noff c - 1) c) (me s) (cpus s))
    (with_regs (pop_regs (default cpu0 (cpus s !! me s)) (regs s)) s).

Definition drop_lock (l : lockref) (s : kst) : kst :=
  popped (with_locks (<[l := Spinlock 0 (lk_name (default spinlock0 (locks s !! l))) None]>
    (locks s)) s).

(** What remains of an [acquire] and a [release]: [intena] of this cpu was saved if
    no other lock was held. *)
Definition touch_cpu (old : Z) (c : cpu) : cpu :=
  if noff c =? 0 then with_intena old c else c.
Definition touch (s : kst) : kst := with_cpus (alter (touch_cpu (sie s)) (me s) (cpus s)) s.

Lemma sie_cases s : sie s = 0 \/ sie s = 1.
Proof. unfold sie. destruct (_ =? 0); auto. Qed.

Lemma sie_off r : Z.land (sstatus (intr_off_regs r)) SSTATUS_SIE = 0.
Proof.
  simpl. rewrite <- Z.land_assoc, (Z.land_comm (Z.lnot _)), Z.land_lnot_diag.
  apply Z.land_0_r.
Qed.

Lemma sie_pushed s : sie (pushed s) = 0.
Proof. unfold sie, pushed. cbn [regs with_cpus with_regs]. by rewrite sie_off. Qed.

Lemma me_pushed s : me (pushed s) = me s.
Proof. done. Qed.

Lemma push_off_eq s c : cpus s !! me s = Some c -> push_off s = Ok tt (pushed s).
Proof.
  intros E.
  unfold push_off, intr_get, intr_off, mycpu, cpuid, cget, cset, r_sstatus, w_sstatus, pushed.
  unfold bind, gets, modify, ret. simpl.
  change (Z.to_nat (i32 (tp (regs s)))) with (me s). rewrite E. simpl.
  destruct (noff c =? 0) eqn:En; simpl; unfold with_cpus; simpl;
    rewrite ?list_alter_alter_eq; do 2 f_equal; apply list_alter_ext; try done;
    intros c' Hc'; simplify_eq; unfold push_cpu; simpl; by rewrite En.
Qed.

Lemma acquire_eq l s : hart_ok s -> lock_free l s -> acquire l s = Ok tt (take_lock l s).
Proof.
  intros (c & Ec & _) [nm El]. unfold acquire.
  erewrite bind_ok by by eapply push_off_eq.
  unfold holding, test_and_set, mycpu, cpuid, lget, lset, bind, gets, modify, ret.
  unfold take_lock. cbn [locks pushed with_cpus with_regs].
  repeat (rewrite El; simpl). rewrite lookup_insert_eq. simpl.
  unfold with_locks. simpl. by rewrite insert_insert_eq.
Qed.

Lemma pop_off_eq s c :
  cpus s !! me s = Some c -> sie s = 0 -> 1 <= noff c -> pop_off s = Ok tt (popped s).
Proof.
  intros Ec Hs Hn. unfold pop_off, intr_get, mycpu, cpuid, cget, cset, r_sstatus.
  unfold bind, gets, modify, ret. change (Z.to_nat (i32 (tp (regs s)))) with (me s).
  change (if _ =? 0 then 0 else 1) with (sie s). rewrite Hs. simpl. rewrite Ec. simpl.
  rewrite (proj2 (Z.ltb_ge (noff c) 1)) by lia. simpl.
  rewrite list_lookup_alter_eq, Ec. simpl. unfold popped, pop_regs. rewrite Ec. simpl.
  replace (noff c - 1 =? 0) with (noff c =? 1) by lia.
  destruct ((noff c =? 1) && negb (intena c =? 0)); done.
Qed.

Lemma release_eq l s c :
  cpus s !! me s = Some c -> sie s = 0 -> 1 <= noff c -> lock_held l s ->
  release l s = Ok tt (drop_lock l s).
Proof.
  intros Ec Hs Hn [nm El]. unfold release, holding, mycpu, cpuid, lget, lset.
  unfold bind, gets, modify, ret. change (Z.to_nat (i32 (tp (regs s)))) with (me s).
  rewrite El. simpl. rewrite bool_decide_eq_true_2 by done. simpl.
  rewrite lookup_insert_eq. simpl. rewrite insert_insert_eq.
  erewrite pop_off_eq by done. unfold drop_lock. rewrite El. done.
Qed.

(** ** Acquire and release compose *)

Lemma hart_ok_me s : hart_ok s -> exists c, cpus s !! me s = Some c.
Proof. intros (c & ? & _). eauto. Qed.

Lemma take_lock_held l s : lock_held l (take_lock l s).
Proof. eexists. unfold take_lock. simpl. by rewrite lookup_insert_eq. Qed.

Lemma take_lock_hart l s :
  hart_ok s ->
  exists c, cpus (take_lock l s) !! me s = Some c /\ 1 <= noff c /\ sie (take_lock l s) = 0.
Proof.
  intros (c & Ec & Hn & _). exists (push_cpu (sie s) c). split; [|split].
  - simpl. rewrite list_lookup_alter_eq, Ec. done.
  - simpl. lia.
  - apply (sie_pushed s).
Qed.

Lemma take_lock_hart_ok l s : hart_ok s -> hart_ok (take_lock l s).
Proof.
  intros H. destruct (take_lock_hart l s H) as (c & ? & ? & ?).
  exists c. split; [done|]. split; [lia|done].
Qed.

Lemma release_take_lock l s f :
  hart_ok s ->
  regs (f (take_lock l s)) = regs (take_lock l s) ->
  cpus (f (take_lock l s)) = cpus (take_lock l s) ->
  locks (f (take_lock l s)) !! l = locks (take_lock l s) !! l ->
  release l (f (take_lock l s)) = Ok tt (drop_lock l (f (take_lock l s))).
Proof.
  intros H Hr Hc Hl. destruct (take_lock_hart l s H) as (c & Ec & Hn & Hs).
  assert (me (f (take_lock l s)) = me s) as Hme by by unfold me; rewrite Hr.
  eapply release_eq; [by rewrite Hme, Hc| |done|].
  - unfold sie. by rewrite Hr.
  - unfold lock_held. rewrite Hme, Hl. apply take_lock_held.
Qed.

Lemma intr_restore r :
  Z.land (sstatus r) SSTATUS_SIE <> 0 -> intr_on_regs (intr_off_regs r) = r.
Proof.
  intros H. destruct r as [x ???????]. unfold intr_on_regs, intr_off_regs, with_sstatus.
  simpl in *. f_equal. change SSTATUS_SIE with (2 ^ 1) in *.
  assert (Z.testbit x 1 = true) as Hb.
  { apply not_false_iff_true. intros E. apply H. apply Z.bits_inj'. intros n Hn.
    rewrite Z.land_spec, Z.bits_0, Z.pow2_bits_eqb by lia.
    destruct (Z.eqb_spec 1 n) as [<-|]; [by rewrite E|by rewrite andb_false_r]. }
  apply Z.bits_inj'. intros n Hn.
  rewrite Z.lor_spec, Z.land_spec, Z.lnot_spec, Z.pow2_bits_eqb by lia.
  destruct (Z.eqb_spec 1 n) as [<-|]; simpl; [by rewrite orb_true_r|].
  by rewrite orb_false_r, andb_true_r.
Qed.

Lemma intr_off_id r : Z.land (sstatus r) SSTATUS_SIE = 0 -> intr_off_regs r = r.
Proof.
  intros H. destruct r as [x ???????]. unfold intr_off_regs, with_sstatus. simpl in *. f_equal.
  change SSTATUS_SIE with (2 ^ 1) in *.
  assert (Z.testbit x 1 = false) as Hb.
  { apply (f_equal (fun z => Z.testbit z 1)) in H.
    rewrite Z.land_spec, Z.pow2_bits_true, Z.bits_0, andb_true_r in H by lia. done. }
  apply Z.bits_inj'. intros n Hn.
  rewrite Z.land_spec, Z.lnot_spec, Z.pow2_bits_eqb by lia.
  destruct (Z.eqb_spec 1 n) as [<-|]; cbn [negb]; [by rewrite Hb|by rewrite andb_true_r].
Qed.

Lemma pop_push_regs s c :
  0 <= noff c -> (0 < noff c -> sie s = 0) ->
  pop_regs (push_cpu (sie s) c) (intr_off_regs (regs s)) = regs s.
Proof.
  intros Hn Hi. unfold pop_regs, push_cpu. unfold sie in *.
  destruct (Z.eqb_spec (noff c) 0) as [E0|E0]; simpl.
  - rewrite E0. simpl. destruct (Z.eqb_spec (Z.land (sstatus (regs s)) SSTATUS_SIE) 0); simpl.
    + by apply intr_off_id.
    + by apply intr_restore.
  - rewrite (proj2 (Z.eqb_neq (noff c + 1) 1)) by lia. simpl. apply intr_off_id.
    destruct (Z.eqb_spec (Z.land (sstatus (regs s)) SSTATUS_SIE) 0); [done|].
    specialize (Hi ltac:(lia)). done.
Qed.

Lemma pop_push_cpu old c : with_noff (noff (push_cpu old c) - 1) (push_cpu old c) = touch_cpu old c.
Proof.
  unfold touch_cpu, push_cpu. destruct c as [p x n i]. simpl.
  destruct (n =? 0); unfold with_noff, with_intena; simpl; f_equal; lia.
Qed.

Lemma popped_pushed s : hart_ok s -> popped (pushed s) = touch s.
Proof.
  intros (c & Ec & Hn & Hi). unfold popped. rewrite me_pushed.
  assert (cpus (pushed s) !! me s = Some (push_cpu (sie s) c)) as Ec'.
  { unfold pushed. simpl. by rewrite list_lookup_alter_eq, Ec. }
  rewrite Ec'. unfold touch, pushed, with_cpus, with_regs. simpl.
  rewrite pop_push_regs by done. f_equal. rewrite list_alter_alter_eq.
  apply list_alter_ext; [|done]. intros c' _. apply pop_push_cpu.
Qed.

(** Releasing what was acquired restores the state up to [intena]. *)
Lemma drop_take l s : hart_ok s -> lock_free l s -> drop_lock l (take_lock l s) = touch s.
Proof.
  intros H [nm El]. rewrite <- popped_pushed by done. unfold drop_lock, take_lock.
  change (locks (with_locks ?x _)) with x. rewrite lookup_insert_eq, El. simpl default.
  cbn [lk_name]. change (locks (with_locks ?x _)) with x.
  rewrite insert_insert_eq, insert_id by done.
  unfold popped, pushed, with_locks. done.
Qed.

(** This hart holds [l], with interrupts off. *)
Definition held_ok (l : lockref) (s : kst) : Prop :=
  lock_held l s /\ exists c, cpus s !! me s = Some c /\ 1 <= noff c /\ sie s = 0.

Lemma held_take l s : hart_ok s -> held_ok l (take_lock l s).
Proof. intros H. split; [apply take_lock_held|]. exact (take_lock_hart l s H). Qed.

Lemma release_held l s : held_ok l s -> release l s = Ok tt (drop_lock l s).
Proof. intros [Hl (c & ? & ? & ?)]. by eapply release_eq. Qed.

Lemma touch_id s c : cpus s !! me s = Some c -> 0 < noff c -> touch s = s.
Proof.
  intros Ec Hn. unfold touch.
  assert (alter (touch_cpu (sie s)) (me s) (cpus s) = cpus s) as ->; [|by destruct s].
  apply list_eq. intros i. rewrite list_lookup_alter. case_decide; [subst|done].
  rewrite Ec. simpl. f_equal. unfold touch_cpu. by rewrite (proj2 (Z.eqb_neq (noff c) 0)) by lia.
Qed.

Lemma touch_held l s : held_ok l s -> touch s = s.
Proof. intros [_ (c & ? & ? & ?)]. eapply touch_id; [done|lia]. Qed.

Lemma touch_touch s : touch (touch s) = touch s.
Proof.
  unfold touch. simpl. change (me (with_cpus _ s)) with (me s).
  change (sie (with_cpus _ s)) with (sie s). unfold with_cpus. simpl. f_equal.
  rewrite list_alter_alter_eq. apply list_alter_ext; [|done]. intros c _.
  unfold compose, touch_cpu. by destruct (noff c =? 0) eqn:E; simpl; rewrite E.
Qed.

Lemma touch_hart_ok s : hart_ok s -> hart_ok (touch s).
Proof.
  intros (c & Ec & Hn & Hi). exists (touch_cpu (sie s) c). split; [|split].
  - unfold touch. simpl. change (me (with_cpus _ s)) with (me s).
    by rewrite list_lookup_alter_eq, Ec.
  - unfold touch_cpu. by destruct (noff c =? 0).
  - change (sie (touch s)) with (sie s). unfold touch_cpu.
    destruct (noff c =? 0); simpl; done.
Qed.

Lemma held_hart_ok l s : held_ok l s -> hart_ok s.
Proof. intros [_ (c & ? & ? & ?)]. exists c. split; [done|]. split; [lia|done]. Qed.

Lemma take_lock_other l l' s : l <> l' -> lock_free l' s -> lock_free l' (take_lock l s).
Proof.
  intros Hne [nm H]. exists nm. unfold take_lock. simpl. by rewrite lookup_insert_ne.
Qed.

#[export] Hint Resolve held_take take_lock_hart_ok touch_hart_ok held_hart_ok : lock.

Lemma release_take l s :
  hart_ok s -> lock_free l s -> release l (take_lock l s) = Ok tt (touch s).
Proof. intros Hh Hl. rewrite release_held by auto with lock. by rewrite drop_take. Qed.

(** ** Framing

    An update that neither reads nor writes the registers, the cpus and the locks
    commutes with locking. *)

Definition with_rcl (r : csrs) (c : list cpu) (l : gmap lockref spinlock) (s : kst) : kst :=
  with_regs r (with_cpus c (with_locks l s)).

Definition framed (f : kst -> kst) : Prop :=
  forall r c l s, f (with_rcl r c l s) = with_rcl r c l (f s).

Lemma framed_fields f s :
  framed f -> regs (f s) = regs s /\ cpus (f s) = cpus s /\ locks (f s) = locks s.
Proof.
  intros Hf. specialize (Hf (regs s) (cpus s) (locks s) s).
  assert (with_rcl (regs s) (cpus s) (locks s) s = s) as E by by destruct s.
  rewrite E in Hf. rewrite Hf. done.
Qed.

Lemma framed_take f l s : framed f -> f (take_lock l s) = take_lock l (f s).
Proof.
  intros Hf. destruct (framed_fields f s Hf) as (Hr & Hc & Hl).
  unfold take_lock, pushed, me, sie. rewrite Hr, Hc, Hl. refine (Hf _ _ _ s).
Qed.

Lemma framed_touch f s : framed f -> f (touch s) = touch (f s).
Proof.
  intros Hf. destruct (framed_fields f s Hf) as (Hr & Hc & Hl).
  unfold touch, me, sie. rewrite Hr, Hc.
  pose proof (Hf (regs s) (alter (touch_cpu (if Z.land (sstatus (regs s)) SSTATUS_SIE =? 0 then 0 else 1))
    (Z.to_nat (i32 (tp (regs s)))) (cpus s)) (locks s) s) as E.
  replace (with_rcl (regs s) _ (locks s) s) with
    (with_cpus (alter (touch_cpu (if Z.land (sstatus (regs s)) SSTATUS_SIE =? 0 then 0 else 1))
    (Z.to_nat (i32 (tp (regs s)))) (cpus s)) s) in E by by destruct s.
  rewrite E. rewrite <- Hr at 1. rewrite <- Hl. by destruct (f s).
Qed.

Lemma framed_hart f s : framed f -> hart_ok s -> hart_ok (f s).
Proof.
  intros Hf. destruct (framed_fields f s Hf) as (Hr & Hc & Hl).
  unfold hart_ok, me, sie. by rewrite Hr, Hc.
Qed.

Lemma framed_free f l s : framed f -> lock_free l s -> lock_free l (f s).
Proof.
  intros Hf. destruct (framed_fields f s Hf) as (Hr & Hc & Hl). unfold lock_free. by rewrite Hl.
Qed.

(** The end of a critical section whose body was the framed update [f]. *)
Lemma release_framed f l s :
  framed f -> hart_ok s -> lock_free l s ->
  release l (f (take_lock l s)) = Ok tt (f (touch s)).
Proof.
  intros Hf Hh Hl. rewrite framed_take, framed_touch by done.
  apply release_take; [by apply framed_hart|by apply framed_free].
Qed.

Ltac solve_framed := intros ? ? ? ?; unfold with_rcl; kst_cbv; reflexivity.

(** Several harts contending for one lock. *)
Module Contention.

(** Where a hart is in [acquire] or [release] of the lock. *)
Inductive pc : Type :=
| Outside          (* not in a critical section of this lock *)
| Swap             (* at the amoswap of acquire's loop *)
| SetCpu           (* swap returned 0: about to write lk->cpu *)
| Critical         (* acquire returned *)
| ClearCpu         (* in release, after the holding() test *)
| Unlock.          (* lk->cpu cleared: about to write lk->locked *)

Record sys := Sys {
  word : Z;                (* lk->locked *)
  owner : option nat;      (* lk->cpu *)
  at_pc : nat -> pc;
}.

Definition move (h : nat) (p : pc) (f : nat -> pc) : nat -> pc :=
  fun k => if decide (k = h) then p else f k.

(** [holding(lk)] evaluated by hart [h]. *)
Definition holds (h : nat) (s : sys) : bool :=
  negb (word s =? 0) && bool_decide (owner s = Some h).

Inductive step : sys -> sys -> Prop :=
| acquire_enter h s : at_pc s h = Outside -> holds h s = false ->
    step s (Sys (word s) (owner s) (move h Swap (at_pc s)))
| acquire_spin h s : at_pc s h = Swap -> word s <> 0 ->
    step s (Sys 1 (owner s) (at_pc s))
| acquire_swap h s : at_pc s h = Swap -> word s = 0 ->
    step s (Sys 1 (owner s) (move h SetCpu (at_pc s)))
| acquire_set h s : at_pc s h = SetCpu ->
    step s (Sys (word s) (Some h) (move h Critical (at_pc s)))
| release_enter h s : at_pc s h = Critical -> holds h s = true ->
    step s (Sys (word s) (owner s) (move h ClearCpu (at_pc s)))
| release_clear h s : at_pc s h = ClearCpu ->
    step s (Sys (word s) None (move h Unlock (at_pc s)))
| release_unlock h s : at_pc s h = Unlock ->
    step s (Sys 0 (owner s) (move h Outside (at_pc s))).

(** After [initlock], no hart has started. *)
Definition init : sys := Sys 0 None (fun _ => Outside).

Inductive reachable : sys -> Prop :=
| reach_init : reachable init
| reach_step s s' : reachable s -> step s s' -> reachable s'.

Definition inside (p : pc) : bool :=
  match p with Outside | Swap => false | _ => true end.

(** The lock word is set exactly when one hart is inside, that hart is unique, and
    [lk->cpu] names it from [SetCpu] on until it is cleared. *)
Definition inv (s : sys) : Prop :=
  (word s = 0 /\ owner s = None /\ forall h, inside (at_pc s h) = false) \/
  (word s = 1 /\ exists h, inside (at_pc s h) = true /\
     (forall k, k <> h -> inside (at_pc s k) = false) /\
     owner s = match at_pc s h with Critical | ClearCpu => Some h | _ => None end).

Lemma step_inv s s' : inv s -> step s s' -> inv s'.
Proof.
  intros Hinv Hstep. unfold inv in *.
  destruct Hstep as [h s Hp Ho|h s Hp Hw|h s Hp Hw|h s Hp|h s Hp Ho|h s Hp|h s Hp]; simpl.
  all: destruct Hinv as [(Hw' & Ho' & Hall)|(Hw' & g & Hg & Hall & Ho')];
    try (exfalso; lia); try (specialize (Hall h); rewrite Hp in Hall; done).
  - left. split_and!; [done..|]. intros k. unfold move. by case_decide.
  - right. split; [done|]. exists g. unfold move.
    assert (g <> h) by (intros ->; rewrite Hp in Hg; done).
    rewrite decide_False by done. split_and!; [done| |done].
    intros k Hk. case_decide; [done|]. by apply Hall.
  - right. split; [done|]. by exists g.
  - right. split; [done|]. exists h. unfold move. rewrite decide_True by done.
    split_and!; [done| |done]. intros k Hk. by rewrite decide_False.
  - assert (g = h) as -> by (destruct (decide (g = h)); [done|];
      specialize (Hall h); rewrite Hp in Hall; naive_solver).
    right. split; [done|]. exists h. unfold move. rewrite decide_True by done.
    split_and!; [done| |done]. intros k Hk. rewrite decide_False by done. by apply Hall.
  - assert (g = h) as -> by (destruct (decide (g = h)); [done|];
      specialize (Hall h); rewrite Hp in Hall; naive_solver).
    right. split; [done|]. exists h. unfold move. rewrite decide_True by done.
    rewrite Hp in Ho'. split_and!; [done| |done].
    intros k Hk. rewrite decide_False by done. by apply Hall.
  - assert (g = h) as -> by (destruct (decide (g = h)); [done|];
      specialize (Hall h); rewrite Hp in Hall; naive_solver).
    right. split; [done|]. exists h. unfold move. rewrite decide_True by done.
    split_and!; [done| |done]. intros k Hk. rewrite decide_False by done. by apply Hall.
  - assert (g = h) as -> by (destruct (decide (g = h)); [done|];
      specialize (Hall h); rewrite Hp in Hall; naive_solver).
    left. rewrite Hp in Ho'. split_and!; [done..|]. intros k. unfold move.
    case_decide; [done|]. by apply Hall.
Qed.

Lemma reachable_inv s : reachable s -> inv s.
Proof. induction 1; [left; done|by eapply step_inv]. Qed.

End Contention.

(** [n] nested calls. *)
Fixpoint times (n : nat) (m : K unit) : K unit :=
  match n with O => ret tt | S k => m;; times k m end.

Lemma pop_off_pushed s : hart_ok s -> pop_off (pushed s) = Ok tt (popped (pushed s)).
Proof.
  intros (c & Ec & Hn & _). apply pop_off_eq with (push_cpu (sie s) c).
  - rewrite me_pushed. simpl. by rewrite list_lookup_alter_eq, Ec.
  - apply sie_pushed.
  - simpl. lia.
Qed.

Lemma pushed_hart_ok s : hart_ok s -> hart_ok (pushed s).
Proof. exact (take_lock_hart_ok L_kmem s). Qed.

Lemma touch_pushed s : hart_ok s -> touch (pushed s) = pushed s.
Proof.
  intros (c & Ec & Hn & _). apply touch_id with (push_cpu (sie s) c); [|simpl; lia].
  rewrite me_pushed. simpl. by rewrite list_lookup_alter_eq, Ec.
Qed.

Lemma times_snoc n (m : K unit) s a s1 :
  times n m s = Ok a s1 -> times (S n) m s = m s1.
Proof.
  revert s. induction n as [|n IH]; intros s H.
  - cbn in *. unfold ret in H. simplify_eq. unfold bind, ret. by destruct (m s1) as [[]| | | |].
  - cbn [times] in H. apply bind_inv in H as ([] & s2 & H1 & H2).
    change (times (S (S n)) m) with (m;; times (S n) m).
    by rewrite (bind_ok _ _ _ _ _ H1), (IH s2).
Qed.

(** [push_off] and [pop_off] are matched: after [n] calls of [push_off] and
    [n] calls of [pop_off] the nesting depth, the interrupt-enable bit and every
    other part of the state are as before, except the saved [intena] of this cpu. *)
Theorem push_pop_matched n s :
  hart_ok s ->
  (times (S n) push_off;; times (S n) pop_off) s = Ok tt (touch s).
Proof.
  revert s. induction n as [|n IH]; intros s H; destruct (hart_ok_me s H) as [c Ec].
  - cbn [times]. rewrite bind_assoc, (bind_ok _ _ _ _ _ (push_off_eq s c Ec)). unfold ret, bind.
    by rewrite pop_off_pushed, popped_pushed.
  - change (times (S (S n)) push_off) with (push_off;; times (S n) push_off).
    rewrite bind_assoc, (bind_ok _ _ _ _ _ (push_off_eq s c Ec)).
    specialize (IH (pushed s) (pushed_hart_ok s H)).
    apply bind_inv in IH as ([] & s1 & H1 & H2).
    rewrite (bind_ok _ _ _ _ _ H1), (times_snoc _ _ _ _ _ H2).
    by rewrite touch_pushed, pop_off_pushed, popped_pushed.
Qed.

(** A hart with interrupts on and no lock held. *)
Definition boot_state : kst :=
  with_regs (with_sstatus SSTATUS_SIE csrs0) kst0.

Lemma boot_hart_ok : hart_ok boot_state.
Proof. exists cpu0. split; [done|]. simpl. split; lia. Qed.

Lemma push_pop_matched_witness :
  (times 3 push_off;; times 3 pop_off) boot_state = Ok tt (touch boot_state) /\
  sie (touch boot_state) = 1.
Proof. split; [exact (push_pop_matched 2 boot_state boot_hart_ok)|done]. Defined.


