(* ===== verification/Sched.v ===== *)
(** * Scheduling, sleep and wakeup: kernel/proc.c, first part

    A kernel thread gives up its hart in [sched] by calling [swtch].  What happens until
    it is resumed is the [environment]; the thread itself only continues from the state
    it is resumed in. *)

From S2P Require Import Prelude Riscv Memory State Spinlock.

Section sched.
Context `{environment}.

(** Dereferencing a null pointer faults in the kernel, which ends in kerneltrap's panic. *)
Definition deref {A} (p : option A) : K A :=
  match p with Some i => ret i | None => panic "kerneltrap" end.

Definition myproc : K (option nat) :=
  push_off;;
  c <- mycpu;;
  cp <- cget c;;
  pop_off;;
  ret (c_proc cp).

(** [myproc()] where the code goes on to dereference it. *)
Definition curproc : K nat := p <- myproc;; deref p.

(** kernel/swtch.S: saves this thread's registers, continues in another thread, and returns when
    some hart switches back. *)
Definition swtch : K unit := fun s =>
  match env (nswtch s) s with
  | Some s' => Ok tt (with_nswtch (S (nswtch s)) s')
  | None => Gone s
  end.

Definition sched : K unit :=
  p <- curproc;;
  h <- holding (L_proc p);;
  if negb h then panic "sched p->lock" else
  c <- mycpu;;
  cp <- cget c;;
  if negb (noff cp =? 1) then panic "sched locks" else
  pr <- pget p;;
  if decide (p_state pr = RUNNING) then panic "sched running" else
  i <- intr_get;;
  if negb (i =? 0) then panic "sched interruptible" else
  let intena := intena cp in
  swtch;;
  c <- mycpu;;
  cset c (with_intena intena).

Definition yield : K unit :=
  p <- curproc;;
  acquire (L_proc p);;
  pset p (with_p_state RUNNABLE);;
  pset p (fun pr => with_preemptCount (i32 (preemptCount pr + 1)) pr);;
  sched;;
  release (L_proc p).

Definition sleep (ch : chan) (lk : lockref) : K unit :=
  p <- curproc;;
  acquire (L_proc p);;
  release lk;;
  pset p (fun pr => with_sleepCount (i32 (sleepCount pr + 1)) pr);;
  pset p (with_p_chan ch);;
  pset p (with_p_state SLEEPING);;
  sched;;
  pset p (with_p_chan Ch_null);;
  release (L_proc p);;
  acquire lk.

Definition wakeup (ch : chan) : K unit :=
  forM plist (fun i =>
    p <- myproc;;
    if decide (Some i <> p) then
      acquire (L_proc i);;
      pr <- pget i;;
      (if decide (p_state pr = SLEEPING /\ p_chan pr = ch)
       then pset i (with_p_state RUNNABLE) else ret tt);;
      release (L_proc i)
    else ret tt).

Definition kill (pid : Z) : K Z :=
  r <- searchM plist (fun i =>
    acquire (L_proc i);;
    pr <- pget i;;
    if p_pid pr =? pid then
      pset i (with_p_killed 1);;
      (if decide (p_state pr = SLEEPING) then pset i (with_p_state RUNNABLE) else ret tt);;
      release (L_proc i);;
      ret (Some 0)
    else
      release (L_proc i);;
      ret None);;
  ret (default (-1) r).

Definition setkilled (p : nat) : K unit :=
  acquire (L_proc p);;
  pset p (with_p_killed 1);;
  release (L_proc p).

Definition killed (p : nat) : K Z :=
  acquire (L_proc p);;
  pr <- pget p;;
  let k := p_killed pr in
  release (L_proc p);;
  ret k.

(** One slot of [scheduler]'s inner loop: run the process if it is runnable. *)
Definition scheduler_slot (c i : nat) : K unit :=
  acquire (L_proc i);;
  pr <- pget i;;
  (if decide (p_state pr = RUNNABLE) then
     pset i (with_p_state RUNNING);;
     pset i (fun pr => with_runCount (i32 (runCount pr + 1)) pr);;
     cset c (with_c_proc (Some i));;
     swtch;;
     cset c (with_c_proc None)
   else ret tt);;
  release (L_proc i).

(** One round of [scheduler]'s [for(;;)]. *)
Definition scheduler_round (c : nat) : K unit :=
  intr_on;;
  forM plist (scheduler_slot c).

(** [scheduler] never returns; [n] rounds of it. *)
Fixpoint scheduler_rounds (n c : nat) : K unit :=
  match n with O => ret tt | S n => scheduler_round c;; scheduler_rounds n c end.

Definition scheduler (n : nat) : K unit :=
  c <- mycpu;;
  cset c (with_c_proc None);;
  scheduler_rounds n c.

(** ** Facts *)

(** The process running on this hart. *)
Definition cur (s : kst) : option nat := c_proc (default cpu0 (cpus s !! me s)).

Lemma cur_touch s : cur (touch s) = cur s.
Proof.
  unfold cur, touch. change (me (with_cpus _ s)) with (me s). cbn [cpus with_cpus].
  rewrite list_lookup_alter_eq. destruct (cpus s !! me s) as [c|]; [|done]. simpl.
  unfold touch_cpu. by destruct (noff c =? 0).
Qed.

Lemma myproc_eq s : hart_ok s -> myproc s = Ok (cur s) (touch s).
Proof.
  intros Hh. pose proof Hh as (c & Ec & Hn & Hi). unfold myproc.
  rewrite (bind_ok _ _ _ _ _ (push_off_eq s c Ec)). unfold mycpu, cpuid, cget.
  rewrite bind_assoc, bind_gets, bind_ret, bind_gets.
  change (Z.to_nat (i32 (tp (regs (pushed s))))) with (me s).
  assert (cpus (pushed s) !! me s = Some (push_cpu (sie s) c)) as Ec'
    by (simpl; by rewrite list_lookup_alter_eq, Ec).
  rewrite Ec'. rewrite (bind_ok _ _ _ tt (touch s)).
  - unfold ret, cur. rewrite Ec. simpl. unfold push_cpu. by destruct (noff c =? 0).
  - rewrite (pop_off_eq (pushed s) (push_cpu (sie s) c)); [by rewrite popped_pushed|done|apply sie_pushed|simpl; lia].
Qed.

Lemma curproc_eq s p : hart_ok s -> cur s = Some p -> curproc s = Ok p (touch s).
Proof. intros Hh Hp. unfold curproc. rewrite (bind_ok _ _ _ _ _ (myproc_eq s Hh)), Hp. done. Qed.

(** A critical section of [proc[i].lock] that updates the process. *)
Definition upd (i : nat) (f : proc -> proc) (s : kst) : kst := with_procs (alter f i (procs s)) s.

Lemma upd_framed i f : framed (upd i f).
Proof. solve_framed. Qed.

Lemma pset_eq i f : pset i f = modify (upd i f).
Proof. done. Qed.

Lemma upd_id i (f : proc -> proc) s : (forall p, procs s !! i = Some p -> f p = p) -> upd i f s = s.
Proof.
  intros Hf. unfold upd. assert (alter f i (procs s) = procs s) as ->; [|by destruct s].
  apply list_eq. intros j. rewrite list_lookup_alter. case_decide; [subst|done].
  destruct (procs s !! j) as [p|] eqn:E; [|done]. simpl. by rewrite Hf.
Qed.

Lemma crit_upd l i f s :
  hart_ok s -> lock_free l s ->
  (acquire l;; pset i f;; release l)%M s = Ok tt (upd i f (touch s)).
Proof.
  intros Hh Hl. rewrite (bind_ok _ _ _ _ _ (acquire_eq l s Hh Hl)), pset_eq, bind_modify.
  by apply (release_framed (upd i f)); [apply upd_framed|..].
Qed.

Lemma setkilled_eq p s :
  hart_ok s -> lock_free (L_proc p) s -> setkilled p s = Ok tt (upd p (with_p_killed 1) (touch s)).
Proof. apply crit_upd. Qed.

Lemma killed_eq p s :
  hart_ok s -> lock_free (L_proc p) s ->
  killed p s = Ok (p_killed (default proc0 (procs s !! p))) (touch s).
Proof.
  intros Hh Hl. unfold killed. rewrite (bind_ok _ _ _ _ _ (acquire_eq _ s Hh Hl)).
  unfold pget. rewrite bind_gets. cbv zeta.
  by rewrite (bind_ok _ _ _ _ _ (release_take _ s Hh Hl)).
Qed.

(** ** wakeup *)

Definition wake_one (ch : chan) (p : proc) : proc :=
  if decide (p_state p = SLEEPING /\ p_chan p = ch) then with_p_state RUNNABLE p else p.

(** The table after [wakeup(ch)] called by process [self]. *)
Definition wake (ch : chan) (self : option nat) (ps : list proc) : list proc :=
  imap (fun i p => if decide (Some i <> self) then wake_one ch p else p) ps.

Definition wake_slot (ch : chan) (self : option nat) (ps : list proc) (i : nat) : list proc :=
  if decide (Some i <> self) then alter (wake_one ch) i ps else ps.

Lemma wake_slots ch self ps l :
  NoDup l -> forall j, foldl (wake_slot ch self) ps l !! j =
    (fun p => if decide (j ∈ l /\ Some j <> self) then wake_one ch p else p) <$> ps !! j.
Proof.
  revert ps. induction l as [|i l IH]; intros ps Hnd j; cbn [foldl].
  - destruct (ps !! j); [|done]. unfold fmap, option_fmap, option_map.
    rewrite decide_False; [done|]. by intros [?%elem_of_nil _].
  - apply NoDup_cons in Hnd as [Hi Hnd]. rewrite IH by done. unfold wake_slot.
    destruct (decide (Some i <> self)) as [Hs|Hs].
    + rewrite list_lookup_alter. destruct (decide (i = j)) as [->|Hne].
      * destruct (ps !! j); [|done]. unfold fmap, option_fmap, option_map. rewrite decide_False by tauto.
        rewrite decide_True; [done|]. split; [by left|done].
      * destruct (ps !! j); [|done]. unfold fmap, option_fmap, option_map. f_equal. apply decide_ext.
        rewrite elem_of_cons. naive_solver.
    + destruct (ps !! j); [|done]. unfold fmap, option_fmap, option_map. f_equal. apply decide_ext.
      rewrite elem_of_cons. destruct (decide (j = i)) as [->|]; naive_solver.
Qed.

Lemma wake_fold ch self ps : length ps = NPROC -> foldl (wake_slot ch self) ps plist = wake ch self ps.
Proof.
  intros Hl. apply list_eq. intros j. rewrite wake_slots by apply NoDup_seq. unfold wake.
  rewrite list_lookup_imap. destruct (ps !! j) eqn:E; [|done]. simpl. f_equal. apply decide_ext.
  apply lookup_lt_Some in E. unfold plist. rewrite elem_of_seq. rewrite Hl in E. split; [tauto|]. split; [lia|done].
Qed.

Definition proc_locks_free (self : option nat) (s : kst) : Prop :=
  forall i, (i < NPROC)%nat -> Some i <> self -> lock_free (L_proc i) s.

(** The state in which [wakeup] leaves the machine. *)
Definition woken (ch : chan) (s : kst) : kst := with_procs (wake ch (cur s) (procs s)) (touch s).

Lemma touch_procs ps s : touch (with_procs ps s) = with_procs ps (touch s).
Proof. symmetry. apply (framed_touch (with_procs ps)). solve_framed. Qed.

Lemma with_procs_id s : with_procs (procs s) s = s.
Proof. by destruct s. Qed.

(** The body of [wakeup]'s loop. *)
Definition wakeup_slot (ch : chan) (i : nat) : K unit :=
  (p <- myproc;;
   if decide (Some i <> p) then
     acquire (L_proc i);;
     pr <- pget i;;
     (if decide (p_state pr = SLEEPING /\ p_chan pr = ch)
      then pset i (with_p_state RUNNABLE) else ret tt);;
     release (L_proc i)
   else ret tt)%M.

Lemma wakeup_slot_eq ch s i :
  hart_ok s -> proc_locks_free (cur s) s -> (i < NPROC)%nat ->
  wakeup_slot ch i s = Ok tt (with_procs (wake_slot ch (cur s) (procs s) i) (touch s)).
Proof.
  intros Hh0 Hl Hi. unfold wakeup_slot, wake_slot. set (s1 := touch s).
  assert (hart_ok s1) as Hh by exact (touch_hart_ok s Hh0).
  rewrite (bind_ok _ _ _ _ _ (myproc_eq s Hh0)). fold s1.
  assert (touch s1 = s1) as Et by apply touch_touch.
  change (procs s) with (procs s1). case_decide as Hne; [|unfold ret; by rewrite (with_procs_id s1)].
  assert (lock_free (L_proc i) s1) as Hf by exact (Hl i Hi Hne).
  rewrite (bind_ok _ _ _ _ _ (acquire_eq _ s1 Hh Hf)). unfold pget. rewrite bind_gets.
  change (procs (take_lock (L_proc i) s1)) with (procs s1).
  destruct (decide (p_state (default proc0 (procs s1 !! i)) = SLEEPING /\ _)) as [Hs|Hs].
  - rewrite pset_eq, bind_modify, (release_framed (upd i _)), Et by (done || apply upd_framed).
    f_equal. unfold upd. f_equal. apply list_alter_ext; [|done]. intros p Ep. rewrite Ep in Hs. simpl in Hs.
    unfold wake_one. by rewrite decide_True.
  - rewrite bind_ret, (release_take _ s1 Hh Hf), Et. f_equal. symmetry.
    apply (upd_id i (wake_one ch) s1). intros p Ep. rewrite Ep in Hs. simpl in Hs.
    unfold wake_one. by rewrite decide_False.
Qed.

Lemma wakeup_loop ch l s :
  hart_ok s -> proc_locks_free (cur s) s -> (forall i, i ∈ l -> (i < NPROC)%nat) -> l <> [] ->
  forM l (wakeup_slot ch) s = Ok tt (with_procs (foldl (wake_slot ch (cur s)) (procs s) l) (touch s)).
Proof.
  revert s. induction l as [|i l IH]; intros s Hh Hl Hi Hne; [done|]. cbn [forM foldl].
  rewrite (bind_ok _ _ _ _ _ (wakeup_slot_eq ch s i Hh Hl (Hi i ltac:(by left)))).
  destruct l as [|j l]; [done|]. set (s1 := with_procs _ (touch s)).
  assert (touch s1 = s1) as Et by (unfold s1; by rewrite touch_procs, touch_touch).
  assert (cur s1 = cur s) as Ec by exact (cur_touch s).
  rewrite IH, Et, Ec; [reflexivity|exact (touch_hart_ok s Hh)|rewrite Ec; exact Hl| |done].
  intros k Hk. apply Hi. by right.
Qed.

(** [wakeup(ch)] makes exactly the processes that sleep on [ch] runnable. *)
Lemma wakeup_eq ch s :
  hart_ok s -> length (procs s) = NPROC -> proc_locks_free (cur s) s -> wakeup ch s = Ok tt (woken ch s).
Proof.
  intros Hh Hlen Hl. unfold wakeup, woken. change (forM plist _ s) with (forM plist (wakeup_slot ch) s).
  rewrite wakeup_loop, wake_fold by (done || intros i Hi%elem_of_seq; lia). done.
Qed.

End sched.
