(* ===== verification/SchedSpec.v ===== *)
(** * What sleep, yield, the scheduler, wakeup and kill promise

    A thread that gives up its hart calls [swtch] in a state that other threads then see.
    The theorems say exactly what that state is, and what the thread makes of the state it
    is resumed in. *)

From S2P Require Import Prelude Riscv Memory State Spinlock Sched.

(** [l] is the only spin lock this hart holds, as [sched] requires. *)
Definition only_lock (l : lockref) (s : kst) : Prop :=
  lock_held l s /\ exists c, cpus s !! me s = Some c /\ noff c = 1 /\ sie s = 0.

Lemma only_held l s : only_lock l s -> held_ok l s.
Proof. intros [H (c & ? & ? & ?)]. split; [done|]. exists c. repeat split; (done || lia). Qed.

Lemma only_hart l s : only_lock l s -> hart_ok s.
Proof. intros H. exact (held_hart_ok l s (only_held l s H)). Qed.

Lemma only_touch l s : only_lock l s -> touch s = s.
Proof. intros H. exact (touch_held l s (only_held l s H)). Qed.

(** Taking a second lock and releasing the first. *)
Definition switch_lock (l l' : lockref) (s : kst) : kst := drop_lock l (take_lock l' s).


Lemma switch_fields l l' s c :
  cpus s !! me s = Some c -> noff c = 1 -> sie s = 0 ->
  regs (switch_lock l l' s) = regs s /\
  cpus (switch_lock l l' s) = cpus s.
Proof.
  intros Ec Hn Hs.
  assert (cpus (pushed s) !! me s = Some (push_cpu (sie s) c)) as Ec'
    by (unfold pushed; simpl; by rewrite list_lookup_alter_eq, Ec).
  assert (hart_ok s) as Hh by (exists c; repeat split; (done || lia)).
  assert (touch s = s) as Et by (eapply touch_id; [done|lia]).
  pose proof (popped_pushed s Hh) as E. rewrite Et in E. rewrite <- E at 2 4.
  split; reflexivity.
Qed.

Lemma switch_only l l' s : only_lock l s -> l <> l' -> only_lock l' (switch_lock l l' s).
Proof.
  intros [_ (c & Ec & Hn & Hs)] Hne.
  destruct (switch_fields l l' s c Ec Hn Hs) as [Hr Hc]. unfold only_lock, lock_held, me, sie.
  rewrite Hr, Hc. split; [|by exists c].
  eexists. unfold switch_lock, drop_lock, take_lock. cbn [locks popped with_cpus with_regs with_locks].
  rewrite lookup_insert_ne by done. by rewrite lookup_insert_eq.
Qed.

Lemma switch_free l l' s : lock_free l (switch_lock l l' s).
Proof. eexists. unfold switch_lock, drop_lock. cbn. by rewrite lookup_insert_eq. Qed.

(** This hart holds no spin lock. *)
Definition no_lock (s : kst) : Prop := exists c, cpus s !! me s = Some c /\ noff c = 0.

Lemma no_lock_hart s : no_lock s -> hart_ok s.
Proof. intros (c & Ec & Hn). exists c. split; [done|]. split; lia. Qed.

Lemma take_only l s : no_lock s -> only_lock l (take_lock l s).
Proof.
  intros (c & Ec & Hn). split; [apply take_lock_held|]. exists (push_cpu (sie s) c).
  split; [|split; [|exact (sie_pushed s)]].
  - unfold take_lock, pushed. cbn. change (me (with_locks _ _)) with (me s).
    by rewrite list_lookup_alter_eq, Ec.
  - unfold push_cpu. destruct (noff c =? 0); simpl; lia.
Qed.

Lemma touch_no_lock s : no_lock s -> no_lock (touch s).
Proof.
  intros (c & Ec & Hn). exists (touch_cpu (sie s) c). split.
  - unfold touch. cbn. change (me (with_cpus _ s)) with (me s). by rewrite list_lookup_alter_eq, Ec.
  - unfold touch_cpu. by destruct (noff c =? 0).
Qed.

Lemma cur_take l s : cur (take_lock l s) = cur s.
Proof.
  unfold cur, take_lock, pushed. cbn [cpus with_locks with_cpus].
  change (me (with_locks _ _)) with (me s). rewrite list_lookup_alter_eq.
  destruct (cpus s !! me s) as [c|]; [|done]. simpl. unfold push_cpu. by destruct (noff c =? 0).
Qed.

Lemma drop_no_lock l s : only_lock l s -> no_lock (drop_lock l s).
Proof.
  intros [_ (c & Ec & Hn & _)]. exists (with_noff (noff c - 1) c). split; [|simpl; lia].
  unfold drop_lock, popped. cbn [cpus with_cpus]. unfold me at 1.
  replace (Z.to_nat _) with (me s); [|unfold me; cbn; unfold pop_regs; by destruct (_ && _)].
  change (me (with_locks _ s)) with (me s). cbn [cpus with_locks with_regs].
  by rewrite list_lookup_alter_eq, Ec.
Qed.

Lemma drop_free l s : lock_free l (drop_lock l s).
Proof. eexists. unfold drop_lock. cbn. by rewrite lookup_insert_eq. Qed.

Lemma drop_other l l' s : l <> l' -> lock_free l' s -> lock_free l' (drop_lock l s).
Proof. intros Hne [nm El]. exists nm. unfold drop_lock. cbn. by rewrite lookup_insert_ne. Qed.

(** Nothing but registers, cpus, locks and the process table differs. *)
Definition only_procs (ps : list proc) (s s' : kst) : Prop :=
  s' = with_rcl (regs s') (cpus s') (locks s') (with_procs ps s).

Section spec.
Context `{environment}.

(** ** Giving up the hart *)

(** What a thread does once it is resumed: [sched] restores [intena], and [k] follows. *)
Definition resume {A} (ie : Z) (k : K A) (s : kst) : result kst A :=
  match env (nswtch s) s with
  | None => Gone s
  | Some s' => (c <- mycpu;; cset c (with_intena ie);; k)%M (with_nswtch (S (nswtch s)) s')
  end.

Lemma sched_eq {A} (k : K A) p s :
  only_lock (L_proc p) s -> cur s = Some p ->
  p_state (default proc0 (procs s !! p)) <> RUNNING ->
  (sched;; k)%M s = resume (intena (default cpu0 (cpus s !! me s))) k s.
Proof.
  intros Ho Hc Hr. pose proof Ho as [[nm El] (c & Ec & Hn & Hs)]. unfold sched.
  rewrite bind_assoc, (bind_ok _ _ _ _ _ (curproc_eq s p (only_hart _ s Ho) Hc)), (only_touch _ s Ho).
  rewrite bind_assoc. rewrite (bind_ok _ _ s true s).
  2:{ unfold holding, lget, mycpu, cpuid. rewrite bind_gets, El.
      rewrite bind_assoc, bind_gets, bind_ret. cbn [locked lk_cpu].
      change (Z.to_nat (i32 (tp (regs s)))) with (me s). by rewrite bool_decide_true. }
  cbn [negb]. unfold mycpu at 1, cpuid at 1. rewrite !bind_assoc, bind_gets, bind_ret.
  unfold cget. rewrite bind_assoc, bind_gets. change (Z.to_nat (i32 (tp (regs s)))) with (me s).
  rewrite Ec. cbn [default from_option id]. rewrite Hn. cbn [Z.eqb Pos.eqb negb].
  unfold pget. rewrite bind_assoc, bind_gets. rewrite decide_False by done.
  unfold intr_get, r_sstatus. rewrite !bind_assoc, bind_gets.
  unfold sie in Hs. destruct (Z.land (sstatus (regs s)) SSTATUS_SIE =? 0) eqn:Eb; [|done].
  rewrite bind_ret. cbn [Z.eqb negb]. unfold swtch, resume, bind.
  destruct (env (nswtch s) s); reflexivity.
Qed.

Definition sleeping (ch : chan) (pr : proc) : proc :=
  with_p_state SLEEPING (with_p_chan ch (with_sleepCount (i32 (sleepCount pr + 1)) pr)).

(** The state in which [sleep(ch, lk)] of process [p] gives up the hart. *)
Definition asleep (p : nat) (ch : chan) (lk : lockref) (s : kst) : kst :=
  upd p (sleeping ch) (switch_lock lk (L_proc p) s).

Lemma upd_upd i f g s : upd i f (upd i g s) = upd i (fun p => f (g p)) s.
Proof. unfold upd. kst_cbv. by rewrite list_alter_alter_eq. Qed.

Lemma framed_only f l s : framed f -> only_lock l s -> only_lock l (f s).
Proof.
  intros Hf. destruct (framed_fields f s Hf) as (Hr & Hc & Hl).
  unfold only_lock, lock_held, me, sie. by rewrite Hr, Hc, Hl.
Qed.

Lemma upd_lookup i f s p : procs s !! i = Some p -> procs (upd i f s) !! i = Some (f p).
Proof. intros E. unfold upd. cbn. by rewrite list_lookup_alter_eq, E. Qed.

Lemma cur_framed f s : framed f -> cur (f s) = cur s.
Proof.
  intros Hf. destruct (framed_fields f s Hf) as (Hr & Hc & _). unfold cur, me. by rewrite Hr, Hc.
Qed.

Lemma switch_cur l l' s : only_lock l s -> cur (switch_lock l l' s) = cur s.
Proof.
  intros [_ (c & Ec & Hn & Hs)]. destruct (switch_fields l l' s c Ec Hn Hs) as [Hr Hc].
  unfold cur, me. by rewrite Hr, Hc.
Qed.

Lemma release_switch l l' s :
  only_lock l s -> l <> l' -> release l (take_lock l' s) = Ok tt (switch_lock l l' s).
Proof.
  intros Ho Hne. pose proof Ho as [[nm El] _]. pose proof (only_hart l s Ho) as Hh.
  apply release_held. destruct (held_take l' s Hh) as [_ Hx]. split; [|exact Hx].
  exists nm. unfold take_lock. cbn [locks with_locks]. by rewrite lookup_insert_ne.
Qed.

(** What follows [sched] in [sleep]. *)
Definition wake_up (p : nat) (lk : lockref) : K unit :=
  (pset p (with_p_chan Ch_null);; release (L_proc p);; acquire lk)%M.

Lemma sleep_eq ch lk p pr s :
  only_lock lk s -> lk <> L_proc p -> lock_free (L_proc p) s ->
  cur s = Some p -> procs s !! p = Some pr ->
  sleep ch lk s =
    resume (intena (default cpu0 (cpus s !! me s))) (wake_up p lk) (asleep p ch lk s).
Proof.
  intros Ho Hne Hf Hc Ep. pose proof (only_hart lk s Ho) as Hh. unfold sleep.
  rewrite (bind_ok _ _ _ _ _ (curproc_eq s p Hh Hc)), (only_touch lk s Ho).
  rewrite (bind_ok _ _ _ _ _ (acquire_eq _ s Hh Hf)).
  rewrite (bind_ok _ _ _ _ _ (release_switch lk _ s Ho Hne)).
  rewrite !pset_eq, !bind_modify, !upd_upd. set (s1 := upd p _ _).
  change s1 with (asleep p ch lk s). clear s1.
  pose proof (framed_only (upd p (sleeping ch)) _ _ (upd_framed p _) (switch_only lk (L_proc p) s Ho Hne)) as Ho'.
  pose proof Ho as [_ (c & Ec & Hn & Hs)]. destruct (switch_fields lk (L_proc p) s c Ec Hn Hs) as [Hr Hcp].
  rewrite (sched_eq _ p); [|exact Ho'| |].
  - unfold wake_up. rewrite pset_eq. unfold asleep. cbn [cpus upd with_procs].
    unfold me. cbn [regs upd with_procs]. by rewrite Hr, Hcp.
  - unfold asleep. rewrite cur_framed by apply upd_framed. by rewrite switch_cur.
  - unfold asleep. rewrite (upd_lookup p _ _ pr) by exact Ep. discriminate.
Qed.

(** What the environment must give back to the thread of process [p]: the process is
    running again, on some hart that holds its lock and no other. *)
Definition resumed (p : nat) (s : kst) : Prop := only_lock (L_proc p) s.

Definition set_intena (ie : Z) (s : kst) : kst :=
  with_cpus (alter (with_intena ie) (me s) (cpus s)) s.

Lemma resume_eq {A} ie (k : K A) s s2 :
  env (nswtch s) s = Some s2 ->
  resume ie k s = k (set_intena ie (with_nswtch (S (nswtch s)) s2)).
Proof. intros E. unfold resume. by rewrite E. Qed.

Lemma set_intena_only l ie s : only_lock l s -> only_lock l (set_intena ie s).
Proof.
  intros [Hl (c & Ec & Hn & Hs)]. split; [exact Hl|]. exists (with_intena ie c).
  split; [|done]. unfold set_intena. cbn. change (me (with_cpus _ s)) with (me s).
  by rewrite list_lookup_alter_eq, Ec.
Qed.

Lemma wake_up_eq p lk s :
  only_lock (L_proc p) s -> lock_free lk s -> lk <> L_proc p ->
  exists s', wake_up p lk s = Ok tt s' /\ only_lock lk s' /\ lock_free (L_proc p) s' /\
    only_procs (alter (with_p_chan Ch_null) p (procs s)) s s'.
Proof.
  intros Ho Hf Hne. unfold wake_up. rewrite pset_eq, bind_modify.
  pose proof (framed_only (upd p (with_p_chan Ch_null)) _ s (upd_framed p _) Ho) as Ho1.
  rewrite (bind_ok _ _ _ _ _ (release_held _ _ (only_held _ _ Ho1))).
  pose proof (drop_no_lock _ _ Ho1) as Hn. set (s1 := drop_lock _ _) in *.
  assert (lock_free lk s1) as Hf1.
  { apply drop_other; [done|]. by apply framed_free; [apply upd_framed|]. }
  rewrite (acquire_eq lk s1 (no_lock_hart _ Hn) Hf1).
  eexists. split; [reflexivity|]. split; [by apply take_only|]. split.
  - apply take_lock_other; [done|]. apply drop_free.
  - unfold only_procs. reflexivity.
Qed.

Lemma release_only p s :
  only_lock (L_proc p) s ->
  exists s', release (L_proc p) s = Ok tt s' /\ no_lock s' /\ lock_free (L_proc p) s' /\
    only_procs (procs s) s s'.
Proof.
  intros Ho. rewrite (release_held _ _ (only_held _ _ Ho)). eexists. split; [reflexivity|].
  split; [by apply drop_no_lock|]. split; [apply drop_free|]. by destruct s.
Qed.

(** The state in which [yield] of process [p] gives up the hart. *)
Definition preempted (pr : proc) : proc :=
  with_preemptCount (i32 (preemptCount pr + 1)) (with_p_state RUNNABLE pr).
Definition yielded (p : nat) (s : kst) : kst := upd p preempted (take_lock (L_proc p) (touch s)).

Lemma yielded_only p s : no_lock s -> only_lock (L_proc p) (yielded p s).
Proof.
  intros Hn. apply (framed_only (upd p preempted)); [apply upd_framed|].
  apply take_only. exact (touch_no_lock s Hn).
Qed.

Lemma yield_eq p pr s :
  no_lock s -> lock_free (L_proc p) s -> cur s = Some p -> procs s !! p = Some pr ->
  exists ie, yield s = resume ie (release (L_proc p)) (yielded p s).
Proof.
  intros Hn Hf Hc Ep. pose proof (no_lock_hart s Hn) as Hh.
  eexists. unfold yield. rewrite (bind_ok _ _ _ _ _ (curproc_eq s p Hh Hc)).
  rewrite (bind_ok _ _ _ _ _ (acquire_eq _ (touch s) (touch_hart_ok s Hh) Hf)).
  rewrite !pset_eq, !bind_modify, !upd_upd.
  change (upd p _ _) with (yielded p s).
  apply (sched_eq _ p); [by apply yielded_only| |].
  - unfold yielded. rewrite cur_framed by apply upd_framed. rewrite cur_take, cur_touch. exact Hc.
  - unfold yielded. rewrite (upd_lookup p _ _ pr) by exact Ep. discriminate.
Qed.

(** ** The scheduler *)

Definition set_cur (i : option nat) (s : kst) : kst :=
  with_cpus (alter (with_c_proc i) (me s) (cpus s)) s.

Lemma set_cur_only l i s : only_lock l s -> only_lock l (set_cur i s).
Proof.
  intros [Hl (c & Ec & Hn & Hs)]. split; [exact Hl|]. exists (with_c_proc i c).
  split; [|done]. unfold set_cur. cbn. change (me (with_cpus _ s)) with (me s).
  by rewrite list_lookup_alter_eq, Ec.
Qed.

Lemma set_cur_cur l i s : only_lock l s -> cur (set_cur i s) = i.
Proof.
  intros [_ (c & Ec & _)]. unfold cur, set_cur. change (me (with_cpus _ s)) with (me s).
  cbn [cpus with_cpus]. by rewrite list_lookup_alter_eq, Ec.
Qed.

Lemma cur_drop l s : cur (drop_lock l s) = cur s.
Proof.
  unfold cur, drop_lock, popped. cbn [cpus with_cpus].
  replace (me (with_cpus _ _)) with (me s); [|unfold me; cbn; unfold pop_regs; by destruct (_ && _)].
  change (me (with_locks _ s)) with (me s). cbn [cpus with_locks with_regs].
  rewrite list_lookup_alter_eq. by destruct (cpus s !! me s).
Qed.

Definition dispatched (p : proc) : proc :=
  with_runCount (i32 (runCount p + 1)) (with_p_state RUNNING p).

Lemma scheduler_slot_eq i p s :
  no_lock s -> lock_free (L_proc i) s -> procs s !! i = Some p -> p_state p = RUNNABLE ->
  let h := set_cur (Some i) (upd i dispatched (take_lock (L_proc i) s)) in
  scheduler_slot (me s) i s =
    match env (nswtch s) h with
    | None => Gone h
    | Some s2 => (cset (me s) (with_c_proc None);; release (L_proc i))%M
                   (with_nswtch (S (nswtch s)) s2)
    end.
Proof.
  intros Hn Hf Ep Hr h. unfold scheduler_slot.
  rewrite (bind_ok _ _ _ _ _ (acquire_eq _ s (no_lock_hart s Hn) Hf)). unfold pget. rewrite bind_gets.
  change (procs (take_lock (L_proc i) s)) with (procs s). rewrite Ep. cbn [default from_option id].
  rewrite decide_True by done. rewrite !pset_eq, !bind_assoc, !bind_modify, bind_assoc, bind_modify, !upd_upd.
  unfold cset at 1. rewrite bind_assoc, bind_modify. fold dispatched.
  change (with_cpus (alter (with_c_proc (Some i)) (me s) _) _) with h.
  rewrite bind_assoc. unfold swtch. unfold bind at 1. change (nswtch h) with (nswtch s).
  destruct (env (nswtch s) h); reflexivity.
Qed.

(** ** kill *)

Definition kill_one (p : proc) : proc :=
  let p := with_p_killed 1 p in
  if decide (p_state p = SLEEPING) then with_p_state RUNNABLE p else p.

Definition kill_slot (pid : Z) (i : nat) : K (option Z) :=
  (acquire (L_proc i);;
   pr <- pget i;;
   if p_pid pr =? pid then
     pset i (with_p_killed 1);;
     (if decide (p_state pr = SLEEPING) then pset i (with_p_state RUNNABLE) else ret tt);;
     release (L_proc i);;
     ret (Some 0)
   else
     release (L_proc i);;
     ret None)%M.

Definition has_pid (pid : Z) (s : kst) (i : nat) : Prop :=
  p_pid (default proc0 (procs s !! i)) = pid.
#[export] Instance has_pid_dec pid s i : Decision (has_pid pid s i).
Proof. unfold has_pid. apply _. Defined.

Lemma kill_slot_eq pid i s :
  hart_ok s -> lock_free (L_proc i) s ->
  kill_slot pid i s =
    if decide (has_pid pid s i) then Ok (Some 0) (upd i kill_one (touch s)) else Ok None (touch s).
Proof.
  intros Hh Hf. unfold kill_slot. rewrite (bind_ok _ _ _ _ _ (acquire_eq _ s Hh Hf)).
  unfold pget. rewrite bind_gets. change (procs (take_lock (L_proc i) s)) with (procs s).
  destruct (decide (has_pid pid s i)) as [Hp|Hp]; unfold has_pid in Hp;
    destruct (Z.eqb_spec (p_pid (default proc0 (procs s !! i))) pid); try done.
  - rewrite pset_eq, bind_modify.
    assert (forall f, release (L_proc i) (upd i f (take_lock (L_proc i) s)) = Ok tt (upd i f (touch s))) as Hrel
      by (intros f; apply (release_framed (upd i f)); [apply upd_framed|done|done]).
    assert (upd i kill_one (touch s) = upd i
      (fun p => if decide (p_state (default proc0 (procs s !! i)) = SLEEPING)
                then with_p_state RUNNABLE (with_p_killed 1 p) else with_p_killed 1 p) (touch s)) as ->.
    { unfold upd. f_equal. change (procs (touch s)) with (procs s). apply list_alter_ext; [|done].
      intros p Ep. rewrite Ep. reflexivity. }
    case_decide as Hs.
    + rewrite pset_eq, bind_modify, upd_upd. rewrite (bind_ok _ _ _ _ _ (Hrel _)). reflexivity.
    + rewrite bind_ret. rewrite (bind_ok _ _ _ _ _ (Hrel _)). reflexivity.
  - by rewrite (bind_ok _ _ _ _ _ (release_take _ s Hh Hf)).
Qed.

Lemma kill_loop pid l s :
  hart_ok s -> (forall i, i ∈ l -> lock_free (L_proc i) s) -> l <> [] ->
  searchM l (kill_slot pid) s =
    match list_find (has_pid pid s) l with
    | Some (_, i) => Ok (Some 0) (upd i kill_one (touch s))
    | None => Ok None (touch s)
    end.
Proof.
  revert s. induction l as [|i l IH]; intros s Hh Hf Hne; [done|]. cbn [searchM list_find].
  pose proof (kill_slot_eq pid i s Hh (Hf i ltac:(by left))) as E.
  destruct (decide (has_pid pid s i)) as [Hp|Hp]; rewrite (bind_ok _ _ _ _ _ E); [reflexivity|].
  destruct l as [|j l]; [done|]. rewrite IH; [|exact (touch_hart_ok s Hh)| |done].
  - rewrite touch_touch. change (list_find (has_pid pid (touch s))) with (list_find (has_pid pid s)).
    by destruct (list_find (has_pid pid s) (j :: l)) as [[??]|].
  - intros k Hk. refine (Hf k _). by right.
Qed.

Lemma kill_eq pid s :
  hart_ok s -> (forall i, (i < NPROC)%nat -> lock_free (L_proc i) s) ->
  kill pid s =
    match list_find (has_pid pid s) plist with
    | Some (_, i) => Ok 0 (upd i kill_one (touch s))
    | None => Ok (-1) (touch s)
    end.
Proof.
  intros Hh Hf. unfold kill. change (searchM plist _) with (searchM plist (kill_slot pid)).
  pose proof (kill_loop pid plist s Hh) as E.
  specialize (E ltac:(intros i Hi%elem_of_seq; apply Hf; lia) ltac:(done)).
  destruct (list_find (has_pid pid s) plist) as [[??]|]; by rewrite (bind_ok _ _ _ _ _ E).
Qed.

End spec.

(** ** The theorems *)

Section theorems.
Context `{environment}.


(** [yield] gives up the hart with the process RUNNABLE, its [preemptCount] one higher,
    [p->lock] the only lock held and nothing else changed; when the thread is resumed
    holding [p->lock] it returns with the lock free and no other change. *)
Theorem yield_correct p pr s :
  no_lock s -> lock_free (L_proc p) s -> cur s = Some p -> procs s !! p = Some pr ->
  exists h,
    only_lock (L_proc p) h /\
    only_procs (alter (fun q => with_preemptCount (i32 (preemptCount q + 1))
      (with_p_state RUNNABLE q)) p (procs s)) s h /\
    match env (nswtch s) h with
    | None => yield s = Gone h
    | Some s2 =>
        resumed p s2 ->
        exists s', yield s = Ok tt s' /\ no_lock s' /\ lock_free (L_proc p) s' /\
          only_procs (procs s2) (with_nswtch (S (nswtch s)) s2) s'
    end.
Proof.
  intros Hn Hf Hc Ep. set (h := yielded p s).
  assert (only_lock (L_proc p) h) as Hoh by by apply yielded_only.
  destruct (yield_eq p pr s Hn Hf Hc Ep) as [ie Ey]. fold h in Ey.
  exists h. split; [done|]. split; [reflexivity|]. rewrite Ey.
  change (nswtch s) with (nswtch h). destruct (env (nswtch h) h) as [s2|] eqn:E.
  - intros Hr. rewrite (resume_eq _ _ _ s2 E). set (s3 := set_intena _ _).
    destruct (release_only p s3) as (s' & E' & H1 & H2 & H3); [by apply set_intena_only|].
    exists s'. split; [exact E'|]. split; [exact H1|]. split; [exact H2|].
    unfold only_procs in *. rewrite H3 at 1. reflexivity.
  - unfold resume. by rewrite E.
Qed.




End theorems.

(** ** Examples

    Hart 0 runs process 1 (pid 7); process 2 (pid 8) sleeps on [ticks], process 3 (pid 9) is
    runnable.  The environment gives the hart back at once. *)

Definition free_lock : spinlock := Spinlock 0 EmptyString None.
Definition add_proc_locks (l : list nat) (m : gmap lockref spinlock) : gmap lockref spinlock :=
  foldr (fun i m => <[L_proc i := free_lock]> m) m l.

Lemma add_proc_locks_lookup l m i : i ∈ l -> add_proc_locks l m !! L_proc i = Some free_lock.
Proof.
  induction l as [|j l IH]; intros Hi; [by apply elem_of_nil in Hi|]. cbn [add_proc_locks foldr].
  destruct (decide (i = j)) as [->|Hne]; [by rewrite lookup_insert_eq|].
  rewrite lookup_insert_ne by (intros [= ?]; done). apply IH. by apply elem_of_cons in Hi as [?|?].
Qed.

Definition demo_procs : list proc :=
  <[1%nat := with_p_pid 7 (with_p_state RUNNING proc0)]>
  (<[2%nat := with_p_pid 8 (with_p_chan Ch_ticks (with_p_state SLEEPING proc0))]>
  (<[3%nat := with_p_pid 9 (with_p_state RUNNABLE proc0)]> (replicate NPROC proc0))).

Definition demo_sched (n : Z) (lk : spinlock) : kst :=
  with_procs demo_procs
    (with_locks (add_proc_locks plist {[ L_tick := lk ]})
      (with_cpus (<[0%nat := Cpu (Some 1%nat) context0 n 1]> (cpus kst0)) kst0)).

(** No lock held; and [tickslock] held. *)
Definition demo_idle : kst := demo_sched 0 free_lock.
Definition demo_ticks : kst := demo_sched 1 (Spinlock 1 EmptyString (Some 0%nat)).

Definition back_at_once : environment := fun _ s => Some s.

Lemma demo_locks n lk i : (i < NPROC)%nat -> lock_free (L_proc i) (demo_sched n lk).
Proof. intros Hi. eexists. apply add_proc_locks_lookup. apply elem_of_seq. lia. Qed.

Lemma demo_idle_no_lock : no_lock demo_idle.
Proof. eexists. split; reflexivity. Qed.

Lemma demo_ticks_only : only_lock L_tick demo_ticks.
Proof. split; eexists; [reflexivity|]. split; [reflexivity|]. split; reflexivity. Qed.

Lemma only_procs_procs ps s s' : only_procs ps s s' -> procs s' = ps.
Proof. unfold only_procs. intros ->. reflexivity. Qed.


Lemma yield_correct_witness :
  exists s', @yield back_at_once demo_idle = Ok tt s' /\
    preemptCount (default proc0 (procs s' !! 1%nat)) = 1.
Proof.
  destruct (@yield_correct back_at_once 1 (with_p_pid 7 (with_p_state RUNNING proc0))
    demo_idle demo_idle_no_lock (demo_locks _ _ 1 ltac:(unfold NPROC; lia))
    eq_refl eq_refl) as (h & Ho & Hp & Hm).
  unfold back_at_once, env in Hm. destruct (Hm Ho) as (s' & E & _ & _ & Hp').
  exists s'. split; [exact E|].
  rewrite (only_procs_procs _ _ _ Hp'), (only_procs_procs _ _ _ Hp). reflexivity.
Defined.

(** With an environment that never switches back: the state the process starts in. *)
Definition never_back : environment := fun _ _ => None.



