(* ===== verification/Kalloc.v ===== *)
(** * The physical page allocator: kernel/kalloc.c

    Free pages are linked through their first eight bytes.  The allocator refines a
    stack of page addresses: [kalloc] pops, [kfree] pushes. *)

From S2P Require Import Prelude Riscv Memory State Spinlock.

Section kalloc.
Context `{image}.

(** ** kalloc.c *)

Definition mem_memset (dst c n : Z) : K unit :=
  modify (fun s => with_mem (memset (mem s) dst c n) s).
Definition store64 (a v : Z) : K unit := modify (fun s => with_mem (wr64 (mem s) a v) s).
Definition load64 (a : Z) : K Z := gets (fun s => rd64 (mem s) a).

Definition kfree (pa : Z) : K unit :=
  if negb (pa mod PGSIZE =? 0) || (pa <? end_) || (pa >=? PHYSTOP) then panic "kfree" else
  mem_memset pa 1 PGSIZE;;
  acquire L_kmem;;
  next <- gets freelist;;
  store64 pa next;;
  modify (with_freelist pa);;
  release L_kmem.

Definition kalloc : K Z :=
  acquire L_kmem;;
  r <- gets freelist;;
  (if negb (r =? 0) then next <- load64 r;; modify (with_freelist next) else ret tt);;
  release L_kmem;;
  (if negb (r =? 0) then mem_memset r 5 PGSIZE else ret tt);;
  ret r.

(** [for(; p + PGSIZE <= pa_end; p += PGSIZE) kfree(p)]. *)
Fixpoint freerange_loop (fuel : nat) (p pa_end : Z) : K unit :=
  match fuel with
  | O => fun _ => NoFuel
  | S n => if p + PGSIZE <=? pa_end
           then kfree p;; freerange_loop n (p + PGSIZE) pa_end
           else ret tt
  end.

(** Pages in the range plus one test of the loop condition. *)
Definition freerange_fuel (pa_start pa_end : Z) : nat :=
  S (Z.to_nat ((pa_end - pa_start) / PGSIZE)).

Definition freerange (pa_start pa_end : Z) : K unit :=
  freerange_loop (freerange_fuel pa_start pa_end) (PGROUNDUP pa_start) pa_end.

Definition kinit : K unit :=
  initlock L_kmem "kmem";;
  freerange end_ PHYSTOP.

(** ** The free list *)

(** What the linker script guarantees about the kernel image. *)
Definition image_ok : Prop := KERNBASE < end_ <= PHYSTOP.

(** A page the allocator manages. *)
Definition page_ok (p : Z) : Prop := page_aligned p /\ end_ <= p < PHYSTOP.
#[export] Instance page_ok_dec p : Decision (page_ok p) := and_dec _ _.

Fixpoint chain (m : memory) (head : Z) (l : list Z) : Prop :=
  match l with
  | [] => head = 0
  | p :: l' => head = p /\ chain m (rd64 m p) l'
  end.

(** The allocator's state represents the list [l] of free pages. *)
Definition kmem_inv (l : list Z) (s : kst) : Prop :=
  chain (mem s) (freelist s) l /\ NoDup l /\ Forall page_ok l.

(** The hart and the lock are in the state the allocator expects between calls. *)
Definition kmem_ready (s : kst) : Prop := hart_ok s /\ lock_free L_kmem s.

(** [m'] differs from [m] only inside the page at [p]. *)
Definition only_page (m m' : memory) (p : Z) : Prop :=
  forall a, ~ (p <= a < p + PGSIZE) -> rd8 m' a = rd8 m a.

Lemma pages_disjoint p q :
  page_aligned p -> page_aligned q -> p <> q -> p + PGSIZE <= q \/ q + PGSIZE <= p.
Proof. unfold page_aligned, PGSIZE. intros. Z.to_euclidean_division_equations. lia. Qed.

Lemma rd64_only_page m m' p q i :
  only_page m m' p -> page_aligned p -> page_aligned q -> p <> q -> 0 <= i <= PGSIZE - 8 ->
  rd64 m' (q + i) = rd64 m (q + i).
Proof.
  intros Hm Hp Hq Hne Hi. apply rd64_ext. intros j Hj. apply Hm.
  destruct (pages_disjoint p q Hp Hq Hne); lia.
Qed.

Lemma chain_only_page m m' p head l :
  only_page m m' p -> page_aligned p -> Forall page_ok l -> p ∉ l ->
  chain m head l -> chain m' head l.
Proof.
  intros Hm Hp. revert head. induction l as [|q l IH]; intros head Hl Hn Hc; simpl in *; [done|].
  apply Forall_cons in Hl as [[Hq _] Hl]. apply not_elem_of_cons in Hn as [Hpq Hn].
  destruct Hc as [-> Hc]. split; [done|].
  rewrite <- (Z.add_0_r q) at 1.
  rewrite (rd64_only_page m m' p) by (done || unfold PGSIZE; lia).
  rewrite Z.add_0_r. auto.
Qed.

Lemma chain_head m head l : chain m head l -> head = hd 0 l.
Proof. destruct l; simpl; [done|]. by intros [-> _]. Qed.

Lemma only_page_memset m p c : only_page m (memset m p c PGSIZE) p.
Proof.
  intros a Ha. rewrite rd8_memset by (unfold PGSIZE; lia). by rewrite decide_False.
Qed.

Lemma only_page_wr64 m p i v : 0 <= i <= PGSIZE - 8 -> only_page m (wr64 m (p + i) v) p.
Proof. intros Hi a Ha. apply rd8_wr64_ne. lia. Qed.

Lemma only_page_wr64_head m p v : only_page m (wr64 m p v) p.
Proof. intros a Ha. apply rd8_wr64_ne. unfold PGSIZE in *. lia. Qed.

Lemma only_page_trans m m1 m2 p : only_page m m1 p -> only_page m1 m2 p -> only_page m m2 p.
Proof. intros H1 H2 a Ha. by rewrite H2, H1. Qed.

Context (Himg : image_ok).

Lemma page_ok_pos p : page_ok p -> 0 < p < 2 ^ 56.
Proof. unfold image_ok, page_ok, PHYSTOP, KERNBASE in *. lia. Qed.

Lemma page_ok_pa p : page_ok p -> pa_ok p.
Proof. intros Hp. split; [apply Hp|]. pose proof (page_ok_pos p Hp). lia. Qed.

(** ** kalloc and kfree, in closed form *)

Definition kalloc_state (s : kst) : kst :=
  let r := freelist s in
  with_mem (memset (mem s) r 5 PGSIZE) (with_freelist (rd64 (mem s) r) (touch s)).

Lemma kalloc_empty s : kmem_ready s -> freelist s = 0 -> kalloc s = Ok 0 (touch s).
Proof.
  intros [Hh Hl] Hf. unfold kalloc. rewrite (bind_ok _ _ _ _ _ (acquire_eq _ _ Hh Hl)).
  unfold bind at 1, gets at 1. simpl. rewrite Hf. simpl.
  unfold bind at 1, ret at 1. by rewrite (bind_ok _ _ _ _ _ (release_take _ _ Hh Hl)).
Qed.

Lemma kalloc_some s : kmem_ready s -> freelist s <> 0 -> kalloc s = Ok (freelist s) (kalloc_state s).
Proof.
  intros [Hh Hl] Hf. unfold kalloc. rewrite (bind_ok _ _ _ _ _ (acquire_eq _ _ Hh Hl)).
  unfold bind at 1, gets at 1. change (freelist (take_lock L_kmem s)) with (freelist s).
  rewrite (proj2 (Z.eqb_neq _ 0)) by done. simpl negb. cbv iota.
  unfold bind at 1 2, load64 at 1, gets at 1, modify at 1.
  change (mem (take_lock L_kmem s)) with (mem s).
  erewrite bind_ok by (apply (release_framed (with_freelist _)); [solve_framed|done..]). done.
Qed.

Definition kfree_state (pa : Z) (s : kst) : kst :=
  with_freelist pa
    (with_mem (wr64 (memset (mem s) pa 1 PGSIZE) pa (freelist s)) (touch s)).

Lemma kfree_eq pa s : kmem_ready s -> page_ok pa -> kfree pa s = Ok tt (kfree_state pa s).
Proof.
  intros [Hh Hl] [Ha Hr]. unfold kfree, page_aligned in *.
  assert (negb (pa mod PGSIZE =? 0) || (pa <? end_) || (pa >=? PHYSTOP) = false) as -> by
    (rewrite Ha; simpl; lia).
  unfold mem_memset, store64. rewrite bind_modify.
  set (s1 := with_mem (memset (mem s) pa 1 PGSIZE) s).
  assert (hart_ok s1) as Hh1 by exact Hh. assert (lock_free L_kmem s1) as Hl1 by exact Hl.
  rewrite (bind_ok _ _ _ _ _ (acquire_eq L_kmem s1 Hh1 Hl1)).
  rewrite bind_gets, !bind_modify.
  rewrite (release_framed (fun s2 => with_freelist pa (with_mem (wr64 (mem s2) pa (freelist s2)) s2)))
    by (done || solve_framed).
  unfold s1. rewrite <- (framed_touch (with_mem _)) by solve_framed.
  unfold kfree_state. kst_cbv. reflexivity.
Qed.

Lemma touch_ready s : kmem_ready s -> kmem_ready (touch s).
Proof. intros [Hh Hl]. split; [by apply touch_hart_ok|exact Hl]. Qed.

Lemma kalloc_ready s : kmem_ready s -> kmem_ready (kalloc_state s).
Proof. exact (touch_ready s). Qed.

Lemma kfree_ready pa s : kmem_ready s -> kmem_ready (kfree_state pa s).
Proof. exact (touch_ready s). Qed.

Lemma kalloc_state_inv p l s :
  kmem_inv (p :: l) s -> kmem_inv l (kalloc_state s) /\ freelist s = p.
Proof.
  intros (Hc & Hn & Hl). simpl in Hc. destruct Hc as [Hf Hc]. split; [|done].
  apply NoDup_cons in Hn as [Hp Hn]. apply Forall_cons in Hl as [Hpo Hl].
  unfold kalloc_state. rewrite Hf. split; [|done]. simpl.
  eapply chain_only_page; [apply only_page_memset|apply Hpo|done..].
Qed.

Lemma kfree_state_inv p l s :
  kmem_inv l s -> page_ok p -> p ∉ l -> kmem_inv (p :: l) (kfree_state p s).
Proof.
  intros (Hc & Hn & Hl) Hp Hnotin. split; [|split].
  - simpl. split; [done|].
    rewrite rd64_wr64 by (rewrite (chain_head _ _ _ Hc); destruct l as [|q l]; simpl;
      [lia|apply Forall_cons in Hl as [Hq%page_ok_pos _]; lia]).
    eapply chain_only_page; [|apply Hp|done..|exact Hc].
    eapply only_page_trans; [apply only_page_memset|apply only_page_wr64_head].
  - by apply NoDup_cons.
  - by apply Forall_cons.
Qed.

(** ** The specification: a stack of pages *)

Inductive kop := KAlloc | KFree (pa : Z).

Definition kop_run (op : kop) : K Z :=
  match op with KAlloc => kalloc | KFree pa => kfree pa;; ret 0 end.

Definition spec_result (l : list Z) (op : kop) : Z :=
  match op with KAlloc => hd 0 l | KFree _ => 0 end.
Definition spec_stack (l : list Z) (op : kop) : list Z :=
  match op with KAlloc => tl l | KFree pa => pa :: l end.

(** Callers free only managed pages that are not already free. *)
Definition legal (l : list Z) (op : kop) : Prop :=
  match op with KAlloc => True | KFree pa => page_ok pa /\ pa ∉ l end.

Fixpoint legal_ops (l : list Z) (ops : list kop) : Prop :=
  match ops with [] => True | op :: ops => legal l op /\ legal_ops (spec_stack l op) ops end.

Fixpoint spec_results (l : list Z) (ops : list kop) : list Z :=
  match ops with [] => [] | op :: ops => spec_result l op :: spec_results (spec_stack l op) ops end.

Fixpoint kops_run (ops : list kop) : K (list Z) :=
  match ops with
  | [] => ret []
  | op :: ops => r <- kop_run op;; rs <- kops_run ops;; ret (r :: rs)
  end.

(** The pages an operation may write: the one it hands out or takes back. *)
Definition op_page (l : list Z) (op : kop) : Z :=
  match op with KAlloc => hd 0 l | KFree pa => pa end.
Fixpoint op_pages (l : list Z) (ops : list kop) : list Z :=
  match ops with [] => [] | op :: ops => op_page l op :: op_pages (spec_stack l op) ops end.

Definition outside (pages : list Z) (a : Z) : Prop :=
  Forall (fun p => ~ p <= a < p + PGSIZE) pages.

Lemma kop_run_spec op l s :
  kmem_ready s -> kmem_inv l s -> legal l op ->
  exists s', kop_run op s = Ok (spec_result l op) s' /\ kmem_ready s' /\
    kmem_inv (spec_stack l op) s' /\ only_page (mem s) (mem s') (op_page l op).
Proof.
  intros Hr Hi Hop. destruct op as [|pa]; simpl in *.
  - destruct l as [|p l].
    + exists (touch s). split; [apply kalloc_empty; [done|apply (proj1 Hi)]|].
      split; [by apply touch_ready|]. split; [exact Hi|]. by intros a.
    + destruct (kalloc_state_inv p l s Hi) as [Hi' Hf].
      assert (page_ok p) as Hp by (destruct Hi as (_ & _ & Hi); by apply Forall_cons in Hi as [? _]).
      exists (kalloc_state s). rewrite kalloc_some by (done || pose proof (page_ok_pos p Hp); lia).
      rewrite Hf. split; [done|]. split; [by apply kalloc_ready|]. split; [done|].
      unfold kalloc_state. rewrite Hf. simpl. apply only_page_memset.
  - destruct Hop as [Hp Hn]. exists (kfree_state pa s).
    rewrite (bind_ok _ _ _ _ _ (kfree_eq pa s Hr Hp)). split; [done|].
    split; [by apply kfree_ready|]. split; [by apply kfree_state_inv|]. simpl.
    eapply only_page_trans; [apply only_page_memset|apply only_page_wr64_head].
Qed.

(** C14: the page allocator refines a stack of page addresses.  Any sequence of [kalloc] and
    [kfree] calls that frees only managed pages not already free runs without panicking
    and without deadlock, returns exactly what popping and pushing a stack returns, leaves a
    well-formed free list representing the final stack with its lock released, and changes
    no byte of memory outside the pages handed out or taken back. *)
Theorem kalloc_refines_stack ops l s :
  kmem_ready s -> kmem_inv l s -> legal_ops l ops ->
  exists s', kops_run ops s = Ok (spec_results l ops) s' /\ kmem_ready s' /\
    kmem_inv (foldl spec_stack l ops) s' /\
    (forall a, outside (op_pages l ops) a -> rd8 (mem s') a = rd8 (mem s) a).
Proof.
  revert l s. induction ops as [|op ops IH]; intros l s Hr Hi Hl; simpl in *; [by exists s|].
  destruct Hl as [Hop Hl].
  destruct (kop_run_spec op l s Hr Hi Hop) as (s1 & E1 & Hr1 & Hi1 & Hm1).
  destruct (IH _ s1 Hr1 Hi1 Hl) as (s2 & E2 & Hr2 & Hi2 & Hm2).
  exists s2. rewrite (bind_ok _ _ _ _ _ E1), (bind_ok _ _ _ _ _ E2).
  split; [done|]. split; [done|]. split; [done|].
  intros a [Ha Hs]%Forall_cons. rewrite Hm2 by done. by apply Hm1.
Qed.


(** ** kinit *)

(** The pages [p], [p + PGSIZE], ... ([n] of them). *)
Fixpoint page_range (p : Z) (n : nat) : list Z :=
  match n with O => [] | S n => p :: page_range (p + PGSIZE) n end.

Lemma elem_of_page_range p n q :
  q ∈ page_range p n <-> exists i, 0 <= i < Z.of_nat n /\ q = p + i * PGSIZE.
Proof.
  revert p. induction n as [|n IH]; intros p; simpl.
  - split; [by intros ?%elem_of_nil|]. intros (i & ? & _). lia.
  - rewrite elem_of_cons, IH. split.
    + intros [->|(i & Hi & ->)]; [exists 0; lia|]. exists (i + 1). lia.
    + intros (i & Hi & ->). destruct (decide (i = 0)) as [->|]; [left; lia|].
      right. exists (i - 1). lia.
Qed.

Lemma freerange_loop_spec n fuel p pa_end l s :
  (n < fuel)%nat -> 
  p + Z.of_nat n * PGSIZE <= pa_end < p + Z.of_nat n * PGSIZE + PGSIZE ->
  Forall page_ok (page_range p n) -> Forall (fun q => q ∉ l) (page_range p n) ->
  kmem_ready s -> kmem_inv l s ->
  exists s', freerange_loop fuel p pa_end s = Ok tt s' /\ kmem_ready s' /\
    kmem_inv (rev (page_range p n) ++ l) s'.
Proof.
  revert fuel p l s. induction n as [|n IH]; intros fuel p l s Hf Hr Hp Hl Hrd Hi;
    (destruct fuel as [|fuel]; [lia|]); simpl.
  - exists s. rewrite (proj2 (Z.leb_gt _ _)) by lia. done.
  - apply Forall_cons in Hp as [Hpo Hp]. apply Forall_cons in Hl as [Hpl Hl].
    rewrite (proj2 (Z.leb_le _ _)) by (unfold PGSIZE in *; lia).
    rewrite (bind_ok _ _ _ _ _ (kfree_eq p s Hrd Hpo)).
    destruct (IH fuel (p + PGSIZE) (p :: l) (kfree_state p s)) as (s' & E & Hr' & Hi');
      [lia|lia|done| |by apply kfree_ready|by apply kfree_state_inv|].
    + apply Forall_forall. intros q Hq. apply not_elem_of_cons. split.
      * apply elem_of_page_range in Hq as (i & Hi' & ->). unfold PGSIZE. lia.
      * by eapply Forall_forall in Hl.
    + exists s'. split; [done|]. split; [done|]. by rewrite <- app_assoc.
Qed.

(** The number of whole pages between the end of the kernel image and PHYSTOP. *)
Definition free_pages : nat := Z.to_nat ((PHYSTOP - PGROUNDUP end_) / PGSIZE).

Lemma end_roundup : end_ <= PGROUNDUP end_ <= PHYSTOP /\ page_aligned (PGROUNDUP end_).
Proof.
  unfold image_ok in Himg. assert (0 <= end_ /\ end_ + PGSIZE <= 2 ^ 64) as [] by
    (unfold PHYSTOP, KERNBASE, PGSIZE in *; lia).
  destruct (PGROUNDUP_bounds end_) as ([Hb Hlt] & Ha); [lia|lia|].
  split; [|done]. split; [done|].
  assert (page_aligned PHYSTOP) by done.
  unfold page_aligned, PGSIZE, PHYSTOP, KERNBASE in *. Z.to_euclidean_division_equations. lia.
Qed.

Lemma free_pages_ok : Forall page_ok (page_range (PGROUNDUP end_) free_pages).
Proof.
  apply Forall_forall. intros q (i & Hi & ->)%elem_of_page_range.
  destruct end_roundup as [He Ha]. unfold free_pages in Hi.
  unfold page_ok, page_aligned, PGSIZE, PHYSTOP, KERNBASE in *.
  Z.to_euclidean_division_equations. lia.
Qed.

(** C35: [kinit] terminates without panicking, leaves the allocator's lock initialised and
    free, and puts exactly the whole pages between the end of the kernel image and PHYSTOP
    on the free list, the highest first. *)
Theorem kinit_correct s :
  hart_ok s -> freelist s = 0 ->
  exists s', kinit s = Ok tt s' /\ kmem_ready s' /\
    kmem_inv (rev (page_range (PGROUNDUP end_) free_pages)) s'.
Proof.
  intros Hh Hf. unfold kinit, freerange.
  unfold initlock, lset. erewrite bind_ok by done.
  set (s1 := with_locks _ s).
  destruct (freerange_loop_spec free_pages (freerange_fuel end_ PHYSTOP) (PGROUNDUP end_) PHYSTOP [] s1)
    as (s' & E & Hr & Hi).
  - destruct end_roundup as [He Ha]. unfold freerange_fuel, free_pages, PGSIZE.
    Z.to_euclidean_division_equations. lia.
  - destruct end_roundup as [He Ha]. unfold free_pages, PGSIZE.
    Z.to_euclidean_division_equations. lia.
  - apply free_pages_ok.
  - apply Forall_forall. intros q _. apply not_elem_of_nil.
  - split; [exact Hh|]. eexists. apply lookup_insert_eq.
  - split; [exact Hf|]. split; [constructor|done].
  - exists s'. rewrite app_nil_r in Hi. done.
Qed.

End kalloc.

(** ** A concrete machine *)

(** An image that ends two and a half pages below PHYSTOP. *)
#[local] Definition small_image : image :=
  Image (PHYSTOP - 10240) (KERNBASE + 8192) (KERNBASE + 4096) (KERNBASE + 4096)
    (KERNBASE + 4252) (KERNBASE + 256) (KERNBASE + 512) (KERNBASE + 1024).

Lemma small_image_ok : @image_ok small_image.
Proof. done. Qed.

(** After boot, with the allocator's lock initialised and nothing freed yet. *)
Definition kmem_boot : kst := with_locks {[ L_kmem := Spinlock 0 "kmem" None ]} boot_state.

Lemma kmem_boot_ready : kmem_ready kmem_boot.
Proof. split; [exact boot_hart_ok|]. by eexists. Qed.

Lemma kalloc_refines_stack_witness :
  exists s', @kops_run small_image [KFree (PHYSTOP - 4096); KFree (PHYSTOP - 8192); KAlloc; KAlloc; KAlloc]
      kmem_boot = Ok [0; 0; PHYSTOP - 8192; PHYSTOP - 4096; 0] s' /\ kmem_ready s' /\
    @kmem_inv small_image [] s'.
Proof.
  destruct (@kalloc_refines_stack small_image small_image_ok
    [KFree (PHYSTOP - 4096); KFree (PHYSTOP - 8192); KAlloc; KAlloc; KAlloc] [] kmem_boot)
    as (s' & E & Hr & Hi & _).
  - exact kmem_boot_ready.
  - split; [done|]. split; [constructor|done].
  - split; [split; [done|apply not_elem_of_nil]|].
    split; [split; [done|apply not_elem_of_cons; split; [done|apply not_elem_of_nil]]|]. done.
  - exists s'. exact (conj E (conj Hr Hi)).
Defined.


Lemma kinit_correct_witness :
  exists s', @kinit small_image boot_state = Ok tt s' /\ kmem_ready s' /\
    @kmem_inv small_image [PHYSTOP - 4096; PHYSTOP - 8192] s'.
Proof. exact (@kinit_correct small_image small_image_ok boot_state boot_hart_ok eq_refl). Defined.
