(* ===== verification/Vm.v ===== *)
(** * Virtual memory: kernel/vm.c

    Sv39 page tables in physical memory.  [copyout], [copyin] and [copyinstr] move
    bytes between user pages and kernel objects; a kernel object is the list of its
    bytes, so the latter two return the bytes they stored beside their result. *)

From S2P Require Import Prelude Riscv Memory State Spinlock Kalloc.

Section vm.
Context `{image}.

(** ** walk *)

(** The body of [for(int level = 2; level > 0; level--)], then [return &pagetable[PX(0, va)]]. *)
Fixpoint walk_level (level : nat) (pagetable va : Z) (alloc : bool) : K Z :=
  match level with
  | O => ret (pagetable + 8 * PX 0 va)
  | S l =>
      let pte := pagetable + 8 * PX (Z.of_nat level) va in
      v <- load64 pte;;
      if negb (Z.land v PTE_V =? 0) then walk_level l (PTE2PA v) va alloc else
      if negb alloc then ret 0 else
      p <- kalloc;;
      if p =? 0 then ret 0 else
      mem_memset p 0 PGSIZE;;
      store64 pte (Z.lor (PA2PTE p) PTE_V);;
      walk_level l p va alloc
  end.

Definition walk (pagetable va : Z) (alloc : bool) : K Z :=
  if va >=? MAXVA then panic "walk" else walk_level 2 pagetable va alloc.

Definition walkaddr (pagetable va : Z) : K Z :=
  if va >=? MAXVA then ret 0 else
  pte <- walk pagetable va false;;
  if pte =? 0 then ret 0 else
  v <- load64 pte;;
  if Z.land v PTE_V =? 0 then ret 0 else
  if Z.land v PTE_U =? 0 then ret 0 else
  ret (PTE2PA v).

(** ** Adding and removing mappings *)

Fixpoint mappages_loop (fuel : nat) (pagetable a last pa perm : Z) : K Z :=
  match fuel with
  | O => fun _ => NoFuel
  | S n =>
      pte <- walk pagetable a true;;
      if pte =? 0 then ret (-1) else
      v <- load64 pte;;
      if negb (Z.land v PTE_V =? 0) then panic "mappages: remap" else
      store64 pte (Z.lor (Z.lor (PA2PTE pa) (u64 perm)) PTE_V);;
      if a =? last then ret 0 else
      mappages_loop n pagetable (a +u PGSIZE) last (pa +u PGSIZE) perm
  end.

Definition mappages (pagetable va size pa perm : Z) : K Z :=
  if size =? 0 then panic "mappages: size" else
  let a := PGROUNDDOWN va in
  let last := PGROUNDDOWN (va +u size -u 1) in
  mappages_loop (S (Z.to_nat ((last -u a) / PGSIZE))) pagetable a last pa perm.

Definition kvmmap (kpgtbl va pa sz perm : Z) : K unit :=
  r <- mappages kpgtbl va sz pa perm;;
  if negb (r =? 0) then panic "kvmmap" else ret tt.

Fixpoint uvmunmap_loop (fuel : nat) (pagetable a bound : Z) (do_free : bool) : K unit :=
  match fuel with
  | O => fun _ => NoFuel
  | S n =>
      if negb (a <? bound) then ret tt else
      pte <- walk pagetable a false;;
      if pte =? 0 then panic "uvmunmap: walk" else
      v <- load64 pte;;
      if Z.land v PTE_V =? 0 then panic "uvmunmap: not mapped" else
      if PTE_FLAGS v =? PTE_V then panic "uvmunmap: not a leaf" else
      (if do_free then kfree (PTE2PA v) else ret tt);;
      store64 pte 0;;
      uvmunmap_loop n pagetable (a +u PGSIZE) bound do_free
  end.

Definition uvmunmap (pagetable va npages : Z) (do_free : bool) : K unit :=
  if negb (va mod PGSIZE =? 0) then panic "uvmunmap: not aligned" else
  uvmunmap_loop (S (Z.to_nat npages)) pagetable va (va +u u64 (npages * PGSIZE)) do_free.

(** ** User address spaces *)

Definition uvmcreate : K Z :=
  pagetable <- kalloc;;
  if pagetable =? 0 then ret 0 else
  mem_memset pagetable 0 PGSIZE;;
  ret pagetable.

Definition store_bytes (a : Z) (l : list Z) : K unit :=
  modify (fun s => with_mem (wr_bytes (mem s) a l) s).
Definition load_bytes (a : Z) (n : nat) : K (list Z) := gets (fun s => rd_bytes n (mem s) a).

Definition uvmfirst (pagetable : Z) (src : list Z) (sz : Z) : K unit :=
  if sz >=? PGSIZE then panic "uvmfirst: more than a page" else
  mem <- kalloc;;
  mem_memset mem 0 PGSIZE;;
  _ <- mappages pagetable 0 PGSIZE mem (Z.lor (Z.lor (Z.lor PTE_W PTE_R) PTE_X) PTE_U);;
  store_bytes mem (take (Z.to_nat sz) src).

Definition uvmdealloc (pagetable oldsz newsz : Z) : K Z :=
  if newsz >=? oldsz then ret oldsz else
  (if PGROUNDUP newsz <? PGROUNDUP oldsz
   then let npages := i32 ((PGROUNDUP oldsz -u PGROUNDUP newsz) / PGSIZE) in
        uvmunmap pagetable (PGROUNDUP newsz) (u64 npages) true
   else ret tt);;
  ret newsz.

Fixpoint uvmalloc_loop (fuel : nat) (pagetable a oldsz newsz xperm : Z) : K Z :=
  match fuel with
  | O => fun _ => NoFuel
  | S n =>
      if negb (a <? newsz) then ret newsz else
      mem <- kalloc;;
      if mem =? 0 then _ <- uvmdealloc pagetable a oldsz;; ret 0 else
      mem_memset mem 0 PGSIZE;;
      r <- mappages pagetable a PGSIZE mem (Z.lor (Z.lor PTE_R PTE_U) xperm);;
      if negb (r =? 0) then kfree mem;; _ <- uvmdealloc pagetable a oldsz;; ret 0 else
      uvmalloc_loop n pagetable (a +u PGSIZE) oldsz newsz xperm
  end.

Definition uvmalloc (pagetable oldsz newsz xperm : Z) : K Z :=
  if newsz <? oldsz then ret oldsz else
  let oldsz := PGROUNDUP oldsz in
  uvmalloc_loop (S (Z.to_nat ((newsz - oldsz + PGSIZE - 1) / PGSIZE))) pagetable oldsz oldsz newsz xperm.

(** The recursion follows the levels of the page table; [freewalk] starts it at the root of a
    three-level tree. *)
Fixpoint freewalk_level (fuel : nat) (pagetable : Z) : K unit :=
  match fuel with
  | O => fun _ => NoFuel
  | S n =>
      forM (seq 0 512) (fun i =>
        let a := pagetable + 8 * Z.of_nat i in
        pte <- load64 a;;
        if negb (Z.land pte PTE_V =? 0) && (Z.land pte (Z.lor (Z.lor PTE_R PTE_W) PTE_X) =? 0)
        then freewalk_level n (PTE2PA pte);; store64 a 0
        else if negb (Z.land pte PTE_V =? 0) then panic "freewalk: leaf"
        else ret tt);;
      kfree pagetable
  end.

Definition freewalk (pagetable : Z) : K unit := freewalk_level 3 pagetable.

Definition uvmfree (pagetable sz : Z) : K unit :=
  (if sz >? 0 then uvmunmap pagetable 0 (PGROUNDUP sz / PGSIZE) true else ret tt);;
  freewalk pagetable.

Definition mem_memmove (dst src n : Z) : K unit :=
  modify (fun s => with_mem (memmove (mem s) dst src n) s).

Definition uvmcopy_err (new i : Z) : K Z :=
  uvmunmap new 0 (i / PGSIZE) true;; ret (-1).

Fixpoint uvmcopy_loop (fuel : nat) (old new sz i : Z) : K Z :=
  match fuel with
  | O => fun _ => NoFuel
  | S n =>
      if negb (i <? sz) then ret 0 else
      pte <- walk old i false;;
      if pte =? 0 then panic "uvmcopy: pte should exist" else
      v <- load64 pte;;
      if Z.land v PTE_V =? 0 then panic "uvmcopy: page not present" else
      let pa := PTE2PA v in
      let flags := PTE_FLAGS v in
      mem <- kalloc;;
      if mem =? 0 then uvmcopy_err new i else
      mem_memmove mem pa PGSIZE;;
      r <- mappages new i PGSIZE mem flags;;
      if negb (r =? 0) then kfree mem;; uvmcopy_err new i else
      uvmcopy_loop n old new sz (i +u PGSIZE)
  end.

Definition uvmcopy (old new sz : Z) : K Z :=
  uvmcopy_loop (S (Z.to_nat ((sz + PGSIZE - 1) / PGSIZE))) old new sz 0.

Definition uvmclear (pagetable va : Z) : K unit :=
  pte <- walk pagetable va false;;
  if pte =? 0 then panic "uvmclear" else
  v <- load64 pte;;
  store64 pte (Z.land v (Z.lnot PTE_U)).

(** ** Copying between user and kernel *)

(** Iterations of a copy loop: the first and the last page may be partial. *)
Definition copy_fuel (len : Z) : nat := 3 + Z.to_nat (len / PGSIZE).

Fixpoint copyout_loop (fuel : nat) (pagetable dstva : Z) (src : list Z) (len : Z) : K Z :=
  match fuel with
  | O => fun _ => NoFuel
  | S f =>
      if negb (len >? 0) then ret 0 else
      let va0 := PGROUNDDOWN dstva in
      pa0 <- walkaddr pagetable va0;;
      if pa0 =? 0 then ret (-1) else
      let n := PGSIZE -u (dstva -u va0) in
      let n := if n >? len then len else n in
      store_bytes (pa0 +u (dstva -u va0)) (take (Z.to_nat n) src);;
      copyout_loop f pagetable (va0 +u PGSIZE) (drop (Z.to_nat n) src) (len -u n)
  end.

Definition copyout (pagetable dstva : Z) (src : list Z) (len : Z) : K Z :=
  copyout_loop (copy_fuel len) pagetable dstva src len.

(** The second component is what has been stored at [dst]. *)
Fixpoint copyin_loop (fuel : nat) (pagetable : Z) (dst : list Z) (srcva len : Z) : K (Z * list Z) :=
  match fuel with
  | O => fun _ => NoFuel
  | S f =>
      if negb (len >? 0) then ret (0, dst) else
      let va0 := PGROUNDDOWN srcva in
      pa0 <- walkaddr pagetable va0;;
      if pa0 =? 0 then ret (-1, dst) else
      let n := PGSIZE -u (srcva -u va0) in
      let n := if n >? len then len else n in
      bytes <- load_bytes (pa0 +u (srcva -u va0)) (Z.to_nat n);;
      copyin_loop f pagetable (dst ++ bytes) (va0 +u PGSIZE) (len -u n)
  end.

Definition copyin (pagetable srcva len : Z) : K (Z * list Z) :=
  copyin_loop (copy_fuel len) pagetable [] srcva len.

(** [while(n > 0)] of [copyinstr]: what it stores and whether it met the NUL. *)
Fixpoint copyinstr_page (n : nat) (m : memory) (p : Z) (dst : list Z) : list Z * bool :=
  match n with
  | O => (dst, false)
  | S n' => if rd8 m p =? 0 then (dst ++ [0], true)
            else copyinstr_page n' m (p + 1) (dst ++ [rd8 m p])
  end.

Fixpoint copyinstr_loop (fuel : nat) (pagetable : Z) (dst : list Z) (srcva max : Z) : K (Z * list Z) :=
  match fuel with
  | O => fun _ => NoFuel
  | S f =>
      if negb (max >? 0) then ret (-1, dst) else
      let va0 := PGROUNDDOWN srcva in
      pa0 <- walkaddr pagetable va0;;
      if pa0 =? 0 then ret (-1, dst) else
      let n := PGSIZE -u (srcva -u va0) in
      let n := if n >? max then max else n in
      r <- gets (fun s => copyinstr_page (Z.to_nat n) (mem s) (pa0 +u (srcva -u va0)) dst);;
      let '(dst, got_null) := r in
      if got_null then ret (0, dst) else
      copyinstr_loop f pagetable dst (va0 +u PGSIZE) (max -u n)
  end.

Definition copyinstr (pagetable srcva max : Z) : K (Z * list Z) :=
  copyinstr_loop (copy_fuel max) pagetable [] srcva max.

End vm.
