(* ===== verification/PageTable.v ===== *)
(** * Sv39 page tables as maps

    [pt_rep m root T U]: in memory [m] the page-table tree rooted at page [root]
    consists of the table pages [T] (indexed by the path of 9-bit indices that leads
    to them) and maps exactly the virtual pages of [U], each to a physical page and
    its flag bits.  The lemmas say how the representation reacts to the writes
    [kernel/vm.c] makes. *)

From S2P Require Import Prelude Riscv Memory State Spinlock Kalloc Vm.

(** ** Memory outside a set of pages *)

Definition same_outside (P : gset Z) (m m' : memory) : Prop :=
  forall a, (forall q, q ∈ P -> ~ q <= a < q + PGSIZE) -> rd8 m' a = rd8 m a.

Lemma same_refl P m : same_outside P m m.
Proof. by intros a _. Qed.

Lemma same_weaken P Q m m' : P ⊆ Q -> same_outside P m m' -> same_outside Q m m'.
Proof. intros HPQ H a Ha. apply H. intros q Hq. apply Ha. set_solver. Qed.

Lemma same_trans P Q R m1 m2 m3 :
  same_outside P m1 m2 -> same_outside Q m2 m3 -> P ⊆ R -> Q ⊆ R -> same_outside R m1 m3.
Proof.
  intros H1 H2 HP HQ a Ha. rewrite H2 by (intros q Hq; apply Ha; set_solver).
  apply H1. intros q Hq. apply Ha. set_solver.
Qed.

Lemma same_only_page m m' p : only_page m m' p -> same_outside {[p]} m m'.
Proof. intros H a Ha. apply H. apply Ha. set_solver. Qed.

(** A word of a page outside the set. *)
Lemma same_rd8 P m m' t i :
  same_outside P m m' -> (forall q, q ∈ P -> page_aligned q) -> page_aligned t -> t ∉ P ->
  0 <= i < PGSIZE -> rd8 m' (t + i) = rd8 m (t + i).
Proof.
  intros H HP Ht Hn Hi. apply H. intros q Hq.
  assert (q <> t) as Hne by set_solver.
  destruct (pages_disjoint q t (HP q Hq) Ht Hne); lia.
Qed.

Lemma same_rd64 P m m' t i :
  same_outside P m m' -> (forall q, q ∈ P -> page_aligned q) -> page_aligned t -> t ∉ P ->
  0 <= i <= PGSIZE - 8 -> rd64 m' (t + i) = rd64 m (t + i).
Proof.
  intros H HP Ht Hn Hi. apply rd64_ext. intros j Hj. rewrite <- Z.add_assoc.
  eapply same_rd8; [done..|lia].
Qed.

Section pagetable.
Context `{image}.

(** ** Representation *)

(** An entry of an upper-level table: a pointer to the next table, or invalid. *)
Definition node_pte (v : Z) (o : option Z) : Prop :=
  match o with
  | Some t => v = Z.lor (PA2PTE t) PTE_V
  | None => Z.land v PTE_V = 0
  end.

(** An entry of a lowest-level table. *)
Definition leaf_pte (v : Z) (o : option (Z * Z)) : Prop :=
  match o with
  | Some (pa, fl) => v = Z.lor (PA2PTE pa) fl /\ pa_ok pa /\ 0 <= fl < 2 ^ 10 /\ Z.land fl PTE_V <> 0
  | None => Z.land v PTE_V = 0
  end.

Definition index_ok (i : Z) : Prop := 0 <= i < 512.

(** The path to the lowest-level table for [va]. *)
Definition vpath (va : Z) : list Z := [PX 2 va; PX 1 va].

Definition va_ok (va : Z) : Prop := 0 <= va < MAXVA /\ page_aligned va.
#[export] Instance va_ok_dec va : Decision (va_ok va) := and_dec _ _.

Record pt_rep (m : memory) (root : Z) (T : gmap (list Z) Z) (U : gmap Z (Z * Z)) : Prop := {
  pt_root : T !! [] = Some root;
  pt_path : forall p t, T !! p = Some t -> (length p <= 2)%nat /\ Forall index_ok p /\ hd 0 p < 256;
  pt_prefix : forall p i t, T !! (p ++ [i]) = Some t -> is_Some (T !! p);
  pt_page : forall p t, T !! p = Some t -> page_ok t;
  pt_inj : forall p q t, T !! p = Some t -> T !! q = Some t -> p = q;
  pt_node : forall p t i, T !! p = Some t -> (length p < 2)%nat -> index_ok i ->
    node_pte (rd64 m (t + 8 * i)) (T !! (p ++ [i]));
  pt_leaf : forall va t, va_ok va -> T !! vpath va = Some t ->
    leaf_pte (rd64 m (t + 8 * PX 0 va)) (U !! va);
  pt_dom : forall va e, U !! va = Some e -> va_ok va /\ is_Some (T !! vpath va)
}.

(** The pages of the tree. *)
Definition tpages (T : gmap (list Z) Z) : gset Z := map_img T.

Lemma elem_of_tpages T t : t ∈ tpages T <-> exists p, T !! p = Some t.
Proof. apply elem_of_map_img. Qed.

Lemma PX_index l va : 0 <= l -> index_ok (PX l va).
Proof. apply PX_range. Qed.

Lemma index_slot i : index_ok i -> 0 <= 8 * i <= PGSIZE - 8.
Proof. unfold index_ok, PGSIZE. lia. Qed.

Lemma vpath_inj va vb :
  va_ok va -> va_ok vb -> vpath va = vpath vb -> PX 0 va = PX 0 vb -> va = vb.
Proof. intros [? ?] [? ?] [= ? ?] ?. by apply PX_inj. Qed.

Lemma pt_aligned m root T U p t : pt_rep m root T U -> T !! p = Some t -> page_aligned t.
Proof. intros R E. by apply (pt_page _ _ _ _ R) in E as [? _]. Qed.

(** Memory that agrees on the table pages represents the same page table. *)
Lemma pt_frame P m m' root T U :
  pt_rep m root T U -> same_outside P m m' -> (forall q, q ∈ P -> page_aligned q) ->
  (forall t, t ∈ tpages T -> t ∉ P) -> pt_rep m' root T U.
Proof.
  intros R Hs Ha Hd.
  assert (forall p t i, T !! p = Some t -> index_ok i -> rd64 m' (t + 8 * i) = rd64 m (t + 8 * i)) as E.
  { intros p t i Ht Hi. eapply same_rd64; [done..| | |by apply index_slot].
    - by eapply pt_aligned.
    - apply Hd, elem_of_tpages. by exists p. }
  constructor; try apply R.
  - intros p t i Ht Hl Hi. erewrite E by done. by apply (pt_node _ _ _ _ R).
  - intros va t Hva Ht. erewrite E by (done || apply PX_index; lia).
    by apply (pt_leaf _ _ _ _ R).
Qed.

(** An empty tree. *)
Lemma empty_rep m root :
  page_ok root -> (forall j, index_ok j -> rd64 m (root + 8 * j) = 0) -> pt_rep m root {[ [] := root ]} ∅.
Proof.
  intros Hr Hz. split.
  - apply lookup_singleton_eq.
  - intros p t [<- <-]%lookup_singleton_Some. split; [simpl; lia|]. split; [done|simpl; lia].
  - intros p i t [E _]%lookup_singleton_Some. by destruct p.
  - by intros p t [_ <-]%lookup_singleton_Some.
  - by intros p q t [<- _]%lookup_singleton_Some [<- _]%lookup_singleton_Some.
  - intros p t i [<- <-]%lookup_singleton_Some _ Hi. rewrite Hz by done. by rewrite lookup_singleton_ne.
  - intros va t _ [E _]%lookup_singleton_Some. done.
  - intros va e E. by rewrite lookup_empty in E.
Qed.

(** Two different slots of the tree's pages do not overlap. *)
Lemma slots_disjoint t i t' i' :
  page_aligned t -> page_aligned t' -> index_ok i -> index_ok i' -> (t, i) <> (t', i') ->
  t + 8 * i + 8 <= t' + 8 * i' \/ t' + 8 * i' + 8 <= t + 8 * i.
Proof.
  intros Ht Ht' Hi Hi' Hne. unfold index_ok in *.
  destruct (decide (t = t')) as [->|Htt].
  - assert (i <> i') by congruence. lia.
  - destruct (pages_disjoint t t' Ht Ht' Htt); unfold PGSIZE in *; lia.
Qed.

Lemma rd64_slot_ne m v t i t' i' :
  page_aligned t -> page_aligned t' -> index_ok i -> index_ok i' -> (t, i) <> (t', i') ->
  rd64 (wr64 m (t + 8 * i) v) (t' + 8 * i') = rd64 m (t' + 8 * i').
Proof.
  intros Ht Ht' Hi Hi' Hne. apply rd64_wr64_ne.
  destruct (slots_disjoint t i t' i' Ht Ht' Hi Hi' Hne); lia.
Qed.

(** Writing the leaf entry of [va]. *)
Lemma pt_write_leaf m root T U va t v o :
  pt_rep m root T U -> va_ok va -> T !! vpath va = Some t ->
  leaf_pte v o -> 0 <= v < 2 ^ 64 ->
  pt_rep (wr64 m (t + 8 * PX 0 va) v) root T (partial_alter (fun _ => o) va U).
Proof.
  intros R Hva Ht Hv Hr. assert (index_ok (PX 0 va)) as Hi by (apply PX_index; lia).
  constructor; try apply R.
  - intros p t' i Ht' Hl Hi'. rewrite rd64_slot_ne; [by apply (pt_node _ _ _ _ R)|
      by eapply pt_aligned|by eapply pt_aligned|done|done|].
    intros [= <- _]. assert (vpath va = p) as <- by by eapply (pt_inj _ _ _ _ R). simpl in Hl. lia.
  - intros vb t' Hvb Ht'. destruct (decide (va = vb)) as [<-|Hne].
    + rewrite Ht in Ht'. injection Ht' as <-. rewrite rd64_wr64 by done.
      by rewrite lookup_partial_alter_eq.
    + rewrite lookup_partial_alter_ne by done. assert (index_ok (PX 0 vb)) by (apply PX_index; lia).
      rewrite rd64_slot_ne; [by apply (pt_leaf _ _ _ _ R)|
        by eapply pt_aligned|by eapply pt_aligned|done|done|].
      intros [= <- E]. apply Hne, vpath_inj; [done..| |done].
      by eapply (pt_inj _ _ _ _ R).
  - intros vb e. destruct (decide (va = vb)) as [<-|Hne].
    + intros _. split; [done|by eexists].
    + rewrite lookup_partial_alter_ne by done. apply (pt_dom _ _ _ _ R).
Qed.

Lemma pte_range pa fl : pa_ok pa -> 0 <= fl < 2 ^ 10 -> 0 <= Z.lor (PA2PTE pa) fl < 2 ^ 64.
Proof.
  intros Hp Hf. rewrite (lor_disjoint_add _ _ 10) by (try apply PA2PTE_low; lia || done).
  rewrite PA2PTE_spec by done. destruct Hp as [_ Hp]. Z.to_euclidean_division_equations. lia.
Qed.

(** Linking a zeroed page [q] as a new table. *)
Lemma pt_add_node m m1 root T U p t i q :
  pt_rep m root T U -> T !! p = Some t -> (length p < 2)%nat -> index_ok i -> (p = [] -> i < 256) ->
  T !! (p ++ [i]) = None -> page_ok q -> pa_ok q -> q ∉ tpages T ->
  same_outside {[q]} m m1 -> (forall j, index_ok j -> rd64 m1 (q + 8 * j) = 0) ->
  pt_rep (wr64 m1 (t + 8 * i) (Z.lor (PA2PTE q) PTE_V)) root (<[p ++ [i] := q]> T) U.
Proof.
  intros R Ht Hl Hi Hi256 Hnew Hq Hqa Hfresh Hs Hz.
  assert (page_aligned t) as Hta by by eapply pt_aligned.
  assert (page_aligned q) as Hqal by apply Hq.
  assert (forall p' t', T !! p' = Some t' -> t' <> q) as Hneq.
  { intros p' t' Ht' ->. apply Hfresh, elem_of_tpages. by exists p'. }
  assert (forall p' t' j, T !! p' = Some t' -> index_ok j -> rd64 m1 (t' + 8 * j) = rd64 m (t' + 8 * j)) as Em.
  { intros p' t' j Ht' Hj. eapply same_rd64; [done| | | |by apply index_slot].
    - by intros ? ->%elem_of_singleton.
    - by eapply pt_aligned.
    - rewrite elem_of_singleton. by eapply Hneq. }
  assert (forall v j, index_ok j -> rd64 (wr64 m1 (t + 8 * i) v) (q + 8 * j) = 0) as Eq.
  { intros v j Hj. rewrite rd64_slot_ne; [by apply Hz|done..|]. intros [= ? _]. by eapply Hneq. }
  constructor.
  - rewrite lookup_insert_ne; [apply R|]. by destruct p.
  - intros p' t' [[<- <-]|[_ Ht']]%lookup_insert_Some; [|by apply (pt_path _ _ _ _ R) in Ht'].
    destruct (pt_path _ _ _ _ R _ _ Ht) as (_ & Hf & Hh). rewrite length_app. simpl.
    split; [lia|]. split; [apply Forall_app; split; [done|]; by apply Forall_singleton|].
    destruct p; simpl in *; auto.
  - intros p' i' t' [[[-> _]%app_inj_tail_iff _]|[_ Ht']]%lookup_insert_Some.
    + rewrite lookup_insert_is_Some'. right. by eexists.
    + rewrite lookup_insert_is_Some'. right. by eapply (pt_prefix _ _ _ _ R).
  - intros p' t' [[_ <-]|[_ Ht']]%lookup_insert_Some; [done|by apply (pt_page _ _ _ _ R) in Ht'].
  - intros p1 p2 t'. intros [[<- <-]|[_ H1]]%lookup_insert_Some [[<- E]|[_ H2]]%lookup_insert_Some;
      [done|by destruct (Hneq _ _ H2)|subst; by destruct (Hneq _ _ H1)|by eapply (pt_inj _ _ _ _ R)].
  - intros p' t' i' [[<- <-]|[Hne Ht']]%lookup_insert_Some Hl' Hi'.
    + rewrite Eq by done. rewrite lookup_insert_ne.
      2:{ intros E%(f_equal length). rewrite !length_app in E. simpl in E. lia. }
      destruct (T !! ((p ++ [i]) ++ [i'])) eqn:E'; [|done].
      apply (pt_prefix _ _ _ _ R) in E'. rewrite Hnew in E'. by destruct E'.
    + destruct (decide ((t, i) = (t', i'))) as [[= <- <-]|Hne'].
      * assert (p = p') as <- by by eapply (pt_inj _ _ _ _ R).
        rewrite rd64_wr64 by (by apply pte_range; [|vm_compute]). by rewrite lookup_insert_eq.
      * rewrite rd64_slot_ne by (done || by eapply pt_aligned).
        erewrite Em by done. rewrite lookup_insert_ne; [by apply (pt_node _ _ _ _ R)|].
        intros [-> ->]%app_inj_tail_iff. rewrite Ht in Ht'. by injection Ht' as ->.
  - intros va t' Hva [[Ep <-]|[Hne Ht']]%lookup_insert_Some.
    + rewrite Eq by (apply PX_index; lia). destruct (U !! va) as [e|] eqn:EU; [|done].
      apply (pt_dom _ _ _ _ R) in EU as [_ HU]. rewrite <- Ep, Hnew in HU. by destruct HU.
    + assert (index_ok (PX 0 va)) by (apply PX_index; lia).
      rewrite rd64_slot_ne; [|done|by eapply pt_aligned|done|done|].
      * erewrite Em by done. by apply (pt_leaf _ _ _ _ R).
      * intros [= <- _]. assert (p = vpath va) as -> by by eapply (pt_inj _ _ _ _ R). simpl in Hl. lia.
  - intros va e HU. apply (pt_dom _ _ _ _ R) in HU as [Hva HT]. split; [done|].
    rewrite lookup_insert_is_Some'. by right.
Qed.

(** ** Decoding entries *)

Lemma pte_valid pa fl : pa_ok pa -> Z.land (Z.lor (PA2PTE pa) fl) PTE_V = Z.land fl PTE_V.
Proof.
  intros Hp. change PTE_V with (Z.ones 1). rewrite !Z.land_ones by lia.
  apply Z.bits_inj'. intros n Hn. destruct (decide (n < 1)) as [Hlt|].
  - rewrite !Z.mod_pow2_bits_low, Z.lor_spec by lia.
    assert (Z.testbit (PA2PTE pa) n = false) as ->; [|done].
    rewrite <- (Z.mod_pow2_bits_low _ 10) by lia. by rewrite PA2PTE_low, Z.bits_0.
  - by rewrite !Z.mod_pow2_bits_high by lia.
Qed.

Lemma pte_flag pa fl k :
  pa_ok pa -> 0 <= k < 10 ->
  Z.land (Z.lor (PA2PTE pa) fl) (2 ^ k) = Z.land fl (2 ^ k).
Proof.
  intros Hp Hk. apply Z.bits_inj'. intros n Hn.
  rewrite !Z.land_spec, Z.lor_spec, Z.pow2_bits_eqb by lia.
  destruct (Z.eqb_spec k n) as [<-|]; [|by rewrite !andb_false_r].
  assert (Z.testbit (PA2PTE pa) k = false) as ->; [|done].
  rewrite <- (Z.mod_pow2_bits_low _ 10) by lia. by rewrite PA2PTE_low, Z.bits_0.
Qed.

Lemma node_valid t : pa_ok t -> Z.land (Z.lor (PA2PTE t) PTE_V) PTE_V <> 0.
Proof. intros Ht. by rewrite pte_valid. Qed.

Lemma node_addr t : pa_ok t -> PTE2PA (Z.lor (PA2PTE t) PTE_V) = t.
Proof. intros Ht. by apply PTE2PA_PA2PTE. Qed.

(** ** Allocator and tree together *)

Definition vm_ok (l : list Z) (s : kst) : Prop := kmem_ready s /\ kmem_inv l s.

(** Table pages are not on the free list. *)
Definition apart (T : gmap (list Z) Z) (l : list Z) : Prop := forall t, t ∈ tpages T -> t ∉ l.

(** A state with memory, free list and [intena] masked: what virtual-memory code leaves alone. *)
Definition quiet (s : kst) : kst := with_mem ∅ (with_freelist 0 (touch s)).

Lemma quiet_mem m s : quiet (with_mem m s) = quiet s.
Proof.
  unfold quiet. rewrite <- (framed_touch (with_mem m)) by solve_framed. kst_cbv. done.
Qed.

Lemma quiet_freelist f s : quiet (with_freelist f s) = quiet s.
Proof.
  unfold quiet. rewrite <- (framed_touch (with_freelist f)) by solve_framed. kst_cbv. done.
Qed.

Lemma quiet_touch s : quiet (touch s) = quiet s.
Proof. unfold quiet. by rewrite touch_touch. Qed.

Lemma kalloc_state_quiet s : quiet (kalloc_state s) = quiet s.
Proof. unfold kalloc_state. by rewrite quiet_mem, quiet_freelist, quiet_touch. Qed.

Lemma kfree_state_quiet pa s : quiet (kfree_state pa s) = quiet s.
Proof. unfold kfree_state. by rewrite quiet_freelist, quiet_mem, quiet_touch. Qed.

Lemma chain_same P m m' head l :
  same_outside P m m' -> (forall q, q ∈ P -> page_aligned q) -> Forall page_ok l ->
  (forall q, q ∈ P -> q ∉ l) -> chain m head l -> chain m' head l.
Proof.
  intros Hs Ha. revert head. induction l as [|q l IH]; intros head Hl Hd Hc; simpl in *; [done|].
  apply Forall_cons in Hl as [[Hq _] Hl]. destruct Hc as [-> Hc]. split; [done|].
  rewrite <- (Z.add_0_r q) at 1. erewrite same_rd64; [|done..| |].
  - rewrite Z.add_0_r. apply IH; [done| |done]. intros x Hx Hin. apply (Hd x Hx). by right.
  - intros Hin. apply (Hd q Hin). by left.
  - unfold PGSIZE. lia.
Qed.

Lemma vm_ok_mem P l m s :
  vm_ok l s -> same_outside P (mem s) m -> (forall q, q ∈ P -> page_aligned q) ->
  (forall q, q ∈ P -> q ∉ l) -> vm_ok l (with_mem m s).
Proof.
  intros [Hr (Hc & Hn & Hp)] Hs Ha Hd. split; [exact Hr|]. split; [|done].
  exact (chain_same P _ m _ _ Hs Ha Hp Hd Hc).
Qed.

(** [grows root U T l s T' l' s']: from [s] to [s'] the tree gained table pages taken from
    the head of the free list and maps [U] in the end; only table pages were written. *)
Record grows (root : Z) (U : gmap Z (Z * Z)) (T : gmap (list Z) Z) (l : list Z) (s : kst)
    (T' : gmap (list Z) Z) (l' : list Z) (s' : kst) : Prop := {
  g_rep : pt_rep (mem s') root T' U;
  g_vm : vm_ok l' s';
  g_apart : apart T' l';
  g_sub : T ⊆ T';
  g_new : exists new, l = new ++ l' /\ tpages T' = tpages T ∪ list_to_set new;
  g_same : same_outside (tpages T') (mem s) (mem s');
  g_quiet : quiet s' = quiet s
}.

Lemma grows_refl root U T l s :
  pt_rep (mem s) root T U -> vm_ok l s -> apart T l -> grows root U T l s T l s.
Proof.
  intros. split; try done. exists []. split; [done|set_solver].
Qed.

Lemma grows_trans root U1 U2 T1 l1 s1 T2 l2 s2 T3 l3 s3 :
  grows root U1 T1 l1 s1 T2 l2 s2 -> grows root U2 T2 l2 s2 T3 l3 s3 ->
  grows root U2 T1 l1 s1 T3 l3 s3.
Proof.
  intros [_ _ _ Hs1 (n1 & -> & E1) Hm1 Hq1] [Hr Hv Ha Hs2 (n2 & -> & E2) Hm2 Hq2].
  split; [done..|by etrans| | |by rewrite Hq2].
  - exists (n1 ++ n2). rewrite app_assoc, list_to_set_app_L. split; [done|].
    by rewrite E2, E1, (assoc_L (∪)).
  - eapply same_trans; [done..|set_solver|done].
Qed.

(** ** walk *)

Lemma walk_level_hit lvl t va alloc v t' s :
  rd64 (mem s) (t + 8 * PX (Z.of_nat (S lvl)) va) = v -> v = Z.lor (PA2PTE t') PTE_V -> pa_ok t' ->
  walk_level (S lvl) t va alloc s = walk_level lvl t' va alloc s.
Proof.
  intros Ev -> Hp. cbn [walk_level]. unfold load64. rewrite bind_gets, Ev.
  rewrite (proj2 (Z.eqb_neq _ 0)) by by apply node_valid. cbn [negb]. by rewrite node_addr.
Qed.

Lemma walk_level_miss lvl t va alloc s :
  Z.land (rd64 (mem s) (t + 8 * PX (Z.of_nat (S lvl)) va)) PTE_V = 0 ->
  walk_level (S lvl) t va alloc s =
    (if negb alloc then ret 0 else
     p <- kalloc;;
     if p =? 0 then ret 0 else
     mem_memset p 0 PGSIZE;;
     store64 (t + 8 * PX (Z.of_nat (S lvl)) va) (Z.lor (PA2PTE p) PTE_V);;
     walk_level lvl p va alloc)%M s.
Proof.
  intros Ev. cbn [walk_level]. unfold load64 at 1. by rewrite bind_gets, Ev.
Qed.

(** Without allocation, [walk] finds the slot of the lowest-level table if there is one. *)
Lemma walk_lookup root T U va s :
  image_ok -> pt_rep (mem s) root T U -> 0 <= va < MAXVA ->
  walk root va false s =
    Ok (match T !! vpath va with Some t => t + 8 * PX 0 va | None => 0 end) s.
Proof.
  intros Hi R Hva. unfold walk. replace (va >=? MAXVA) with false by lia.
  assert (forall p t, T !! p = Some t -> pa_ok t) as Hpa.
  { intros p t Ht. by apply page_ok_pa, (pt_page _ _ _ _ R p). }
  pose proof (pt_node _ _ _ _ R [] root (PX 2 va) (pt_root _ _ _ _ R)) as N2.
  specialize (N2 ltac:(simpl; lia) (PX_index 2 va ltac:(lia))). simpl in N2.
  destruct (T !! [PX 2 va]) as [t1|] eqn:E1.
  - rewrite (walk_level_hit 1 root va false _ t1) by (done || by eapply Hpa).
    pose proof (pt_node _ _ _ _ R [PX 2 va] t1 (PX 1 va) E1) as N1.
    specialize (N1 ltac:(simpl; lia) (PX_index 1 va ltac:(lia))). simpl in N1.
    unfold vpath. destruct (T !! [PX 2 va; PX 1 va]) as [t0|] eqn:E0.
    + by rewrite (walk_level_hit 0 t1 va false _ t0) by (done || by eapply Hpa).
    + by rewrite walk_level_miss.
  - rewrite walk_level_miss by done. simpl.
    destruct (T !! vpath va) as [t0|] eqn:E0; [|done].
    apply (pt_prefix _ _ _ _ R [PX 2 va] (PX 1 va)) in E0. rewrite E1 in E0. by destruct E0.
Qed.

Lemma zeroed_page m q j :
  page_aligned q -> index_ok j -> rd64 (memset m q 0 PGSIZE) (q + 8 * j) = 0.
Proof.
  intros Hq Hj. transitivity (rd64 ∅ (q + 8 * j)).
  - apply rd64_ext. intros i Hi. rewrite rd8_memset by (unfold PGSIZE; lia).
    rewrite decide_True by (unfold index_ok, PGSIZE in *; lia). done.
  - Transparent rd64. unfold rd64. Opaque rd64. generalize (q + 8 * j). intros a.
    assert (forall n a, rdn n ∅ a = 0) as E; [|apply E].
    clear. intros n. induction n as [|n IH]; intros a; simpl; [done|]. rewrite IH. done.
Qed.

(** [kalloc] hands out the head of the free list, or 0. *)
Lemma kalloc_vm l s :
  image_ok -> vm_ok l s ->
  match l with
  | [] => kalloc s = Ok 0 (touch s) /\ vm_ok [] (touch s)
  | q :: l' => kalloc s = Ok q (kalloc_state s) /\ vm_ok l' (kalloc_state s) /\
      page_ok q /\ pa_ok q /\ 0 < q /\ q ∉ l' /\
      same_outside {[q]} (mem s) (mem (kalloc_state s))
  end.
Proof.
  intros Hi [Hr Hk]. destruct l as [|q l].
  - split; [apply kalloc_empty; [done|apply Hk]|]. split; [by apply touch_ready|exact Hk].
  - destruct (kalloc_state_inv q l s Hk) as [Hk' Hf].
    destruct Hk as (_ & Hn & Hp). apply NoDup_cons in Hn as [? _]. apply Forall_cons in Hp as [Hq _].
    pose proof (page_ok_pos Hi q Hq). rewrite kalloc_some by (done || lia). rewrite Hf.
    split; [done|]. split; [by split; [apply kalloc_ready|]|].
    split; [done|]. split; [by apply page_ok_pa|]. split; [lia|]. split; [done|].
    apply same_only_page. unfold kalloc_state. rewrite Hf. apply only_page_memset.
Qed.

(** The new table page of an allocating walk: allocated, zeroed and linked. *)
Definition link_table (t i q : Z) (s : kst) : kst :=
  let m := memset (mem s) q 0 PGSIZE in
  with_mem (wr64 m (t + 8 * i) (Z.lor (PA2PTE q) PTE_V)) (with_mem m s).

Lemma grows_link root T U q l s p t i :
  image_ok -> pt_rep (mem s) root T U -> vm_ok (q :: l) s -> apart T (q :: l) ->
  T !! p = Some t -> (length p < 2)%nat -> index_ok i -> (p = [] -> i < 256) -> T !! (p ++ [i]) = None ->
  grows root U T (q :: l) s (<[p ++ [i] := q]> T) l (link_table t i q (kalloc_state s)).
Proof.
  intros Hi R Hv Ha Ht Hl Hix H256 E.
  destruct (kalloc_vm _ _ Hi Hv) as (_ & Hv' & Hq & Hqa & Hpos & Hql & Hs0).
  assert (q ∉ tpages T) as Hfresh by (intros Hin; apply (Ha q Hin); by left).
  unfold link_table. set (m1 := memset _ q 0 PGSIZE). set (m2 := wr64 m1 _ _).
  assert (same_outside {[q]} (mem s) m1) as Hs1.
  { eapply same_trans; [done| |done..]. apply same_only_page, only_page_memset. }
  assert (tpages (<[p ++ [i] := q]> T) = tpages T ∪ {[q]}) as Et.
  { unfold tpages. rewrite map_img_insert_notin_L by done. by rewrite (comm_L (∪)). }
  assert (same_outside {[t]} m1 m2) as Hs2 by (by apply same_only_page, only_page_wr64, index_slot).
  assert (t ∈ tpages T) as Htin by (apply elem_of_tpages; by exists p).
  split.
  - apply (pt_add_node (mem s) m1 root T U p t i q);
      [exact R|exact Ht|exact Hl|exact Hix|exact H256|exact E|exact Hq|exact Hqa|exact Hfresh|exact Hs1|]. intros j Hj. by apply zeroed_page; [apply Hq|].
  - apply (vm_ok_mem {[t]}); [apply (vm_ok_mem {[q]}); [done| | |]|done|..].
    + apply same_only_page, only_page_memset.
    + intros ? ->%elem_of_singleton. apply Hq.
    + by intros ? ->%elem_of_singleton.
    + intros ? ->%elem_of_singleton. by eapply pt_aligned.
    + intros ? ->%elem_of_singleton Hin. apply (Ha t Htin). by right.
  - intros x. rewrite Et, elem_of_union, elem_of_singleton. intros [Hx| ->]; [|done].
    intros Hin. apply (Ha x Hx). by right.
  - by apply insert_subseteq.
  - exists [q]. split; [done|]. rewrite Et. simpl. by rewrite (right_id_L ∅ (∪)).
  - rewrite Et. eapply same_trans; [exact Hs1|exact Hs2|set_solver|].
    intros x ->%elem_of_singleton. by apply elem_of_union_l.
  - by rewrite !quiet_mem, kalloc_state_quiet.
Qed.

(** One level of an allocating walk: out of memory, or one level down. *)
Lemma walk_level_alloc root T U l s p t lvl va :
  image_ok -> pt_rep (mem s) root T U -> vm_ok l s -> apart T l ->
  T !! p = Some t -> (length p < 2)%nat -> (p = [] -> PX (Z.of_nat (S lvl)) va < 256) ->
  (l = [] /\ exists s', walk_level (S lvl) t va true s = Ok 0 s' /\ grows root U T l s T l s') \/
  (exists T' l' s' t', walk_level (S lvl) t va true s = walk_level lvl t' va true s' /\
     grows root U T l s T' l' s' /\ T' !! (p ++ [PX (Z.of_nat (S lvl)) va]) = Some t' /\ (length l <= S (length l'))%nat).
Proof.
  intros Hi R Hv Ha Ht Hl H256. set (i := PX (Z.of_nat (S lvl)) va) in *.
  assert (index_ok i) as Hix by (apply PX_index; lia).
  pose proof (pt_node _ _ _ _ R p t i Ht Hl Hix) as N.
  destruct (T !! (p ++ [i])) as [t'|] eqn:E.
  { right. exists T, l, s, t'. split; [|split; [by apply grows_refl|]; split; [done|lia]].
    eapply walk_level_hit; [done..|]. by eapply page_ok_pa, (pt_page _ _ _ _ R). }
  rewrite walk_level_miss by done. cbn [negb]. pose proof (kalloc_vm _ _ Hi Hv) as Hka.
  destruct l as [|q l].
  - left. split; [done|]. destruct Hka as [Hka Hv']. exists (touch s).
    rewrite (bind_ok _ _ _ _ _ Hka). split; [done|].
    split; try done; [exists []; split; [done|]|apply quiet_touch].
    simpl. by rewrite (right_id_L ∅ (∪)).
  - right. destruct Hka as (Hka & _ & _ & _ & Hpos & _). rewrite (bind_ok _ _ _ _ _ Hka).
    replace (q =? 0) with false by lia.
    exists (<[p ++ [i] := q]> T), l, (link_table t i q (kalloc_state s)), q.
    split; [done|]. split; [by apply grows_link|]. split; [apply lookup_insert_eq|done].
Qed.

(** With allocation, [walk] fails only when memory runs out; otherwise it returns the slot in
    a tree that has all the tables on the way. *)
Lemma walk_alloc root T U l va s :
  image_ok -> pt_rep (mem s) root T U -> vm_ok l s -> apart T l -> 0 <= va < MAXVA ->
  exists T' l' s' r, walk root va true s = Ok r s' /\ grows root U T l s T' l' s' /\ (length l <= length l' + 2)%nat /\
    ((r = 0 /\ l' = []) \/ (exists t, T' !! vpath va = Some t /\ r = t + 8 * PX 0 va)).
Proof.
  intros Hi R Hv Ha Hva. unfold walk. replace (va >=? MAXVA) with false by lia.
  destruct (walk_level_alloc root T U l s [] root 1 va) as
    [(-> & s1 & E1 & G1)|(T1 & l1 & s1 & t1 & E1 & G1 & Ht1 & Hl1)]; [try done..| |].
  { apply R. }
  { simpl. lia. }
  { intros _. change (Z.of_nat 2) with 2. rewrite PX_spec by lia. pgconst. change (2 ^ (12 + 9 * 2)) with 1073741824.
    Z.to_euclidean_division_equations. lia. }
  { exists T, [], s1, 0. rewrite E1. split_and!; auto. cbn. lia. }
  destruct (walk_level_alloc root T1 U l1 s1 [PX 2 va] t1 0 va) as
    [(-> & s2 & E2 & G2)|(T2 & l2 & s2 & t2 & E2 & G2 & Ht2 & Hl2)];
    [done|apply G1..|done|simpl; lia|done| |]; rewrite E1, E2.
  - exists T1, [], s2, 0. split; [done|]. split; [by eapply grows_trans|]. split; [cbn in *; lia|]. by left.
  - exists T2, l2, s2, (t2 + 8 * PX 0 va). split; [done|].
    split; [by eapply grows_trans|]. split; [lia|]. right. by exists t2.
Qed.

(** Writing a leaf entry, as a step of the whole machine. *)
Lemma grows_leaf root T U l s va t v o :
  pt_rep (mem s) root T U -> vm_ok l s -> apart T l -> va_ok va -> T !! vpath va = Some t ->
  leaf_pte v o -> 0 <= v < 2 ^ 64 ->
  grows root (partial_alter (fun _ => o) va U) T l s T l
    (with_mem (wr64 (mem s) (t + 8 * PX 0 va) v) s).
Proof.
  intros R Hv Ha Hva Ht Hl Hr.
  assert (same_outside {[t]} (mem s) (wr64 (mem s) (t + 8 * PX 0 va) v)) as Hs.
  { apply same_only_page, only_page_wr64, index_slot, PX_index. lia. }
  assert (t ∈ tpages T) as Htin by (apply elem_of_tpages; by eexists).
  split.
  - exact (pt_write_leaf _ _ _ _ _ _ _ _ R Hva Ht Hl Hr).
  - apply (vm_ok_mem {[t]}); [done|exact Hs|..]; intros ? ->%elem_of_singleton.
    + by eapply pt_aligned.
    + by apply Ha.
  - done.
  - done.
  - exists []. split; [done|]. simpl. by rewrite (right_id_L ∅ (∪)).
  - eapply same_weaken; [|exact Hs]. by intros x ->%elem_of_singleton.
  - apply quiet_mem.
Qed.

(** ** Clean-up lemmas for clients *)

Lemma PGROUNDDOWN_va va : 0 <= va < MAXVA -> va_ok (PGROUNDDOWN va).
Proof.
  intros Hva. split; [|apply PGROUNDDOWN_aligned].
  pose proof (PGROUNDDOWN_bounds va). pose proof (PGROUNDDOWN_aligned va).
  unfold page_aligned in *. pgconst. Z.to_euclidean_division_equations. lia.
Qed.

Lemma PX_rounddown k va : 0 <= k -> 0 <= va -> PX k (PGROUNDDOWN va) = PX k va.
Proof.
  intros Hk Hva. rewrite !PX_spec, PGROUNDDOWN_spec by done. f_equal.
  replace (2 ^ (12 + 9 * k)) with (PGSIZE * 2 ^ (9 * k)) by (rewrite Z.pow_add_r; unfold PGSIZE; lia).
  rewrite <- !Z.div_div by (unfold PGSIZE; lia). f_equal. unfold PGSIZE.
  Z.to_euclidean_division_equations. lia.
Qed.

Lemma vpath_rounddown va : 0 <= va -> vpath (PGROUNDDOWN va) = vpath va.
Proof. intros. unfold vpath. by rewrite !PX_rounddown by lia. Qed.

End pagetable.
