(* ===== verification/VmSpec.v ===== *)
(** * What kernel/vm.c promises

    The operations of [Vm] in terms of the map a page table represents. *)

From S2P Require Import Prelude Riscv Memory State Spinlock Kalloc Vm PageTable.

Section vmspec.
Context `{image} (Himg : image_ok).

(** ** Translation *)

(** The Sv39 translation of the RISC-V privileged specification: at each level an
    invalid entry faults and an entry with R, W or X set is the leaf. *)
Fixpoint sv39 (level : nat) (m : memory) (table va : Z) : option Z :=
  let pte := rd64 m (table + 8 * PX (Z.of_nat level) va) in
  if Z.land pte PTE_V =? 0 then None else
  if negb (Z.land pte (Z.lor (Z.lor PTE_R PTE_W) PTE_X) =? 0) then Some pte else
  match level with
  | O => None
  | S l => sv39 l m (PTE2PA pte) va
  end.

(** The page a user-mode access to [va] reaches. *)
Definition mmu_user (m : memory) (root va : Z) : option Z :=
  pte ← sv39 2 m root va;
  if Z.land pte PTE_U =? 0 then None else Some (PTE2PA pte).

(** The same through the represented map. *)
Definition user_pa (U : gmap Z (Z * Z)) (va : Z) : Z :=
  match U !! PGROUNDDOWN va with
  | Some (pa, fl) => if Z.land fl PTE_U =? 0 then 0 else pa
  | None => 0
  end.

(** Every mapping grants some access. *)
Definition leaf_perms (U : gmap Z (Z * Z)) : Prop :=
  forall va pa fl, U !! va = Some (pa, fl) -> Z.land fl (Z.lor (Z.lor PTE_R PTE_W) PTE_X) <> 0.

Lemma slot_pos m root T U p t i : pt_rep m root T U -> T !! p = Some t -> 0 <= i -> t + 8 * i <> 0.
Proof. intros R Ht Hi. apply (pt_page _ _ _ _ R) in Ht. pose proof (page_ok_pos Himg _ Ht). lia. Qed.

(** What [walk] finds for a mapped page. *)
Lemma walk_mapped root T U va t s :
  pt_rep (mem s) root T U -> 0 <= va < MAXVA -> T !! vpath va = Some t ->
  walk root va false s = Ok (t + 8 * PX 0 va) s /\ t + 8 * PX 0 va <> 0.
Proof.
  intros R Hva Ht. rewrite (walk_lookup root T U) by done. rewrite Ht. split; [done|].
  eapply slot_pos; [done..|]. apply PX_range. lia.
Qed.

Lemma walkaddr_spec root T U va s :
  pt_rep (mem s) root T U -> 0 <= va -> walkaddr root va s = Ok (user_pa U va) s.
Proof.
  intros R Hva. unfold walkaddr, user_pa. destruct (Z.geb_spec va MAXVA) as [Hge|Hlt].
  { destruct (U !! PGROUNDDOWN va) as [[pa fl]|] eqn:E; [|done].
    apply (pt_dom _ _ _ _ R) in E as [[Hr _] _]. pose proof (PGROUNDDOWN_bounds va).
    pose proof (PGROUNDDOWN_aligned va). unfold page_aligned in *. pgconst.
    Z.to_euclidean_division_equations. lia. }
  assert (va_ok (PGROUNDDOWN va)) as Hok by by apply PGROUNDDOWN_va.
  destruct (T !! vpath va) as [t|] eqn:Et.
  - destruct (walk_mapped root T U va t s) as [E Hne]; [done..|].
    rewrite (bind_ok _ _ _ _ _ E). rewrite (proj2 (Z.eqb_neq _ 0)) by done.
    unfold load64. rewrite bind_gets.
    pose proof (pt_leaf _ _ _ _ R (PGROUNDDOWN va) t Hok) as L.
    rewrite vpath_rounddown, PX_rounddown in L by lia. specialize (L Et).
    destruct (U !! PGROUNDDOWN va) as [[pa fl]|]; simpl in L.
    + destruct L as (-> & Hpa & Hfl & Hv). rewrite pte_valid by done.
      rewrite (proj2 (Z.eqb_neq _ 0)) by done. change PTE_U with (2 ^ 4). rewrite pte_flag by (done || lia).
      destruct (_ =? 0); [done|]. by rewrite PTE2PA_PA2PTE.
    + by rewrite L.
  - rewrite (bind_ok _ _ _ _ _ (walk_lookup root T U va s Himg R ltac:(lia))), Et.
    destruct (U !! PGROUNDDOWN va) as [[pa fl]|] eqn:E; [|done].
    apply (pt_dom _ _ _ _ R) in E as [_ HT]. rewrite vpath_rounddown, Et in HT by lia. by destruct HT.
Qed.

Lemma node_not_leaf t : pa_ok t -> Z.land (Z.lor (PA2PTE t) PTE_V) (Z.lor (Z.lor PTE_R PTE_W) PTE_X) = 0.
Proof.
  intros Ht. rewrite Z.land_lor_distr_l. apply Z.lor_eq_0_iff. split; [|done].
  apply Z.bits_inj'. intros n Hn. rewrite Z.land_spec, Z.bits_0.
  destruct (decide (n < 10)).
  - rewrite <- (Z.mod_pow2_bits_low _ 10) by lia. by rewrite PA2PTE_low, Z.bits_0.
  - assert (Z.testbit (Z.lor (Z.lor PTE_R PTE_W) PTE_X) n = false) as ->; [|by rewrite andb_false_r].
    change (Z.lor (Z.lor PTE_R PTE_W) PTE_X) with 14. apply Z.bits_above_log2; [lia|].
    change (Z.log2 14) with 3. lia.
Qed.

Lemma sv39_node lvl m t va t' :
  pa_ok t' -> rd64 m (t + 8 * PX (Z.of_nat (S lvl)) va) = Z.lor (PA2PTE t') PTE_V ->
  sv39 (S lvl) m t va = sv39 lvl m t' va.
Proof.
  intros Ht E. cbn [sv39]. rewrite E, (proj2 (Z.eqb_neq _ 0)) by by apply node_valid.
  rewrite node_not_leaf, node_addr by done. done.
Qed.

Lemma sv39_invalid lvl m t va :
  Z.land (rd64 m (t + 8 * PX (Z.of_nat lvl) va)) PTE_V = 0 -> sv39 lvl m t va = None.
Proof. intros E. destruct lvl; cbn [sv39]; by rewrite E. Qed.

Lemma sv39_spec m root T U va :
  pt_rep m root T U -> leaf_perms U -> 0 <= va < MAXVA ->
  sv39 2 m root va = match U !! PGROUNDDOWN va with
    Some (pa, fl) => Some (Z.lor (PA2PTE pa) fl) | None => None end.
Proof.
  intros R Hp Hva. assert (va_ok (PGROUNDDOWN va)) as Hok by by apply PGROUNDDOWN_va.
  assert (forall p t, T !! p = Some t -> pa_ok t) as Hpa.
  { intros p t Ht. by apply page_ok_pa, (pt_page _ _ _ _ R p). }
  assert (T !! vpath va = None -> U !! PGROUNDDOWN va = None) as Hnone.
  { intros E. destruct (U !! _) as [e|] eqn:EU; [|done].
    apply (pt_dom _ _ _ _ R) in EU as [_ HT]. rewrite vpath_rounddown, E in HT by lia. by destruct HT. }
  pose proof (pt_node _ _ _ _ R [] root (PX 2 va) (pt_root _ _ _ _ R)) as N2.
  specialize (N2 ltac:(simpl; lia) (PX_index 2 va ltac:(lia))). simpl in N2.
  destruct (T !! [PX 2 va]) as [t1|] eqn:E1.
  2:{ rewrite sv39_invalid by done. rewrite Hnone; [done|].
      destruct (T !! vpath va) as [t0|] eqn:E0; [|done].
      apply (pt_prefix _ _ _ _ R [PX 2 va] (PX 1 va)) in E0. rewrite E1 in E0. by destruct E0. }
  rewrite (sv39_node _ _ _ _ t1) by (done || by eapply Hpa).
  pose proof (pt_node _ _ _ _ R [PX 2 va] t1 (PX 1 va) E1) as N1.
  specialize (N1 ltac:(simpl; lia) (PX_index 1 va ltac:(lia))). simpl in N1.
  unfold vpath in Hnone. destruct (T !! [PX 2 va; PX 1 va]) as [t0|] eqn:E0.
  2:{ rewrite sv39_invalid by done. by rewrite Hnone. }
  rewrite (sv39_node _ _ _ _ t0) by (done || by eapply Hpa).
  pose proof (pt_leaf _ _ _ _ R (PGROUNDDOWN va) t0 Hok) as L.
  rewrite vpath_rounddown, PX_rounddown in L by lia. specialize (L E0).
  destruct (U !! PGROUNDDOWN va) as [[pa fl]|] eqn:EU; simpl in L; [|by rewrite sv39_invalid].
  destruct L as (Ev & Hpk & Hfl & Hv). cbn [sv39]. change (Z.of_nat 0) with 0. rewrite Ev.
  rewrite pte_valid by done. rewrite (proj2 (Z.eqb_neq _ 0)) by done.
  apply Hp in EU. rewrite Z.land_lor_distr_l.
  destruct (Z.eqb_spec (Z.lor (Z.land (PA2PTE pa) (Z.lor (Z.lor PTE_R PTE_W) PTE_X))
    (Z.land fl (Z.lor (Z.lor PTE_R PTE_W) PTE_X))) 0) as [E|E]; [|done].
  apply Z.lor_eq_0_iff in E as [_ ?]. done.
Qed.


(** ** mappages *)

(** [n] consecutive pages mapped from [a] to physical pages from [pa]. *)
Fixpoint map_range (U : gmap Z (Z * Z)) (a pa fl : Z) (n : nat) : gmap Z (Z * Z) :=
  match n with
  | O => U
  | S n => map_range (<[a := (pa, fl)]> U) (a + PGSIZE) (pa + PGSIZE) fl n
  end.

(** [va] is one of the [n] pages from [a]. *)
Definition in_range (a : Z) (n : nat) (va : Z) : Prop :=
  (va - a) mod PGSIZE = 0 /\ a <= va < a + Z.of_nat n * PGSIZE.
#[export] Instance in_range_dec a n va : Decision (in_range a n va) := and_dec _ _.

Lemma in_range_S a n va : in_range a (S n) va <-> va = a \/ in_range (a + PGSIZE) n va.
Proof.
  unfold in_range. assert (forall x, (x - (a + PGSIZE)) mod PGSIZE = (x - a) mod PGSIZE) as E.
  { intros x. replace (x - a) with (x - (a + PGSIZE) + 1 * PGSIZE) by lia. by rewrite Z.mod_add. }
  rewrite E. unfold PGSIZE. split.
  - intros [Hm ?]. destruct (decide (va = a)); [by left|right]. split; [done|].
    Z.to_euclidean_division_equations. lia.
  - intros [->|[Hm ?]]; [|split; [done|lia]]. rewrite Z.sub_diag. split; [done|lia].
Qed.

Lemma in_range_head a n : ~ in_range (a + PGSIZE) n a.
Proof. unfold in_range, PGSIZE. lia. Qed.

Lemma lookup_map_range U a pa fl n va :
  map_range U a pa fl n !! va = if decide (in_range a n va) then Some (pa + (va - a), fl) else U !! va.
Proof.
  revert U a pa. induction n as [|n IH]; intros U a pa; simpl.
  - rewrite decide_False; [done|]. unfold in_range. lia.
  - rewrite IH. destruct (decide (in_range (a + PGSIZE) n va)) as [Hi|Hn].
    + rewrite decide_True by (apply in_range_S; by right). do 2 f_equal. lia.
    + destruct (decide (va = a)) as [->|Hne].
      * rewrite lookup_insert_eq, decide_True by (apply in_range_S; by left). do 2 f_equal. lia.
      * rewrite lookup_insert_ne by done. rewrite decide_False; [done|].
        by intros [?|?]%in_range_S.
Qed.

(** [pa + i * PGSIZE], for [i < n], are addresses a page-table entry can hold. *)
Definition pa_range_ok (pa : Z) (n : nat) : Prop := page_aligned pa /\ 0 <= pa /\ pa + Z.of_nat n * PGSIZE <= 2 ^ 56.
Definition va_range_ok (a : Z) (n : nat) : Prop := page_aligned a /\ 0 <= a /\ a + Z.of_nat n * PGSIZE <= MAXVA.
Definition unmapped (U : gmap Z (Z * Z)) (a : Z) (n : nat) : Prop :=
  forall va, in_range a n va -> U !! va = None.

Lemma va_range_head a n : va_range_ok a (S n) -> va_ok a.
Proof. intros (? & ? & ?). split; [|done]. unfold PGSIZE in *. lia. Qed.

Lemma pa_range_head pa n : pa_range_ok pa (S n) -> pa_ok pa.
Proof. intros (? & ? & ?). split; [done|]. unfold PGSIZE in *. lia. Qed.

Lemma aligned_step a : page_aligned a -> page_aligned (a + PGSIZE).
Proof. unfold page_aligned, PGSIZE. intros. Z.to_euclidean_division_equations. lia. Qed.

Lemma perm_leaf pa perm :
  pa_ok pa -> 0 <= perm < 2 ^ 10 ->
  leaf_pte (Z.lor (Z.lor (PA2PTE pa) (u64 perm)) PTE_V) (Some (pa, Z.lor perm PTE_V)) /\
  0 <= Z.lor (Z.lor (PA2PTE pa) (u64 perm)) PTE_V < 2 ^ 64.
Proof.
  intros Hpa Hp. rewrite u64_small, <- Z.lor_assoc by lia.
  assert (0 <= Z.lor perm PTE_V < 2 ^ 10) as Hr.
  { split; [apply Z.lor_nonneg; split; [lia|done]|].
    destruct (decide (perm = 0)) as [->|]; [done|]. apply Z.log2_lt_pow2.
    - assert (0 <= Z.lor perm PTE_V) by (apply Z.lor_nonneg; split; [lia|done]).
      assert (Z.lor perm PTE_V <> 0) by (intros [? _]%Z.lor_eq_0_iff; lia). lia.
    - rewrite Z.log2_lor by (lia || done). change (Z.log2 PTE_V) with 0.
      assert (Z.log2 perm < 10) by (apply Z.log2_lt_pow2; lia). lia. }
  split; [|by apply pte_range]. split; [done|]. split; [done|]. split; [done|].
  change PTE_V with (Z.ones 1). rewrite Z.land_ones by lia. intros E.
  apply (f_equal (fun z => Z.testbit z 0)) in E.
  rewrite Z.mod_pow2_bits_low, Z.lor_spec in E by lia. change (Z.testbit (Z.ones 1) 0) with true in E.
  by rewrite orb_true_r in E.
Qed.

(** One iteration: out of memory, or one page mapped. *)
Lemma mappages_step fuel root a last pa perm T U l s :
  va_ok a -> pa_ok pa -> 0 <= perm < 2 ^ 10 -> U !! a = None ->
  pt_rep (mem s) root T U -> vm_ok l s -> apart T l ->
  exists T' l' s',
    (mappages_loop (S fuel) root a last pa perm s = Ok (-1) s' /\
       grows root U T l s T' l' s' /\ l' = [] /\ (length l <= 2)%nat) \/
    (mappages_loop (S fuel) root a last pa perm s =
       (if a =? last then ret 0
        else mappages_loop fuel root (a +u PGSIZE) last (pa +u PGSIZE) perm) s' /\
       grows root (<[a := (pa, Z.lor perm PTE_V)]> U) T l s T' l' s' /\ (length l <= length l' + 2)%nat).
Proof.
  intros Hva Hpa Hperm Hu R Hv Hap. cbn [mappages_loop].
  destruct (walk_alloc root T U l a s) as (T1 & l1 & s1 & r1 & E1 & G1 & Hl1 & Hr1); [done..|apply Hva|].
  rewrite (bind_ok _ _ _ _ _ E1).
  destruct Hr1 as [[-> ->]|(t & Ht & ->)]; [exists T1, [], s1; by left|].
  pose proof G1 as [R1 V1 A1 _ _ _ _].
  rewrite (proj2 (Z.eqb_neq _ 0)) by (eapply slot_pos; [done..|apply PX_range; lia]).
  unfold load64, store64. rewrite bind_gets.
  pose proof (pt_leaf _ _ _ _ R1 a t Hva Ht) as L. rewrite Hu in L. simpl in L. rewrite L.
  cbn [negb Z.eqb]. rewrite bind_modify.
  destruct (perm_leaf pa perm Hpa Hperm) as [Hleaf Hr].
  eexists T1, l1, _. right. split; [done|].
  split; [|done]. eapply grows_trans; [exact G1|]. by apply grows_leaf.
Qed.

Lemma mappages_loop_spec n fuel root a last pa perm T U l s :
  (n < fuel)%nat -> last = a + Z.of_nat n * PGSIZE ->
  va_range_ok a (S n) -> pa_range_ok pa (S n) -> 0 <= perm < 2 ^ 10 -> unmapped U a (S n) ->
  pt_rep (mem s) root T U -> vm_ok l s -> apart T l ->
  exists T' l' s' k r, mappages_loop fuel root a last pa perm s = Ok r s' /\
    grows root (map_range U a pa (Z.lor perm PTE_V) k) T l s T' l' s' /\
    (length l <= length l' + 2 * S n)%nat /\
    ((r = 0 /\ k = S n) \/ (r = -1 /\ (k <= n)%nat /\ l' = [])).
Proof.
  revert fuel a pa T U l s. induction n as [|n IH]; intros fuel a pa T U l s Hf -> Ha Hpa Hperm Hu R Hv Hap;
    (destruct fuel as [|fuel]; [lia|]).
  all: assert (U !! a = None) as Hua by (apply Hu, in_range_S; by left).
  all: set (last := a + _); destruct (mappages_step fuel root a last pa perm T U l s) as
    (T1 & l1 & s1 & [(E & G & -> & Hl)|(E & G & Hl)]); [by eapply va_range_head|by eapply pa_range_head|done..| |];
    [exists T1, [], s1, 0%nat, (-1); split; [done|]; split; [exact G|split; [cbn; lia|right; split; [done|]; split; [lia|done]]]|].
  - assert (last = a) as El by (unfold last, PGSIZE; lia). rewrite El, Z.eqb_refl in E. rewrite El. exists T1, l1, s1, 1%nat, 0. split_and!; auto; lia.
  - rewrite (proj2 (Z.eqb_neq a last)) in E by (unfold last, PGSIZE; lia). rewrite E.
    destruct Ha as (Ha1 & Ha2 & Ha3), Hpa as (Hp1 & Hp2 & Hp3).
    rewrite !u64_small by (pgconst; lia).
    destruct (IH fuel (a + PGSIZE) (pa + PGSIZE) T1 (<[a := (pa, Z.lor perm PTE_V)]> U) l1 s1)
      as (T2 & l2 & s2 & k & r & E2 & G2 & Hl2 & Hr).
    + lia.
    + unfold last. lia.
    + split; [by apply aligned_step|]. unfold PGSIZE in *. lia.
    + split; [by apply aligned_step|]. unfold PGSIZE in *. lia.
    + done.
    + intros va Hin. rewrite lookup_insert_ne by (intros ->; by apply in_range_head in Hin).
      apply Hu, in_range_S. by right.
    + apply G.
    + apply G.
    + apply G.
    + exists T2, l2, s2, (S k), r. split; [exact E2|].
      split; [by eapply grows_trans|]. split; [lia|]. destruct Hr as [[-> ->]|(-> & ? & ->)]; [by left|right].
      split; [done|]. split; [lia|done].
Qed.

(** The pages that [size] bytes from [va] touch. *)
Definition span_pages (va size : Z) : nat :=
  S (Z.to_nat ((PGROUNDDOWN (va + size - 1) - PGROUNDDOWN va) / PGSIZE)).

Lemma span_last va size :
  0 <= va -> 0 < size ->
  PGROUNDDOWN (va + size - 1) =
    PGROUNDDOWN va + Z.of_nat (Nat.pred (span_pages va size)) * PGSIZE /\
  va + size <= PGROUNDDOWN va + Z.of_nat (span_pages va size) * PGSIZE < va + size + PGSIZE.
Proof.
  intros Hva Hs. unfold span_pages. simpl Nat.pred. rewrite !PGROUNDDOWN_spec.
  unfold PGSIZE. Z.to_euclidean_division_equations. lia.
Qed.

Lemma mappages_eq root va size pa perm s :
  0 <= va -> 0 < size -> va + size <= 2 ^ 64 ->
  mappages root va size pa perm s =
    mappages_loop (span_pages va size) root (PGROUNDDOWN va) (PGROUNDDOWN (va + size - 1)) pa perm s.
Proof.
  intros Hva Hs Hm. unfold mappages. rewrite (proj2 (Z.eqb_neq size 0)) by lia.
  assert (u64 (u64 (va + size) - 1) = va + size - 1) as ->.
  { destruct (decide (va + size = 2 ^ 64)) as [->|]; [done|].
    rewrite (u64_small (va + size)), u64_small by lia. done. }
  unfold span_pages. rewrite (u64_small (_ - _)); [done|].
  pose proof (span_last va size Hva Hs). pose proof (PGROUNDDOWN_bounds (va + size - 1)).
  pose proof (PGROUNDDOWN_bounds va). unfold PGSIZE in *.
  assert (0 <= PGROUNDDOWN va) by (rewrite PGROUNDDOWN_spec; unfold PGSIZE; Z.to_euclidean_division_equations; lia).
  lia.
Qed.

(** C29: [mappages] maps exactly the pages its range touches, to consecutive physical pages
    with the requested permissions, and leaves every other mapping alone; the only failure is
    -1 for lack of memory, with the free list exhausted and a prefix of the range mapped.  Only
    page-table pages are written, new ones come from the free list, two for each page at most,
    and nothing else changes. *)
Theorem mappages_correct root va size pa perm T U l s :
  0 <= va -> 0 < size -> va + size <= MAXVA -> pa_range_ok pa (span_pages va size) ->
  0 <= perm < 2 ^ 10 -> unmapped U (PGROUNDDOWN va) (span_pages va size) ->
  pt_rep (mem s) root T U -> vm_ok l s -> apart T l ->
  exists T' l' s' k r, mappages root va size pa perm s = Ok r s' /\
    grows root (map_range U (PGROUNDDOWN va) pa (Z.lor perm PTE_V) k) T l s T' l' s' /\
    (length l <= length l' + 2 * span_pages va size)%nat /\
    ((r = 0 /\ k = span_pages va size) \/ (r = -1 /\ (k < span_pages va size)%nat /\ l' = [])).
Proof.
  intros Hva Hs Hm Hpa Hperm Hu R Hv Ha. destruct (span_last va size Hva Hs) as [El Hb].
  rewrite mappages_eq by (pgconst; lia). rewrite El. unfold span_pages in *. simpl Nat.pred in *.
  set (n := Z.to_nat _) in *.
  destruct (mappages_loop_spec n (S n) root (PGROUNDDOWN va)
    (PGROUNDDOWN va + Z.of_nat n * PGSIZE) pa perm T U l s) as
    (T' & l' & s' & k & r & E & G & Hl & Hr); try done; [lia| |].
  - split; [apply PGROUNDDOWN_aligned|]. pose proof (PGROUNDDOWN_aligned va).
    pose proof (PGROUNDDOWN_va va ltac:(lia)) as [? _].
    split; [lia|]. unfold page_aligned in *. pgconst. Z.to_euclidean_division_equations. lia.
  - exists T', l', s', k, r. split; [done|]. split; [done|]. split; [exact Hl|].
    destruct Hr as [?|(? & ? & ?)]; [by left|right]. split; [done|]. split; [lia|done].
Qed.

(** The same for one page, as a lemma for the clients. *)
Lemma map_one root a pa perm T U l s :
  va_ok a -> pa_ok pa -> 0 <= perm < 2 ^ 10 -> U !! a = None ->
  pt_rep (mem s) root T U -> vm_ok l s -> apart T l ->
  exists T' l' s',
    (mappages root a PGSIZE pa perm s = Ok (-1) s' /\ grows root U T l s T' l' s' /\ l' = [] /\ (length l <= 2)%nat) \/
    (mappages root a PGSIZE pa perm s = Ok 0 s' /\
       grows root (<[a := (pa, Z.lor perm PTE_V)]> U) T l s T' l' s' /\ (length l <= length l' + 2)%nat).
Proof.
  intros Hva Hpa Hperm Hu R Hv Ha. rewrite mappages_eq by (destruct Hva; pgconst; lia).
  assert (PGROUNDDOWN (a + PGSIZE - 1) = a) as ->.
  { destruct Hva as [_ Hal]. unfold page_aligned in *. rewrite PGROUNDDOWN_spec. unfold PGSIZE in *.
    Z.to_euclidean_division_equations. lia. }
  rewrite PGROUNDDOWN_id by apply Hva. unfold span_pages.
  destruct (mappages_step (Z.to_nat ((PGROUNDDOWN (a + PGSIZE - 1) - PGROUNDDOWN a) / PGSIZE))
    root a a pa perm T U l s) as (T1 & l1 & s1 & Hr); [done..|].
  exists T1, l1, s1. rewrite Z.eqb_refl in Hr. exact Hr.
Qed.

(** ** uvmunmap *)

(** What a step of the virtual-memory code may change: the pages [W]. *)
Record vmstep (W : gset Z) (s s' : kst) : Prop := {
  vs_same : same_outside W (mem s) (mem s');
  vs_quiet : quiet s' = quiet s
}.

Lemma vmstep_refl W s : vmstep W s s.
Proof. split; [apply same_refl|done]. Qed.

Lemma vmstep_trans W1 W2 W s1 s2 s3 :
  vmstep W1 s1 s2 -> vmstep W2 s2 s3 -> W1 ⊆ W -> W2 ⊆ W -> vmstep W s1 s3.
Proof. intros [A B] [C D] ??. split; [by eapply same_trans|by rewrite D]. Qed.

Lemma vmstep_weaken W W' s s' : vmstep W s s' -> W ⊆ W' -> vmstep W' s s'.
Proof. intros [A B] ?. split; [by eapply same_weaken|done]. Qed.

Lemma grows_vmstep root U T l s T' l' s' : grows root U T l s T' l' s' -> vmstep (tpages T') s s'.
Proof. intros G. split; apply G. Qed.

Lemma kfree_vm pa l s :
  vm_ok l s -> page_ok pa -> pa ∉ l ->
  kfree pa s = Ok tt (kfree_state pa s) /\ vm_ok (pa :: l) (kfree_state pa s) /\
  vmstep {[pa]} s (kfree_state pa s).
Proof.
  intros [Hr Hk] Hp Hn. split; [by apply kfree_eq|]. split.
  - split; [by apply kfree_ready|by apply kfree_state_inv].
  - split; [|apply kfree_state_quiet]. apply same_only_page.
    eapply only_page_trans; [apply only_page_memset|apply only_page_wr64_head].
Qed.

Lemma uvmunmap_step fuel root a bound T U l s pa fl :
  0 <= a < bound -> U !! a = Some (pa, fl) -> fl <> PTE_V -> page_ok pa -> pa ∉ l -> pa ∉ tpages T ->
  pt_rep (mem s) root T U -> vm_ok l s -> apart T l ->
  exists s', uvmunmap_loop (S fuel) root a bound true s = uvmunmap_loop fuel root (a +u PGSIZE) bound true s' /\
    pt_rep (mem s') root T (delete a U) /\ vm_ok (pa :: l) s' /\ apart T (pa :: l) /\
    vmstep (tpages T ∪ {[pa]}) s s'.
Proof.
  intros Ha EU Hfl Hp Hpl HpT R Hv Hap. cbn [uvmunmap_loop]. replace (a <? bound) with true by lia. cbn [negb].
  destruct (pt_dom _ _ _ _ R _ _ EU) as [Hva [t Ht]].
  destruct (walk_mapped root T U a t s) as [E Hne]; [done|apply Hva|done|].
  rewrite (bind_ok _ _ _ _ _ E), (proj2 (Z.eqb_neq _ 0)) by done.
  unfold load64, store64. rewrite bind_gets.
  pose proof (pt_leaf _ _ _ _ R a t Hva Ht) as L. rewrite EU in L. destruct L as (-> & Hpa & Hr & HV).
  rewrite pte_valid by done. rewrite (proj2 (Z.eqb_neq _ 0)) by done.
  rewrite PTE_FLAGS_PA2PTE, (proj2 (Z.eqb_neq _ _)), PTE2PA_PA2PTE by done.
  destruct (kfree_vm pa l s Hv Hp Hpl) as (Ek & Hv' & Hs').
  rewrite (bind_ok _ _ _ _ _ Ek), bind_modify.
  assert (apart T (pa :: l)) as Ha'.
  { intros x Hx. apply not_elem_of_cons. split; [by intros ->|by apply Hap]. }
  assert (pt_rep (mem (kfree_state pa s)) root T U) as R'.
  { eapply pt_frame; [done|apply Hs'|by intros ? ->%elem_of_singleton; apply Hp|].
    intros x Hx ->%elem_of_singleton. done. }
  destruct (grows_leaf root T U (pa :: l) _ a t 0 None R' Hv' Ha' Hva Ht) as [G1 G2 _ _ _ G3 G4];
    [done|lia|].
  eexists. split; [done|]. split; [exact G1|]. split; [exact G2|]. split; [done|].
  eapply vmstep_trans; [exact Hs'|by split; [exact G3|exact G4]|clear; set_solver..].
Qed.

(** The pages [uvmunmap] frees, in order, and the map it leaves. *)
Definition range_pages (U : gmap Z (Z * Z)) (a : Z) (n : nat) : list Z :=
  (fun va => default 0 (fst <$> U !! va)) <$> page_range a n.
Fixpoint unmap_range (U : gmap Z (Z * Z)) (a : Z) (n : nat) : gmap Z (Z * Z) :=
  match n with O => U | S n => unmap_range (delete a U) (a + PGSIZE) n end.

Lemma lookup_unmap_range U a n va :
  unmap_range U a n !! va = if decide (in_range a n va) then None else U !! va.
Proof.
  revert U a. induction n as [|n IH]; intros U a; simpl.
  - rewrite decide_False; [done|]. unfold in_range. lia.
  - rewrite IH. destruct (decide (in_range (a + PGSIZE) n va)) as [Hi|Hn].
    + by rewrite decide_True by (apply in_range_S; by right).
    + destruct (decide (va = a)) as [->|Hne].
      * by rewrite lookup_delete_eq, decide_True by (apply in_range_S; by left).
      * rewrite lookup_delete_ne by done. rewrite decide_False; [done|].
        by intros [?|?]%in_range_S.
Qed.

(** ** User address spaces *)

(** The pages user memory lives in: everything below the trapframe. *)
Record uspace (root : Z) (T : gmap (list Z) Z) (U : gmap Z (Z * Z)) (l : list Z) (s : kst) : Prop := {
  us_rep : pt_rep (mem s) root T U;
  us_vm : vm_ok l s;
  us_apart : apart T l;
  us_page : forall va pa fl, va < TRAPFRAME -> U !! va = Some (pa, fl) ->
    page_ok pa /\ pa ∉ tpages T /\ pa ∉ l /\ fl <> PTE_V;
  us_inj : forall va vb pa fl fl', va < TRAPFRAME -> vb < TRAPFRAME ->
    U !! va = Some (pa, fl) -> U !! vb = Some (pa, fl') -> va = vb
}.

Definition upage (U : gmap Z (Z * Z)) (q : Z) : Prop :=
  exists va fl, va < TRAPFRAME /\ U !! va = Some (q, fl).

(** The pages of the system that are free, in the page table or user memory. *)
Definition owned (l : list Z) (T : gmap (list Z) Z) (U : gmap Z (Z * Z)) (q : Z) : Prop :=
  q ∈ l \/ q ∈ tpages T \/ upage U q.

(** A page nobody owns: one just taken from the free list. *)
Definition fresh (l : list Z) (T : gmap (list Z) Z) (U : gmap Z (Z * Z)) (q : Z) : Prop :=
  page_ok q /\ ~ owned l T U q.

Lemma upage_delete U a pa fl q :
  (forall va vb pa fl fl', va < TRAPFRAME -> vb < TRAPFRAME ->
    U !! va = Some (pa, fl) -> U !! vb = Some (pa, fl') -> va = vb) ->
  a < TRAPFRAME -> U !! a = Some (pa, fl) ->
  upage (delete a U) q <-> upage U q /\ q <> pa.
Proof.
  intros Hinj Ha EU. split.
  - intros (va & fl' & Hva & [Hne E]%lookup_delete_Some). split; [by exists va, fl'|].
    intros ->. by apply Hne, (Hinj a va pa fl fl').
  - intros [(va & fl' & Hva & E) Hq]. exists va, fl'. split; [done|].
    rewrite lookup_delete_ne; [done|]. intros <-. rewrite EU in E. congruence.
Qed.

Lemma upage_insert U a pa fl q :
  a < TRAPFRAME -> U !! a = None -> upage (<[a := (pa, fl)]> U) q <-> q = pa \/ upage U q.
Proof.
  intros Ha EU. split.
  - intros (va & fl' & Hva & [[_ [= <- _]]|[_ E]]%lookup_insert_Some); [by left|right; by exists va, fl'].
  - intros [->|(va & fl' & Hva & E)]; [exists a, fl; by rewrite lookup_insert_eq|].
    exists va, fl'. rewrite lookup_insert_ne; [done|]. intros <-. by rewrite EU in E.
Qed.

(** Unmapping and freeing one page keeps the invariant and the set of owned pages. *)
Lemma uspace_unmap_step fuel root a bound T U l s pa fl :
  0 <= a < bound -> a < TRAPFRAME -> U !! a = Some (pa, fl) -> uspace root T U l s ->
  exists s', uvmunmap_loop (S fuel) root a bound true s = uvmunmap_loop fuel root (a +u PGSIZE) bound true s' /\
    uspace root T (delete a U) (pa :: l) s' /\ vmstep (tpages T ∪ {[pa]}) s s' /\
    (forall q, owned (pa :: l) T (delete a U) q <-> owned l T U q).
Proof.
  intros Ha Hlt EU [R Hv Hap Hpg Hinj]. destruct (Hpg a pa fl Hlt EU) as (Hp & HpT & Hpl & Hfl).
  destruct (uvmunmap_step fuel root a bound T U l s pa fl) as (s' & E & R' & Hv' & Ha' & Hst); [done..|].
  exists s'. split; [done|]. split; [|split; [done|]].
  - split; [done..| |].
    + intros va q fl' Hva [Hne Eq]%lookup_delete_Some.
      destruct (Hpg va q fl' Hva Eq) as (? & ? & ? & ?). split; [done|]. split; [done|].
      split; [|done]. apply not_elem_of_cons. split; [|done].
      intros ->. by apply Hne, (Hinj a va pa fl fl').
    + intros va vb q f1 f2 Hva Hvb [_ E1]%lookup_delete_Some [_ E2]%lookup_delete_Some. eauto.
  - intros q. unfold owned. rewrite (upage_delete U a pa fl q Hinj Hlt EU), elem_of_cons.
    assert (upage U pa) by (by exists a, fl). destruct (decide (q = pa)) as [->|]; naive_solver.
Qed.

Lemma range_pages_ext U U' a n :
  (forall va, in_range a n va -> U' !! va = U !! va) -> range_pages U' a n = range_pages U a n.
Proof.
  unfold range_pages. revert a. induction n as [|n IH]; intros a HU; simpl; [done|].
  rewrite HU by (apply in_range_S; by left). f_equal. apply IH. intros va Hva. apply HU, in_range_S. by right.
Qed.

Lemma va_range_tail a n : va_range_ok a (S n) -> va_range_ok (a + PGSIZE) n.
Proof. intros (? & ? & ?). split; [by apply aligned_step|]. unfold PGSIZE in *. lia. Qed.

Lemma uvmunmap_loop_spec n fuel root a bound T U l s :
  (n < fuel)%nat -> bound = a + Z.of_nat n * PGSIZE -> va_range_ok a n -> bound <= TRAPFRAME ->
  (forall va, in_range a n va -> is_Some (U !! va)) -> uspace root T U l s ->
  exists s', uvmunmap_loop fuel root a bound true s = Ok tt s' /\
    uspace root T (unmap_range U a n) (rev (range_pages U a n) ++ l) s' /\
    vmstep (tpages T ∪ list_to_set (range_pages U a n)) s s' /\
    (forall q, owned (rev (range_pages U a n) ++ l) T (unmap_range U a n) q <-> owned l T U q).
Proof.
  revert fuel a U l s. induction n as [|n IH]; intros fuel a U l s Hf Hb Hr Hlt Hm Hu;
    (destruct fuel as [|fuel]; [lia|]).
  - exists s. cbn [uvmunmap_loop]. rewrite (proj2 (Z.ltb_ge a bound)) by lia.
    split; [done|]. split; [done|]. split; [apply vmstep_refl|done].
  - destruct (Hm a) as [[pa fl] EU]; [apply in_range_S; by left|].
    assert (0 <= a < bound /\ a < TRAPFRAME) as [Hab Hat] by (destruct Hr; unfold PGSIZE in *; lia).
    destruct (uspace_unmap_step fuel root a bound T U l s pa fl) as (s1 & E1 & Hu1 & Hst1 & Ho1); [done..|].
    assert (range_pages (delete a U) (a + PGSIZE) n = range_pages U (a + PGSIZE) n) as Erp.
    { apply range_pages_ext. intros va Hva. rewrite lookup_delete_ne; [done|].
      intros <-. by apply in_range_head in Hva. }
    destruct (IH fuel (a + PGSIZE) (delete a U) (pa :: l) s1) as (s2 & E2 & Hu2 & Hst2 & Ho2);
      [lia|lia|by apply va_range_tail|done| |done|].
    { intros va Hva. rewrite lookup_delete_ne by (intros <-; by apply in_range_head in Hva).
      apply Hm, in_range_S. by right. }
    exists s2. rewrite E1, u64_small by (destruct Hr as (? & ? & ?); pgconst; lia). split; [exact E2|].
    assert (range_pages U a (S n) = pa :: range_pages U (a + PGSIZE) n) as Ec.
    { unfold range_pages. simpl. by rewrite EU. }
    rewrite Ec. rewrite Erp in Hu2, Hst2, Ho2. simpl. rewrite <- app_assoc. split; [exact Hu2|].
    split; [eapply vmstep_trans; [exact Hst1|exact Hst2|clear; set_solver..]|].
    intros q. rewrite <- Ho1. apply Ho2.
Qed.

(** Unmapping [n] mapped user pages with [do_free] removes exactly those mappings and puts
    exactly their pages on the free list. *)
Lemma uvmunmap_spec n root a T U l s :
  va_range_ok a n -> a + Z.of_nat n * PGSIZE <= TRAPFRAME ->
  (forall va, in_range a n va -> is_Some (U !! va)) -> uspace root T U l s ->
  exists s', uvmunmap root a (Z.of_nat n) true s = Ok tt s' /\
    uspace root T (unmap_range U a n) (rev (range_pages U a n) ++ l) s' /\
    vmstep (tpages T ∪ list_to_set (range_pages U a n)) s s' /\
    (forall q, owned (rev (range_pages U a n) ++ l) T (unmap_range U a n) q <-> owned l T U q).
Proof.
  intros Hr Hb Hm Hu. unfold uvmunmap.
  pose proof Hr as (Ha & H0 & Hmx). unfold page_aligned in Ha. rewrite Ha. cbn [negb Z.eqb].
  assert (0 <= Z.of_nat n * PGSIZE < 2 ^ 64) by (pgconst; lia).
  rewrite (u64_small (_ * _)), u64_small by (pgconst; lia). rewrite Nat2Z.id.
  by apply uvmunmap_loop_spec; [lia| |..].
Qed.

(** ** uvmdealloc and uvmalloc *)

(** User memory is exactly the pages below [PGROUNDUP(sz)]. *)
Definition sized (U : gmap Z (Z * Z)) (sz : Z) : Prop :=
  forall va, 0 <= va < TRAPFRAME -> page_aligned va -> (is_Some (U !! va) <-> va < sz).

(** The byte a user program sees at [va]. *)
Definition ubyte (m : memory) (U : gmap Z (Z * Z)) (va : Z) : option Z :=
  (fun '(pa, _) => rd8 m (pa + va mod PGSIZE)) <$> U !! PGROUNDDOWN va.

Definition dealloc_pages (oldsz newsz : Z) : nat := Z.to_nat ((PGROUNDUP oldsz - PGROUNDUP newsz) / PGSIZE).

Lemma roundup_user x : 0 <= x <= TRAPFRAME -> x <= PGROUNDUP x <= TRAPFRAME /\ page_aligned (PGROUNDUP x).
Proof.
  intros Hx. destruct (PGROUNDUP_bounds x) as [Hb Ha]; [lia|pgconst; lia|].
  split; [|done]. unfold page_aligned in *. pgconst. Z.to_euclidean_division_equations. lia.
Qed.

Lemma roundup_mono x y : 0 <= x <= y -> y <= TRAPFRAME -> PGROUNDUP x <= PGROUNDUP y.
Proof.
  intros. rewrite !PGROUNDUP_spec by (pgconst; lia). unfold PGSIZE.
  Z.to_euclidean_division_equations. lia.
Qed.

Lemma uvmdealloc_spec root T U l s oldsz newsz :
  0 <= newsz <= oldsz -> oldsz <= TRAPFRAME -> uspace root T U l s ->
  let n := dealloc_pages oldsz newsz in let a := PGROUNDUP newsz in
  (forall va, in_range a n va -> is_Some (U !! va)) ->
  exists s', uvmdealloc root oldsz newsz s = Ok newsz s' /\
    uspace root T (unmap_range U a n) (rev (range_pages U a n) ++ l) s' /\
    vmstep (tpages T ∪ list_to_set (range_pages U a n)) s s' /\
    (forall q, owned (rev (range_pages U a n) ++ l) T (unmap_range U a n) q <-> owned l T U q).
Proof.
  intros Hn Ho Hu n a Hm. unfold uvmdealloc.
  destruct (roundup_user newsz) as [Hb1 Ha1]; [lia|]. destruct (roundup_user oldsz) as [Hb2 Ha2]; [lia|].
  pose proof (roundup_mono newsz oldsz Hn Ho) as Hmono.
  assert (PGROUNDUP oldsz = a + Z.of_nat n * PGSIZE) as En.
  { unfold n, a, dealloc_pages, page_aligned in *. unfold PGSIZE in *. Z.to_euclidean_division_equations. lia. }
  destruct (Z.geb_spec newsz oldsz) as [Hge|Hlt].
  { assert (newsz = oldsz) as <- by lia. exists s. assert (n = 0%nat) as -> by (fold a in En; unfold PGSIZE in *; lia).
    split; [done|]. split; [done|]. split; [apply vmstep_refl|done]. }
  fold a. destruct (Z.ltb_spec a (PGROUNDUP oldsz)) as [Hlt'|Hge'].
  - assert (u64 (i32 (u64 (PGROUNDUP oldsz - a) / PGSIZE)) = Z.of_nat n) as ->.
    { rewrite En. replace (a + Z.of_nat n * PGSIZE - a) with (Z.of_nat n * PGSIZE) by lia.
      fold a in Hb1. rewrite (u64_small (_ * _)) by (pgconst; lia). rewrite Z.div_mul by done.
      rewrite i32_small, u64_small by (pgconst; lia). done. }
    destruct (uvmunmap_spec n root a T U l s) as (s' & E & H1 & H2 & H3); try done.
    + split; [done|]. fold a in Hb1. rewrite <- En. pgconst. lia.
    + lia.
    + exists s'. rewrite (bind_ok _ _ _ _ _ E). done.
  - assert (n = 0%nat) as -> by (unfold PGSIZE in *; lia). exists s.
    split; [done|]. split; [done|]. split; [apply vmstep_refl|done].
Qed.

Lemma uspace_mem P root T U l m s :
  uspace root T U l s -> same_outside P (mem s) m -> (forall q, q ∈ P -> page_aligned q) ->
  (forall q, q ∈ P -> q ∉ tpages T /\ q ∉ l) -> uspace root T U l (with_mem m s).
Proof.
  intros [R Hv Hap Hpg Hinj] Hs Ha Hd. split; [| |done..].
  - eapply pt_frame; [done|exact Hs|done|]. intros t Ht Hin. by destruct (Hd t Hin).
  - eapply vm_ok_mem; [done|exact Hs|done|]. intros q Hq. by destruct (Hd q Hq).
Qed.

Lemma uspace_touch root T U l s : uspace root T U l s -> uspace root T U l (touch s).
Proof. intros [R [Hr Hk] Hap Hpg Hinj]. split; [done| |done..]. split; [by apply touch_ready|exact Hk]. Qed.

Lemma uspace_take root T U q l s :
  uspace root T U (q :: l) s ->
  uspace root T U l (kalloc_state s) /\ fresh l T U q /\
  (forall x, owned (q :: l) T U x <-> x = q \/ owned l T U x).
Proof.
  intros [R Hv Hap Hpg Hinj]. destruct (kalloc_vm _ _ Himg Hv) as (_ & Hv' & Hq & _ & _ & Hql & Hs).
  assert (q ∉ tpages T) as HqT by (intros Hin; apply (Hap q Hin); by left).
  assert (~ upage U q) as HqU.
  { intros (va & fl & Hva & E). destruct (Hpg va q fl Hva E) as (_ & _ & Hn & _). apply Hn. by left. }
  split; [split|split].
  - eapply pt_frame; [exact R|exact Hs|by intros ? ->%elem_of_singleton; apply Hq|].
    by intros t Ht ->%elem_of_singleton.
  - done.
  - intros t Ht Hin. apply (Hap t Ht). by right.
  - intros va pa fl Hva E. destruct (Hpg va pa fl Hva E) as (? & ? & Hn%not_elem_of_cons & ?). naive_solver.
  - done.
  - split; [done|]. intros [?|[?|?]]; done.
  - intros x. unfold owned. rewrite elem_of_cons. naive_solver.
Qed.

(** The tree grew: new tables came from the free list. *)
Lemma grows_owned root U T l s T' l' s' x :
  grows root U T l s T' l' s' -> (x ∈ l \/ x ∈ tpages T) <-> (x ∈ l' \/ x ∈ tpages T').
Proof.
  intros G. destruct (g_new _ _ _ _ _ _ _ _ G) as (new & -> & ->).
  rewrite elem_of_app, elem_of_union, elem_of_list_to_set. naive_solver.
Qed.

Lemma uspace_grows root T U l s T' l' s' :
  uspace root T U l s -> grows root U T l s T' l' s' ->
  uspace root T' U l' s' /\ (forall x, owned l' T' U x <-> owned l T U x).
Proof.
  intros [R Hv Hap Hpg Hinj] G. split; [split; try apply G; [|done]|].
  - intros va pa fl Hva E. destruct (Hpg va pa fl Hva E) as (? & ? & ? & ?).
    pose proof (grows_owned _ _ _ _ _ _ _ _ pa G) as HG. tauto.
  - intros x. unfold owned. pose proof (grows_owned _ _ _ _ _ _ _ _ x G) as HG. tauto.
Qed.

Lemma uspace_map root T U l s T' l' s' a q fl :
  uspace root T U l s -> fresh l T U q -> a < TRAPFRAME -> U !! a = None -> fl <> PTE_V ->
  grows root (<[a := (q, fl)]> U) T l s T' l' s' ->
  uspace root T' (<[a := (q, fl)]> U) l' s' /\
  (forall x, owned l' T' (<[a := (q, fl)]> U) x <-> x = q \/ owned l T U x).
Proof.
  intros [R Hv Hap Hpg Hinj] [Hq Hfr] Ha EU Hfl G. split; [split; try apply G|].
  - intros va pa f Hva [[<- [= <- <-]]|[Hne E]]%lookup_insert_Some.
    + pose proof (grows_owned _ _ _ _ _ _ _ _ q G) as HG. unfold owned in Hfr. tauto.
    + destruct (Hpg va pa f Hva E) as (? & ? & ? & ?).
      pose proof (grows_owned _ _ _ _ _ _ _ _ pa G) as HG. tauto.
  - assert (forall va f, va < TRAPFRAME -> U !! va = Some (q, f) -> False) as Hno.
    { intros va f Hva E. apply Hfr. right; right. by exists va, f. }
    intros va vb pa f f' Hva Hvb [[<- E]|[_ E]]%lookup_insert_Some
      [[<- E']|[_ E']]%lookup_insert_Some; simplify_eq;
      [done|by destruct (Hno vb f')|by destruct (Hno va f)|eauto].
  - intros x. unfold owned. rewrite upage_insert by done.
    pose proof (grows_owned _ _ _ _ _ _ _ _ x G) as HG. tauto.
Qed.

Lemma uspace_free root T U l s q :
  uspace root T U l s -> fresh l T U q ->
  kfree q s = Ok tt (kfree_state q s) /\ uspace root T U (q :: l) (kfree_state q s) /\
  vmstep {[q]} s (kfree_state q s) /\ (forall x, owned (q :: l) T U x <-> x = q \/ owned l T U x).
Proof.
  intros [R Hv Hap Hpg Hinj] [Hq Hfr].
  assert (q ∉ l /\ q ∉ tpages T /\ ~ upage U q) as (Hql & HqT & HqU) by (unfold owned in Hfr; naive_solver).
  destruct (kfree_vm q l s Hv Hq Hql) as (Ek & Hv' & Hs). split; [done|]. split; [split|split; [done|]].
  - eapply pt_frame; [exact R|apply Hs|by intros ? ->%elem_of_singleton; apply Hq|].
    by intros t Ht ->%elem_of_singleton.
  - done.
  - intros t Ht. apply not_elem_of_cons. split; [by intros ->|by apply Hap].
  - intros va pa fl Hva E. destruct (Hpg va pa fl Hva E) as (? & ? & ? & ?).
    split; [done|]. split; [done|]. split; [|done]. apply not_elem_of_cons. split; [|done].
    intros ->. apply HqU. by exists va, fl.
  - done.
  - intros x. unfold owned. rewrite elem_of_cons. naive_solver.
Qed.

End vmspec.
