(* ===== verification/Uvm.v ===== *)
(** * User memory: growing, copying, freeing

    [uvmalloc], [copyout], [copyin], [copyinstr], [uvmcopy] and [uvmfree] of kernel/vm.c
    against the invariant [uspace] of a user address space. *)

From S2P Require Import Prelude Riscv Memory State Spinlock Kalloc Vm PageTable VmSpec.

Section uvm.
Context `{image} (Himg : image_ok).

(** ** uvmalloc *)

Lemma in_range_snoc a n va : in_range a (S n) va <-> in_range a n va \/ va = a + Z.of_nat n * PGSIZE.
Proof.
  unfold in_range. split.
  - intros [Hm Hr]. destruct (decide (va = a + Z.of_nat n * PGSIZE)); [by right|left].
    split; [done|]. unfold PGSIZE in *. Z.to_euclidean_division_equations. lia.
  - intros [[Hm Hr]| ->]; [split; [done|unfold PGSIZE in *; lia]|].
    split; [|unfold PGSIZE; lia]. rewrite Z.add_simpl_l. by apply Z.mod_mul.
Qed.

Lemma range_pages_snoc U a n :
  range_pages U a (S n) = range_pages U a n ++ [default 0 (fst <$> U !! (a + Z.of_nat n * PGSIZE))].
Proof.
  unfold range_pages. revert a. induction n as [|n IH]; intros a.
  - simpl. by rewrite Z.add_0_r.
  - cbn [page_range fmap list_fmap]. cbn [page_range fmap list_fmap] in IH. rewrite IH.
    replace (a + PGSIZE + Z.of_nat n * PGSIZE) with (a + Z.of_nat (S n) * PGSIZE) by lia. done.
Qed.

Definition alloc_perm (xperm : Z) : Z := Z.lor (Z.lor PTE_R PTE_U) xperm.
Definition alloc_flags (xperm : Z) : Z := Z.lor (alloc_perm xperm) PTE_V.

Lemma alloc_perm_range xperm : 0 <= xperm < 2 ^ 10 -> 0 <= alloc_perm xperm < 2 ^ 10.
Proof.
  intros Hx. unfold alloc_perm. change (Z.lor PTE_R PTE_U) with 18. split; [apply Z.lor_nonneg; lia|].
  apply Z.log2_lt_pow2.
  - assert (0 <= Z.lor 18 xperm) by (apply Z.lor_nonneg; lia).
    assert (Z.lor 18 xperm <> 0) by (by intros [? _]%Z.lor_eq_0_iff). lia.
  - rewrite Z.log2_lor by lia. change (Z.log2 18) with 4.
    destruct (decide (xperm = 0)) as [->|]; [done|]. assert (Z.log2 xperm < 10) by (apply Z.log2_lt_pow2; lia). lia.
Qed.

Lemma alloc_flags_leaf xperm : alloc_flags xperm <> PTE_V.
Proof.
  unfold alloc_flags, alloc_perm. intros E. apply (f_equal (fun z => Z.testbit z 1)) in E.
  rewrite !Z.lor_spec in E. done.
Qed.

(** The page at [q] holds the bytes [f]. *)
Definition page_is (m : memory) (q : Z) (f : Z -> Z) : Prop := forall i, 0 <= i < PGSIZE -> rd8 m (q + i) = f i.
Definition zero_page (m : memory) (q : Z) : Prop := page_is m q (fun _ => 0).

Lemma zero_memset m q : zero_page (memset m q 0 PGSIZE) q.
Proof. intros i Hi. rewrite rd8_memset by (unfold PGSIZE; lia). by rewrite decide_True by lia. Qed.

Lemma page_is_same P m m' q f :
  page_is m q f -> same_outside P m m' -> (forall x, x ∈ P -> page_aligned x) -> page_aligned q -> q ∉ P ->
  page_is m' q f.
Proof. intros Hz Hs Ha Hq Hn i Hi. erewrite same_rd8; [by apply Hz|done..]. Qed.

Lemma uspace_aligned root T U l s x :
  uspace root T U l s -> x ∈ (list_to_set l ∪ tpages T : gset Z) -> page_aligned x.
Proof.
  intros Hu [Hx|Hx]%elem_of_union.
  - apply elem_of_list_to_set in Hx. destruct (us_vm _ _ _ _ _ Hu) as [_ (_ & _ & Hf)].
    rewrite Forall_forall in Hf. by apply Hf.
  - apply elem_of_tpages in Hx as [p Hp]. by eapply pt_aligned; [apply Hu|].
Qed.

(** A page [q] taken and written, then a tree that grew: all from the free list and the tree. *)
Lemma grow_step root U T q l s s2 T' l' s' :
  vmstep {[q]} s s2 -> grows root U T l s2 T' l' s' ->
  vmstep (list_to_set (q :: l) ∪ tpages T) s s'.
Proof.
  intros H1 G. eapply vmstep_trans; [exact H1|exact (grows_vmstep _ _ _ _ _ _ _ _ G)|clear; set_solver|].
  destruct (g_new _ _ _ _ _ _ _ _ G) as (new & -> & ->). clear. set_solver.
Qed.

Lemma grow_sub root U T l s T' l' s' :
  grows root U T l s T' l' s' -> (list_to_set l' ∪ tpages T' : gset Z) = list_to_set l ∪ tpages T.
Proof.
  intros G. destruct (g_new _ _ _ _ _ _ _ _ G) as (new & -> & ->). clear. set_solver.
Qed.

(** One page added to an address space: allocated, filled by [g] and mapped; or memory runs
    out and the free list still accounts for every page.  [uvmalloc] and [uvmcopy] share it. *)
Lemma page_step root T U l s a perm (g : memory -> Z -> memory) f :
  0 <= a -> page_aligned a -> (l <> [] -> a < TRAPFRAME /\ U !! a = None) ->
  0 <= perm < 2 ^ 10 -> Z.lor perm PTE_V <> PTE_V ->
  (forall m q, only_page m (g m q) q) ->
  (forall m q, q ∈ l -> same_outside {[q]} (mem s) m -> page_is (g m q) q f) -> uspace root T U l s ->
  forall (fail : K Z) (cont : K Z),
  let body := (mem <- kalloc;;
      if mem =? 0 then fail else
      modify (fun s => with_mem (g (State.mem s) mem) s);;
      r <- mappages root a PGSIZE mem perm;;
      if negb (r =? 0) then kfree mem;; fail else cont)%M in
  exists T' l' s', T ⊆ T' /\ vmstep (list_to_set l ∪ tpages T) s s' /\
    list_to_set l' ∪ tpages T' ⊆ list_to_set l ∪ tpages T /\ l' ⊆ l /\
    ((body s = fail s' /\ uspace root T' U l' s' /\ (forall x, owned l' T' U x <-> owned l T U x) /\ (length l < 4)%nat) \/
     (exists q, body s = cont s' /\ q ∈ l /\ page_is (mem s') q f /\ (length l' < length l <= length l' + 3)%nat /\
        uspace root T' (<[a := (q, Z.lor perm PTE_V)]> U) l' s' /\
        (forall x, owned l' T' (<[a := (q, Z.lor perm PTE_V)]> U) x <-> owned l T U x))).
Proof.
  intros Ha0 Hal Hroom Hx Hfl Hg Hgf Hu fail cont body.
  pose proof (kalloc_vm l s Himg (us_vm _ _ _ _ _ Hu)) as Hka. destruct l as [|q l].
  { destruct Hka as [E _]. exists T, [], (touch s). split; [done|]. split; [split; [apply same_refl|apply quiet_touch]|].
    split; [done|]. split; [done|]. left. unfold body. rewrite (bind_ok _ _ _ _ _ E).
    split; [reflexivity|]. split; [by apply uspace_touch|]. split; [done|cbn; lia]. }
  destruct Hka as (E & _ & Hq & Hqa & Hpos & Hql & Hs1). destruct Hroom as [Ha EU]; [done|].
  destruct (uspace_take Himg root T U q l s Hu) as (Hu1 & Hfr & Ho1).
  set (s2 := with_mem (g (mem (kalloc_state s)) q) (kalloc_state s)).
  assert (same_outside {[q]} (mem (kalloc_state s)) (mem s2)) as Hs2 by apply same_only_page, Hg.
  assert (uspace root T U l s2) as Hu2.
  { apply (uspace_mem {[q]}); [done|done|by intros ? ->%elem_of_singleton; apply Hq|].
    intros ? ->%elem_of_singleton. destruct Hfr as [_ Hno]. unfold owned in Hno. tauto. }
  assert (vmstep {[q]} s s2) as Hv2.
  { split; [by eapply same_trans|]. unfold s2. by rewrite quiet_mem, kalloc_state_quiet. }
  assert (body s = (r <- mappages root a PGSIZE q perm;;
    if negb (r =? 0) then kfree q;; fail else cont)%M s2) as Eb.
  { unfold body. rewrite (bind_ok _ _ _ _ _ E), (proj2 (Z.eqb_neq q 0)) by lia.
    rewrite bind_modify. reflexivity. }
  rewrite Eb. clear Eb body.
  destruct (map_one Himg root a q perm T U l s2) as
    (T3 & l3 & s3 & [(E3 & G3 & -> & Hl3)|(E3 & G3 & Hl3)]);
    [split; [pgconst; lia|done]|done|done|done|apply Hu2..| |];
    rewrite (bind_ok _ _ _ _ _ E3); cbn [negb Z.eqb].
  - destruct (uspace_grows root T U l s2 T3 [] s3 Hu2 G3) as [Hu3 Ho3].
    assert (fresh [] T3 U q) as Hfr3 by (split; [done|]; rewrite Ho3; apply Hfr).
    destruct (uspace_free Himg root T3 U [] s3 q Hu3 Hfr3) as (E4 & Hu4 & Hs4 & Ho4).
    exists T3, [q], (kfree_state q s3). split; [apply G3|]. rewrite (bind_ok _ _ _ _ _ E4). split; [|split; [|split]].
    + eapply (vmstep_trans _ {[q]}); [exact (grow_step _ _ _ _ _ _ _ _ _ _ Hv2 G3)|exact Hs4|done|].
      clear. set_solver.
    + pose proof (grow_sub _ _ _ _ _ _ _ _ G3) as Es. revert Es. clear. set_solver.
    + intros x ->%list_elem_of_singleton. by left.
    + left. split; [reflexivity|]. split; [exact Hu4|]. split; [|cbn; lia]. intros x. by rewrite Ho4, Ho3, Ho1.
  - destruct (uspace_map root T U l s2 T3 l3 s3 a q (Z.lor perm PTE_V) Hu2 Hfr) as [Hu3 Ho3];
      [lia|done|done|exact G3|].
    exists T3, l3, s3. split; [apply G3|]. destruct (g_new _ _ _ _ _ _ _ _ G3) as (new & El & ET). split; [|split; [|split]].
    + exact (grow_step _ _ _ _ _ _ _ _ _ _ Hv2 G3).
    + pose proof (grow_sub _ _ _ _ _ _ _ _ G3) as Es. revert Es. clear. set_solver.
    + intros x Hx1. right. rewrite El. by apply elem_of_app; right.
    + right. exists q. split; [reflexivity|]. split; [by left|]. split; [|split; [|split; [exact Hu3|]]].
      * eapply page_is_same; [apply (Hgf (mem (kalloc_state s)) q); [by left|exact Hs1]|apply G3|..].
        -- intros x (p & Hp)%elem_of_tpages. eapply pt_aligned; [apply G3|done].
        -- apply Hq.
        -- intros Hin. eapply us_page in Hu3 as (_ & Hn & _); [by apply Hn|..|by rewrite lookup_insert_eq]. lia.
      * rewrite El in *. simpl. rewrite length_app in *. lia.
      * intros x. by rewrite Ho3, Ho1.
Qed.

(** Rolling back: the pages from [oldsz] up to [a] are unmapped and freed. *)
Lemma rollback root T U l s oldsz a k :
  a = oldsz + Z.of_nat k * PGSIZE -> 0 <= oldsz -> page_aligned oldsz -> page_aligned a -> a <= TRAPFRAME ->
  (forall va, in_range oldsz k va -> is_Some (U !! va)) -> uspace root T U l s ->
  exists s' l', (_ <- uvmdealloc root a oldsz;; ret 0)%M s = Ok 0 s' /\
    uspace root T (unmap_range U oldsz k) l' s' /\
    vmstep (tpages T ∪ list_to_set (range_pages U oldsz k)) s s' /\
    (forall q, owned l' T (unmap_range U oldsz k) q <-> owned l T U q).
Proof.
  intros Ha Ho Hal Haa Hlt Hm Hu.
  assert (oldsz <= a) as Hle by (unfold PGSIZE in *; lia).
  assert (PGROUNDUP oldsz = oldsz) as Er by (apply PGROUNDUP_id; [done|pgconst; lia|done]).
  assert (PGROUNDUP a = a) as Er' by (apply PGROUNDUP_id; [lia|pgconst; lia|done]).
  assert (dealloc_pages a oldsz = k) as Ek.
  { unfold dealloc_pages. rewrite Er, Er', Ha. rewrite Z.add_simpl_l, Z.div_mul by done. apply Nat2Z.id. }
  destruct (uvmdealloc_spec Himg root T U l s a oldsz) as (s' & E & Hu' & Hst & Ho'); [lia|done|done| |].
  { by rewrite Er, Ek. }
  rewrite Er, Ek in Hu', Hst, Ho'. exists s'. eexists.
  rewrite (bind_ok _ _ _ _ _ E). split; [reflexivity|]. split; [exact Hu'|]. by split.
Qed.

Lemma unmap_range_insert U old k a e :
  a = old + Z.of_nat k * PGSIZE -> U !! a = None ->
  unmap_range (<[a := e]> U) old (S k) = unmap_range U old k.
Proof.
  intros Ha EU. apply map_eq. intros va. rewrite !lookup_unmap_range.
  destruct (decide (in_range old k va)) as [Hi|Hn].
  - by rewrite decide_True by (apply in_range_snoc; by left).
  - destruct (decide (va = a)) as [->|Hne].
    + by rewrite decide_True by (apply in_range_snoc; right; done).
    + rewrite decide_False by (intros [?|?]%in_range_snoc; [done|congruence]).
      by rewrite lookup_insert_ne.
Qed.

Lemma range_pages_insert U old k a q fl :
  a = old + Z.of_nat k * PGSIZE ->
  range_pages (<[a := (q, fl)]> U) old (S k) = range_pages U old k ++ [q].
Proof.
  intros Ha. rewrite range_pages_snoc, <- Ha, lookup_insert_eq. f_equal.
  apply range_pages_ext. intros va Hva. rewrite lookup_insert_ne; [done|].
  intros <-. unfold in_range in Hva. unfold PGSIZE in *. lia.
Qed.

Lemma owned_step l T U q : q ∈ (list_to_set l ∪ tpages T : gset Z) -> owned l T U q.
Proof. rewrite elem_of_union, elem_of_list_to_set. unfold owned. tauto. Qed.

(** ** Growing page by page

    [uvmalloc] and [uvmcopy] are loops over the pages of a range that add one page at a time
    and undo everything when memory runs out. *)

Section grow.
Context (root old bound rok rfail : Z) (perm : Z -> Z) (g : Z -> memory -> Z -> memory) (f : Z -> Z -> Z).
Context (L : nat -> Z -> K Z) (fail : Z -> K Z).
(** The pages the loop may write, and what it relies on elsewhere. *)
Context (own : Z -> Prop) (Inv : kst -> Prop).

Definition grow_body (a : Z) (cont : K Z) : K Z :=
  (mem <- kalloc;;
   if mem =? 0 then fail a else
   modify (fun s => with_mem (g a (State.mem s) mem) s);;
   r <- mappages root a PGSIZE mem (perm a);;
   if negb (r =? 0) then kfree mem;; fail a else cont)%M.

Record grow_loop : Prop := {
  gl_old : 0 <= old /\ page_aligned old;
  gl_stop : forall fuel a s, bound <= a -> L (S fuel) a s = Ok rok s;
  gl_step : forall fuel a s, Inv s -> old <= a < bound -> page_aligned a ->
    L (S fuel) a s = grow_body a (L fuel (a +u PGSIZE)) s;
  gl_fail : forall a k T U l s, a = old + Z.of_nat k * PGSIZE -> page_aligned a -> a <= TRAPFRAME ->
    (forall va, in_range old k va -> is_Some (U !! va)) -> uspace root T U l s ->
    exists s' l', fail a s = Ok rfail s' /\ uspace root T (unmap_range U old k) l' s' /\
      vmstep (tpages T ∪ list_to_set (range_pages U old k)) s s' /\
      (forall q, owned l' T (unmap_range U old k) q <-> owned l T U q);
  gl_perm : forall a, old <= a < bound -> page_aligned a -> 0 <= perm a < 2 ^ 10 /\ Z.lor (perm a) PTE_V <> PTE_V;
  gl_only : forall a m q, only_page m (g a m q) q;
  gl_fill : forall a s m q, Inv s -> old <= a < bound -> page_aligned a -> own q ->
    same_outside {[q]} (mem s) m -> page_is (g a m q) q (f a);
  gl_inv : forall W s s', Inv s -> vmstep W s s' -> (forall q, q ∈ W -> own q) -> Inv s'
}.

(** How the loop may end: every page of the range mapped, filled and with the requested
    permissions; or nothing mapped, and the pages the tree grew by accounted for. *)
Definition grown (a : Z) (k n : nat) (T : gmap (list Z) Z) (U : gmap Z (Z * Z)) (l : list Z) (s : kst)
    (r : Z) (s' : kst) : Prop :=
  exists T' U' l', T ⊆ T' /\ uspace root T' U' l' s' /\ (forall x, owned l' T' U' x <-> owned l T U x) /\
   ((r = rok /\ vmstep (list_to_set l ∪ tpages T) s s' /\
      (forall va, ~ in_range a n va -> U' !! va = U !! va) /\
      (forall va, in_range a n va -> exists q, U' !! va = Some (q, Z.lor (perm va) PTE_V) /\ q ∈ l /\
         page_is (mem s') q (f va))) \/
    (r = rfail /\ U' = unmap_range U old k /\ (length l <= 3 * n)%nat /\
      vmstep (list_to_set l ∪ tpages T ∪ list_to_set (range_pages U old k)) s s')).

(** One iteration prepended to the rest of the loop. *)
Lemma grown_cons a k n T U l s T1 q l1 s1 r s2 :
  page_aligned a -> a < TRAPFRAME -> a = old + Z.of_nat k * PGSIZE -> U !! a = None ->
  T ⊆ T1 -> vmstep (list_to_set l ∪ tpages T) s s1 ->
  (list_to_set l1 ∪ tpages T1 : gset Z) ⊆ list_to_set l ∪ tpages T -> l1 ⊆ l -> (length l <= length l1 + 3)%nat ->
  q ∈ l -> page_is (mem s1) q (f a) ->
  uspace root T1 (<[a := (q, Z.lor (perm a) PTE_V)]> U) l1 s1 ->
  (forall x, owned l1 T1 (<[a := (q, Z.lor (perm a) PTE_V)]> U) x <-> owned l T U x) ->
  grown (a + PGSIZE) (S k) n T1 (<[a := (q, Z.lor (perm a) PTE_V)]> U) l1 s1 r s2 ->
  grown a k (S n) T U l s r s2.
Proof.
  intros Haa Hlt Hak Hua HT Hst Hsub Hl1 Hlen Hq Hz Hu1 Ho1 (T2 & U2 & l2 & HT2 & Hu2 & Ho2 & HD).
  exists T2, U2, l2. split; [by etrans|]. split; [exact Hu2|]. split; [intros x; by rewrite Ho2, Ho1|].
  destruct HD as [(-> & Hst2 & Hsame & Hnew)|(-> & -> & Hlen2 & Hst2)].
  - left. split; [done|]. split; [by eapply vmstep_trans|]. split.
    + intros va Hva. rewrite Hsame by (rewrite in_range_S in Hva; tauto).
      rewrite lookup_insert_ne; [done|]. intros <-. apply Hva, in_range_S. by left.
    + intros va [->|Hva]%in_range_S.
      * exists q. rewrite Hsame, lookup_insert_eq by apply in_range_head. split; [done|]. split; [done|].
        assert (page_ok q /\ q ∉ tpages T1 /\ q ∉ l1) as (Hqo & HqT & Hql).
        { eapply (us_page _ _ _ _ _ Hu1 a) in Hlt; [|by rewrite lookup_insert_eq]. tauto. }
        eapply page_is_same; [done|apply Hst2|intros x Hx1; exact (uspace_aligned _ _ _ _ _ _ Hu1 Hx1)|apply Hqo|].
        rewrite elem_of_union, elem_of_list_to_set. tauto.
      * destruct (Hnew va Hva) as (q' & E' & Hq' & Hz'). exists q'. split; [done|]. split; [by apply Hl1|done].
  - right. split; [done|]. rewrite unmap_range_insert by done. split; [done|]. split; [lia|].
    rewrite range_pages_insert in Hst2 by done.
    eapply vmstep_trans; [exact Hst|exact Hst2|clear; set_solver|].
    revert Hsub Hq. clear. set_solver.
Qed.

Lemma grow_spec n fuel a k T U l s :
  grow_loop -> (n < fuel)%nat ->
  bound <= a + Z.of_nat n * PGSIZE < bound + PGSIZE \/ (n = 0%nat /\ bound <= a) ->
  a = old + Z.of_nat k * PGSIZE -> page_aligned a -> a <= TRAPFRAME ->
  bound <= TRAPFRAME \/ a + Z.of_nat (length l) * PGSIZE <= TRAPFRAME ->
  (forall va, in_range old k va -> is_Some (U !! va)) ->
  (forall va, a <= va < TRAPFRAME -> U !! va = None) -> uspace root T U l s ->
  Inv s -> (forall q, owned l T U q -> own q) ->
  exists r s', L fuel a s = Ok r s' /\ grown a k n T U l s r s'.
Proof.
  intros GL. revert fuel a k T U l s.
  induction n as [|n IH]; intros fuel a k T U l s Hf Hn Hak Haa Hat Hroom Hm Hno Hu HI Hown;
    (destruct fuel as [|fuel]; [lia|]).
  { rewrite (gl_stop GL) by (unfold PGSIZE in *; lia). exists rok, s. split; [reflexivity|].
    exists T, U, l. split; [done|]. split; [exact Hu|]. split; [done|]. left. split; [done|].
    split; [apply vmstep_refl|]. split; [done|]. intros va Hva. unfold in_range in Hva. lia. }
  destruct (gl_old GL) as [Ho Hal].
  assert (old <= a < bound) as Hab by (unfold PGSIZE in *; lia). destruct (gl_perm GL a Hab Haa) as [Hp1 Hp2].
  rewrite (gl_step GL) by done.
  destruct (page_step root T U l s a (perm a) (g a) (f a)) with (fail := fail a) (cont := L fuel (a +u PGSIZE))
    as (T1 & l1 & s1 & HT & Hst & Hsub & Hl1 & Hr); [lia|done| |done|done|apply (gl_only GL)| |done|].
  { intros Hl. assert (a < TRAPFRAME) as Hlt.
    { destruct l as [|q l]; [done|]. simpl in Hroom. unfold PGSIZE in *. lia. }
    split; [done|]. apply Hno. lia. }
  { intros m q Hq Hs. eapply (gl_fill GL); [done..| |done]. apply Hown. by left. }
  destruct Hr as [(E & Hu1 & Ho1 & Hl3)|(q & E & Hq & Hz & Hlen & Hu1 & Ho1)]; unfold grow_body; rewrite E; clear E.
  - destruct (gl_fail GL a k T1 U l1 s1) as (s2 & l2 & E2 & Hu2 & Hst2 & Ho2); [done..|].
    exists rfail, s2. split; [exact E2|]. exists T1, (unmap_range U old k), l2. split; [done|]. split; [done|].
    split; [intros x; by rewrite Ho2, Ho1|]. right. split; [done|]. split; [done|]. split; [lia|].
    eapply vmstep_trans; [exact Hst|exact Hst2|clear; set_solver|]. revert Hsub. clear. set_solver.
  - assert (a < TRAPFRAME) as Hlt by (destruct l; [by apply elem_of_nil in Hq|]; simpl in Hroom; unfold PGSIZE in *; lia).
    rewrite u64_small by (pgconst; lia).
    destruct (IH fuel (a + PGSIZE) (S k) T1 (<[a := (q, Z.lor (perm a) PTE_V)]> U) l1 s1) as (r & s2 & E2 & HD);
      [lia|unfold PGSIZE in *; lia|lia|by apply aligned_step| |unfold PGSIZE in *; lia| | |done| | |].
    { unfold page_aligned in *. pgconst. Z.to_euclidean_division_equations. lia. }
    { intros va [Hva| ->]%in_range_snoc; [|rewrite <- Hak, lookup_insert_eq; by eexists].
      rewrite lookup_insert_ne; [by apply Hm|]. intros <-. unfold in_range in Hva. unfold PGSIZE in *. lia. }
    { intros va Hva. rewrite lookup_insert_ne by (unfold PGSIZE in *; lia). apply Hno. unfold PGSIZE in *. lia. }
    { eapply (gl_inv GL); [exact HI|exact Hst|]. intros x Hx. by apply Hown, owned_step. }
    { intros x Hx. by apply Hown, Ho1. }
    exists r, s2. split; [exact E2|]. eapply grown_cons; eauto; [apply Hno|]; lia.
Qed.

End grow.

Lemma sized_none m root T U sz va :
  pt_rep m root T U -> sized U sz -> 0 <= va < TRAPFRAME /\ sz <= va -> U !! va = None.
Proof.
  intros R Hs [Hva Hsz]. destruct (U !! va) as [e|] eqn:E; [|done].
  destruct (pt_dom _ _ _ _ R _ _ E) as [[_ Ha] _].
  assert (va < sz) by (apply Hs; [done|done|by eexists]). lia.
Qed.

Lemma uvmalloc_loop_ok root old newsz xperm :
  0 <= old -> page_aligned old -> 0 <= xperm < 2 ^ 10 ->
  grow_loop root old newsz newsz 0 (fun _ => alloc_perm xperm) (fun _ m q => memset m q 0 PGSIZE)
    (fun _ _ => 0) (fun fuel b => uvmalloc_loop fuel root b old newsz xperm)
    (fun b => _ <- uvmdealloc root b old;; ret 0)%M (fun _ => True) (fun _ => True).
Proof.
  intros Ho Ha Hx. split; try done.
  - intros fuel a s Hle. cbn [uvmalloc_loop]. by rewrite (proj2 (Z.ltb_ge a newsz)).
  - intros fuel a s _ Hab _. cbn [uvmalloc_loop]. rewrite (proj2 (Z.ltb_lt a newsz)) by lia. reflexivity.
  - intros. by apply rollback.
  - intros a _ _. split; [by apply alloc_perm_range|apply alloc_flags_leaf].
  - intros. apply only_page_memset.
  - intros. apply zero_memset.
Qed.

(** The pages [uvmalloc] adds. *)
Definition alloc_pages (oldsz newsz : Z) : nat := Z.to_nat ((newsz - PGROUNDUP oldsz + PGSIZE - 1) / PGSIZE).

(** C30: [uvmalloc] grows user memory completely or not at all.  Either it returns the new
    size, every page between the old and the new end is mapped, to a zero-filled page taken
    from the free list, with the requested permissions, and all other mappings are as before;
    or it returns 0, which happens only with at most three free pages for each page asked for,
    and the address space maps exactly what it mapped.  It never panics, even
    for a size beyond all memory; existing user pages keep their contents; and each page that
    was free, in the page table or in user memory still is exactly one of these. *)
Theorem uvmalloc_correct root oldsz newsz xperm T U l s :
  0 <= oldsz <= newsz -> oldsz <= TRAPFRAME -> 0 <= xperm < 2 ^ 10 ->
  newsz <= TRAPFRAME \/ PGROUNDUP oldsz + Z.of_nat (length l) * PGSIZE <= TRAPFRAME ->
  sized U (PGROUNDUP oldsz) -> uspace root T U l s ->
  exists r s' T' U' l', uvmalloc root oldsz newsz xperm s = Ok r s' /\
    uspace root T' U' l' s' /\ T ⊆ T' /\ (forall x, owned l' T' U' x <-> owned l T U x) /\
    vmstep (list_to_set l ∪ tpages T) s s' /\
    (forall va, ~ in_range (PGROUNDUP oldsz) (alloc_pages oldsz newsz) va -> U' !! va = U !! va) /\
    ((r = newsz /\ forall va, in_range (PGROUNDUP oldsz) (alloc_pages oldsz newsz) va ->
        exists q, U' !! va = Some (q, alloc_flags xperm) /\ q ∈ l /\ zero_page (mem s') q) \/
     (r = 0 /\ U' = U /\ (length l <= 3 * alloc_pages oldsz newsz)%nat)).
Proof.
  intros Ho Hot Hx Hroom Hsz Hu. unfold uvmalloc. rewrite (proj2 (Z.ltb_ge newsz oldsz)) by lia.
  destruct (roundup_user oldsz) as [Hb Ha]; [lia|]. set (a := PGROUNDUP oldsz) in *. fold (alloc_pages oldsz newsz).
  destruct (grow_spec root a newsz newsz 0 (fun _ => alloc_perm xperm) (fun _ m q => memset m q 0 PGSIZE)
    (fun _ _ => 0) (fun fuel b => uvmalloc_loop fuel root b a newsz xperm) (fun b => _ <- uvmdealloc root b a;; ret 0)%M
    (fun _ => True) (fun _ => True) (alloc_pages oldsz newsz) (S (alloc_pages oldsz newsz)) a 0 T U l s)
    as (r & s' & E & T' & U' & l' & HT & Hu' & Ho' & HD);
    [by apply uvmalloc_loop_ok; [lia|..]|lia| |lia|done|lia|done| | |done|done|done|].
  - unfold alloc_pages. fold a. unfold PGSIZE. Z.to_euclidean_division_equations. lia.
  - intros va Hva. unfold in_range in Hva. lia.
  - intros va Hva. eapply sized_none; [apply Hu|done|lia].
  - exists r, s', T', U', l'. split; [exact E|]. split; [done|]. split; [done|]. split; [done|].
    destruct HD as [(-> & Hst & Hsame & Hnew)|(-> & -> & Hlen & Hst)].
    + split; [done|]. split; [done|]. left. by split.
    + simpl in Hst. rewrite (right_id_L ∅ (∪)) in Hst. split; [done|]. split; [done|]. by right.
Qed.

End uvm.
