(* ===== verification/UserCopy.v ===== *)
(** * Copying between user memory and the kernel

    [copyin], [copyinstr] and [copyout] of kernel/vm.c against the bytes a user program sees
    through its page table. *)

From S2P Require Import Prelude Riscv Memory State Spinlock Kalloc Vm PageTable VmSpec Uvm.

(** ** User memory as seen by the kernel *)

(** The kernel may access [va] on behalf of the user. *)
Definition accessible (U : gmap Z (Z * Z)) (va : Z) : Prop := user_pa U va <> 0.
#[export] Instance accessible_dec U va : Decision (accessible U va) := not_dec _.

Definition vread (m : memory) (U : gmap Z (Z * Z)) (va : Z) : Z := rd8 m (user_pa U va + va mod PGSIZE).

Fixpoint vbytes (m : memory) (U : gmap Z (Z * Z)) (va : Z) (n : nat) : list Z :=
  match n with O => [] | S n => vread m U va :: vbytes m U (va + 1) n end.

Lemma length_vbytes m U va n : length (vbytes m U va n) = n.
Proof. revert va. induction n; intros; simpl; auto. Qed.

Lemma vbytes_app m U va n k : vbytes m U va (n + k) = vbytes m U va n ++ vbytes m U (va + Z.of_nat n) k.
Proof.
  revert va. induction n as [|n IH]; intros va; simpl; [by rewrite Z.add_0_r|].
  rewrite IH. do 2 f_equal. f_equal. lia.
Qed.

Lemma lookup_vbytes m U va n i : (i < n)%nat -> vbytes m U va n !! i = Some (vread m U (va + Z.of_nat i)).
Proof.
  revert va i. induction n as [|n IH]; intros va i Hi; [lia|]. simpl.
  destruct i as [|i]; simpl; [by rewrite Z.add_0_r|]. rewrite IH by lia. do 2 f_equal. lia.
Qed.

(** Two addresses of one page. *)
Lemma same_page va j :
  0 <= j -> va mod PGSIZE + j < PGSIZE ->
  PGROUNDDOWN (va + j) = PGROUNDDOWN va /\ (va + j) mod PGSIZE = va mod PGSIZE + j.
Proof.
  intros Hj Hlt. rewrite !PGROUNDDOWN_spec. unfold PGSIZE in *. Z.to_euclidean_division_equations. lia.
Qed.

Lemma user_pa_page U va j :
  0 <= j -> va mod PGSIZE + j < PGSIZE -> user_pa U (va + j) = user_pa U va.
Proof. intros Hj Hlt. unfold user_pa. by destruct (same_page va j) as [-> _]. Qed.

Lemma vbytes_page m U va n :
  va mod PGSIZE + Z.of_nat n <= PGSIZE ->
  rd_bytes n m (user_pa U va + va mod PGSIZE) = vbytes m U va n.
Proof.
  intros Hn. apply list_eq. intros i. destruct (decide (i < n)%nat) as [Hi|Hi].
  - rewrite rd_bytes_lookup, lookup_vbytes by done.
    unfold vread. rewrite user_pa_page by lia. destruct (same_page va (Z.of_nat i)) as [_ ->]; [lia..|].
    do 2 f_equal. lia.
  - rewrite !lookup_ge_None_2; [done|rewrite length_vbytes; lia|rewrite length_rd_bytes; lia].
Qed.

(** What one iteration of a copy loop moves. *)
Definition chunk (va len : Z) : Z := Z.min len (PGSIZE - va mod PGSIZE).

Lemma chunk_eq va len :
  0 <= va < 2 ^ 64 ->
  (let n := PGSIZE -u (va -u PGROUNDDOWN va) in if n >? len then len else n) = chunk va len.
Proof.
  intros Hva. rewrite PGROUNDDOWN_spec. unfold chunk.
  pose proof (Z.mod_pos_bound va PGSIZE ltac:(done)). replace (va - (va - va mod PGSIZE)) with (va mod PGSIZE) by lia.
  rewrite (u64_small (va mod PGSIZE)) by (unfold PGSIZE in *; lia).
  rewrite u64_small by (unfold PGSIZE in *; lia). simpl. destruct (Z.gtb_spec (PGSIZE - va mod PGSIZE) len); lia.
Qed.

Lemma chunk_range va len : 0 < len -> 0 < chunk va len <= len /\ va mod PGSIZE + chunk va len <= PGSIZE.
Proof. intros. unfold chunk. pose proof (Z.mod_pos_bound va PGSIZE ltac:(done)). lia. Qed.

(** The next iteration starts at a page boundary, unless the copy is finished. *)
Lemma chunk_next va len :
  chunk va len < len -> PGROUNDDOWN va + PGSIZE = va + chunk va len /\ (va + chunk va len) mod PGSIZE = 0.
Proof.
  unfold chunk. intros Hlt. rewrite PGROUNDDOWN_spec. unfold PGSIZE in *.
  Z.to_euclidean_division_equations. lia.
Qed.

Lemma copy_fuel_ok va len : 0 <= len -> va mod PGSIZE + len <= Z.of_nat (2 + Z.to_nat (len / PGSIZE)) * PGSIZE.
Proof. intros. unfold PGSIZE. Z.to_euclidean_division_equations. lia. Qed.

Section usercopy.
Context `{image} (Himg : image_ok).

Lemma user_pa_ok m root T U va :
  pt_rep m root T U -> 0 <= va -> accessible U va -> pa_ok (user_pa U va) /\ 0 < user_pa U va /\ va < MAXVA.
Proof.
  intros R Hva. unfold accessible, user_pa. destruct (U !! PGROUNDDOWN va) as [[pa fl]|] eqn:E; [|done].
  destruct (Z.land fl PTE_U =? 0); [done|]. intros Hne.
  destruct (pt_dom _ _ _ _ R _ _ E) as [[Hr Ha] [t Ht]].
  pose proof (pt_leaf _ _ _ _ R _ t (conj Hr Ha) Ht) as L. rewrite E in L. destruct L as (_ & Hp & _).
  pose proof (PGROUNDDOWN_bounds va). split; [done|]. destruct Hp as [_ ?]. split; [lia|].
  unfold page_aligned in *. pgconst. Z.to_euclidean_division_equations. lia.
Qed.

(** The address computations shared by the three loops. *)
Lemma walkaddr_page root T U va s :
  pt_rep (mem s) root T U -> 0 <= va -> walkaddr root (PGROUNDDOWN va) s = Ok (user_pa U va) s.
Proof.
  intros R Hva. rewrite (walkaddr_spec Himg root T U);
    [|done|rewrite PGROUNDDOWN_spec; unfold PGSIZE; Z.to_euclidean_division_equations; lia].
  unfold user_pa. by rewrite (PGROUNDDOWN_id (PGROUNDDOWN va)) by apply PGROUNDDOWN_aligned.
Qed.

Lemma copy_addr m root T U va len :
  pt_rep m root T U -> 0 <= va < 2 ^ 64 -> 0 < len < 2 ^ 64 -> accessible U va ->
  (if PGSIZE -u (va -u PGROUNDDOWN va) >? len then len else PGSIZE -u (va -u PGROUNDDOWN va)) = chunk va len /\
  user_pa U va +u (va -u PGROUNDDOWN va) = user_pa U va + va mod PGSIZE /\
  PGROUNDDOWN va +u PGSIZE = PGROUNDDOWN va + PGSIZE /\
  len -u chunk va len = len - chunk va len.
Proof.
  intros R Hva Hlen Hacc. destruct (user_pa_ok _ _ _ _ _ R (proj1 Hva) Hacc) as ([_ Hpr] & Hpos & Hmax).
  pose proof (Z.mod_pos_bound va PGSIZE ltac:(done)). pose proof (chunk_range va len ltac:(lia)).
  pose proof (PGROUNDDOWN_bounds va).
  assert (u64 (va - PGROUNDDOWN va) = va mod PGSIZE) as E.
  { rewrite PGROUNDDOWN_spec. rewrite u64_small; unfold PGSIZE in *; lia. }
  split; [exact (chunk_eq va len Hva)|]. rewrite E, !u64_small by (pgconst; lia). done.
Qed.

(** ** copyin *)

Lemma copyin_step fuel root T U dst srcva len s :
  pt_rep (mem s) root T U -> 0 <= srcva < 2 ^ 64 -> 0 < len < 2 ^ 64 ->
  copyin_loop (S fuel) root dst srcva len s =
    if decide (accessible U srcva)
    then copyin_loop fuel root (dst ++ vbytes (mem s) U srcva (Z.to_nat (chunk srcva len)))
           (PGROUNDDOWN srcva + PGSIZE) (len - chunk srcva len) s
    else Ok (-1, dst) s.
Proof.
  intros R Hva Hlen. cbn [copyin_loop]. rewrite (proj2 (Z.gtb_lt len 0)) by lia. cbn [negb].
  rewrite (bind_ok _ _ _ _ _ (walkaddr_page root T U srcva s R (proj1 Hva))).
  case_decide as Hacc; [|unfold accessible in Hacc; by rewrite (proj2 (Z.eqb_eq _ 0)) by lia].
  destruct (copy_addr _ _ _ _ _ _ R Hva Hlen Hacc) as (En & Ea & Eb & Ec).
  rewrite (proj2 (Z.eqb_neq _ 0)) by done. cbv zeta. rewrite En, Ea, Eb, Ec.
  unfold load_bytes. rewrite bind_gets, vbytes_page; [reflexivity|].
  pose proof (chunk_range srcva len ltac:(lia)). lia.
Qed.

Lemma copyin_loop_spec fuel root T U dst srcva len s :
  pt_rep (mem s) root T U -> 0 <= srcva < 2 ^ 64 -> 0 <= len < 2 ^ 64 ->
  srcva mod PGSIZE + len <= Z.of_nat fuel * PGSIZE ->
  exists n : nat, Z.of_nat n <= len /\
    copyin_loop (S fuel) root dst srcva len s =
      Ok (if Z.of_nat n =? len then 0 else -1, dst ++ vbytes (mem s) U srcva n) s /\
    (forall i, 0 <= i < Z.of_nat n -> accessible U (srcva + i)) /\
    (Z.of_nat n < len -> ~ accessible U (srcva + Z.of_nat n)).
Proof.
  revert dst srcva len. induction fuel as [|fuel IH]; intros dst srcva len R Hva Hlen Hf.
  all: destruct (decide (len = 0)) as [->|Hnz];
    [exists 0%nat; cbn [copyin_loop]; rewrite Z.eqb_refl, app_nil_r; split; [lia|]; split; [done|]; split; lia|].
  { pose proof (Z.mod_pos_bound srcva PGSIZE ltac:(done)). unfold PGSIZE in *. lia. }
  rewrite (copyin_step _ _ T U) by (done || lia). case_decide as Hacc.
  2:{ exists 0%nat. rewrite app_nil_r, (proj2 (Z.eqb_neq (Z.of_nat 0) len)) by lia. split; [lia|]. split; [done|].
      split; [lia|]. intros _. by rewrite Z.add_0_r. }
  pose proof (chunk_range srcva len ltac:(lia)) as [Hc Hp].
  assert (forall i, 0 <= i < chunk srcva len -> accessible U (srcva + i)) as Hacc'.
  { intros i Hi. unfold accessible. by rewrite user_pa_page by lia. }
  destruct (user_pa_ok _ _ _ _ _ R (proj1 Hva) Hacc) as (_ & _ & Hmax).
  destruct (decide (chunk srcva len = len)) as [Ec|Ec].
  { exists (Z.to_nat len). rewrite Z2Nat.id, Z.eqb_refl by lia. split; [lia|]. rewrite Ec in *.
    split; [|split; [done|lia]]. cbn [copyin_loop]. by rewrite Z.sub_diag. }
  destruct (chunk_next srcva len ltac:(lia)) as [En Em]. rewrite En.
  pose proof (Z.mod_pos_bound srcva PGSIZE ltac:(done)).
  destruct (IH (dst ++ vbytes (mem s) U srcva (Z.to_nat (chunk srcva len))) (srcva + chunk srcva len)
    (len - chunk srcva len)) as (n & Hn & E & Ha & Hb); [done|pgconst; lia|lia| |].
  { rewrite Em. unfold chunk in *. unfold PGSIZE in *. lia. }
  exists (Z.to_nat (chunk srcva len) + n)%nat. rewrite vbytes_app, app_assoc, E, Z2Nat.id by lia.
  split; [lia|]. split; [|split].
  - do 3 f_equal. destruct (Z.eqb_spec (Z.of_nat n) (len - chunk srcva len)), (Z.eqb_spec (Z.of_nat (Z.to_nat (chunk srcva len) + n)) len); (done || lia).
  - intros i Hi. destruct (decide (i < chunk srcva len)); [apply Hacc'; lia|].
    replace (srcva + i) with (srcva + chunk srcva len + (i - chunk srcva len)) by lia. apply Ha. lia.
  - intros Hlt. rewrite Nat2Z.inj_add, Z2Nat.id, Z.add_assoc by lia. apply Hb. lia.
Qed.

(** [copyin] returns exactly the bytes the user program sees.  For any source address and
    length it stops at the first byte the user cannot access: it returns 0 with all [len]
    bytes when there is none, and otherwise -1 with the accessible prefix; memory is not
    changed. *)
Theorem copyin_correct root T U srcva len s :
  pt_rep (mem s) root T U -> 0 <= srcva < 2 ^ 64 -> 0 <= len < 2 ^ 64 ->
  exists n : nat, Z.of_nat n <= len /\
    copyin root srcva len s = Ok (if Z.of_nat n =? len then 0 else -1, vbytes (mem s) U srcva n) s /\
    (forall i, 0 <= i < Z.of_nat n -> accessible U (srcva + i)) /\
    (Z.of_nat n < len -> ~ accessible U (srcva + Z.of_nat n)).
Proof.
  intros R Hva Hlen. apply (copyin_loop_spec _ root T U []); [done..|apply copy_fuel_ok; lia].
Qed.

(** ** copyinstr *)

(** The inner loop copies the bytes before the first NUL, and the NUL if it is in range. *)
Lemma copyinstr_page_spec n m p dst :
  exists k, (k <= n)%nat /\ (forall i, 0 <= i < Z.of_nat k -> rd8 m (p + i) <> 0) /\
    ((copyinstr_page n m p dst = (dst ++ rd_bytes k m p ++ [0], true) /\ (k < n)%nat /\
        rd8 m (p + Z.of_nat k) = 0) \/
     (copyinstr_page n m p dst = (dst ++ rd_bytes k m p, false) /\ k = n)).
Proof.
  revert p dst. induction n as [|n IH]; intros p dst; simpl.
  { exists 0%nat. rewrite app_nil_r. split; [lia|]. split; [lia|]. by right. }
  destruct (Z.eqb_spec (rd8 m p) 0) as [E|E].
  - exists 0%nat. rewrite Z.add_0_r. split; [lia|]. split; [lia|]. left. split; [done|]. split; [lia|done].
  - destruct (IH (p + 1) (dst ++ [rd8 m p])) as (k & Hk & Hnz & Hr). exists (S k). split; [lia|]. split.
    + intros i Hi. destruct (decide (i = 0)) as [->|]; [by rewrite Z.add_0_r|].
      replace (p + i) with (p + 1 + (i - 1)) by lia. apply Hnz. lia.
    + simpl. replace (p + Z.of_nat (S k)) with (p + 1 + Z.of_nat k) by lia.
      destruct Hr as [(-> & ? & ?)|(-> & ->)]; [left|right]; rewrite <- app_assoc; simpl; (split; [done|]); auto with lia.
Qed.

Lemma copyinstr_step fuel root T U dst srcva max s :
  pt_rep (mem s) root T U -> 0 <= srcva < 2 ^ 64 -> 0 < max < 2 ^ 64 ->
  copyinstr_loop (S fuel) root dst srcva max s =
    if decide (accessible U srcva)
    then let '(dst', got_null) := copyinstr_page (Z.to_nat (chunk srcva max)) (mem s)
                                    (user_pa U srcva + srcva mod PGSIZE) dst in
         if got_null then Ok (0, dst') s
         else copyinstr_loop fuel root dst' (PGROUNDDOWN srcva + PGSIZE) (max - chunk srcva max) s
    else Ok (-1, dst) s.
Proof.
  intros R Hva Hlen. cbn [copyinstr_loop]. rewrite (proj2 (Z.gtb_lt max 0)) by lia. cbn [negb].
  rewrite (bind_ok _ _ _ _ _ (walkaddr_page root T U srcva s R (proj1 Hva))).
  case_decide as Hacc; [|unfold accessible in Hacc; by rewrite (proj2 (Z.eqb_eq _ 0)) by lia].
  destruct (copy_addr _ _ _ _ _ _ R Hva Hlen Hacc) as (En & Ea & Eb & Ec).
  rewrite (proj2 (Z.eqb_neq _ 0)) by done. cbv zeta. rewrite En, Ea, Eb, Ec, bind_gets.
  destruct (copyinstr_page _ _ _ _) as [dst' []]; reflexivity.
Qed.

(** The bytes from [va] up to [n] are accessible and not NUL. *)
Definition text (m : memory) (U : gmap Z (Z * Z)) (va n : Z) : Prop :=
  forall i, 0 <= i < n -> accessible U (va + i) /\ vread m U (va + i) <> 0.

Lemma vread_page m U va i :
  0 <= i -> va mod PGSIZE + i < PGSIZE -> vread m U (va + i) = rd8 m (user_pa U va + va mod PGSIZE + i).
Proof.
  intros Hi Hlt. unfold vread. rewrite user_pa_page by done. destruct (same_page va i) as [_ ->]; [done..|].
  f_equal. lia.
Qed.

Lemma copyinstr_loop_spec fuel root T U dst srcva max s :
  pt_rep (mem s) root T U -> 0 <= srcva < 2 ^ 64 -> 0 <= max < 2 ^ 64 ->
  srcva mod PGSIZE + max <= Z.of_nat fuel * PGSIZE ->
  exists n : nat, Z.of_nat n <= max /\ text (mem s) U srcva (Z.of_nat n) /\
    ((copyinstr_loop (S fuel) root dst srcva max s = Ok (0, dst ++ vbytes (mem s) U srcva n ++ [0]) s /\
        Z.of_nat n < max /\ accessible U (srcva + Z.of_nat n) /\ vread (mem s) U (srcva + Z.of_nat n) = 0) \/
     (copyinstr_loop (S fuel) root dst srcva max s = Ok (-1, dst ++ vbytes (mem s) U srcva n) s /\
        (Z.of_nat n = max \/ ~ accessible U (srcva + Z.of_nat n)))).
Proof.
  revert dst srcva max. induction fuel as [|fuel IH]; intros dst srcva max R Hva Hlen Hf.
  all: destruct (decide (max = 0)) as [->|Hnz];
    [exists 0%nat; cbn [copyinstr_loop]; rewrite app_nil_r; split; [lia|]; split; [intros i ?; lia|by right; auto]|].
  { pose proof (Z.mod_pos_bound srcva PGSIZE ltac:(done)). unfold PGSIZE in *. lia. }
  rewrite (copyinstr_step _ _ T U) by (done || lia). case_decide as Hacc.
  2:{ exists 0%nat. rewrite app_nil_r, Z.add_0_r. split; [lia|]. split; [intros i ?; lia|]. by right; auto. }
  pose proof (chunk_range srcva max ltac:(lia)) as [Hc Hp].
  pose proof (Z.mod_pos_bound srcva PGSIZE ltac:(done)) as Hmod.
  assert (forall i, 0 <= i < chunk srcva max -> accessible U (srcva + i)) as Hacc'.
  { intros i Hi. unfold accessible. by rewrite user_pa_page by lia. }
  destruct (copyinstr_page_spec (Z.to_nat (chunk srcva max)) (mem s) (user_pa U srcva + srcva mod PGSIZE) dst)
    as (k & Hk & Hnz' & Hr).
  assert (text (mem s) U srcva (Z.of_nat k)) as Ht.
  { intros i Hi. split; [apply Hacc'; lia|]. rewrite vread_page by lia. by apply Hnz'. }
  rewrite vbytes_page in Hr by lia. destruct Hr as [(-> & Hlt & Hz)|(-> & ->)].
  { exists k. split; [lia|]. split; [done|]. left. split; [done|]. split; [lia|].
    split; [apply Hacc'; lia|]. rewrite vread_page by lia. done. }
  rewrite Z2Nat.id in Ht by lia. destruct (decide (chunk srcva max = max)) as [Ec|Ec].
  { exists (Z.to_nat max). rewrite Ec, Z2Nat.id by lia. rewrite Ec in Ht. split; [lia|]. split; [done|].
    right. split; [|by left]. cbn [copyinstr_loop]. by rewrite Z.sub_diag. }
  destruct (user_pa_ok _ _ _ _ _ R (proj1 Hva) Hacc) as (_ & _ & Hmax).
  destruct (chunk_next srcva max ltac:(lia)) as [En Em]. rewrite En.
  destruct (IH (dst ++ vbytes (mem s) U srcva (Z.to_nat (chunk srcva max))) (srcva + chunk srcva max)
    (max - chunk srcva max)) as (n & Hn & Htn & Hr); [done|pgconst; lia|lia| |].
  { rewrite Em. unfold chunk in *. unfold PGSIZE in *. lia. }
  exists (Z.to_nat (chunk srcva max) + n)%nat. rewrite Nat2Z.inj_add, Z2Nat.id, Z.add_assoc by lia.
  rewrite vbytes_app, !app_assoc, Z2Nat.id by lia. rewrite <- !app_assoc in *.
  split; [lia|]. split.
  - intros i Hi. destruct (decide (i < chunk srcva max)); [apply Ht; lia|].
    replace (srcva + i) with (srcva + chunk srcva max + (i - chunk srcva max)) by lia. apply Htn. lia.
  - destruct Hr as [(-> & ? & ?)|(-> & Hr)]; [left|right]; rewrite <- ?app_assoc; (split; [done|]); auto with lia.
    destruct Hr; [left; lia|by right].
Qed.

(** C28: [copyinstr] returns exactly the user's string.  It stops at the first byte that is
    NUL, not accessible, or beyond [max]: it returns 0 with the string and its NUL in the
    first case only, and -1 otherwise; memory is not changed. *)
Theorem copyinstr_correct root T U srcva max s :
  pt_rep (mem s) root T U -> 0 <= srcva < 2 ^ 64 -> 0 <= max < 2 ^ 64 ->
  exists n : nat, Z.of_nat n <= max /\ text (mem s) U srcva (Z.of_nat n) /\
    ((copyinstr root srcva max s = Ok (0, vbytes (mem s) U srcva n ++ [0]) s /\
        Z.of_nat n < max /\ accessible U (srcva + Z.of_nat n) /\ vread (mem s) U (srcva + Z.of_nat n) = 0) \/
     (copyinstr root srcva max s = Ok (-1, vbytes (mem s) U srcva n) s /\
        (Z.of_nat n = max \/ ~ accessible U (srcva + Z.of_nat n)))).
Proof.
  intros R Hva Hlen. apply (copyinstr_loop_spec _ root T U []); [done..|apply copy_fuel_ok; lia].
Qed.

(** ** copyout *)

(** User pages are distinct and are not page-table pages. *)
Definition user_sep (T : gmap (list Z) Z) (U : gmap Z (Z * Z)) : Prop :=
  (forall va vb, accessible U va -> accessible U vb -> user_pa U va = user_pa U vb ->
     PGROUNDDOWN va = PGROUNDDOWN vb) /\
  (forall va, accessible U va -> user_pa U va ∉ tpages T).

(** Only memory below the trapframe is marked as user memory. *)
Definition user_low (U : gmap Z (Z * Z)) : Prop :=
  forall va pa fl, U !! va = Some (pa, fl) -> Z.land fl PTE_U <> 0 -> va < TRAPFRAME.

Lemma accessible_inv U va :
  accessible U va -> exists fl, U !! PGROUNDDOWN va = Some (user_pa U va, fl) /\ Z.land fl PTE_U <> 0.
Proof.
  unfold accessible, user_pa. destruct (U !! PGROUNDDOWN va) as [[pa fl]|]; [|done].
  destruct (Z.eqb_spec (Z.land fl PTE_U) 0); [done|]. by exists fl.
Qed.

Lemma uspace_sep root T U l s : uspace root T U l s -> user_low U -> user_sep T U.
Proof.
  intros Hu Hlow. split.
  - intros va vb (fl & E & Hf)%accessible_inv (fl' & E' & Hf')%accessible_inv Eq. rewrite <- Eq in E'.
    eapply (us_inj _ _ _ _ _ Hu); eauto.
  - intros va (fl & E & Hf)%accessible_inv. eapply (us_page _ _ _ _ _ Hu) in E; [|eauto]. tauto.
Qed.

(** Storing bytes inside one user page changes what the user sees there and nowhere else. *)
Lemma vread_store m root T U dstva l va :
  pt_rep m root T U -> user_sep T U -> 0 <= dstva -> 0 <= va ->
  accessible U dstva -> accessible U va -> dstva mod PGSIZE + Z.of_nat (length l) <= PGSIZE ->
  vread (wr_bytes m (user_pa U dstva + dstva mod PGSIZE) l) U va =
    if decide (dstva <= va < dstva + Z.of_nat (length l))
    then u8 (default 0 (l !! Z.to_nat (va - dstva))) else vread m U va.
Proof.
  intros R [Hinj _] Hd Hva Hacc Hacc' Hlen. unfold vread. rewrite rd8_wr_bytes.
  pose proof (Z.mod_pos_bound dstva PGSIZE ltac:(done)). pose proof (Z.mod_pos_bound va PGSIZE ltac:(done)).
  destruct (user_pa_ok _ _ _ _ _ R Hd Hacc) as ([Ha _] & _). destruct (user_pa_ok _ _ _ _ _ R Hva Hacc') as ([Ha' _] & _).
  destruct (decide (user_pa U dstva = user_pa U va)) as [E|E].
  - pose proof (Hinj _ _ Hacc Hacc' E) as Ep. rewrite !PGROUNDDOWN_spec in Ep. rewrite <- E.
    destruct (decide (dstva <= va < _)) as [Hi|Hi].
    + rewrite decide_True by lia. do 3 f_equal. lia.
    + by rewrite decide_False by lia.
  - destruct (pages_disjoint _ _ Ha Ha' E).
    all: rewrite !decide_False; [done| |lia]; intros Hi.
    all: assert (va = dstva + (va - dstva)) as Ev by lia; rewrite Ev in E; apply E; symmetry; apply user_pa_page; lia.
Qed.

Lemma copyout_step fuel root T U dstva src len s :
  pt_rep (mem s) root T U -> 0 <= dstva < 2 ^ 64 -> 0 < len < 2 ^ 64 ->
  copyout_loop (S fuel) root dstva src len s =
    if decide (accessible U dstva)
    then copyout_loop fuel root (PGROUNDDOWN dstva + PGSIZE) (drop (Z.to_nat (chunk dstva len)) src)
           (len - chunk dstva len)
           (with_mem (wr_bytes (mem s) (user_pa U dstva + dstva mod PGSIZE) (take (Z.to_nat (chunk dstva len)) src)) s)
    else Ok (-1) s.
Proof.
  intros R Hva Hlen. cbn [copyout_loop]. rewrite (proj2 (Z.gtb_lt len 0)) by lia. cbn [negb].
  rewrite (bind_ok _ _ _ _ _ (walkaddr_page root T U dstva s R (proj1 Hva))).
  case_decide as Hacc; [|unfold accessible in Hacc; by rewrite (proj2 (Z.eqb_eq _ 0)) by lia].
  destruct (copy_addr _ _ _ _ _ _ R Hva Hlen Hacc) as (En & Ea & Eb & Ec).
  rewrite (proj2 (Z.eqb_neq _ 0)) by done. cbv zeta. rewrite En, Ea, Eb, Ec.
  unfold store_bytes. rewrite bind_modify. reflexivity.
Qed.

(** The effect of storing the first [n] bytes of [src] at user address [dstva]. *)
Definition stored (U : gmap Z (Z * Z)) (dstva : Z) (src : list Z) (n : nat) (m m' : memory) : Prop :=
  (forall va, 0 <= va -> accessible U va -> vread m' U va =
     if decide (dstva <= va < dstva + Z.of_nat n) then u8 (default 0 (src !! Z.to_nat (va - dstva))) else vread m U va) /\
  (forall a, (forall va, accessible U va -> ~ user_pa U va <= a < user_pa U va + PGSIZE) -> rd8 m' a = rd8 m a).

Lemma stored_page m root T U dstva src n :
  pt_rep m root T U -> user_sep T U -> 0 <= dstva -> accessible U dstva ->
  dstva mod PGSIZE + Z.of_nat n <= PGSIZE -> (n <= length src)%nat ->
  let m' := wr_bytes m (user_pa U dstva + dstva mod PGSIZE) (take n src) in
  stored U dstva src n m m' /\ pt_rep m' root T U.
Proof.
  intros R Hsep Hd Hacc Hn Hl m'. assert (length (take n src) = n) as Elen by (rewrite length_take; lia).
  pose proof (Z.mod_pos_bound dstva PGSIZE ltac:(done)).
  assert (same_outside {[user_pa U dstva]} m m') as Hs.
  { intros a Ha. specialize (Ha (user_pa U dstva) ltac:(set_solver)). unfold m'.
    rewrite rd8_wr_bytes, decide_False; [done|]. rewrite Elen. lia. }
  split; [split|].
  - intros va Hva Hacc'. unfold m'. rewrite (vread_store m root T) by (done || rewrite Elen; lia).
    rewrite Elen. destruct (decide (dstva <= va < dstva + Z.of_nat n)); [|done]. by rewrite lookup_take_lt by lia.
  - intros a Ha. apply Hs. intros q ->%elem_of_singleton. by apply Ha.
  - eapply pt_frame; [done|exact Hs|..].
    + intros q ->%elem_of_singleton. by destruct (user_pa_ok _ _ _ _ _ R Hd Hacc) as ([? _] & _).
    + intros t Ht ->%elem_of_singleton. by apply (proj2 Hsep) in Hacc.
Qed.

Lemma stored_trans U dstva src n k m1 m2 m3 :
  stored U dstva src n m1 m2 -> stored U (dstva + Z.of_nat n) (drop n src) k m2 m3 ->
  stored U dstva src (n + k) m1 m3.
Proof.
  intros [H1 F1] [H2 F2]. split; [|intros a Ha; by rewrite F2, F1].
  intros va Hva Hacc. rewrite H2, H1 by done. rewrite Nat2Z.inj_add.
  destruct (decide (dstva + Z.of_nat n <= va < _)) as [Hi|Hi].
  - rewrite decide_True by lia. rewrite lookup_drop. do 3 f_equal. lia.
  - destruct (decide (dstva <= va < dstva + Z.of_nat n)); [by rewrite decide_True by lia|].
    by rewrite decide_False by lia.
Qed.

Lemma copyout_loop_spec fuel root T U dstva src len s :
  pt_rep (mem s) root T U -> user_sep T U -> 0 <= dstva < 2 ^ 64 -> 0 <= len < 2 ^ 64 ->
  len <= Z.of_nat (length src) -> dstva mod PGSIZE + len <= Z.of_nat fuel * PGSIZE ->
  exists (n : nat) m', Z.of_nat n <= len /\
    copyout_loop (S fuel) root dstva src len s = Ok (if Z.of_nat n =? len then 0 else -1) (with_mem m' s) /\
    stored U dstva src n (mem s) m' /\ pt_rep m' root T U /\
    (forall i, 0 <= i < Z.of_nat n -> accessible U (dstva + i)) /\
    (Z.of_nat n < len -> ~ accessible U (dstva + Z.of_nat n)).
Proof.
  assert (forall s, with_mem (mem s) s = s) as Eid by by intros [].
  assert (forall m, stored U dstva src 0 m m) as H0.
  { intros m. split; [|done]. intros va _ _. by rewrite decide_False by lia. }
  revert dstva src len s H0. induction fuel as [|fuel IH]; intros dstva src len s H0 R Hsep Hva Hlen Hsrc Hf.
  all: destruct (decide (len = 0)) as [->|Hnz];
    [exists 0%nat, (mem s); rewrite Eid; cbn [copyout_loop]; split; [lia|]; split; [done|];
     split; [apply H0|]; split; [done|]; split; lia|].
  { pose proof (Z.mod_pos_bound dstva PGSIZE ltac:(done)). unfold PGSIZE in *. lia. }
  rewrite (copyout_step _ _ T U) by (done || lia). case_decide as Hacc.
  2:{ exists 0%nat, (mem s). rewrite Eid, (proj2 (Z.eqb_neq (Z.of_nat 0) len)), Z.add_0_r by lia.
      split; [lia|]. split; [done|]. split; [apply H0|]. split; [done|]. split; [lia|done]. }
  pose proof (chunk_range dstva len ltac:(lia)) as [Hc Hp].
  pose proof (Z.mod_pos_bound dstva PGSIZE ltac:(done)) as Hmod. set (k := Z.to_nat (chunk dstva len)).
  destruct (stored_page (mem s) root T U dstva src k R Hsep (proj1 Hva) Hacc ltac:(lia) ltac:(lia)) as [Hst R1].
  set (m1 := wr_bytes _ _ _) in *.
  assert (forall i, 0 <= i < chunk dstva len -> accessible U (dstva + i)) as Hacc'.
  { intros i Hi. unfold accessible. by rewrite user_pa_page by lia. }
  destruct (decide (chunk dstva len = len)) as [Ec|Ec].
  { exists k, m1. replace (Z.of_nat k) with len by lia. rewrite Z.eqb_refl. split; [lia|].
    split; [cbn [copyout_loop]; by rewrite Ec, Z.sub_diag|]. split; [done|]. split; [done|]. split; [by rewrite <- Ec|lia]. }
  destruct (user_pa_ok _ _ _ _ _ R (proj1 Hva) Hacc) as (_ & _ & Hmax).
  destruct (chunk_next dstva len ltac:(lia)) as [En Em]. rewrite En.
  destruct (IH (dstva + chunk dstva len) (drop k src) (len - chunk dstva len) (with_mem m1 s))
    as (n & m2 & Hn & E & Hst2 & R2 & Ha & Hb); [|done|done|pgconst; lia|lia|rewrite length_drop; lia| |].
  { intros m. split; [|done]. intros va _ _. by rewrite decide_False by lia. }
  { rewrite Em. unfold chunk in *. unfold PGSIZE in *. lia. }
  exists (k + n)%nat, m2. rewrite E. split; [lia|]. split; [|split; [|split; [done|split]]].
  - f_equal. destruct (Z.eqb_spec (Z.of_nat n) (len - chunk dstva len)), (Z.eqb_spec (Z.of_nat (k + n)) len); (done || lia).
  - eapply stored_trans; [exact Hst|]. replace (Z.of_nat k) with (chunk dstva len) by lia. exact Hst2.
  - intros i Hi. destruct (decide (i < chunk dstva len)); [apply Hacc'; lia|].
    replace (dstva + i) with (dstva + chunk dstva len + (i - chunk dstva len)) by lia. apply Ha. lia.
  - intros Hlt. replace (dstva + Z.of_nat (k + n)) with (dstva + chunk dstva len + Z.of_nat n) by lia. apply Hb. lia.
Qed.

(** C27: [copyout] writes exactly the bytes it is given, exactly where the user sees them.  For
    any destination and length it stops at the first byte the user cannot access (0 when there
    is none, -1 otherwise); the accessible prefix of the destination then reads as the source,
    every other user byte and all memory outside user pages are unchanged, and the page
    table still represents the same map. *)
Theorem copyout_correct root T U l dstva src len s :
  uspace root T U l s -> user_low U -> 0 <= dstva < 2 ^ 64 -> 0 <= len < 2 ^ 64 ->
  len <= Z.of_nat (length src) ->
  exists (n : nat) m', Z.of_nat n <= len /\
    copyout root dstva src len s = Ok (if Z.of_nat n =? len then 0 else -1) (with_mem m' s) /\
    stored U dstva src n (mem s) m' /\ pt_rep m' root T U /\
    (forall i, 0 <= i < Z.of_nat n -> accessible U (dstva + i)) /\
    (Z.of_nat n < len -> ~ accessible U (dstva + Z.of_nat n)).
Proof.
  intros Hu Hlow Hva Hlen Hsrc.
  apply copyout_loop_spec; [apply Hu|by eapply uspace_sep|done..|apply copy_fuel_ok; lia].
Qed.

End usercopy.
