(* ===== verification/UvmFork.v ===== *)
(** * Copying and destroying address spaces

    [uvmcopy], [freewalk] and [uvmfree] of kernel/vm.c. *)

From S2P Require Import Prelude Riscv Memory State Spinlock Kalloc Vm PageTable VmSpec Uvm.

Section uvmfork.
Context `{image} (Himg : image_ok).

(** ** uvmcopy *)

Definition pa_of (U : gmap Z (Z * Z)) (va : Z) : Z := default 0 (fst <$> U !! va).
Definition flags_of (U : gmap Z (Z * Z)) (va : Z) : Z := default 0 (snd <$> U !! va).

Lemma flags_valid fl : Z.land fl PTE_V <> 0 -> Z.lor fl PTE_V = fl.
Proof.
  intros Hv. apply Z.bits_inj'. intros n Hn. rewrite Z.lor_spec. change PTE_V with (2 ^ 0).
  rewrite Z.pow2_bits_eqb by lia. destruct (Z.eqb_spec 0 n) as [<-|]; [|by rewrite orb_false_r].
  rewrite orb_true_r. change PTE_V with (Z.ones 1) in Hv. rewrite Z.land_ones in Hv by lia. symmetry.
  destruct (Z.testbit fl 0) eqn:E; [done|]. exfalso. apply Hv. rewrite Z.bit0_odd in E.
  rewrite Zmod_odd, E. done.
Qed.

Lemma leaf_info m root T U va :
  pt_rep m root T U -> is_Some (U !! va) ->
  U !! va = Some (pa_of U va, flags_of U va) /\ va_ok va /\ pa_ok (pa_of U va) /\
  0 <= flags_of U va < 2 ^ 10 /\ Z.land (flags_of U va) PTE_V <> 0 /\
  exists t, T !! vpath va = Some t /\ rd64 m (t + 8 * PX 0 va) = Z.lor (PA2PTE (pa_of U va)) (flags_of U va).
Proof.
  intros R [[pa fl] E]. unfold pa_of, flags_of. rewrite E. simpl.
  destruct (pt_dom _ _ _ _ R _ _ E) as [Hva [t Ht]].
  pose proof (pt_leaf _ _ _ _ R va t Hva Ht) as Lf. rewrite E in Lf. destruct Lf as (Ev & Hp & Hf & Hv).
  split; [done|]. split; [done|]. split; [done|]. split; [done|]. split; [done|]. by exists t.
Qed.

(** What the copy relies on: the parent's page table and the contents [m0] of its pages. *)
Definition parent_inv (root0 : Z) (T0 : gmap (list Z) Z) (U0 : gmap Z (Z * Z)) (m0 : memory) (s : kst) : Prop :=
  pt_rep (mem s) root0 T0 U0 /\
  forall q i, upage U0 q -> 0 <= i < PGSIZE -> rd8 (mem s) (q + i) = rd8 m0 (q + i).

(** Pages that are not the parent's. *)
Definition foreign (T0 : gmap (list Z) Z) (U0 : gmap Z (Z * Z)) (q : Z) : Prop :=
  page_aligned q /\ q ∉ tpages T0 /\ ~ upage U0 q.

Lemma uvmcopy_step fuel root0 root sz T0 U0 a s :
  pt_rep (mem s) root0 T0 U0 -> is_Some (U0 !! a) -> a < sz ->
  uvmcopy_loop (S fuel) root0 root sz a s =
    grow_body root (flags_of U0) (fun a m q => memmove m q (pa_of U0 a) PGSIZE) (uvmcopy_err root) a
      (uvmcopy_loop fuel root0 root sz (a +u PGSIZE)) s.
Proof.
  intros R HU Hlt. destruct (leaf_info _ _ _ _ _ R HU) as (EU & [Hva _] & Hpa & Hf & Hv & t & Ht & Ev).
  cbn [uvmcopy_loop]. rewrite (proj2 (Z.ltb_lt a sz)) by done. cbn [negb].
  destruct (walk_mapped Himg root0 T0 U0 a t s R Hva Ht) as [E Hne].
  rewrite (bind_ok _ _ _ _ _ E), (proj2 (Z.eqb_neq _ 0)) by done.
  unfold load64. rewrite bind_gets, Ev, pte_valid, (proj2 (Z.eqb_neq _ 0)) by done.
  cbv zeta. rewrite PTE2PA_PA2PTE, PTE_FLAGS_PA2PTE by done. reflexivity.
Qed.

Lemma uvmcopy_rollback root a k T U l s :
  a = 0 + Z.of_nat k * PGSIZE -> a <= TRAPFRAME ->
  (forall va, in_range 0 k va -> is_Some (U !! va)) -> uspace root T U l s ->
  exists s' l', uvmcopy_err root a s = Ok (-1) s' /\ uspace root T (unmap_range U 0 k) l' s' /\
    vmstep (tpages T ∪ list_to_set (range_pages U 0 k)) s s' /\
    (forall q, owned l' T (unmap_range U 0 k) q <-> owned l T U q).
Proof.
  intros Ha Hlt Hm Hu. unfold uvmcopy_err.
  replace (a / PGSIZE) with (Z.of_nat k) by (rewrite Ha, Z.add_0_l, Z.div_mul; done).
  destruct (uvmunmap_spec Himg k root 0 T U l s) as (s' & E & Hu' & Hst & Ho); [|lia|done|done|].
  { split; [done|]. split; [lia|]. pgconst. lia. }
  exists s'. eexists. rewrite (bind_ok _ _ _ _ _ E). split; [reflexivity|]. by split.
Qed.

Lemma parent_inv_step root0 T0 U0 m0 W s s' :
  (forall q, upage U0 q -> page_aligned q) ->
  parent_inv root0 T0 U0 m0 s -> vmstep W s s' -> (forall q, q ∈ W -> foreign T0 U0 q) ->
  parent_inv root0 T0 U0 m0 s'.
Proof.
  intros Hal [R Hm] [Hs _] HW. split.
  - eapply pt_frame; [exact R|exact Hs|intros q Hq; by apply HW|].
    intros t Ht Hin. by destruct (HW t Hin) as (_ & ? & _).
  - intros q i Hq Hi. rewrite <- Hm by done. eapply same_rd8; [exact Hs|intros x Hx; by apply HW|by apply Hal| |done].
    intros Hin. by destruct (HW q Hin) as (_ & _ & ?).
Qed.

Lemma uvmcopy_loop_ok root0 root sz T0 U0 m0 :
  0 <= sz <= TRAPFRAME -> sized U0 (PGROUNDUP sz) -> pt_rep m0 root0 T0 U0 ->
  (forall q, upage U0 q -> page_aligned q) ->
  (forall va pa fl, va < TRAPFRAME -> U0 !! va = Some (pa, fl) -> fl <> PTE_V) ->
  grow_loop root 0 sz 0 (-1) (flags_of U0) (fun a m q => memmove m q (pa_of U0 a) PGSIZE)
    (fun a j => rd8 m0 (pa_of U0 a + j)) (fun fuel i => uvmcopy_loop fuel root0 root sz i)
    (uvmcopy_err root) (foreign T0 U0) (parent_inv root0 T0 U0 m0).
Proof.
  intros Hsz Hs R0 Hal Hfl.
  assert (forall a, 0 <= a < sz -> page_aligned a -> is_Some (U0 !! a)) as Hm.
  { intros a Ha Haa. apply Hs; [lia|done|]. destruct (roundup_user sz); lia. }
  split.
  - done.
  - intros fuel a s Hle. cbn [uvmcopy_loop]. by rewrite (proj2 (Z.ltb_ge a sz)).
  - intros fuel a s [R _] Hab Haa. apply (uvmcopy_step _ _ _ _ T0); [done|by apply Hm|lia].
  - intros a k T U l s Ha _ Hlt HM Hu. by apply uvmcopy_rollback.
  - intros a Ha Haa. destruct (leaf_info _ _ _ _ _ R0 (Hm a Ha Haa)) as (EU & _ & _ & Hf & Hv & _).
    split; [done|]. rewrite flags_valid by done. eapply Hfl; [|exact EU]. lia.
  - intros a m q x Hx. rewrite rd8_memmove by (unfold PGSIZE; lia). by rewrite decide_False.
  - intros a s m q [R Hc] Ha Haa (Hqa & _ & Hqu) Hsm i Hi.
    rewrite rd8_memmove by (unfold PGSIZE; lia). rewrite decide_True by lia.
    destruct (leaf_info _ _ _ _ _ R0 (Hm a Ha Haa)) as (EU & _ & Hpa & _).
    assert (upage U0 (pa_of U0 a)) as Hup by (exists a, (flags_of U0 a); split; [lia|done]).
    cbv beta. rewrite <- (Hc (pa_of U0 a) i) by done. replace (q + i - q) with i by lia.
    eapply same_rd8; [exact Hsm|by intros ? ->%elem_of_singleton|apply Hpa| |done].
    rewrite elem_of_singleton. intros E. apply Hqu. by rewrite <- E.
  - intros W s s' HI Hst HW. by eapply parent_inv_step.
Qed.

(** The pages [uvmcopy] copies. *)
Definition copy_pages (sz : Z) : nat := Z.to_nat ((sz + PGSIZE - 1) / PGSIZE).

(** [uvmcopy] gives the child the parent's memory, all of it or none.  Either it returns 0
    and every page of the parent below [sz] is mapped in the child, at the same address with
    the same permissions, in a page of its own with the same contents; or it returns -1, which
    happens only with at most three free pages for each page to copy, and the
    child maps what it mapped before.  The parent's mappings and bytes are unchanged, no page
    is shared between the two, and no page is lost: whatever was free or the child's still is, and
    nothing else is written. *)
Theorem uvmcopy_correct root0 root sz T0 U0 T U l s :
  0 <= sz <= TRAPFRAME -> sized U0 (PGROUNDUP sz) -> sized U 0 ->
  uspace root0 T0 U0 l s -> uspace root T U l s ->
  (forall q, owned l T U q -> foreign T0 U0 q) ->
  exists r s' T' U' l', uvmcopy root0 root sz s = Ok r s' /\
    uspace root T' U' l' s' /\ (forall q, owned l' T' U' q <-> owned l T U q) /\
    parent_inv root0 T0 U0 (mem s) s' /\ vmstep (list_to_set l ∪ tpages T) s s' /\
    ((r = 0 /\ (forall va, ~ in_range 0 (copy_pages sz) va -> U' !! va = U !! va) /\
        forall va, in_range 0 (copy_pages sz) va -> exists pa q fl,
          U0 !! va = Some (pa, fl) /\ U' !! va = Some (q, fl) /\ q ∈ l /\
          page_is (mem s') q (fun j => rd8 (mem s) (pa + j))) \/
     (r = -1 /\ U' = U /\ (length l <= 3 * copy_pages sz)%nat)).
Proof.
  intros Hsz Hs0 Hs Hu0 Hu Hfor. pose proof (us_rep _ _ _ _ _ Hu0) as R0.
  assert (forall q, upage U0 q -> page_aligned q) as Hal.
  { intros q (va & fl & Hva & E). by apply (us_page _ _ _ _ _ Hu0) in E as ([? _] & _). }
  assert (parent_inv root0 T0 U0 (mem s) s) as HI by by split.
  destruct (grow_spec Himg root 0 sz 0 (-1) (flags_of U0) (fun a m q => memmove m q (pa_of U0 a) PGSIZE)
    (fun a j => rd8 (mem s) (pa_of U0 a + j)) (fun fuel i => uvmcopy_loop fuel root0 root sz i)
    (uvmcopy_err root) (foreign T0 U0) (parent_inv root0 T0 U0 (mem s)) (copy_pages sz) (S (copy_pages sz)) 0 0 T U l s)
    as (r & s' & E & T' & U' & l' & HT & Hu' & Ho & HD); try done.
  - apply uvmcopy_loop_ok; try done. intros va pa fl Hva E. by apply (us_page _ _ _ _ _ Hu0) in E as (_ & _ & _ & ?).
  - lia.
  - unfold copy_pages, PGSIZE. Z.to_euclidean_division_equations. lia.
  - left. lia.
  - intros va Hva. unfold in_range in Hva. lia.
  - intros va Hva. eapply sized_none; [apply Hu|done|lia].
  - exists r, s', T', U', l'. split; [exact E|]. split; [done|]. split; [done|].
    assert (vmstep (list_to_set l ∪ tpages T) s s') as Hst.
    { destruct HD as [(_ & ? & _)|(_ & _ & _ & Hst)]; [done|]. simpl in Hst. by rewrite (right_id_L ∅ (∪)) in Hst. }
    split; [apply (parent_inv_step root0 T0 U0 (mem s) _ s s' Hal HI Hst); intros q Hq; apply Hfor; by apply owned_step|].
    split; [exact Hst|]. destruct HD as [(-> & _ & Hsame & Hnew)|(-> & -> & Hlen & _)]; [left|by right].
    split; [done|]. split; [done|]. intros va Hva. destruct (Hnew va Hva) as (q & EU & Hq & Hp).
    assert (is_Some (U0 !! va)) as HU.
    { apply Hs0; unfold in_range, copy_pages in Hva; destruct (roundup_user sz Hsz) as [Hb Ha];
        unfold page_aligned in *; pgconst; Z.to_euclidean_division_equations; lia. }
    destruct (leaf_info _ _ _ _ _ R0 HU) as (EU0 & _ & _ & _ & Hv & _).
    exists (pa_of U0 va), q, (flags_of U0 va). rewrite flags_valid in EU by done. done.
Qed.

(** ** freewalk *)

(** Memory outside the pages [P]. *)
Definition samep (P : Z -> Prop) (m m' : memory) : Prop :=
  forall y i, page_aligned y -> ~ P y -> 0 <= i < PGSIZE -> rd8 m' (y + i) = rd8 m (y + i).

Lemma samep_trans (P Q R : Z -> Prop) m1 m2 m3 :
  samep P m1 m2 -> samep Q m2 m3 -> (forall y, P y -> R y) -> (forall y, Q y -> R y) -> samep R m1 m3.
Proof. intros H1 H2 HP HQ y i Hy Hn Hi. rewrite H2 by auto. apply H1; auto. Qed.

Lemma samep_mono (P Q : Z -> Prop) m m' : samep P m m' -> (forall y, P y -> Q y) -> samep Q m m'.
Proof. intros Hs HP y i Hy Hn Hi. apply Hs; auto. Qed.

Lemma samep_page m m' q : page_aligned q -> only_page m m' q -> samep (fun y => y = q) m m'.
Proof.
  intros Hq Ho y i Hy Hne Hi. apply Ho. destruct (pages_disjoint y q Hy Hq Hne); lia.
Qed.

Lemma samep_rd64 P m m' t i :
  samep P m m' -> page_aligned t -> ~ P t -> index_ok i -> rd64 m' (t + 8 * i) = rd64 m (t + 8 * i).
Proof.
  intros Hs Ht Hn Hi. apply rd64_ext. intros j Hj. rewrite <- Z.add_assoc.
  apply Hs; [done|done|]. unfold index_ok, PGSIZE in *. lia.
Qed.

(** The table pages of the subtree at path [p]. *)
Definition subpage (T : gmap (list Z) Z) (p : list Z) (x : Z) : Prop := exists q, T !! (p ++ q) = Some x.

Lemma prefix_closed m root T U p q t : pt_rep m root T U -> T !! (p ++ q) = Some t -> is_Some (T !! p).
Proof.
  intros R. revert t. induction q as [|i q IH] using rev_ind; intros t Ht.
  - rewrite app_nil_r in Ht. by eexists.
  - rewrite app_assoc in Ht. destruct (pt_prefix _ _ _ _ R _ _ _ Ht) as [t' Ht']. by eapply IH.
Qed.

Lemma subpage_inj m root T U p i j x :
  pt_rep m root T U -> subpage T (p ++ [i]) x -> subpage T (p ++ [j]) x -> i = j.
Proof.
  intros R [q Hq] [q' Hq']. pose proof (pt_inj _ _ _ _ R _ _ _ Hq Hq') as E.
  rewrite <- !app_assoc in E. apply app_inv_head in E. by injection E.
Qed.

Lemma subpage_root m root T U p i t : pt_rep m root T U -> T !! p = Some t -> ~ subpage T (p ++ [i]) t.
Proof.
  intros R Ht [q Hq]. pose proof (pt_inj _ _ _ _ R _ _ _ Ht Hq) as E.
  apply (f_equal length) in E. rewrite !length_app in E. simpl in E. lia.
Qed.

Lemma subpage_split m root T U p t x :
  pt_rep m root T U -> T !! p = Some t ->
  subpage T p x <-> x = t \/ exists i : nat, i ∈ seq 0 512 /\ subpage T (p ++ [Z.of_nat i]) x.
Proof.
  intros R Ht. split.
  - intros [[|i q] Hq]; [rewrite app_nil_r, Ht in Hq; left; congruence|right].
    assert (index_ok i) as Hi.
    { destruct (pt_path _ _ _ _ R _ _ Hq) as (_ & Hf & _). apply Forall_app in Hf as [_ Hf].
      by apply Forall_cons in Hf as [? _]. }
    exists (Z.to_nat i). unfold index_ok in Hi. split; [apply elem_of_seq; lia|].
    rewrite Z2Nat.id by lia. exists q. by rewrite <- app_assoc.
  - intros [->|(i & _ & q & Hq)]; [exists []; by rewrite app_nil_r|].
    exists (Z.of_nat i :: q). by rewrite <- app_assoc in Hq.
Qed.

(** The virtual address with the given indices. *)
Lemma va_of_indices i j k :
  0 <= i < 256 -> index_ok j -> index_ok k ->
  let va := i * 2 ^ 30 + j * 2 ^ 21 + k * 2 ^ 12 in va_ok va /\ vpath va = [i; j] /\ PX 0 va = k.
Proof.
  intros Hi Hj Hk va. unfold index_ok in *. unfold va_ok, page_aligned, vpath.
  rewrite !PX_spec by lia. unfold va. pgconst. change (2 ^ 30) with 1073741824. change (2 ^ 21) with 2097152.
  change (2 ^ 12) with 4096. change (2 ^ (12 + 9 * 2)) with 1073741824. change (2 ^ (12 + 9 * 1)) with 2097152.
  change (2 ^ (12 + 9 * 0)) with 4096.
  split; [|split; [do 2 f_equal|]]; try f_equal; Z.to_euclidean_division_equations; lia.
Qed.

(** An entry of a table of a tree without mappings: a child table or invalid. *)
Lemma empty_entry m root T p t i :
  pt_rep m root T ∅ -> T !! p = Some t -> index_ok i -> node_pte (rd64 m (t + 8 * i)) (T !! (p ++ [i])).
Proof.
  intros R Ht Hi. destruct (decide (length p < 2)%nat); [by apply (pt_node _ _ _ _ R)|].
  destruct (pt_path _ _ _ _ R _ _ Ht) as (Hl & Hf & Hh).
  destruct (T !! (p ++ [i])) as [t'|] eqn:E.
  { apply (pt_path _ _ _ _ R) in E as [Hl' _]. rewrite length_app in Hl'. simpl in Hl'. lia. }
  destruct p as [|a [|b [|c p]]]; simpl in *; try lia.
  apply Forall_cons in Hf as [Ha Hf]. apply Forall_cons in Hf as [Hb _].
  destruct (va_of_indices a b i) as (Hva & Hp & Hk); [unfold index_ok in Ha; lia|done|done|].
  set (va := _ + _) in *. pose proof (pt_leaf _ _ _ _ R va t Hva) as L. rewrite Hp, Hk in L. by apply L.
Qed.

(** One entry of [freewalk]'s loop: the child's subtree is freed and the entry cleared. *)
Definition freewalk_entry (n : nat) (t : Z) (i : nat) : K unit :=
  (pte <- load64 (t + 8 * Z.of_nat i);;
   if negb (Z.land pte PTE_V =? 0) && (Z.land pte (Z.lor (Z.lor PTE_R PTE_W) PTE_X) =? 0)
   then freewalk_level n (PTE2PA pte);; store64 (t + 8 * Z.of_nat i) 0
   else if negb (Z.land pte PTE_V =? 0) then panic "freewalk: leaf"
   else ret tt)%M.

(** The loop invariant after the entries [done]: their subtrees are on the free list. *)
Definition freed (T : gmap (list Z) Z) (p : list Z) (t : Z) (l : list Z) (s : kst) (done : list nat) (s1 : kst) : Prop :=
  exists l1, vm_ok l1 s1 /\
    (forall x, x ∈ l1 <-> x ∈ l \/ exists i, i ∈ done /\ subpage T (p ++ [Z.of_nat i]) x) /\
    samep (fun y => y = t \/ exists i, i ∈ done /\ subpage T (p ++ [Z.of_nat i]) y) (mem s) (mem s1) /\
    (forall i, i ∉ done -> (i < 512)%nat -> rd64 (mem s1) (t + 8 * Z.of_nat i) = rd64 (mem s) (t + 8 * Z.of_nat i)) /\
    quiet s1 = quiet s.

(** The subtree at [p] is as it was in [m0]. *)
Definition intact (T : gmap (list Z) Z) (p : list Z) (m0 m : memory) : Prop :=
  forall y i, subpage T p y -> 0 <= i < PGSIZE -> rd8 m (y + i) = rd8 m0 (y + i).

Definition freewalk_ok (T : gmap (list Z) Z) (m0 : memory) (n : nat) : Prop :=
  forall p t l s, (length p + n = 3)%nat -> T !! p = Some t -> vm_ok l s ->
  (forall x, subpage T p x -> x ∉ l) -> intact T p m0 (mem s) ->
  exists s' l', freewalk_level n t s = Ok tt s' /\ vm_ok l' s' /\ (forall x, x ∈ l' <-> x ∈ l \/ subpage T p x) /\
    samep (subpage T p) (mem s) (mem s') /\ quiet s' = quiet s.

Lemma ex_snoc (Q : nat -> Prop) pre i :
  (exists j, j ∈ pre ++ [i] /\ Q j) <-> (exists j, j ∈ pre /\ Q j) \/ Q i.
Proof.
  split.
  - intros (j & [Hj| ->%list_elem_of_singleton]%elem_of_app & Hx); [left; by exists j|by right].
  - intros [(j & Hj & Hx)|Hx]; [exists j|exists i]; (split; [|done]); apply elem_of_app; [by left|].
    right. by apply list_elem_of_singleton.
Qed.

Lemma node_not_leaf_test t :
  pa_ok t -> negb (Z.land (Z.lor (PA2PTE t) PTE_V) PTE_V =? 0) &&
    (Z.land (Z.lor (PA2PTE t) PTE_V) (Z.lor (Z.lor PTE_R PTE_W) PTE_X) =? 0) = true.
Proof.
  intros Ht. rewrite (proj2 (Z.eqb_neq _ 0)) by by apply node_valid. by rewrite node_not_leaf.
Qed.

Lemma freewalk_entry_ok m0 root T n p t l s pre i s1 :
  pt_rep m0 root T ∅ -> freewalk_ok T m0 n -> (length p + S n = 3)%nat -> T !! p = Some t ->
  (forall x, subpage T p x -> x ∉ l) -> intact T p m0 (mem s) ->
  (i < 512)%nat -> i ∉ pre -> freed T p t l s pre s1 ->
  wp (freewalk_entry n t i) (fun _ s2 => freed T p t l s (pre ++ [i]) s2) s1.
Proof.
  intros R0 IH Hn Ht Hd Hint Hi Hpre (l1 & Hv1 & Hl1 & Hs1 & Hr1 & Hq1).
  assert (index_ok (Z.of_nat i)) as Hix by (unfold index_ok; lia).
  assert (page_aligned t) as Hta by by eapply pt_aligned.
  assert (forall x, subpage T (p ++ [Z.of_nat i]) x -> subpage T p x) as Hsub.
  { intros x [q Hq]. exists (Z.of_nat i :: q). by rewrite <- app_assoc in Hq. }
  assert (rd64 (mem s1) (t + 8 * Z.of_nat i) = rd64 m0 (t + 8 * Z.of_nat i)) as Ev.
  { rewrite Hr1 by done. apply rd64_ext. intros j Hj. rewrite <- Z.add_assoc. apply Hint; [|unfold PGSIZE; lia].
    exists []. by rewrite app_nil_r. }
  pose proof (empty_entry _ _ _ _ _ _ R0 Ht Hix) as N. rewrite <- Ev in N.
  unfold freewalk_entry, load64. apply wp_bind, wp_gets.
  destruct (T !! (p ++ [Z.of_nat i])) as [t'|] eqn:E; simpl in N.
  - rewrite N. assert (pa_ok t') as Hpa by (eapply page_ok_pa; [done|by apply (pt_page _ _ _ _ R0) in E]).
    rewrite node_not_leaf_test, node_addr by done.
    destruct (IH (p ++ [Z.of_nat i]) t' l1 s1) as (s2 & l2 & E2 & Hv2 & Hl2 & Hs2 & Hq2).
    + rewrite length_app. simpl. lia.
    + done.
    + done.
    + intros x Hx. rewrite Hl1. intros [Hxl|(j & Hj & Hxj)]; [by apply (Hd x); auto|].
      assert (Z.of_nat i = Z.of_nat j) as Eij by by eapply subpage_inj. apply Nat2Z.inj in Eij. by subst.
    + intros y k Hy Hk. rewrite <- (Hint y k) by auto. apply Hs1; [|intros [->|(j & Hj & Hxj)]|done].
      * destruct Hy as [q Hq]. by eapply pt_aligned.
      * by apply (subpage_root _ _ _ _ _ _ _ R0 Ht) in Hy.
      * assert (Z.of_nat i = Z.of_nat j) as Eij by by eapply subpage_inj. apply Nat2Z.inj in Eij. by subst.
    + apply wp_bind. eapply wp_eq; [exact E2|]. unfold store64. apply wp_modify.
      assert (only_page (mem s2) (wr64 (mem s2) (t + 8 * Z.of_nat i) 0) t) as Ho by (by apply only_page_wr64, index_slot).
      assert (t ∉ l2) as Htl.
      { rewrite Hl2, Hl1. intros [[Hx|(j & _ & Hx)]|Hx]; [|by apply (subpage_root _ _ _ _ _ _ _ R0 Ht) in Hx..].
        apply (Hd t); [exists []; by rewrite app_nil_r|done]. }
      exists l2. split; [|split; [|split; [|split]]].
      * eapply (vm_ok_mem {[t]}); [done|by apply same_only_page|by intros ? ->%elem_of_singleton|by intros ? ->%elem_of_singleton].
      * intros x. rewrite Hl2, Hl1, ex_snoc. tauto.
      * set (P := fun y => y = t \/ _). assert (samep P (mem s) (mem s2)) as Hs12.
        { eapply samep_trans; [exact Hs1|exact Hs2|..]; unfold P; intros y Hy; rewrite ex_snoc; tauto. }
        eapply samep_trans; [exact Hs12|by apply samep_page|done|]. by left.
      * intros j [Hj Hji]%not_elem_of_app Hj'. apply not_elem_of_cons in Hji as [Hji _].
        rewrite <- Hr1 by done. transitivity (rd64 (mem s2) (t + 8 * Z.of_nat j)).
        -- apply rd64_wr64_ne. lia.
        -- eapply samep_rd64; [exact Hs2|done|by apply (subpage_root _ _ _ _ _ _ _ R0 Ht)|unfold index_ok; lia].
      * by rewrite quiet_mem, Hq2.
  - rewrite N. cbn [negb andb Z.eqb]. apply wp_ret.
    assert (forall x, ~ subpage T (p ++ [Z.of_nat i]) x) as Hno.
    { intros x [q Hq]. apply (prefix_closed _ _ _ _ _ _ _ R0) in Hq. rewrite E in Hq. by destruct Hq. }
    exists l1. split; [done|]. split; [|split; [|split; [|done]]].
    + intros x. rewrite Hl1, ex_snoc. specialize (Hno x). tauto.
    + eapply (samep_trans _ (fun _ => False)); [exact Hs1|done| |done].
      intros y [?|Hy]; [by left|right]. apply ex_snoc. by left.
    + intros j [Hj _]%not_elem_of_app Hj'. by apply Hr1.
Qed.

(** [freewalk] frees the whole subtree. *)
Lemma freewalk_level_ok m0 root T n : pt_rep m0 root T ∅ -> freewalk_ok T m0 n.
Proof.
  intros R0. induction n as [|n IH]; intros p t l s Hn Ht Hv Hd Hint.
  { destruct (pt_path _ _ _ _ R0 _ _ Ht). lia. }
  assert (wp (forM (seq 0 512) (freewalk_entry n t)) (fun _ s1 => freed T p t l s (seq 0 512) s1) s) as Hloop.
  { apply wp_forM.
    - exists l. split; [done|]. split; [|split; [done|split; done]].
      intros x. split; [by left|]. intros [?|(i & Hi & _)]; [done|by apply elem_of_nil in Hi].
    - intros pre i post s1 Eseq HI. pose proof (NoDup_seq 0 512) as Hnd. rewrite Eseq in Hnd.
      apply NoDup_app in Hnd as (_ & Hnd & _).
      assert (i ∈ seq 0 512) as Hi by (rewrite Eseq; apply elem_of_app; right; by left).
      apply elem_of_seq in Hi. eapply freewalk_entry_ok; try done; [lia|].
      intros Hin. apply (Hnd i Hin). by left. }
  apply wp_ok in Hloop as ([] & s1 & E1 & l1 & Hv1 & Hl1 & Hs1 & _ & Hq1).
  assert (page_ok t) as Hpt by by apply (pt_page _ _ _ _ R0) in Ht.
  assert (t ∉ l1) as Htl.
  { rewrite Hl1. intros [Hx|(j & _ & Hx)]; [|by apply (subpage_root _ _ _ _ _ _ _ R0 Ht) in Hx].
    apply (Hd t); [exists []; by rewrite app_nil_r|done]. }
  destruct (kfree_vm Himg t l1 s1 Hv1 Hpt Htl) as (E2 & Hv2 & Hst).
  exists (kfree_state t s1), (t :: l1). split; [|split; [done|split; [|split]]].
  - cbn [freewalk_level]. change (fun i : nat => _) with (freewalk_entry n t) at 1.
    rewrite (bind_ok _ _ _ _ _ E1). exact E2.
  - intros x. rewrite (subpage_split _ _ _ _ _ _ x R0 Ht), elem_of_cons, Hl1. tauto.
  - eapply samep_trans; [exact Hs1|apply (samep_page _ _ t); [apply Hpt|]| |].
    + intros a Ha. apply (vs_same _ _ _ Hst). by intros ? ->%elem_of_singleton.
    + intros y Hy. by apply (subpage_split _ _ _ _ _ _ y R0 Ht).
    + intros y ->. apply (subpage_split _ _ _ _ _ _ t R0 Ht). by left.
  - by rewrite (vs_quiet _ _ _ Hst).
Qed.

(** Unmapping everything leaves an empty map. *)
Lemma unmap_all m root T U n sz :
  pt_rep m root T U -> sized U sz -> (forall va e, U !! va = Some e -> va < TRAPFRAME) ->
  page_aligned sz -> sz = Z.of_nat n * PGSIZE -> unmap_range U 0 n = ∅.
Proof.
  intros R Hs Hlow Ha En. apply map_eq. intros va. rewrite lookup_unmap_range, lookup_empty.
  case_decide as Hi; [done|]. destruct (U !! va) as [e|] eqn:E; [|done]. exfalso. apply Hi.
  destruct (pt_dom _ _ _ _ R _ _ E) as [[Hr Hva] _]. pose proof (Hlow va e E).
  assert (va < sz) by (apply Hs; [lia|done|by eexists]). unfold in_range. rewrite Z.sub_0_r. split; [done|lia].
Qed.

Lemma owned_aligned root T U l s x : uspace root T U l s -> owned l T U x -> page_aligned x.
Proof.
  intros Hu [Hx|[Hx|(va & fl & Hva & E)]].
  - eapply uspace_aligned; [exact Hu|]. apply elem_of_union_l. by apply elem_of_list_to_set.
  - eapply uspace_aligned; [exact Hu|]. by apply elem_of_union_r.
  - by apply (us_page _ _ _ _ _ Hu) in E as ([? _] & _).
Qed.

Lemma vmstep_samep W (P : Z -> Prop) s s' :
  vmstep W s s' -> (forall q, q ∈ W -> page_aligned q /\ P q) -> samep P (mem s) (mem s').
Proof.
  intros [Hs _] HW y i Hy Hn Hi. eapply same_rd8; [exact Hs|intros q Hq; by apply HW|done| |done].
  intros Hin. by apply Hn, HW.
Qed.

(** The first half of [uvmfree]. *)
Lemma uvmfree_unmap root sz T U l s :
  0 <= sz <= TRAPFRAME -> sized U (PGROUNDUP sz) ->
  (forall va e, U !! va = Some e -> va < TRAPFRAME) -> uspace root T U l s ->
  exists s1 l1, (if sz >? 0 then uvmunmap root 0 (PGROUNDUP sz / PGSIZE) true else ret tt) s = Ok tt s1 /\
    uspace root T ∅ l1 s1 /\ (forall q, owned l1 T ∅ q <-> owned l T U q) /\
    samep (owned l T U) (mem s) (mem s1) /\ quiet s1 = quiet s.
Proof.
  intros Hsz Hs Hlow Hu. destruct (roundup_user sz Hsz) as [Hb Ha].
  set (n := Z.to_nat (PGROUNDUP sz / PGSIZE)).
  assert (PGROUNDUP sz = Z.of_nat n * PGSIZE) as En.
  { unfold n, page_aligned in *. unfold PGSIZE in *. Z.to_euclidean_division_equations. lia. }
  pose proof (unmap_all _ _ _ _ n (PGROUNDUP sz) (us_rep _ _ _ _ _ Hu) Hs Hlow Ha En) as Eall.
  destruct (Z.gtb_spec sz 0) as [Hpos|Hneg].
  - replace (PGROUNDUP sz / PGSIZE) with (Z.of_nat n) by (rewrite En; by rewrite Z.div_mul).
    destruct (uvmunmap_spec Himg n root 0 T U l s) as (s1 & E & Hu1 & Hst & Ho); [|lia| |done|].
    + split; [done|]. split; [lia|]. rewrite <- En. pgconst. lia.
    + intros va Hva. unfold in_range in Hva. rewrite Z.sub_0_r in Hva. apply Hs; [lia|apply Hva|lia].
    + rewrite Eall in Hu1, Ho. exists s1. eexists. split; [exact E|]. split; [exact Hu1|]. split; [done|].
      split; [|apply Hst]. eapply vmstep_samep; [exact Hst|]. intros q Hq.
      assert (owned l T U q) as HO; [|split; [exact (owned_aligned _ _ _ _ _ _ Hu HO)|done]].
      apply elem_of_union in Hq as [Hq|Hq]; [by right; left|]. apply Ho. left. apply elem_of_app. left.
      apply elem_of_list_to_set in Hq. by rewrite list_elem_of_In, <- in_rev, <- list_elem_of_In.
  - assert (sz = 0) as -> by lia. assert (n = 0%nat) as -> by done. simpl in Eall. subst U. exists s, l. done.
Qed.

(** [uvmfree] gives back everything.  Applied to an address space whose trampoline and
    trapframe are unmapped, it terminates without panicking and the free list then holds
    exactly the pages that were free, the user's pages and the page-table pages, each once;
    no other memory is written. *)
Theorem uvmfree_correct root sz T U l s :
  0 <= sz <= TRAPFRAME -> sized U (PGROUNDUP sz) ->
  (forall va e, U !! va = Some e -> va < TRAPFRAME) -> uspace root T U l s ->
  exists s' l', uvmfree root sz s = Ok tt s' /\ vm_ok l' s' /\ NoDup l' /\ (forall x, x ∈ l' <-> owned l T U x) /\
    samep (owned l T U) (mem s) (mem s') /\ quiet s' = quiet s.
Proof.
  intros Hsz Hs Hlow Hu.
  destruct (uvmfree_unmap root sz T U l s Hsz Hs Hlow Hu) as (s1 & l1 & E1 & Hu1 & Ho1 & Hs1 & Hq1).
  assert (forall x, subpage T [] x <-> x ∈ tpages T) as Hsub by (intros x; rewrite elem_of_tpages; reflexivity).
  assert (forall x, ~ upage ∅ x) as Hnu by (intros x (va & fl & _ & E); by rewrite lookup_empty in E).
  destruct (freewalk_level_ok (mem s1) root T 3 (us_rep _ _ _ _ _ Hu1) [] root l1 s1) as
    (s2 & l2 & E2 & Hv2 & Hl2 & Hs2 & Hq2);
    [done|apply Hu1|apply Hu1|intros x Hx; by apply (us_apart _ _ _ _ _ Hu1), Hsub|done|].
  exists s2, l2. unfold uvmfree. rewrite (bind_ok _ _ _ _ _ E1).
  split; [exact E2|]. split; [done|]. split; [apply Hv2|]. split; [|split; [|by rewrite Hq2]].
  - intros x. rewrite Hl2, <- Ho1, Hsub. unfold owned. specialize (Hnu x). tauto.
  - eapply samep_trans; [exact Hs1|exact Hs2|done|]. intros y Hy. apply Ho1. right; left. by apply Hsub.
Qed.

End uvmfork.
