(* ===== verification/VmExamples.v ===== *)
(** * Concrete page tables

    A machine with one small user process, used to instantiate the theorems of [VmSpec],
    [Uvm], [UserCopy] and [UvmFork]. *)

From S2P Require Import Prelude Riscv Memory State Spinlock Kalloc Vm PageTable VmSpec Uvm.
From S2P Require Import UserCopy UvmFork.

(** An image that ends 1 MB into memory, and the pages after it. *)
Definition demo_image : image :=
  Image (KERNBASE + 0x100000) (KERNBASE + 0x8000) (KERNBASE + 0x7000) (KERNBASE + 0x7000)
    (KERNBASE + 0x709c) (KERNBASE + 0x1000) (KERNBASE + 0x1100) (KERNBASE + 0x1200).
#[local] Existing Instance demo_image.

Lemma demo_image_ok : image_ok.
Proof. done. Qed.

Definition pg (k : Z) : Z := KERNBASE + 0x200000 + k * PGSIZE.

Lemma pg_ok k : 0 <= k < 1000 -> page_ok (pg k).
Proof. intros Hk. unfold page_ok, page_aligned, pg. simpl. pgconst. Z.to_euclidean_division_equations. lia. Qed.

Lemma pg_pa k : 0 <= k < 1000 -> pa_ok (pg k).
Proof. intros Hk. apply page_ok_pa; [exact demo_image_ok|by apply pg_ok]. Qed.

(** Thirty free pages, linked, in otherwise zero memory. *)
Definition demo_free : list Z := pg <$> seqZ 40 30.
Fixpoint linked (l : list Z) : memory :=
  match l with
  | q :: ((q' :: _) as l') => wr64 (linked l') q q'
  | _ => ∅
  end.
Definition demo_mem0 : memory := linked demo_free.

Lemma elem_of_demo_free q : q ∈ demo_free <-> exists k, q = pg k /\ 40 <= k < 70.
Proof.
  unfold demo_free. rewrite list_elem_of_fmap. split; intros (k & -> & Hk); exists k; (split; [done|]).
  - apply elem_of_seqZ in Hk. lia.
  - apply elem_of_seqZ. lia.
Qed.

(** A page table with its root at [pg 0] and tables at [pg 1] and [pg 2] that maps user page 0
    to [pg 3], readable, writable and executable. *)
Definition demo_flags : Z := Z.lor (Z.lor (Z.lor (Z.lor PTE_R PTE_W) PTE_X) PTE_U) PTE_V.
Definition demo_mem1 : memory := wr64 demo_mem0 (pg 0 + 8 * 0) (Z.lor (PA2PTE (pg 1)) PTE_V).
Definition demo_mem2 : memory := wr64 demo_mem1 (pg 1 + 8 * 0) (Z.lor (PA2PTE (pg 2)) PTE_V).
Definition demo_mem : memory := wr64 demo_mem2 (pg 2 + 8 * PX 0 0) (Z.lor (PA2PTE (pg 3)) demo_flags).

Definition demo_T : gmap (list Z) Z := <[[0; 0] := pg 2]> (<[[0] := pg 1]> {[ [] := pg 0 ]}).
Definition demo_U : gmap Z (Z * Z) := {[ 0 := (pg 3, demo_flags) ]}.

Lemma rdn_empty n a : rdn n ∅ a = 0.
Proof. revert a. induction n as [|n IH]; intros a; simpl; [done|]. by rewrite IH. Qed.

Lemma rd64_empty a : rd64 ∅ a = 0.
Proof. apply (rdn_empty 8). Qed.

(** Slots of pages that have not been written read 0. *)
Lemma demo_zero0 k j : 0 <= k < 10 -> index_ok j -> rd64 demo_mem0 (pg k + 8 * j) = 0.
Proof.
  intros Hk Hj. unfold demo_mem0. assert (forall q, q ∈ demo_free -> page_aligned q /\ q <> pg k) as Hl.
  { intros q (i & -> & Hi)%elem_of_demo_free. split; [apply pg_ok; lia|unfold pg, PGSIZE; lia]. }
  induction demo_free as [|q [|q' l] IH]; [apply rd64_empty..|]. cbn [linked].
  destruct (Hl q ltac:(by left)) as [Hq Hne]. rewrite <- (Z.add_0_r q). change 0 with (8 * 0).
  rewrite rd64_slot_ne; [|done|apply pg_ok; lia|done|done|by intros [= ? _]].
  apply IH. intros x Hx. apply Hl. by right.
Qed.

Lemma demo_zero1 k j : 1 <= k < 10 -> index_ok j -> rd64 demo_mem1 (pg k + 8 * j) = 0.
Proof.
  intros Hk Hj. unfold demo_mem1.
  rewrite rd64_slot_ne; [apply demo_zero0; [lia|done]|apply pg_ok; lia..|done|done|].
  unfold pg, PGSIZE. intros [= ? ?]. lia.
Qed.

Lemma demo_rep : pt_rep demo_mem (pg 0) demo_T demo_U.
Proof.
  assert (forall k l, 0 <= k < 10 -> 0 <= l < 10 -> k <> l -> pg k <> pg l) as Hne by (unfold pg, PGSIZE; lia).
  pose proof (empty_rep demo_mem0 (pg 0) (pg_ok 0 ltac:(lia)) (fun j Hj => demo_zero0 0 j ltac:(lia) Hj)) as R0.
  assert (pt_rep demo_mem1 (pg 0) (<[[] ++ [0] := pg 1]> {[ [] := pg 0 ]}) ∅) as R1.
  { eapply pt_add_node; [exact R0|done|simpl; lia|done|done|done|by apply pg_ok|by apply pg_pa| |apply same_refl|].
    - rewrite elem_of_tpages. intros [p [_ E]%lookup_singleton_Some]. by apply (Hne 0 1) in E; [|lia..].
    - intros j Hj. by apply demo_zero0; [lia|]. }
  assert (pt_rep demo_mem2 (pg 0) (<[[0] ++ [0] := pg 2]> (<[[] ++ [0] := pg 1]> {[ [] := pg 0 ]})) ∅) as R2.
  { eapply pt_add_node; [exact R1|done|simpl; lia|done|done|done|by apply pg_ok|by apply pg_pa| |apply same_refl|].
    - rewrite elem_of_tpages. intros [p [[_ E]|[_ [_ E]%lookup_singleton_Some]]%lookup_insert_Some].
      + by apply (Hne 1 2) in E; [|lia..].
      + by apply (Hne 0 2) in E; [|lia..].
    - intros j Hj. by apply demo_zero1; [lia|]. }
  apply (pt_write_leaf _ _ _ _ 0 (pg 2) _ (Some (pg 3, demo_flags)) R2); [done|done| |].
  - split; [done|]. split; [by apply pg_pa|]. done.
  - apply pte_range; [by apply pg_pa|done].
Qed.

(** ** The machine *)

Definition demo : kst := with_mem demo_mem (with_freelist (pg 40) kmem_boot).

Lemma demo_T_pages x : x ∈ tpages demo_T <-> x = pg 0 \/ x = pg 1 \/ x = pg 2.
Proof.
  rewrite elem_of_tpages. unfold demo_T. split.
  - intros [p [[_ <-]|[_ [[_ <-]|[_ [_ <-]%lookup_singleton_Some]]%lookup_insert_Some]]%lookup_insert_Some]; auto.
  - intros [->|[->| ->]]; [exists []|exists [0]|exists [0; 0]]; done.
Qed.

Lemma pg_neq k l : 0 <= k < 1000 -> 0 <= l < 1000 -> k <> l -> pg k <> pg l.
Proof. unfold pg, PGSIZE. lia. Qed.

Lemma demo_vm : vm_ok demo_free demo.
Proof.
  split; [exact kmem_boot_ready|]. split; [|split].
  - vm_compute. repeat split.
  - apply NoDup_fmap; [|apply NoDup_seqZ]. intros x y. unfold pg, PGSIZE. lia.
  - apply Forall_forall. intros q (k & -> & Hk)%elem_of_demo_free. apply pg_ok. lia.
Qed.

Lemma demo_not_free k : 0 <= k < 40 -> pg k ∉ demo_free.
Proof. intros Hk (i & E & Hi)%elem_of_demo_free. apply pg_neq in E; lia. Qed.

Lemma demo_uspace : uspace (pg 0) demo_T demo_U demo_free demo.
Proof.
  split.
  - exact demo_rep.
  - exact demo_vm.
  - intros t [->|[->| ->]]%demo_T_pages; by apply demo_not_free.
  - unfold demo_U. intros va pa fl _ [_ [= <- <-]]%lookup_singleton_Some. split; [by apply pg_ok|].
    split; [|split; [|done]].
    + intros [E|[E|E]]%demo_T_pages; by apply pg_neq in E.
    + by apply demo_not_free.
  - unfold demo_U. by intros va vb pa fl fl' _ _ [<- _]%lookup_singleton_Some [<- _]%lookup_singleton_Some.
Qed.

Lemma demo_sized : sized demo_U (PGROUNDUP 4096).
Proof.
  intros va Hva Ha. change (PGROUNDUP 4096) with 4096. split.
  - unfold demo_U. intros [e [<- _]%lookup_singleton_Some]. lia.
  - intros Hlt. assert (va = 0) as -> by (unfold page_aligned, PGSIZE in Ha; Z.to_euclidean_division_equations; lia). by eexists.
Qed.

(** ** Instances of the theorems *)


Lemma mappages_correct_witness :
  exists T' l' s' k r, mappages (pg 0) 4096 4096 (pg 20) PTE_R demo = Ok r s' /\
    grows (pg 0) (map_range demo_U 4096 (pg 20) (Z.lor PTE_R PTE_V) k) demo_T demo_free demo T' l' s' /\
    r = 0 /\ k = 1%nat.
Proof.
  destruct (mappages_correct demo_image_ok (pg 0) 4096 4096 (pg 20) PTE_R demo_T demo_U demo_free demo)
    as (T' & l' & s' & k & r & E & G & Hl & Hr);
    [done|done|done|done|done| |exact demo_rep|exact demo_vm|exact (us_apart _ _ _ _ _ demo_uspace)|].
  - intros va [Hm Hr]. apply lookup_singleton_ne. unfold PGSIZE in *. change (PGROUNDDOWN 4096) with 4096 in Hr. lia.
  - exists T', l', s', k, r. split; [exact E|]. split; [exact G|]. destruct Hr as [Hr|(_ & _ & ->)]; [exact Hr|].
    change (length demo_free) with 30%nat in Hl. change (span_pages 4096 4096) with 1%nat in Hl. cbn in Hl. lia.
Defined.

Lemma uvmalloc_correct_witness :
  exists r s' T' U' l', uvmalloc (pg 0) 4096 8192 PTE_W demo = Ok r s' /\
    uspace (pg 0) T' U' l' s' /\ r = 8192 /\ is_Some (U' !! 4096).
Proof.
  destruct (uvmalloc_correct demo_image_ok (pg 0) 4096 8192 PTE_W demo_T demo_U demo_free demo)
    as (r & s' & T' & U' & l' & E & Hu & _ & _ & _ & _ & Hr);
    [lia|done|done|by left|exact demo_sized|exact demo_uspace|].
  exists r, s', T', U', l'. split; [exact E|]. split; [exact Hu|].
  clear E Hu. destruct Hr as [[-> Hnew]|(_ & _ & Hl)].
  2:{ change (length demo_free) with 30%nat in Hl. change (alloc_pages 4096 8192) with 1%nat in Hl. lia. }
  split; [reflexivity|]. destruct (Hnew 4096) as (q & EU & _); [done|]. rewrite EU. by eexists.
Defined.

Lemma copyin_correct_witness :
  exists n : nat, Z.of_nat n <= 8 /\
    copyin (pg 0) 4090 8 demo = Ok (if Z.of_nat n =? 8 then 0 else -1, vbytes demo_mem demo_U 4090 n) demo /\
    (Z.of_nat n < 8 -> ~ accessible demo_U (4090 + Z.of_nat n)).
Proof.
  destruct (copyin_correct demo_image_ok (pg 0) demo_T demo_U 4090 8 demo) as (n & Hn & E & _ & Hb);
    [exact demo_rep|done|done|]. exists n. split; [exact Hn|]. split; [exact E|exact Hb].
Defined.

Lemma copyinstr_correct_witness :
  exists n : nat, text demo_mem demo_U 100 (Z.of_nat n) /\
    (copyinstr (pg 0) 100 16 demo = Ok (0, vbytes demo_mem demo_U 100 n ++ [0]) demo \/
     copyinstr (pg 0) 100 16 demo = Ok (-1, vbytes demo_mem demo_U 100 n) demo).
Proof.
  destruct (copyinstr_correct demo_image_ok (pg 0) demo_T demo_U 100 16 demo) as (n & _ & Ht & Hr);
    [exact demo_rep|done|done|]. exists n. split; [exact Ht|].
  destruct Hr as [[E _]|[E _]]; [left; exact E|right; exact E].
Defined.

Lemma demo_low : user_low demo_U.
Proof. unfold user_low, demo_U. by intros va pa fl [<- _]%lookup_singleton_Some _. Qed.

Lemma copyout_correct_witness :
  exists (n : nat) m', copyout (pg 0) 4090 [1; 2; 3; 4] 4 demo = Ok (if Z.of_nat n =? 4 then 0 else -1) (with_mem m' demo) /\
    stored demo_U 4090 [1; 2; 3; 4] n demo_mem m'.
Proof.
  destruct (copyout_correct demo_image_ok (pg 0) demo_T demo_U demo_free 4090 [1; 2; 3; 4] 4 demo)
    as (n & m' & _ & E & Hs & _); [exact demo_uspace|exact demo_low|done|done|done|].
  exists n, m'. split; [exact E|exact Hs].
Defined.

Lemma uvmfree_correct_witness :
  exists s' l', uvmfree (pg 0) 4096 demo = Ok tt s' /\ vm_ok l' s' /\ pg 3 ∈ l' /\ pg 0 ∈ l'.
Proof.
  destruct (uvmfree_correct demo_image_ok (pg 0) 4096 demo_T demo_U demo_free demo)
    as (s' & l' & E & Hv & _ & Hl & _); [done|exact demo_sized| |exact demo_uspace|].
  { unfold demo_U. by intros va e [<- _]%lookup_singleton_Some. }
  exists s', l'. split; [exact E|]. split; [exact Hv|]. clear E Hv. split; apply Hl.
  - right; right. exists 0, demo_flags. done.
  - right; left. apply demo_T_pages. by left.
Defined.

(** A child with an empty page table at [pg 5]. *)
Definition child_T : gmap (list Z) Z := {[ [] := pg 5 ]}.

Lemma child_zero j : index_ok j -> rd64 demo_mem (pg 5 + 8 * j) = 0.
Proof.
  intros Hj. unfold demo_mem, demo_mem2.
  rewrite !rd64_slot_ne; [by apply demo_zero1|apply pg_ok; lia|apply pg_ok; lia|done|done| |
    apply pg_ok; lia|apply pg_ok; lia|done|done|]; intros [= E _]; by apply pg_neq in E.
Qed.

Lemma child_T_pages x : x ∈ tpages child_T <-> x = pg 5.
Proof.
  rewrite elem_of_tpages. unfold child_T. split; [by intros [p [_ <-]%lookup_singleton_Some]|].
  intros ->. by exists [].
Qed.

Lemma child_uspace : uspace (pg 5) child_T ∅ demo_free demo.
Proof.
  split.
  - apply empty_rep; [by apply pg_ok|exact child_zero].
  - exact demo_vm.
  - intros t ->%child_T_pages. by apply demo_not_free.
  - intros va pa fl _ E. by rewrite lookup_empty in E.
  - intros va vb pa fl fl' _ _ E. by rewrite lookup_empty in E.
Qed.

Lemma uvmcopy_correct_witness :
  exists r s' T' U' l', uvmcopy (pg 0) (pg 5) 4096 demo = Ok r s' /\ uspace (pg 5) T' U' l' s' /\
    r = 0 /\ is_Some (U' !! 0).
Proof.
  destruct (uvmcopy_correct demo_image_ok (pg 0) (pg 5) 4096 demo_T demo_U child_T ∅ demo_free demo)
    as (r & s' & T' & U' & l' & E & Hu & _ & _ & _ & Hr);
    [done|exact demo_sized| |exact demo_uspace|exact child_uspace| |].
  - intros va Hva Ha. rewrite lookup_empty. split; [by intros [? ?]|lia].
  - assert (forall k, 3 < k < 100 -> foreign demo_T demo_U (pg k)) as Hf.
    { intros k Hk. split; [apply pg_ok; lia|]. split.
      - intros [Eq|[Eq|Eq]]%demo_T_pages; apply pg_neq in Eq; lia.
      - unfold upage, demo_U. intros (va & fl & _ & [_ [= Eq _]]%lookup_singleton_Some). apply pg_neq in Eq; lia. }
    intros q [Hq|[->%child_T_pages|(va & fl & _ & Eq)]]; [|by apply Hf|by rewrite lookup_empty in Eq].
    apply elem_of_demo_free in Hq as (k & -> & Hk). apply Hf. lia.
  - exists r, s', T', U', l'. split; [exact E|]. split; [exact Hu|]. clear E Hu.
    destruct Hr as [(-> & _ & Hnew)|(_ & _ & Hl)].
    2:{ change (length demo_free) with 30%nat in Hl. change (copy_pages 4096) with 1%nat in Hl. lia. }
    split; [reflexivity|]. destruct (Hnew 0) as (pa & q & fl & _ & EU & _); [done|]. rewrite EU. by eexists.
Defined.
