(* ===== verification/Sleeplock.v ===== *)
(** * Sleep locks: kernel/sleeplock.c

    A process that finds a sleep lock taken sleeps on it.  The number of times it can be
    woken in vain is not bounded by the code; [patience] bounds it in the model, and a
    run that exceeds it is [NoFuel]. *)

From S2P Require Import Prelude Riscv Memory State Spinlock Sched.

(** How often a waiting loop goes round before the model stops following it. *)
Class patience := wakeups : nat.

Definition slget (l : slockref) : K sleeplock :=
  gets (fun s => default sleeplock0 (slocks s !! l)).
Definition slset (l : slockref) (f : sleeplock -> sleeplock) : K unit :=
  modify (fun s => with_slocks (<[l := f (default sleeplock0 (slocks s !! l))]> (slocks s)) s).

Definition initsleeplock (l : slockref) (name : string) : K unit :=
  initlock (sl_lk l) "sleep lock";;
  slset l (with_sl_name name);;
  slset l (with_sl_locked 0);;
  slset l (with_sl_pid 0).

Section sleeplock.
Context `{environment} `{patience}.

Definition acquiresleep (l : slockref) : K unit :=
  acquire (sl_lk l);;
  loopM wakeups (fun _ =>
    lk <- slget l;;
    if sl_locked lk =? 0 then ret (inr tt)
    else sleep (sl_chan l) (sl_lk l);; ret (inl tt)) tt;;
  slset l (with_sl_locked 1);;
  p <- curproc;;
  pr <- pget p;;
  slset l (with_sl_pid (p_pid pr));;
  release (sl_lk l).

Definition releasesleep (l : slockref) : K unit :=
  acquire (sl_lk l);;
  slset l (with_sl_locked 0);;
  slset l (with_sl_pid 0);;
  wakeup (sl_chan l);;
  release (sl_lk l).

Definition holdingsleep (l : slockref) : K bool :=
  acquire (sl_lk l);;
  lk <- slget l;;
  r <- (if sl_locked lk =? 0 then ret false else
        p <- curproc;; pr <- pget p;; ret (sl_pid lk =? p_pid pr));;
  release (sl_lk l);;
  ret r.

End sleeplock.
