(* ===== verification/Virtio.v ===== *)
(** * The disk driver: kernel/virtio_disk.c

    The descriptor table and the two rings the driver shares with the device are fields
    of [vdisk].  What the device does with a request happens while the driver sleeps, in
    the [environment]. *)

From S2P Require Import Prelude Riscv Memory State Spinlock Sched Sleeplock Kalloc.

(** ** kernel/virtio.h *)

Definition VIRTIO_MMIO_MAGIC_VALUE : Z := 0x000.
Definition VIRTIO_MMIO_VERSION : Z := 0x004.
Definition VIRTIO_MMIO_DEVICE_ID : Z := 0x008.
Definition VIRTIO_MMIO_VENDOR_ID : Z := 0x00c.
Definition VIRTIO_MMIO_DEVICE_FEATURES : Z := 0x010.
Definition VIRTIO_MMIO_DRIVER_FEATURES : Z := 0x020.
Definition VIRTIO_MMIO_QUEUE_SEL : Z := 0x030.
Definition VIRTIO_MMIO_QUEUE_NUM_MAX : Z := 0x034.
Definition VIRTIO_MMIO_QUEUE_NUM : Z := 0x038.
Definition VIRTIO_MMIO_QUEUE_READY : Z := 0x044.
Definition VIRTIO_MMIO_QUEUE_NOTIFY : Z := 0x050.
Definition VIRTIO_MMIO_INTERRUPT_STATUS : Z := 0x060.
Definition VIRTIO_MMIO_INTERRUPT_ACK : Z := 0x064.
Definition VIRTIO_MMIO_STATUS : Z := 0x070.
Definition VIRTIO_MMIO_QUEUE_DESC_LOW : Z := 0x080.
Definition VIRTIO_MMIO_QUEUE_DESC_HIGH : Z := 0x084.
Definition VIRTIO_MMIO_DRIVER_DESC_LOW : Z := 0x090.
Definition VIRTIO_MMIO_DRIVER_DESC_HIGH : Z := 0x094.
Definition VIRTIO_MMIO_DEVICE_DESC_LOW : Z := 0x0a0.
Definition VIRTIO_MMIO_DEVICE_DESC_HIGH : Z := 0x0a4.

Definition VIRTIO_CONFIG_S_ACKNOWLEDGE : Z := 1.
Definition VIRTIO_CONFIG_S_DRIVER : Z := 2.
Definition VIRTIO_CONFIG_S_DRIVER_OK : Z := 4.
Definition VIRTIO_CONFIG_S_FEATURES_OK : Z := 8.

Definition VIRTIO_BLK_F_RO : Z := 5.
Definition VIRTIO_BLK_F_SCSI : Z := 7.
Definition VIRTIO_BLK_F_CONFIG_WCE : Z := 11.
Definition VIRTIO_BLK_F_MQ : Z := 12.
Definition VIRTIO_F_ANY_LAYOUT : Z := 27.
Definition VIRTIO_RING_F_INDIRECT_DESC : Z := 28.
Definition VIRTIO_RING_F_EVENT_IDX : Z := 29.

Definition NUM : nat := 8.
Definition VRING_DESC_F_NEXT : Z := 1.
Definition VRING_DESC_F_WRITE : Z := 2.
Definition VIRTIO_BLK_T_IN : Z := 0.
Definition VIRTIO_BLK_T_OUT : Z := 1.

(** ** Start-up *)

Definition R_read (r : Z) : K Z := mmio_rd (VIRTIO0 + r).
Definition R_write (r v : Z) : K unit := mmio_wr (VIRTIO0 + r) (u32 v).

Definition clear_bit (features b : Z) : Z := Z.land features (Z.lnot (Z.shiftl 1 b)).

(** The features the driver accepts. *)
Definition negotiate (features : Z) : Z :=
  fold_left clear_bit
    [VIRTIO_BLK_F_RO; VIRTIO_BLK_F_SCSI; VIRTIO_BLK_F_CONFIG_WCE; VIRTIO_BLK_F_MQ;
     VIRTIO_F_ANY_LAYOUT; VIRTIO_RING_F_EVENT_IDX; VIRTIO_RING_F_INDIRECT_DESC] features.

Section init.
Context `{image}.

Definition virtio_disk_init : K unit :=
  initlock L_vdisk "virtio_disk";;
  magic <- R_read VIRTIO_MMIO_MAGIC_VALUE;;
  version <- R_read VIRTIO_MMIO_VERSION;;
  device <- R_read VIRTIO_MMIO_DEVICE_ID;;
  vendor <- R_read VIRTIO_MMIO_VENDOR_ID;;
  if negb (magic =? 0x74726976) || negb (version =? 2) || negb (device =? 2)
     || negb (vendor =? 0x554d4551)
  then panic "could not find virtio disk" else
  let status := 0 in
  R_write VIRTIO_MMIO_STATUS status;;
  let status := Z.lor status VIRTIO_CONFIG_S_ACKNOWLEDGE in
  R_write VIRTIO_MMIO_STATUS status;;
  let status := Z.lor status VIRTIO_CONFIG_S_DRIVER in
  R_write VIRTIO_MMIO_STATUS status;;
  features <- R_read VIRTIO_MMIO_DEVICE_FEATURES;;
  R_write VIRTIO_MMIO_DRIVER_FEATURES (negotiate features);;
  let status := Z.lor status VIRTIO_CONFIG_S_FEATURES_OK in
  R_write VIRTIO_MMIO_STATUS status;;
  status <- R_read VIRTIO_MMIO_STATUS;;
  if Z.land status VIRTIO_CONFIG_S_FEATURES_OK =? 0
  then panic "virtio disk FEATURES_OK unset" else
  R_write VIRTIO_MMIO_QUEUE_SEL 0;;
  ready <- R_read VIRTIO_MMIO_QUEUE_READY;;
  if negb (ready =? 0) then panic "virtio disk should not be ready" else
  max <- R_read VIRTIO_MMIO_QUEUE_NUM_MAX;;
  if max =? 0 then panic "virtio disk has no queue 0" else
  if max <? Z.of_nat NUM then panic "virtio disk max queue too short" else
  desc <- kalloc;;
  vdset (with_desc_pa desc);;
  avail <- kalloc;;
  vdset (with_avail_pa avail);;
  used <- kalloc;;
  vdset (with_used_pa used);;
  if (desc =? 0) || (avail =? 0) || (used =? 0) then panic "virtio disk kalloc" else
  mem_memset desc 0 PGSIZE;;
  vdset (with_v_desc (replicate NUM vdesc0));;
  mem_memset avail 0 PGSIZE;;
  vdset (fun d => with_avail_idx 0 (with_avail_ring (replicate NUM 0) d));;
  mem_memset used 0 PGSIZE;;
  vdset (fun d => with_used_dev_idx 0 (with_used_ring (replicate NUM 0) d));;
  R_write VIRTIO_MMIO_QUEUE_NUM (Z.of_nat NUM);;
  R_write VIRTIO_MMIO_QUEUE_DESC_LOW desc;;
  R_write VIRTIO_MMIO_QUEUE_DESC_HIGH (Z.shiftr desc 32);;
  R_write VIRTIO_MMIO_DRIVER_DESC_LOW avail;;
  R_write VIRTIO_MMIO_DRIVER_DESC_HIGH (Z.shiftr avail 32);;
  R_write VIRTIO_MMIO_DEVICE_DESC_LOW used;;
  R_write VIRTIO_MMIO_DEVICE_DESC_HIGH (Z.shiftr used 32);;
  R_write VIRTIO_MMIO_QUEUE_READY 0x1;;
  forM (seq 0 NUM) (fun i => vdset (fun d => with_v_free (<[i := 1]> (v_free d)) d));;
  let status := Z.lor status VIRTIO_CONFIG_S_DRIVER_OK in
  R_write VIRTIO_MMIO_STATUS status.

End init.

(** ** Descriptors *)

Definition desc_get (i : nat) : K vdesc := gets (fun s => default vdesc0 (v_desc (vd s) !! i)).
Definition desc_set (i : nat) (f : vdesc -> vdesc) : K unit :=
  vdset (fun d => with_v_desc (alter f i (v_desc d)) d).
Definition is_free (i : nat) : K bool :=
  gets (fun s => negb (default 0 (v_free (vd s) !! i) =? 0)).
Definition set_free (i : nat) (v : Z) : K unit :=
  vdset (fun d => with_v_free (<[i := v]> (v_free d)) d).

Definition alloc_desc : K (option nat) :=
  searchM (seq 0 NUM) (fun i =>
    f <- is_free i;;
    if f then set_free i 0;; ret (Some i) else ret None).

Section driver.
Context `{environment} `{patience}.

Definition free_desc (i : nat) : K unit :=
  if (NUM <=? i)%nat then panic "free_desc 1" else
  f <- is_free i;;
  if f then panic "free_desc 2" else
  desc_set i (with_d_addr A_null);;
  desc_set i (with_d_len 0);;
  desc_set i (with_d_flags 0);;
  desc_set i (with_d_next 0);;
  set_free i 1;;
  wakeup Ch_disk_free.

(** The chain is freed descriptor by descriptor; [free_desc] panics on one that is already
    free, so [NUM + 1] rounds are enough. *)
Definition free_chain (i : nat) : K unit :=
  loopM (S NUM) (fun i =>
    d <- desc_get i;;
    let flag := d_flags d in
    let nxt := d_next d in
    free_desc i;;
    if negb (Z.land flag VRING_DESC_F_NEXT =? 0) then ret (inl (Z.to_nat nxt))
    else ret (inr tt)) i.

(** [alloc3_desc]: the three indices, or [None] for -1. *)
Fixpoint alloc3_loop (n : nat) (idx : list nat) : K (option (list nat)) :=
  match n with
  | O => ret (Some idx)
  | S n =>
      d <- alloc_desc;;
      match d with
      | Some i => alloc3_loop n (idx ++ [i])
      | None => forM idx free_desc;; ret None
      end
  end.
Definition alloc3_desc : K (option (list nat)) := alloc3_loop 3 [].

Definition ops_set (i : nat) (f : vreq -> vreq) : K unit :=
  vdset (fun d => with_v_ops (alter f i (v_ops d)) d).

(** The part of [virtio_disk_rw] that fills the three descriptors and hands the request
    to the device. *)
Definition submit (b : nat) (write : bool) (sector : Z) (i0 i1 i2 : nat) : K unit :=
  ops_set i0 (fun r => with_r_type (if write then VIRTIO_BLK_T_OUT else VIRTIO_BLK_T_IN) r);;
  ops_set i0 (with_r_reserved 0);;
  ops_set i0 (with_r_sector sector);;
  desc_set i0 (with_d_addr (A_op i0));;
  desc_set i0 (with_d_len 16);;
  desc_set i0 (with_d_flags VRING_DESC_F_NEXT);;
  desc_set i0 (with_d_next (Z.of_nat i1));;
  desc_set i1 (with_d_addr (A_data b));;
  desc_set i1 (with_d_len BSIZE);;
  desc_set i1 (with_d_flags (if write then 0 else VRING_DESC_F_WRITE));;
  desc_set i1 (fun d => with_d_flags (Z.lor (d_flags d) VRING_DESC_F_NEXT) d);;
  desc_set i1 (with_d_next (Z.of_nat i2));;
  vdset (fun d => with_info_status (<[i0 := 0xff]> (info_status d)) d);;
  desc_set i2 (with_d_addr (A_status i0));;
  desc_set i2 (with_d_len 1);;
  desc_set i2 (with_d_flags VRING_DESC_F_WRITE);;
  desc_set i2 (with_d_next 0);;
  bufset b (with_b_disk 1);;
  vdset (fun d => with_info_b (<[i0 := Some b]> (info_b d)) d);;
  vdset (fun d => with_avail_ring
    (<[Z.to_nat (avail_idx d mod Z.of_nat NUM) := Z.of_nat i0]> (avail_ring d)) d);;
  vdset (fun d => with_avail_idx (u16 (avail_idx d + 1)) d);;
  R_write VIRTIO_MMIO_QUEUE_NOTIFY 0.

Definition virtio_disk_rw (b : nat) (write : bool) : K unit :=
  bp <- bufget b;;
  let sector := u32 (b_blockno bp * (BSIZE / 512)) in
  acquire L_vdisk;;
  idx <- loopM wakeups (fun _ =>
    r <- alloc3_desc;;
    match r with
    | Some idx => ret (inr idx)
    | None => sleep Ch_disk_free L_vdisk;; ret (inl tt)
    end) tt;;
  let i0 := nth 0 idx 0%nat in
  let i1 := nth 1 idx 0%nat in
  let i2 := nth 2 idx 0%nat in
  submit b write sector i0 i1 i2;;
  loopM wakeups (fun _ =>
    bp <- bufget b;;
    if b_disk bp =? 1 then sleep (Ch_buf b) L_vdisk;; ret (inl tt)
    else ret (inr tt)) tt;;
  vdset (fun d => with_info_b (<[i0 := None]> (info_b d)) d);;
  free_chain i0;;
  release L_vdisk.

(** One completed request. *)
Definition complete_one : K unit :=
  d <- gets vd;;
  let id := Z.to_nat (i32 (default 0 (used_ring d !! Z.to_nat (v_used_idx d mod Z.of_nat NUM)))) in
  if negb (default 0 (info_status d !! id) =? 0) then panic "virtio_disk_intr status" else
  b <- deref (default None (info_b d !! id));;
  bufset b (with_b_disk 0);;
  wakeup (Ch_buf b);;
  vdset (fun d => with_v_used_idx (u16 (v_used_idx d + 1)) d).

Definition virtio_disk_intr : K unit :=
  acquire L_vdisk;;
  st <- R_read VIRTIO_MMIO_INTERRUPT_STATUS;;
  R_write VIRTIO_MMIO_INTERRUPT_ACK (Z.land st 0x3);;
  d <- gets vd;;
  loopM (S (Z.to_nat (u16 (used_dev_idx d - v_used_idx d)))) (fun _ =>
    d <- gets vd;;
    if v_used_idx d =? used_dev_idx d then ret (inr tt)
    else complete_one;; ret (inl tt)) tt;;
  release L_vdisk.

End driver.
