(* ===== verification/SleepSpec.v ===== *)
(** * Sleep locks without contention

    What [acquiresleep], [releasesleep] and [holdingsleep] do when the lock is not taken by
    another process, and [idle]: the state of a process that runs in the kernel, holds the
    sleep locks of a set of buffers and no spin lock, while no other hart is in a critical
    section of the storage code. *)

From S2P Require Import Prelude Riscv Memory State Spinlock Sched SchedSpec Sleeplock Virtio.

Lemma loopM_done {S A B} n (body : A -> M S (A + B)) a b s s' :
  (0 < n)%nat -> body a s = Ok (inr b) s' -> loopM n body a s = Ok b s'.
Proof. intros Hn E. destruct n; [lia|]. cbn [loopM]. by rewrite (bind_ok _ _ _ _ _ E). Qed.

Section sleeplock.
Context `{environment} `{patience}.

(** A process [p] that calls the functions of a sleep lock whose spin lock is free. *)
Definition caller (p : nat) (pr : proc) (s : kst) : Prop :=
  hart_ok s /\ cur s = Some p /\ procs s !! p = Some pr.

Lemma curproc_locked p s l :
  hart_ok s -> cur s = Some p -> curproc (take_lock l s) = Ok p (take_lock l s).
Proof.
  intros Hh Hc. pose proof (held_take l s Hh) as Hl.
  rewrite (curproc_eq _ p); [by rewrite (touch_held l)|by eapply held_hart_ok|by rewrite cur_take].
Qed.

Definition sl_upd (l : slockref) (sl : sleeplock) (s : kst) : kst :=
  with_slocks (<[l := sl]> (slocks s)) s.

Lemma sl_upd_framed l sl : framed (sl_upd l sl).
Proof. unfold sl_upd. solve_framed. Qed.

Lemma slset_eq {B} l f sl s (k : unit -> K B) :
  slocks s !! l = Some sl -> bind (slset l f) k s = k tt (sl_upd l (f sl) s).
Proof. intros E. unfold slset. rewrite bind_modify, E. reflexivity. Qed.

Lemma sl_upd_upd l a b s : sl_upd l a (sl_upd l b s) = sl_upd l a s.
Proof. unfold sl_upd. kst_cbv. by rewrite insert_insert_eq. Qed.

Lemma sl_upd_lookup l a s : slocks (sl_upd l a s) !! l = Some a.
Proof. apply lookup_insert_eq. Qed.

Lemma slget_eq {B} l sl s (k : sleeplock -> K B) :
  slocks s !! l = Some sl -> bind (slget l) k s = k sl s.
Proof. intros E. unfold slget. by rewrite bind_gets, E. Qed.

Lemma acquiresleep_eq p pr l sl s :
  (0 < wakeups)%nat -> caller p pr s -> lock_free (sl_lk l) s ->
  slocks s !! l = Some sl -> sl_locked sl = 0 ->
  acquiresleep l s = Ok tt (sl_upd l (Sleeplock 1 (sl_name sl) (p_pid pr)) (touch s)).
Proof.
  intros Hw (Hh & Hc & Ep) Hf Es Hl. unfold acquiresleep.
  rewrite (bind_ok _ _ _ _ _ (acquire_eq _ s Hh Hf)). set (s1 := take_lock _ s).
  assert (slocks s1 !! l = Some sl) as Es1 by exact Es.
  rewrite (bind_ok _ _ _ tt s1).
  2:{ apply loopM_done; [done|]. rewrite (slget_eq l sl s1 _ Es1), Hl. reflexivity. }
  rewrite (slset_eq l _ sl s1 _ Es1). set (s2 := sl_upd _ _ s1).
  assert (s2 = take_lock (sl_lk l) (sl_upd l (with_sl_locked 1 sl) s)) as Es2
    by (apply (framed_take (sl_upd _ _)), sl_upd_framed).
  rewrite (bind_ok _ _ _ p s2).
  2:{ rewrite Es2. apply curproc_locked; [|exact Hc].
      by apply framed_hart; [apply sl_upd_framed|]. }
  unfold pget. rewrite bind_gets. change (procs s2) with (procs s). rewrite Ep.
  cbn [default from_option id]. rewrite (slset_eq l _ (with_sl_locked 1 sl) s2) by apply sl_upd_lookup.
  unfold s2. rewrite sl_upd_upd. by apply (release_framed (sl_upd _ _)); [apply sl_upd_framed|..].
Qed.

Lemma releasesleep_eq p pr l sl s :
  caller p pr s -> lock_free (sl_lk l) s -> slocks s !! l = Some sl ->
  length (procs s) = NPROC -> (forall i, (i < NPROC)%nat -> lock_free (L_proc i) s) ->
  (forall i, sl_lk l <> L_proc i) ->
  releasesleep l s = Ok tt (with_procs (wake (sl_chan l) (Some p) (procs s))
    (sl_upd l (Sleeplock 0 (sl_name sl) 0) (touch s))).
Proof.
  intros (Hh & Hc & Ep) Hf Es Hlen Hpl Hne. unfold releasesleep.
  rewrite (bind_ok _ _ _ _ _ (acquire_eq _ s Hh Hf)). set (s1 := take_lock _ s).
  assert (slocks s1 !! l = Some sl) as Es1 by exact Es.
  rewrite (slset_eq l _ sl s1 _ Es1), (slset_eq l _ (with_sl_locked 0 sl)) by apply sl_upd_lookup.
  rewrite sl_upd_upd. change (with_sl_pid 0 (with_sl_locked 0 sl)) with (Sleeplock 0 (sl_name sl) 0).
  set (f := sl_upd l _). assert (framed f) as Hfr by apply sl_upd_framed.
  pose proof (held_take (sl_lk l) (f s) (framed_hart f s Hfr Hh)) as Hheld.
  rewrite (bind_ok _ _ _ tt (with_procs (wake (sl_chan l) (Some p) (procs s)) (f s1))).
  2:{ unfold s1. rewrite (framed_take f) by done. rewrite wakeup_eq.
      - unfold woken. rewrite (touch_held (sl_lk l)) by done. rewrite cur_take, cur_framed, Hc by done.
        reflexivity.
      - by eapply held_hart_ok.
      - exact Hlen.
      - intros i Hi _. apply take_lock_other; [apply Hne|]. by apply framed_free, Hpl. }
  apply (release_framed (fun s0 => with_procs (wake (sl_chan l) (Some p) (procs s)) (f s0))); [|done|done].
  intros r c lk s0. rewrite Hfr. reflexivity.
Qed.

Lemma holdingsleep_eq p pr l sl s :
  caller p pr s -> lock_free (sl_lk l) s -> slocks s !! l = Some sl ->
  holdingsleep l s = Ok (negb (sl_locked sl =? 0) && (sl_pid sl =? p_pid pr)) (touch s).
Proof.
  intros (Hh & Hc & Ep) Hf Es. unfold holdingsleep.
  rewrite (bind_ok _ _ _ _ _ (acquire_eq _ s Hh Hf)). set (s1 := take_lock _ s).
  rewrite (slget_eq l sl s1 _ Es). rewrite (bind_ok _ _ _ (negb (sl_locked sl =? 0) && (sl_pid sl =? p_pid pr)) s1).
  - by rewrite (bind_ok _ _ _ _ _ (release_take _ s Hh Hf)).
  - destruct (sl_locked sl =? 0); [reflexivity|]. unfold s1.
    rewrite (bind_ok _ _ _ _ _ (curproc_locked p s _ Hh Hc)). unfold pget. rewrite bind_gets.
    change (procs (take_lock (sl_lk l) s)) with (procs s). by rewrite Ep.
Qed.

End sleeplock.

(** ** The storage code in a quiet system *)

(** The spin locks the storage code takes. *)
Definition store_lock (l : lockref) : bool :=
  match l with
  | L_bcache | L_log | L_vdisk | L_pr | L_itable => true
  | L_proc i => (i <? NPROC)%nat
  | L_buf i => (i <? NBUF)%nat
  | _ => false
  end.

(** No request is with the disk: the descriptors are free, and the indices of the two rings agree. *)
Record vdisk_idle (d : vdisk) : Prop := {
  vi_free : v_free d = replicate NUM 1;
  vi_desc : length (v_desc d) = NUM;
  vi_avail : length (avail_ring d) = NUM;
  vi_used : length (used_ring d) = NUM;
  vi_info : length (info_b d) = NUM /\ length (info_status d) = NUM;
  vi_ops : length (v_ops d) = NUM;
  vi_index : 0 <= used_dev_idx d < 2 ^ 16 /\ v_used_idx d = used_dev_idx d /\ avail_idx d = used_dev_idx d;
}.

(** A process apart from what sleeping changes: the counters, the channel and the saved registers. *)
Definition frozen (pr : proc) : proc :=
  with_p_chan Ch_null (with_p_context context0
    (with_runCount 0 (with_sleepCount 0 (with_preemptCount 0 pr)))).

(** Process [p] runs, holds no spin lock and the sleep locks of the buffers in [h]; [pr] is the process but for
    what sleeping changes. *)
Record idle (p : nat) (pr : proc) (h : gset nat) (s : kst) : Prop := {
  id_no_lock : no_lock s;
  id_cur : cur s = Some p;
  id_proc : exists q, procs s !! p = Some q /\ p_state q = RUNNING /\ frozen q = frozen pr;
  id_len : length (procs s) = NPROC;
  id_locks : forall l, store_lock l = true -> lock_free l s;
  id_slocks : forall b, (b < NBUF)%nat -> exists sl, slocks s !! SL_buf b = Some sl /\
    if decide (b ∈ h) then sl_locked sl = 1 /\ sl_pid sl = p_pid pr else sl_locked sl = 0;
  id_disk : vdisk_idle (vd s);
}.

(** A state apart from the scheduling, the locks and the disk driver's own data. *)
Definition body (s : kst) : kst :=
  with_rcl csrs0 [] ∅ (with_procs [] (with_slocks ∅ (with_nswtch 0 (with_vd vdisk0 (with_mmio ∅ s))))).

Lemma idle_hart p pr h s : idle p pr h s -> hart_ok s.
Proof. intros Hi. exact (no_lock_hart s (id_no_lock _ _ _ _ Hi)). Qed.

Lemma frozen_pid q pr : frozen q = frozen pr -> p_pid q = p_pid pr.
Proof. intros E. exact (f_equal p_pid E). Qed.

Lemma idle_caller p pr h s : idle p pr h s -> exists q, caller p q s /\ p_pid q = p_pid pr.
Proof.
  intros Hi. destruct (id_proc _ _ _ _ Hi) as (q & Eq & _ & Hq). exists q. split; [|by apply frozen_pid].
  split; [by eapply idle_hart|]. split; [apply Hi|done].
Qed.

Lemma idle_frame p pr h s s' :
  regs s' = regs s -> cpus s' = cpus s -> locks s' = locks s -> procs s' = procs s ->
  slocks s' = slocks s -> vd s' = vd s -> idle p pr h s -> idle p pr h s'.
Proof.
  intros Er Ec El Ep Es Ev [H1 H2 H3 H4 H5 H6 H7]. unfold no_lock, cur, me, lock_free in *.
  split; unfold no_lock, cur, me, lock_free; rewrite ?Er, ?Ec, ?El, ?Ep, ?Es, ?Ev; done.
Qed.

Lemma idle_touch p pr h s : idle p pr h s -> idle p pr h (touch s).
Proof.
  intros [H1 H2 H3 H4 H5 H6 H7]. split; try done.
  - by apply touch_no_lock.
  - by rewrite cur_touch.
Qed.

Lemma wake_length ch self ps : length (wake ch self ps) = length ps.
Proof. unfold wake. by rewrite length_imap. Qed.

Lemma wake_self ch p ps pr : ps !! p = Some pr -> wake ch (Some p) ps !! p = Some pr.
Proof.
  intros E. unfold wake. rewrite list_lookup_imap, E. simpl. f_equal. rewrite decide_False; [done|].
  by intros [].
Qed.

Lemma idle_wake p pr h ch s : idle p pr h s -> idle p pr h (with_procs (wake ch (Some p) (procs s)) s).
Proof.
  intros [H1 H2 H3 H4 H5 H6 H7]. split; try done.
  - destruct H3 as (q & Eq & Hq). exists q. split; [by apply wake_self|done].
  - cbn [procs with_procs]. by rewrite wake_length.
Qed.

Section idle.
Context `{environment} `{patience}.

Lemma idle_buf_lock p pr h b s : idle p pr h s -> (b < NBUF)%nat -> lock_free (L_buf b) s.
Proof. intros Hi Hb. apply (id_locks _ _ _ _ Hi). by apply Nat.ltb_lt in Hb. Qed.

Lemma idle_proc_lock p pr h i s : idle p pr h s -> (i < NPROC)%nat -> lock_free (L_proc i) s.
Proof. intros Hi Hb. apply (id_locks _ _ _ _ Hi). by apply Nat.ltb_lt in Hb. Qed.

Lemma acquiresleep_idle p pr h b s :
  (0 < wakeups)%nat -> idle p pr h s -> (b < NBUF)%nat -> b ∉ h ->
  wp (acquiresleep (SL_buf b)) (fun _ s' => idle p pr ({[b]} ∪ h) s' /\ body s' = body s) s.
Proof.
  intros Hw Hi Hb Hn. destruct (id_slocks _ _ _ _ Hi b Hb) as (sl & Es & Hl). rewrite decide_False in Hl by done.
  destruct (idle_caller _ _ _ _ Hi) as (q & Hq & Hpid). eapply wp_eq.
  - apply (acquiresleep_eq p q (SL_buf b) sl s Hw); [done|by eapply idle_buf_lock|done|done].
  - split; [|reflexivity]. apply idle_touch in Hi. destruct Hi as [H1 H2 H3 H4 H5 H6 H7]. split; try done.
    intros c Hc. destruct (decide (c = b)) as [->|Hne].
    + eexists. split; [apply sl_upd_lookup|]. rewrite decide_True by set_solver. done.
    + destruct (H6 c Hc) as (sl' & E' & Hl'). exists sl'. split.
      * cbn. rewrite lookup_insert_ne by congruence. exact E'.
      * destruct (decide (c ∈ h)); [rewrite decide_True by set_solver|rewrite decide_False by set_solver]; done.
Qed.

Lemma releasesleep_idle p pr h b s :
  idle p pr h s -> (b < NBUF)%nat ->
  wp (releasesleep (SL_buf b)) (fun _ s' => idle p pr (h ∖ {[b]}) s' /\ body s' = body s) s.
Proof.
  intros Hi Hb. destruct (id_slocks _ _ _ _ Hi b Hb) as (sl & Es & _).
  destruct (idle_caller _ _ _ _ Hi) as (q & Hq & Hpid). eapply wp_eq.
  - apply (releasesleep_eq p q (SL_buf b) sl s); [done|by eapply idle_buf_lock|done|apply Hi| |done].
    intros i. by eapply idle_proc_lock.
  - split; [|reflexivity]. set (s1 := sl_upd _ _ _). apply (idle_wake p pr _ _ s1).
    apply idle_touch in Hi. destruct Hi as [H1 H2 H3 H4 H5 H6 H7]. split; try done.
    intros c Hc. destruct (decide (c = b)) as [->|Hne].
    + eexists. split; [apply sl_upd_lookup|]. rewrite decide_False by set_solver. done.
    + destruct (H6 c Hc) as (sl' & E' & Hl'). exists sl'. split.
      * cbn. rewrite lookup_insert_ne by congruence. exact E'.
      * destruct (decide (c ∈ h)); [rewrite decide_True by set_solver|rewrite decide_False by set_solver]; done.
Qed.

Lemma holdingsleep_idle p pr h b s :
  idle p pr h s -> (b < NBUF)%nat -> b ∈ h -> holdingsleep (SL_buf b) s = Ok true (touch s).
Proof.
  intros Hi Hb Hh. destruct (id_slocks _ _ _ _ Hi b Hb) as (sl & Es & Hl).
  rewrite decide_True in Hl by done. destruct Hl as [Hl Hp].
  destruct (idle_caller _ _ _ _ Hi) as (q & Hq & Hpid).
  rewrite (holdingsleep_eq p q (SL_buf b) sl s); [|done|by eapply idle_buf_lock|done].
  rewrite Hl, Hp, Hpid, Z.eqb_refl. reflexivity.
Qed.

(** A critical section that updates data by a framed function. *)
Lemma crit_idle {A} p pr h l s (m : K A) a f :
  idle p pr h s -> store_lock l = true -> framed f ->
  m (take_lock l s) = Ok a (f (take_lock l s)) ->
  (acquire l;; x <- m;; release l;; ret x)%M s = Ok a (f (touch s)).
Proof.
  intros Hi Hl Hf E. pose proof (id_locks _ _ _ _ Hi l Hl) as Hfree. pose proof (idle_hart _ _ _ _ Hi) as Hh.
  rewrite (bind_ok _ _ _ _ _ (acquire_eq l s Hh Hfree)), (bind_ok _ _ _ _ _ E).
  by rewrite (bind_ok _ _ _ _ _ (release_framed f l s Hf Hh Hfree)).
Qed.

End idle.
