(* ===== verification/Uart.v ===== *)
(** * The serial port: kernel/uart.c, and consputc of kernel/console.c

    A read of the line status register takes the next of the readings the device will
    give ([uart_lsr]); characters written to the transmit register are appended to
    [uart_tx]. *)

From S2P Require Import Prelude Riscv Memory State Spinlock Sched Sleeplock.

Definition RHR : Z := 0.
Definition THR : Z := 0.
Definition IER : Z := 1.
Definition IER_RX_ENABLE : Z := Z.shiftl 1 0.
Definition IER_TX_ENABLE : Z := Z.shiftl 1 1.
Definition FCR : Z := 2.
Definition FCR_FIFO_ENABLE : Z := Z.shiftl 1 0.
Definition FCR_FIFO_CLEAR : Z := Z.shiftl 3 1.
Definition LCR : Z := 3.
Definition LCR_EIGHT_BITS : Z := Z.shiftl 3 0.
Definition LCR_BAUD_LATCH : Z := Z.shiftl 1 7.
Definition LSR : Z := 5.
Definition LSR_RX_READY : Z := Z.shiftl 1 0.
Definition LSR_TX_IDLE : Z := Z.shiftl 1 5.
Definition UART_TX_BUF_SIZE : Z := 32.

(** A write to a register, as the 16550 decodes it: the divisor latch bit of LCR gives
    registers 0 and 1 another meaning. *)
Definition WriteReg (reg v : Z) : K unit :=
  uartset (fun u =>
    let latch := negb (Z.land (uart_lcr u) LCR_BAUD_LATCH =? 0) in
    if reg =? 0 then
      if latch then with_uart_dll (u8 v) u else with_uart_tx (uart_tx u ++ [u8 v]) u
    else if reg =? 1 then
      if latch then with_uart_dlm (u8 v) u else with_uart_ier (u8 v) u
    else if reg =? 2 then with_uart_fcr (u8 v) u
    else if reg =? 3 then with_uart_lcr (u8 v) u
    else u).

Definition lsr (u : uart) : Z :=
  Z.lor (match uart_rx u with [] => 0 | _ => LSR_RX_READY end)
        (match uart_lsr u with false :: _ => 0 | _ => LSR_TX_IDLE end).

Definition ReadLSR : K Z :=
  u <- gets uart_st;;
  uartset (fun u => with_uart_lsr (tail (uart_lsr u)) u);;
  ret (lsr u).

Definition ReadRHR : K Z :=
  u <- gets uart_st;;
  uartset (fun u => with_uart_rx (tail (uart_rx u)) u);;
  ret (hd 0 (uart_rx u)).

Definition uartinit : K unit :=
  WriteReg IER 0x00;;
  WriteReg LCR LCR_BAUD_LATCH;;
  WriteReg 0 0x03;;
  WriteReg 1 0x00;;
  WriteReg LCR LCR_EIGHT_BITS;;
  WriteReg FCR (Z.lor FCR_FIFO_ENABLE FCR_FIFO_CLEAR);;
  WriteReg IER (Z.lor IER_TX_ENABLE IER_RX_ENABLE);;
  initlock L_uart "uart".

(** [for(;;);] *)
Definition spin_forever {A} : K A := fun s => Spin s.

(** One round per queued character, and the last one that finds the queue empty. *)
Definition uartstart : K unit :=
  u <- gets uart_st;;
  loopM (S (Z.to_nat (u64 (uart_tx_w u - uart_tx_r u)))) (fun _ =>
    u <- gets uart_st;;
    if uart_tx_w u =? uart_tx_r u then ret (inr tt) else
    l <- ReadLSR;;
    if Z.land l LSR_TX_IDLE =? 0 then ret (inr tt) else
    let c := default 0 (uart_tx_buf u !! Z.to_nat (uart_tx_r u mod UART_TX_BUF_SIZE)) in
    uartset (with_uart_tx_r (uart_tx_r u +u 1));;
    wakeup Ch_uart;;
    WriteReg THR c;;
    ret (inl tt)) tt.

(** The polling loop ends: it takes one reading per round, and the readings that are not
    idle are finitely many. *)
Definition uartputc_sync (c : Z) : K unit :=
  push_off;;
  pk <- gets panicked;;
  if negb (pk =? 0) then spin_forever else
  u <- gets uart_st;;
  loopM (S (length (uart_lsr u))) (fun _ =>
    l <- ReadLSR;;
    if Z.land l LSR_TX_IDLE =? 0 then ret (inl tt) else ret (inr tt)) tt;;
  WriteReg THR c;;
  pop_off.

Definition uartgetc : K Z :=
  l <- ReadLSR;;
  if negb (Z.land l 0x01 =? 0) then ReadRHR else ret (-1).

Section uart.
Context `{environment} `{patience}.

Definition uartputc (c : Z) : K unit :=
  acquire L_uart;;
  pk <- gets panicked;;
  if negb (pk =? 0) then spin_forever else
  loopM wakeups (fun _ =>
    u <- gets uart_st;;
    if uart_tx_w u =? uart_tx_r u +u UART_TX_BUF_SIZE
    then sleep Ch_uart L_uart;; ret (inl tt)
    else ret (inr tt)) tt;;
  uartset (fun u => with_uart_tx_buf
    (<[Z.to_nat (uart_tx_w u mod UART_TX_BUF_SIZE) := u8 c]> (uart_tx_buf u)) u);;
  uartset (fun u => with_uart_tx_w (uart_tx_w u +u 1) u);;
  uartstart;;
  release L_uart.

End uart.

(** ** consputc *)

Definition BACKSPACE : Z := 0x100.

Definition consputc (c : Z) : K unit :=
  if c =? BACKSPACE then
    uartputc_sync 8;; uartputc_sync 32;; uartputc_sync 8
  else uartputc_sync c.
