(* ===== verification/Printf.v ===== *)
(** * Formatted output to the console: kernel/printf.c *)

From S2P Require Import Prelude Riscv Memory State Spinlock Sched Uart.

(** The characters of a string literal. *)
Definition chars (s : string) : list Z :=
  map (fun c => Z.of_N (Ascii.N_of_ascii c)) (String.list_ascii_of_string s).

Definition newline : list Z := [10].

Definition digits (d : Z) : Z := default 0 (chars "0123456789abcdef" !! Z.to_nat d).

(** [do buf[i++] = digits[x % base]; while((x /= base) != 0)]: the digits, last first.
    A 32-bit number has at most 32 of them. *)
Fixpoint digit_loop (fuel : nat) (x base : Z) : list Z :=
  match fuel with
  | O => []
  | S n => digits (x mod base) :: (if x / base =? 0 then [] else digit_loop n (x / base) base)
  end.

(** The contents of [buf] when the digits are done. *)
Definition printint_buf (xx base : Z) (sign : bool) : list Z :=
  let neg := sign && (xx <? 0) in
  let x := if neg then u32 (- xx) else u32 xx in
  digit_loop 32 x base ++ (if neg then [45] else []).

Definition printint (xx base : Z) (sign : bool) : K unit :=
  forM (rev (printint_buf xx base sign)) consputc.

(** [for(i = 0; i < 16; i++, x <<= 4) consputc(digits[x >> 60])]. *)
Fixpoint printptr_loop (n : nat) (x : Z) : K unit :=
  match n with
  | O => ret tt
  | S n => consputc (digits (Z.shiftr x 60));; printptr_loop n (u64 (Z.shiftl x 4))
  end.

Definition printptr (x : Z) : K unit :=
  consputc 48;;
  consputc 120;;
  printptr_loop 16 x.

(** The arguments of [printf]. *)
Inductive va : Type :=
| V_int (n : Z)
| V_ptr (x : Z)
| V_str (s : option (list Z)).

(** The body of [printf]'s loop over the format, from position [i] on: [fmt] is the rest
    of the format string.  A missing argument, or one of the wrong type, is undefined. *)
Fixpoint printf_loop (fmt : list Z) (ap : list va) : K unit :=
  match fmt with
  | [] => ret tt
  | c :: fmt =>
      if negb (c =? 37) then consputc c;; printf_loop fmt ap else
      match fmt with
      | [] => ret tt
      | c :: fmt =>
          if c =? 100 then
            match ap with
            | V_int n :: ap => printint n 10 true;; printf_loop fmt ap
            | _ => undefined
            end
          else if c =? 120 then
            match ap with
            | V_int n :: ap => printint n 16 true;; printf_loop fmt ap
            | _ => undefined
            end
          else if c =? 112 then
            match ap with
            | V_ptr x :: ap => printptr x;; printf_loop fmt ap
            | _ => undefined
            end
          else if c =? 115 then
            match ap with
            | V_str s :: ap => forM (default (chars "(null)") s) consputc;; printf_loop fmt ap
            | _ => undefined
            end
          else if c =? 37 then consputc 37;; printf_loop fmt ap
          else consputc 37;; consputc c;; printf_loop fmt ap
      end
  end.

Definition printf (fmt : list Z) (ap : list va) : K unit :=
  locking <- gets pr_locking;;
  (if negb (locking =? 0) then acquire L_pr else ret tt);;
  printf_loop fmt ap;;
  (if negb (locking =? 0) then release L_pr else ret tt).

(** [panic(s)]: the message goes to the console, and the hart stops.  Elsewhere in the
    model a call of [panic] ends the computation with [Panic s]. *)
Definition panic_out (s : list Z) : K unit :=
  modify (with_pr_locking 0);;
  printf (chars "panic: ") [];;
  printf s [];;
  printf newline [];;
  modify (with_panicked 1);;
  spin_forever.

Definition printfinit : K unit :=
  initlock L_pr "pr";;
  modify (with_pr_locking 1).
