(* ===== verification/PrintfSpec.v ===== *)
(** * What the kernel's printf sends

    [printf] of kernel/printf.c sends the characters of its formatted text to the serial port, one
    by one and each after the port was idle, and changes nothing else. *)

From S2P Require Import Prelude Riscv Memory State Spinlock Sched Uart Printf.

(** ** One character *)

(** The readings of the line status register that are left after it was idle once. *)
Fixpoint after_idle (l : list bool) : list bool :=
  match l with
  | false :: l => after_idle l
  | true :: l => l
  | [] => []
  end.

Definition sent (c : Z) (u : uart) : uart :=
  with_uart_tx (uart_tx u ++ [u8 c]) (with_uart_lsr (after_idle (uart_lsr u)) u).
Definition sends (l : list Z) (s : kst) : kst := with_uart_st (foldl (fun u c => sent c u) (uart_st s) l) s.

(** A hart that can print: no panic, and the divisor latch of the port is closed. *)
Record quiet (s : kst) : Prop := {
  q_hart : hart_ok s;
  q_panicked : panicked s = 0;
  q_latch : Z.land (uart_lcr (uart_st s)) LCR_BAUD_LATCH = 0
}.

Lemma sends_framed l : framed (sends l).
Proof. unfold sends. solve_framed. Qed.

Lemma sends_app l l' s : sends (l ++ l') s = sends l' (sends l s).
Proof. unfold sends. by rewrite foldl_app. Qed.

Lemma sent_latch c u : uart_lcr (sent c u) = uart_lcr u.
Proof. done. Qed.

Lemma sends_quiet l s : quiet s -> quiet (sends l s).
Proof.
  intros [H1 H2 H3]. split; [by apply framed_hart; [apply sends_framed|]|done|]. cbn.
  revert H3. generalize (uart_st s). induction l as [|c l IH]; intros u; cbn; [done|]. intros Hu. by apply IH.
Qed.

Lemma touch_quiet s : quiet s -> quiet (touch s).
Proof. intros [H1 H2 H3]. split; [by apply touch_hart_ok|done|done]. Qed.

Lemma lsr_idle u :
  (Z.land (lsr u) LSR_TX_IDLE =? 0) = match uart_lsr u with false :: _ => true | _ => false end.
Proof. unfold lsr. by destruct (uart_rx u) as [|? ?], (uart_lsr u) as [|[] ?]. Qed.

(** The polling loop ends when the port is idle. *)
Lemma poll_eq n : forall s, (length (uart_lsr (uart_st s)) < n)%nat ->
  loopM n (fun _ => l <- ReadLSR;; if Z.land l LSR_TX_IDLE =? 0 then ret (inl tt) else ret (inr tt))%M tt s =
    Ok tt (with_uart_st (with_uart_lsr (after_idle (uart_lsr (uart_st s))) (uart_st s)) s).
Proof.
  induction n as [|n IH]; intros s Hn; [lia|]. cbn [loopM].
  set (s1 := with_uart_st (with_uart_lsr (tail (uart_lsr (uart_st s))) (uart_st s)) s).
  assert (ReadLSR s = Ok (lsr (uart_st s)) s1) as E by done.
  rewrite bind_assoc, (bind_ok _ _ _ _ _ E), lsr_idle.
  destruct (uart_lsr (uart_st s)) as [|[] l] eqn:El; [rewrite bind_ret; by unfold s1..|].
  rewrite bind_ret, IH; unfold s1; [done|]. cbn in *. lia.
Qed.

Lemma uartputc_sync_eq c s : quiet s -> uartputc_sync c s = Ok tt (sends [c] (touch s)).
Proof.
  intros Hq. destruct (q_hart _ Hq) as (cp & Hcp & _). unfold uartputc_sync.
  rewrite (bind_ok _ _ _ _ _ (push_off_eq s cp Hcp)), bind_gets. change (panicked (pushed s)) with (panicked s).
  rewrite (q_panicked _ Hq). cbn [Z.eqb negb]. rewrite bind_gets.
  rewrite (bind_ok _ _ _ _ _ (poll_eq _ (pushed s) (Nat.lt_succ_diag_r _))).
  assert (WriteReg THR c (with_uart_st (with_uart_lsr (after_idle (uart_lsr (uart_st (pushed s)))) (uart_st (pushed s))) (pushed s))
    = Ok tt (pushed (sends [c] s))) as E.
  { unfold WriteReg, uartset, modify. cbn [Z.eqb THR]. change (uart_st (with_uart_st ?u _)) with u.
    change (uart_lcr (with_uart_lsr _ ?u)) with (uart_lcr u). change (uart_st (pushed s)) with (uart_st s).
    by rewrite (q_latch _ Hq). }
  rewrite (bind_ok _ _ _ _ _ E). pose proof (q_hart _ (sends_quiet [c] s Hq)) as Hh.
  rewrite pop_off_pushed by done. f_equal. rewrite popped_pushed by done. symmetry. apply framed_touch, sends_framed.
Qed.

(** ** The text *)

(** [printf_loop] with the characters in the place of the calls of [consputc]. *)
Fixpoint text (fmt : list Z) (ap : list va) : option (list Z) :=
  match fmt with
  | [] => Some []
  | c :: fmt =>
      if negb (c =? 37) then cons c <$> text fmt ap else
      match fmt with
      | [] => Some []
      | c :: fmt =>
          if (c =? 100) || (c =? 120) then
            match ap with
            | V_int n :: ap => app (rev (printint_buf n (if c =? 100 then 10 else 16) true)) <$> text fmt ap
            | _ => None
            end
          else if c =? 112 then
            match ap with
            | V_ptr x :: ap => app (48 :: 120 :: map (fun k => digits (x / 16 ^ Z.of_nat (15 - k) mod 16)) (seq 0 16)) <$> text fmt ap
            | _ => None
            end
          else if c =? 115 then
            match ap with
            | V_str s :: ap => app (default (chars "(null)") s) <$> text fmt ap
            | _ => None
            end
          else if c =? 37 then cons 37 <$> text fmt ap
          else (fun l => 37 :: c :: l) <$> text fmt ap
      end
  end.

(** With interrupts already off, [m] sends [l] and nothing else. *)
Definition prints (m : K unit) (l : list Z) : Prop :=
  forall s, quiet s -> touch s = s -> m s = Ok tt (sends l s).

Lemma sends_nil s : sends [] s = s.
Proof. by destruct s. Qed.

Lemma sends_touch l s : touch s = s -> touch (sends l s) = sends l s.
Proof. intros E. rewrite <- framed_touch by apply sends_framed. by rewrite E. Qed.

Lemma prints_bind m k l l' : prints m l -> prints k l' -> prints (m;; k)%M (l ++ l').
Proof.
  intros Hm Hk s Hq Ht. rewrite (bind_ok _ _ _ _ _ (Hm s Hq Ht)), Hk; [by rewrite sends_app|by apply sends_quiet|by apply sends_touch].
Qed.

Lemma prints_ret : prints (ret tt) [].
Proof. intros s _ _. by rewrite sends_nil. Qed.

Lemma prints_char c : c <> BACKSPACE -> prints (consputc c) [c].
Proof.
  intros Hc s Hq Ht. unfold consputc. rewrite (proj2 (Z.eqb_neq _ _)) by done. by rewrite uartputc_sync_eq, Ht.
Qed.

Lemma prints_cons c m l : c <> BACKSPACE -> prints m l -> prints (consputc c;; m)%M (c :: l).
Proof. intros Hc Hm. by apply (prints_bind _ _ [c]), Hm; apply prints_char. Qed.

Lemma prints_chars l : BACKSPACE ∉ l -> prints (forM l consputc) l.
Proof.
  induction l as [|c l IH]; intros Hl; cbn [forM]; [apply prints_ret|]. apply not_elem_of_cons in Hl as [Hc Hl].
  apply prints_cons; [done|by apply IH].
Qed.

(** The hexadecimal digits of a 64-bit number. *)
Lemma hex_shift x k : 0 <= x < 2 ^ 64 -> (k < 15)%nat ->
  u64 (Z.shiftl x 4) / 16 ^ Z.of_nat (15 - k) mod 16 = x / 16 ^ Z.of_nat (15 - S k) mod 16.
Proof.
  intros Hx Hk. rewrite Z.shiftl_mul_pow2 by lia. unfold u64. rewrite (Z.mod_eq _ (2 ^ 64)) by lia. set (q := x * 2 ^ 4 / 2 ^ 64).
  replace (Z.of_nat (15 - k)) with (Z.of_nat (15 - S k) + 1) by lia.
  set (e := Z.of_nat (15 - S k)). assert (0 <= e <= 14) as He by lia.
  replace (2 ^ 64) with (16 ^ (e + 1) * 16 ^ (15 - e)) by (rewrite <- Z.pow_add_r by lia; by replace (e + 1 + (15 - e)) with 16 by lia).
  replace (x * 2 ^ 4 - 16 ^ (e + 1) * 16 ^ (15 - e) * q) with (x * 16 + (- (16 ^ (15 - e) * q)) * 16 ^ (e + 1)) by ring.
    rewrite Z.div_add by (apply Z.pow_nonzero; lia). rewrite Z.pow_add_r, Z.pow_1_r by lia.
  rewrite Z.div_mul_cancel_r by (try apply Z.pow_nonzero; lia).
  replace (15 - e) with (14 - e + 1) by lia. rewrite Z.pow_add_r, Z.pow_1_r by lia.
  replace (x / 16 ^ e + - (16 ^ (14 - e) * 16 * q)) with (x / 16 ^ e + (- (16 ^ (14 - e) * q)) * 16) by ring.
  by rewrite Z.mod_add.
Qed.

Definition hex (n : nat) (x : Z) : list Z := map (fun k => digits (x / 16 ^ Z.of_nat (15 - k) mod 16)) (seq 0 n).

Lemma prints_hex n : forall x, 0 <= x < 2 ^ 64 -> (n <= 16)%nat -> BACKSPACE ∉ hex n x -> prints (printptr_loop n x) (hex n x).
Proof.
  induction n as [|n IH]; intros x Hx Hn Hc; [apply prints_ret|]. cbn [printptr_loop].
  assert (hex (S n) x = digits (Z.shiftr x 60) :: hex n (u64 (Z.shiftl x 4))) as E.
  { unfold hex. rewrite <- cons_seq. cbn [map]. rewrite <- seq_shift, map_map. f_equal.
    - rewrite Z.shiftr_div_pow2 by lia. change (16 ^ Z.of_nat (15 - 0)) with (2 ^ 60). rewrite Z.mod_small; [done|].
      split; [apply Z.div_pos; lia|]. apply Z.div_lt_upper_bound; lia.
    - apply map_ext_in. intros k Hk%in_seq. by rewrite hex_shift by lia. }
  rewrite E in Hc |- *. apply not_elem_of_cons in Hc as [Hc1 Hc2]. apply prints_cons; [by apply not_eq_sym|].
  apply IH; [unfold u64; apply Z.mod_pos_bound; lia|lia|done].
Qed.

Definition ptr_ok (v : va) : Prop := match v with V_ptr x => 0 <= x < 2 ^ 64 | _ => True end.

Lemma prints_loop n : forall fmt ap l, (length fmt < n)%nat -> Forall ptr_ok ap -> text fmt ap = Some l -> BACKSPACE ∉ l ->
  prints (printf_loop fmt ap) l.
Proof.
  induction n as [|n IH]; intros fmt ap l Hn Hap; [lia|]. destruct fmt as [|c fmt]; cbn [text printf_loop].
  { intros [= <-] _. apply prints_ret. }
  cbn [length] in Hn. destruct (negb (c =? 37)).
  { intros (l' & El & ->)%fmap_Some [H1 H2]%not_elem_of_cons. apply prints_cons; [by apply not_eq_sym|]. apply IH; done || lia. }
  destruct fmt as [|d fmt]; [intros [= <-] _; apply prints_ret|]. cbn [length] in Hn.
  assert (forall ap l', Forall ptr_ok ap -> text fmt ap = Some l' -> BACKSPACE ∉ l' -> prints (printf_loop fmt ap) l') as IH'
    by (intros; apply IH; done || lia).
  destruct (Z.eqb_spec d 100) as [->|Hd1]; cbn [orb].
  { destruct ap as [|[k| |] ap]; try done. intros (l' & El & ->)%fmap_Some [H1 H2]%not_elem_of_app.
    apply Forall_cons in Hap as [_ Hap]. apply prints_bind; [by apply prints_chars|by apply IH']. }
  destruct (Z.eqb_spec d 120) as [->|Hd2]; cbn [orb].
  { destruct ap as [|[k| |] ap]; try done. intros (l' & El & ->)%fmap_Some [H1 H2]%not_elem_of_app.
    apply Forall_cons in Hap as [_ Hap]. apply prints_bind; [by apply prints_chars|by apply IH']. }
  destruct (d =? 112).
  { destruct ap as [|[|x|] ap]; try done. intros (l' & El & ->)%fmap_Some [H1 H2]%not_elem_of_app.
    apply Forall_cons in Hap as [Hx Hap]. apply prints_bind; [|by apply IH'].
    apply not_elem_of_cons in H1 as [_ [_ H1]%not_elem_of_cons]. unfold printptr. do 2 (apply prints_cons; [done|]).
    by apply (prints_hex 16). }
  destruct (d =? 115).
  { destruct ap as [|[| |str] ap]; try done. intros (l' & El & ->)%fmap_Some [H1 H2]%not_elem_of_app.
    apply Forall_cons in Hap as [_ Hap]. apply prints_bind; [by apply prints_chars|by apply IH']. }
  destruct (d =? 37).
  { intros (l' & El & ->)%fmap_Some [H1 H2]%not_elem_of_cons. apply prints_cons; [done|]. by apply IH'. }
  intros (l' & El & ->)%fmap_Some [H1 [H2 H3]%not_elem_of_cons]%not_elem_of_cons.
  apply prints_cons; [done|]. apply prints_cons; [by apply not_eq_sym|]. by apply IH'.
Qed.

(** [printf] sends its text, under [pr.lock]. *)
Lemma printf_eq fmt ap l s :
  quiet s -> lock_free L_pr s -> pr_locking s <> 0 -> Forall ptr_ok ap -> text fmt ap = Some l -> BACKSPACE ∉ l ->
  printf fmt ap s = Ok tt (sends l (touch s)).
Proof.
  intros Hq Hf Hpr Hap Hl Hb. pose proof (q_hart _ Hq) as Hh. unfold printf. rewrite bind_gets.
  rewrite (proj2 (Z.eqb_neq _ _)) by done. cbn [negb]. rewrite (bind_ok _ _ _ _ _ (acquire_eq _ s Hh Hf)).
  assert (quiet (take_lock L_pr s)) as Hq1 by (split; [by apply take_lock_hart_ok|apply Hq|apply Hq]).
  rewrite (bind_ok _ _ _ _ _ (prints_loop _ fmt ap l (Nat.lt_succ_diag_r _) Hap Hl Hb _ Hq1 (touch_held _ _ (held_take _ _ Hh)))).
  apply release_framed; [apply sends_framed|done|done].
Qed.
