(* ===== verification/Console.v ===== *)
(** * The console: kernel/console.c

    With the helpers of kernel/proc.c it uses: [either_copyout], [either_copyin] and
    [procdump], and [uartintr] of kernel/uart.c. *)

From S2P Require Import Prelude Riscv Memory State Spinlock Sched Sleeplock Kalloc Vm Uart.
From S2P Require Import Printf.

Section console.
Context `{image} `{environment} `{patience}.

(** Copy to either a user address, or kernel address, depending on [user_dst]. *)
Definition either_copyout (user_dst : bool) (dst : Z) (src : list Z) (len : Z) : K Z :=
  p <- curproc;;
  if user_dst then
    pr <- pget p;;
    copyout (p_pagetable pr) dst src len
  else store_bytes dst (take (Z.to_nat len) src);; ret 0.

(** Copy from either a user address, or kernel address, depending on [user_src]; the
    second component is what has been stored at the destination. *)
Definition either_copyin (user_src : bool) (src len : Z) : K (Z * list Z) :=
  p <- curproc;;
  if user_src then
    pr <- pget p;;
    copyin (p_pagetable pr) src len
  else l <- load_bytes src (Z.to_nat len);; ret (0, l).

Definition procstate_name (st : procstate) : string :=
  match st with
  | UNUSED => "unused" | USED => "used" | SLEEPING => "sleep "
  | RUNNABLE => "runble" | RUNNING => "run   " | ZOMBIE => "zombie"
  end.

(** The string in [p->name]: up to the first NUL. *)
Fixpoint cstr (l : list Z) : list Z :=
  match l with [] => [] | c :: l => if c =? 0 then [] else c :: cstr l end.

Definition procdump : K unit :=
  printf newline [];;
  forM plist (fun i =>
    pr <- pget i;;
    if decide (p_state pr = UNUSED) then ret tt else
    printf (chars "%d %s %s")
      [V_int (p_pid pr); V_str (Some (chars (procstate_name (p_state pr))));
       V_str (Some (cstr (p_name pr)))];;
    printf newline []).

Definition INPUT_BUF_SIZE : Z := 128.
Definition CONSOLE : nat := 1.

(** [C(x)], control-x, for the character code of [x]. *)
Definition Ctrl (x : Z) : Z := x - 64.

Fixpoint consolewrite_loop (fuel : nat) (user_src : bool) (src i n : Z) : K Z :=
  match fuel with
  | O => ret i
  | S f =>
      if negb (i <? n) then ret i else
      r <- either_copyin user_src (src +u i) 1;;
      if r.1 =? -1 then ret i else
      uartputc (hd 0 r.2);;
      consolewrite_loop f user_src src (i + 1) n
  end.

Definition consolewrite (user_src : bool) (src n : Z) : K Z :=
  consolewrite_loop (Z.to_nat n) user_src src 0 n.

(** [while(cons.r == cons.w)]: false when the process was killed; [cons.lock] is then
    released. *)
Definition consoleread_wait : K bool :=
  loopM wakeups (fun _ =>
    c <- gets cons_st;;
    if cons_r c =? cons_w c then
      p <- curproc;;
      k <- killed p;;
      if negb (k =? 0) then release L_cons;; ret (inr false)
      else sleep Ch_cons L_cons;; ret (inl tt)
    else ret (inr true)) tt.

(** The loop over the requested bytes: [Some n] when it ends with [n] bytes still wanted,
    [None] when the process was killed. *)
Fixpoint consoleread_loop (fuel : nat) (user_dst : bool) (dst n target : Z) : K (option Z) :=
  match fuel with
  | O => ret (Some n)
  | S f =>
      if negb (n >? 0) then ret (Some n) else
      alive <- consoleread_wait;;
      if negb alive then ret None else
      cn <- gets cons_st;;
      let c := default 0 (cons_buf cn !! Z.to_nat (cons_r cn mod INPUT_BUF_SIZE)) in
      consset (with_cons_r (u32 (cons_r cn + 1)));;
      if c =? Ctrl 68 then
        (if u32 n <? target then consset (with_cons_r (cons_r cn)) else ret tt);;
        ret (Some n)
      else
      r <- either_copyout user_dst dst [c] 1;;
      if r =? -1 then ret (Some n) else
      if c =? 10 then ret (Some (n - 1)) else
      consoleread_loop f user_dst (dst +u 1) (n - 1) target
  end.

Definition consoleread (user_dst : bool) (dst n : Z) : K Z :=
  let target := u32 n in
  acquire L_cons;;
  r <- consoleread_loop (Z.to_nat n) user_dst dst n target;;
  match r with
  | None => ret (-1)
  | Some n =>
      release L_cons;;
      ret (i32 (target - n))
  end.

Definition consoleintr (c : Z) : K unit :=
  acquire L_cons;;
  (if c =? Ctrl 80 then procdump
   else if c =? Ctrl 85 then
     cn <- gets cons_st;;
     loopM (S (Z.to_nat (u32 (cons_e cn - cons_w cn)))) (fun _ =>
       cn <- gets cons_st;;
       if negb (cons_e cn =? cons_w cn)
          && negb (default 0 (cons_buf cn !!
                     Z.to_nat (u32 (cons_e cn - 1) mod INPUT_BUF_SIZE)) =? 10)
       then
         consset (with_cons_e (u32 (cons_e cn - 1)));;
         consputc BACKSPACE;;
         ret (inl tt)
       else ret (inr tt)) tt
   else if (c =? Ctrl 72) || (c =? 127) then
     cn <- gets cons_st;;
     if negb (cons_e cn =? cons_w cn) then
       consset (with_cons_e (u32 (cons_e cn - 1)));;
       consputc BACKSPACE
     else ret tt
   else
     cn <- gets cons_st;;
     if negb (c =? 0) && (u32 (cons_e cn - cons_r cn) <? INPUT_BUF_SIZE) then
       let c := if c =? 13 then 10 else c in
       consputc c;;
       consset (fun cn => with_cons_buf
         (<[Z.to_nat (cons_e cn mod INPUT_BUF_SIZE) := u8 c]> (cons_buf cn)) cn);;
       consset (fun cn => with_cons_e (u32 (cons_e cn + 1)) cn);;
       cn <- gets cons_st;;
       if (c =? 10) || (c =? Ctrl 68) || (u32 (cons_e cn - cons_r cn) =? INPUT_BUF_SIZE) then
         consset (fun cn => with_cons_w (cons_e cn) cn);;
         wakeup Ch_cons
       else ret tt
     else ret tt);;
  release L_cons.

(** Every received character that is waiting, then the transmit queue. *)
Definition uartintr : K unit :=
  u <- gets uart_st;;
  loopM (S (length (uart_rx u))) (fun _ =>
    c <- uartgetc;;
    if c =? -1 then ret (inr tt) else consoleintr c;; ret (inl tt)) tt;;
  acquire L_uart;;
  uartstart;;
  release L_uart.

Definition consoleinit : K unit :=
  initlock L_cons "cons";;
  uartinit;;
  modify (fun s => with_devsw (<[CONSOLE := Some D_console]> (devsw s)) s).

End console.
