(* ===== verification/Bio.v ===== *)
(** * The buffer cache: kernel/bio.c

    The buffers of [bcache] and the head of its list are [bufs]: index [NBUF] is
    [bcache.head].  The cache uses the disk through [disk_driver]. *)

From S2P Require Import Prelude Riscv Memory State Spinlock Sched Sleeplock.

(** What the cache calls: [virtio_disk_rw(b, write)]. *)
Class disk_driver := disk_rw : nat -> bool -> K unit.

Definition bhead : nat := NBUF.

Definition head_push (b : nat) : K unit :=
  h <- bufget bhead;;
  bufset b (with_b_next (b_next h));;
  bufset b (with_b_prev bhead).
Definition head_link (b : nat) : K unit :=
  h <- bufget bhead;;
  bufset (b_next h) (with_b_prev b);;
  bufset bhead (with_b_next b).

Definition binit : K unit :=
  initlock L_bcache "bcache";;
  bufset bhead (with_b_prev bhead);;
  bufset bhead (with_b_next bhead);;
  forM (seq 0 NBUF) (fun b =>
    head_push b;;
    initsleeplock (SL_buf b) "buffer";;
    head_link b).

Section bio.
Context `{environment} `{patience} `{disk_driver}.

(** [for(b = start; b != &bcache.head; b = step(b)) if(test(b)) break]: the list has at
    most [NBUF] buffers. *)
Definition scan (test : buf -> bool) (step : buf -> nat) (start : nat) : K (option nat) :=
  loopM (S NBUF) (fun b =>
    if decide (b = bhead) then ret (inr None) else
    bp <- bufget b;;
    if test bp then ret (inr (Some b)) else ret (inl (step bp))) start.

Definition bget (dev blockno : Z) : K nat :=
  acquire L_bcache;;
  h <- bufget bhead;;
  r <- scan (fun b => (b_dev b =? dev) && (b_blockno b =? blockno)) b_next (b_next h);;
  match r with
  | Some b =>
      bufset b (fun bp => with_b_refcnt (u32 (b_refcnt bp + 1)) bp);;
      release L_bcache;;
      acquiresleep (SL_buf b);;
      ret b
  | None =>
      h <- bufget bhead;;
      r <- scan (fun b => b_refcnt b =? 0) b_prev (b_prev h);;
      match r with
      | Some b =>
          bufset b (with_b_dev dev);;
          bufset b (with_b_blockno blockno);;
          bufset b (with_b_valid 0);;
          bufset b (with_b_refcnt 1);;
          release L_bcache;;
          acquiresleep (SL_buf b);;
          ret b
      | None => panic "bget: no buffers"
      end
  end.

Definition bread (dev blockno : Z) : K nat :=
  b <- bget dev blockno;;
  bp <- bufget b;;
  (if b_valid bp =? 0 then
     disk_rw b false;;
     bufset b (with_b_valid 1)
   else ret tt);;
  ret b.

Definition bwrite (b : nat) : K unit :=
  h <- holdingsleep (SL_buf b);;
  if negb h then panic "bwrite" else
  disk_rw b true.

Definition brelse (b : nat) : K unit :=
  h <- holdingsleep (SL_buf b);;
  if negb h then panic "brelse" else
  releasesleep (SL_buf b);;
  acquire L_bcache;;
  bufset b (fun bp => with_b_refcnt (u32 (b_refcnt bp - 1)) bp);;
  bp <- bufget b;;
  (if b_refcnt bp =? 0 then
     bufset (b_next bp) (with_b_prev (b_prev bp));;
     bp <- bufget b;;
     bufset (b_prev bp) (with_b_next (b_next bp));;
     head_push b;;
     head_link b
   else ret tt);;
  release L_bcache.

Definition bpin (b : nat) : K unit :=
  acquire L_bcache;;
  bufset b (fun bp => with_b_refcnt (u32 (b_refcnt bp + 1)) bp);;
  release L_bcache.

Definition bunpin (b : nat) : K unit :=
  acquire L_bcache;;
  bufset b (fun bp => with_b_refcnt (u32 (b_refcnt bp - 1)) bp);;
  release L_bcache.

(** [b->data], and storing to it. *)
Definition bdata (b : nat) : K (list Z) := bp <- bufget b;; ret (b_data bp).
Definition bdata_set (b : nat) (f : list Z -> list Z) : K unit :=
  bufset b (fun bp => with_b_data (f (b_data bp)) bp).

End bio.
