(* ===== verification/BioRing.v ===== *)
(** * The list of the buffer cache

    [bcache] keeps its buffers on a circular doubly-linked list, the most recently used
    one next to the head.  [ring o bs] says that the links of [bs] spell the order [o];
    [bget] finds the first buffer of that order that passes a test, forwards or
    backwards, and [brelse] moves a buffer to the front of it. *)

From S2P Require Import Prelude Riscv Memory State Spinlock Sched Sleeplock Bio.

(** ** Doubly-linked lists *)

Section linked.
Implicit Types (nx pv : nat -> nat) (l : list nat).

Fixpoint linked nx pv l : Prop :=
  match l with
  | a :: ((b :: _) as r) => nx a = b /\ pv b = a /\ linked nx pv r
  | _ => True
  end.

Lemma linked_app nx pv l1 x l2 :
  linked nx pv (l1 ++ x :: l2) <-> linked nx pv (l1 ++ [x]) /\ linked nx pv (x :: l2).
Proof.
  induction l1 as [|a l1 IH]; [cbn; tauto|]. destruct l1 as [|b l1].
  - cbn. tauto.
  - change (linked nx pv ((a :: b :: l1) ++ x :: l2)) with
      (nx a = b /\ pv b = a /\ linked nx pv ((b :: l1) ++ x :: l2)).
    change (linked nx pv ((a :: b :: l1) ++ [x])) with
      (nx a = b /\ pv b = a /\ linked nx pv ((b :: l1) ++ [x])). tauto.
Qed.

Lemma linked_ext nx pv nx' pv' l :
  (forall i a, l !! i = Some a -> (S i < length l)%nat -> nx' a = nx a) ->
  (forall i b, l !! S i = Some b -> pv' b = pv b) ->
  linked nx pv l -> linked nx' pv' l.
Proof.
  induction l as [|a [|b l] IH]; [done..|]. intros Hn Hp (H1 & H2 & H3). split; [|split].
  - rewrite (Hn 0%nat a); [done|done|cbn; lia].
  - by rewrite (Hp 0%nat b).
  - apply IH; [| |done].
    + intros i x Hi Hlt. apply (Hn (S i)); [done|]. cbn [length] in *. lia.
    + intros i x Hi. by apply (Hp (S i)).
Qed.

Lemma linked_reverse nx pv l : linked nx pv l -> linked pv nx (reverse l).
Proof.
  induction l as [|a [|b l] IH]; [done..|]. intros (H1 & H2 & H3).
  rewrite !reverse_cons, <- app_assoc. cbn [app]. apply linked_app. split.
  - rewrite <- reverse_cons. by apply IH.
  - done.
Qed.

(** The walk from the head: each member leads to the next, the last one to [e]. *)
Fixpoint chain (step : nat -> nat) (e : nat) (l : list nat) : Prop :=
  match l with
  | [] => True
  | a :: r => step a = hd e r /\ chain step e r
  end.

Lemma linked_chain nx pv e x l : linked nx pv (x :: l ++ [e]) -> nx x = hd e l /\ chain nx e l.
Proof.
  revert x. induction l as [|a l IH]; intros x; [cbn; tauto|].
  intros (H1 & H2 & H3). destruct (IH a H3). done.
Qed.

Lemma circle_disjoint e l1 b l2 :
  NoDup (e :: l1 ++ b :: l2) ->
  NoDup (e :: l1) /\ NoDup (l2 ++ [e]) /\ (forall x y, x ∈ l1 -> y ∈ l2 ++ [e] -> x <> y) /\
  (forall x y, x ∈ l2 -> y ∈ e :: l1 -> x <> y).
Proof.
  intros Hnd. rewrite app_comm_cons in Hnd. apply NoDup_app in Hnd as (Hd1 & Hd & Hd2).
  apply NoDup_cons in Hd2 as [_ Hd2]. pose proof Hd1 as [He _]%NoDup_cons.
  assert (e ∉ l2) as He2 by (intros Hin; apply (Hd e); [by left|by right]).
  split; [done|]. split; [|split].
  - apply NoDup_app. split; [done|]. split; [|apply NoDup_singleton].
    intros x Hx ->%list_elem_of_singleton. done.
  - intros x y Hx [Hy| ->%list_elem_of_singleton]%elem_of_app ->; [|done].
    apply (Hd y); [by right|by right].
  - intros x y Hx Hy ->. apply (Hd y); [done|by right].
Qed.

(** Taking [b] out: its neighbours [a] and [c] are linked to each other. *)
Lemma linked_unlink nx pv nx' pv' e l1 b l2 :
  NoDup (e :: l1 ++ b :: l2) -> linked nx pv (e :: (l1 ++ b :: l2) ++ [e]) ->
  (forall x, nx' x = if decide (x = pv b) then nx b else nx x) ->
  (forall x, pv' x = if decide (x = nx b) then pv b else pv x) ->
  linked nx' pv' (e :: (l1 ++ l2) ++ [e]).
Proof.
  intros Hnd Hl Hn Hp. rewrite <- app_assoc in Hl. cbn [app] in Hl. rewrite app_comm_cons in Hl.
  apply linked_app in Hl as [Hl1 Hl2].
  destruct (exists_last (l := e :: l1) ltac:(done)) as (L & a & EL).
  destruct (l2 ++ [e]) as [|c R] eqn:ER; [by destruct l2|].
  rewrite <- app_assoc, ER, app_comm_cons, EL, <- app_assoc. cbn [app].
  rewrite EL, <- app_assoc in Hl1. cbn [app] in Hl1. apply linked_app in Hl1 as [Hl1 (_ & Ha & _)].
  destruct Hl2 as (Hc & _ & Hl2). rewrite Ha in *. rewrite Hc in *. 
  assert (NoDup (L ++ [a]) /\ NoDup (c :: R) /\
    (forall x, x ∈ l1 -> x <> c) /\ (forall x, x ∈ l2 -> x <> a)) as (Hd1 & Hd2 & H1 & H2).
  { destruct (circle_disjoint _ _ _ _ Hnd) as (Hd1 & Hd2 & H1 & H2). rewrite <- EL, <- ER.
    split; [done|]. split; [done|]. split; intros x Hx.
    - apply H1; [done|]. rewrite ER. by left.
    - apply H2; [done|]. rewrite EL. apply elem_of_app. right. by left. }
  apply linked_app. split; [|split; [|split]].
  - revert Hl1. apply linked_ext.
    + intros i x Hx Hlt. rewrite Hn, decide_False; [done|]. intros ->.
      rewrite length_app in Hlt. cbn in Hlt.
      assert ((L ++ [a]) !! length L = Some a) as Hx' by by rewrite list_lookup_middle.
      pose proof (NoDup_lookup _ _ _ _ Hd1 Hx Hx'). lia.
    + intros i x Hx. rewrite <- EL in Hx. rewrite Hp, decide_False; [done|]. apply H1.
      by eapply list_elem_of_lookup_2.
  - rewrite Hn. by rewrite decide_True.
  - rewrite Hp. by rewrite decide_True.
  - revert Hl2. apply linked_ext.
    + intros i x Hx Hlt. rewrite <- ER in Hx, Hlt. rewrite length_app in Hlt. cbn in Hlt.
      rewrite lookup_app_l in Hx by lia. rewrite Hn, decide_False; [done|]. apply H2.
      by eapply list_elem_of_lookup_2.
    + intros i x Hx. rewrite Hp, decide_False; [done|]. intros ->.
      pose proof (NoDup_lookup _ _ _ _ Hd2 Hx (eq_refl : (c :: R) !! 0%nat = Some c)). lia.
Qed.

(** Putting [b] in front. *)
Lemma linked_push nx pv nx' pv' e b l :
  NoDup (e :: b :: l) -> linked nx pv (e :: l ++ [e]) ->
  (forall x, nx' x = if decide (x = e) then b else if decide (x = b) then nx e else nx x) ->
  (forall x, pv' x = if decide (x = nx e) then b else if decide (x = b) then e else pv x) ->
  linked nx' pv' (e :: (b :: l) ++ [e]).
Proof.
  intros Hnd Hl Hn Hp.
  apply NoDup_cons in Hnd as [He Hnd]. apply NoDup_cons in Hnd as [Hb Hnd].
  assert (nx e = hd e l) as Hh by by eapply linked_chain.
  assert (hd e l <> b) as Hne by (destruct l; cbn; set_solver).
  cbn [app]. destruct (l ++ [e]) as [|d R] eqn:ER; [by destruct l|].
  assert (d = hd e l) as Hd by (destruct l; by injection ER). destruct Hl as (Hd' & _ & Hl).
  assert (NoDup (d :: R)) as HdR.
  { rewrite <- ER. apply NoDup_app. split; [done|]. split; [set_solver|apply NoDup_singleton]. }
  split; [by rewrite Hn, decide_True|]. split; [|split; [|split]].
  - rewrite Hp, Hh. rewrite decide_False by done. by rewrite decide_True.
  - rewrite Hn. rewrite decide_False by set_solver. rewrite decide_True by done. congruence.
  - rewrite Hp. by rewrite decide_True.
  - revert Hl. apply linked_ext.
    + intros i x Hx Hlt. rewrite <- ER in Hx, Hlt. rewrite length_app in Hlt. cbn in Hlt.
      rewrite lookup_app_l in Hx by lia. apply list_elem_of_lookup_2 in Hx.
      rewrite Hn, !decide_False by set_solver. done.
    + intros i x Hx. rewrite Hp. rewrite decide_False.
      * rewrite decide_False; [done|]. intros ->. apply list_elem_of_lookup_2 in Hx.
        rewrite <- ER in Hx. set_solver.
      * intros ->. rewrite Hd' in Hx.
        pose proof (NoDup_lookup _ _ _ _ HdR Hx (eq_refl : (d :: R) !! 0%nat = Some d)). lia.
Qed.

End linked.

(** ** The list of buffers *)

Definition getb (bs : list buf) (i : nat) : buf := default buf0 (bs !! i).

Lemma getb_alter f i j bs :
  (i < length bs)%nat -> getb (alter f i bs) j = if decide (j = i) then f (getb bs i) else getb bs j.
Proof.
  intros Hi. unfold getb. destruct (decide (j = i)) as [->|Hne].
  - rewrite list_lookup_alter_eq. by destruct (lookup_lt_is_Some_2 bs i Hi) as [x ->].
  - by rewrite list_lookup_alter_ne.
Qed.

Definition nx (bs : list buf) (i : nat) : nat := b_next (getb bs i).
Definition pv (bs : list buf) (i : nat) : nat := b_prev (getb bs i).

(** The buffers are on the list in the order [o]. *)
Record ring (o : list nat) (bs : list buf) : Prop := {
  ring_perm : o ≡ₚ seq 0 NBUF;
  ring_length : length bs = S NBUF;
  ring_linked : linked (nx bs) (pv bs) (bhead :: o ++ [bhead]);
}.

Lemma ring_lt o bs i : ring o bs -> i ∈ o -> (i < NBUF)%nat.
Proof. intros Hr Hi. rewrite (ring_perm _ _ Hr) in Hi. apply elem_of_seq in Hi. lia. Qed.

Lemma ring_in o bs i : ring o bs -> (i < NBUF)%nat -> i ∈ o.
Proof. intros Hr Hi. rewrite (ring_perm _ _ Hr). apply elem_of_seq. lia. Qed.

Lemma ring_nodup o bs : ring o bs -> NoDup (bhead :: o).
Proof.
  intros Hr. apply NoDup_cons. split.
  - intros Hi. pose proof (ring_lt _ _ _ Hr Hi). unfold bhead in *. lia.
  - rewrite (ring_perm _ _ Hr). apply NoDup_seq.
Qed.

Lemma ring_size o bs : ring o bs -> length o = NBUF.
Proof. intros Hr. rewrite (ring_perm _ _ Hr). apply length_seq. Qed.

(** Only the links of the buffers matter. *)
Lemma ring_ext o bs bs' :
  length bs' = length bs -> (forall i, nx bs' i = nx bs i) -> (forall i, pv bs' i = pv bs i) ->
  ring o bs -> ring o bs'.
Proof.
  intros El En Ep [H1 H2 H3]. split; [done|congruence|].
  eapply linked_ext; [..|exact H3]; auto.
Qed.

(** ** Searching the list *)

(** One round of [bget]'s two searches. *)
Definition scan_round (test : buf -> bool) (step : buf -> nat) (b : nat) : K (nat + option nat) :=
  if decide (b = bhead) then ret (inr None) else
  bp <- bufget b;;
  if test bp then ret (inr (Some b)) else ret (inl (step bp)).

Lemma scan_chain test (step : buf -> nat) l s :
  chain (fun i => step (getb (bufs s) i)) bhead l -> bhead ∉ l ->
  forall n, (length l < n)%nat ->
  loopM n (scan_round test step) (hd bhead l) s =
    Ok (find (fun i => test (getb (bufs s) i)) l) s.
Proof.
  induction l as [|a l IH]; intros Hc Hb n Hn; (destruct n as [|n]; [cbn in Hn; lia|]); cbn [loopM hd].
  - unfold scan_round at 1. by rewrite decide_True.
  - destruct Hc as [Ha Hc]. unfold scan_round at 1. rewrite decide_False by set_solver. rewrite bind_assoc.
    unfold bufget at 1. rewrite bind_gets. fold (getb (bufs s) a). cbn [find].
    destruct (test (getb (bufs s) a)); [reflexivity|]. rewrite bind_ret, Ha.
    apply IH; [done|set_solver|cbn in Hn; lia].
Qed.

(** From the most recently used buffer on. *)
Lemma scan_forward o s test :
  ring o (bufs s) ->
  scan test b_next (nx (bufs s) bhead) s = Ok (find (fun i => test (getb (bufs s) i)) o) s.
Proof.
  intros Hr. destruct (linked_chain _ _ _ _ _ (ring_linked _ _ Hr)) as [-> Hc]. unfold scan.
  apply scan_chain; [exact Hc| |by rewrite (ring_size _ _ Hr); lia].
  by apply NoDup_cons, (ring_nodup _ _ Hr).
Qed.

(** From the least recently used buffer on. *)
Lemma scan_backward o s test :
  ring o (bufs s) ->
  scan test b_prev (pv (bufs s) bhead) s =
    Ok (find (fun i => test (getb (bufs s) i)) (reverse o)) s.
Proof.
  intros Hr. pose proof (linked_reverse _ _ _ (ring_linked _ _ Hr)) as Hl.
  rewrite reverse_cons, reverse_app in Hl. cbn [reverse app] in Hl.
  destruct (linked_chain _ _ _ _ _ Hl) as [-> Hc]. unfold scan.
  apply scan_chain; [exact Hc| |rewrite length_reverse, (ring_size _ _ Hr); lia].
  rewrite elem_of_reverse. by apply NoDup_cons, (ring_nodup _ _ Hr).
Qed.

(** ** Moving a buffer to the front *)

(** The assignments of [brelse] to the links, when nobody refers to [b] any more. *)
Definition unlinked (b : nat) (bs : list buf) : list buf :=
  let bs := alter (with_b_prev (pv bs b)) (nx bs b) bs in
  alter (with_b_next (nx bs b)) (pv bs b) bs.
Definition pushed_front (b : nat) (bs : list buf) : list buf :=
  let bs := alter (with_b_next (nx bs bhead)) b bs in
  let bs := alter (with_b_prev bhead) b bs in
  let bs := alter (with_b_prev b) (nx bs bhead) bs in
  alter (with_b_next b) bhead bs.

(** A buffer without its links. *)
Definition payload (x : buf) : buf := with_b_prev 0 (with_b_next 0 x).

Lemma payload_alter f i bs j :
  (forall x, payload (f x) = payload x) -> payload (getb (alter f i bs) j) = payload (getb bs j).
Proof.
  intros Hf. unfold getb. destruct (decide (j = i)) as [->|Hne].
  - rewrite list_lookup_alter_eq. by destruct (bs !! i); cbn.
  - by rewrite list_lookup_alter_ne.
Qed.

Lemma payload_front b bs j : payload (getb (pushed_front b (unlinked b bs)) j) = payload (getb bs j).
Proof. unfold pushed_front, unlinked. cbv zeta. by rewrite !payload_alter. Qed.

Lemma length_front b bs : length (pushed_front b (unlinked b bs)) = length bs.
Proof. unfold pushed_front, unlinked. cbv zeta. by rewrite !length_alter. Qed.

(** The links after one assignment. *)
Lemma nx_prev v i bs j : nx (alter (with_b_prev v) i bs) j = nx bs j.
Proof.
  unfold nx, getb. destruct (decide (j = i)) as [->|Hne].
  - rewrite list_lookup_alter_eq. by destruct (bs !! i).
  - by rewrite list_lookup_alter_ne.
Qed.

Lemma pv_next v i bs j : pv (alter (with_b_next v) i bs) j = pv bs j.
Proof.
  unfold pv, getb. destruct (decide (j = i)) as [->|Hne].
  - rewrite list_lookup_alter_eq. by destruct (bs !! i).
  - by rewrite list_lookup_alter_ne.
Qed.

Lemma nx_next v i bs j :
  (i < length bs)%nat -> nx (alter (with_b_next v) i bs) j = if decide (j = i) then v else nx bs j.
Proof. intros Hi. unfold nx. rewrite getb_alter by done. by destruct (decide (j = i)). Qed.

Lemma pv_prev v i bs j :
  (i < length bs)%nat -> pv (alter (with_b_prev v) i bs) j = if decide (j = i) then v else pv bs j.
Proof. intros Hi. unfold pv. rewrite getb_alter by done. by destruct (decide (j = i)). Qed.

(** Every link leads to a buffer or to the head. *)
Lemma ring_links o bs i :
  ring o bs -> i ∈ o -> (nx bs i < length bs)%nat /\ (pv bs i < length bs)%nat.
Proof.
  intros Hr Hi. rewrite (ring_length _ _ Hr).
  assert (forall x, x ∈ bhead :: o -> (x < S NBUF)%nat) as Hb.
  { intros x [->|Hx]%elem_of_cons; [unfold bhead; lia|]. pose proof (ring_lt _ _ _ Hr Hx). lia. }
  apply list_elem_of_split in Hi as (l1 & l2 & ->). pose proof (ring_linked _ _ Hr) as Hl.
  rewrite <- app_assoc in Hl. cbn [app] in Hl. rewrite app_comm_cons in Hl.
  apply linked_app in Hl as [Hl1 Hl2]. split.
  - destruct (linked_chain _ _ _ _ _ Hl2) as [-> _]. apply Hb.
    destruct l2; cbn; [by left|]. right. apply elem_of_app. right. right. by left.
  - apply linked_reverse in Hl1. rewrite reverse_app, (reverse_cons l1) in Hl1. cbn [reverse app] in Hl1.
    destruct (linked_chain _ _ _ _ _ Hl1) as [-> _]. apply Hb.
    destruct (reverse l1) as [|y l] eqn:E; cbn; [by left|]. right. apply elem_of_app. left.
    apply elem_of_reverse. rewrite E. by left.
Qed.

(** Putting buffer [b] next to the head. *)
Lemma push_front_linked b l bs :
  length bs = S NBUF -> (b < NBUF)%nat -> (forall x, x ∈ l -> (x < NBUF)%nat) -> b ∉ l -> NoDup l ->
  linked (nx bs) (pv bs) (bhead :: l ++ [bhead]) ->
  linked (nx (pushed_front b bs)) (pv (pushed_front b bs)) (bhead :: (b :: l) ++ [bhead]).
Proof.
  intros HL Hb Hlt Hbl Hnd Hl. assert (bhead <> b) as Hhb by (unfold bhead; lia).
  assert (nx bs bhead < S NBUF)%nat as Hnu.
  { destruct (linked_chain _ _ _ _ _ Hl) as [-> _]. destruct l as [|c l]; cbn; [unfold bhead; lia|].
    specialize (Hlt c ltac:(by left)). lia. }
  eapply linked_push; [|exact Hl| |].
  - apply NoDup_cons. split; [|by apply NoDup_cons].
    intros [?|Hin]%elem_of_cons; [done|]. specialize (Hlt _ Hin). unfold bhead in Hlt. lia.
  - intros x. unfold pushed_front. cbv zeta. rewrite nx_next by (rewrite !length_alter, HL; unfold bhead; lia).
    rewrite !nx_prev, nx_next by lia. done.
  - intros x. unfold pushed_front. cbv zeta. rewrite pv_next, !nx_prev, nx_next by lia.
    rewrite decide_False by done. rewrite !pv_prev by (rewrite !length_alter; lia).
    by rewrite pv_next.
Qed.

Lemma ring_front l1 b l2 bs :
  ring (l1 ++ b :: l2) bs -> ring (b :: l1 ++ l2) (pushed_front b (unlinked b bs)).
Proof.
  intros Hr. assert (b ∈ l1 ++ b :: l2) as Hb by (apply elem_of_app; right; by left).
  destruct (ring_links _ _ b Hr Hb) as [Hn Hp]. pose proof (ring_lt _ _ _ Hr Hb) as Hlt.
  pose proof (ring_nodup _ _ Hr) as Hnd. destruct Hr as [H1 H2 H3].
  assert (nx bs b <> b) as Hnb.
  { intros E. rewrite <- app_assoc in H3. cbn [app] in H3. rewrite app_comm_cons in H3.
    apply linked_app in H3 as [_ H3]. destruct (linked_chain _ _ _ _ _ H3) as [E' _].
    destruct (circle_disjoint _ _ _ _ Hnd) as (_ & _ & _ & Hd). rewrite E in E'.
    destruct l2 as [|c l2]; cbn in E'; [unfold bhead in E'; lia|]. subst c.
    apply NoDup_cons in Hnd as [_ Hnd]. apply NoDup_app in Hnd as (_ & _ & Hnd).
    apply NoDup_cons in Hnd as [Hnd _]. apply Hnd. by left. }
  split.
  - rewrite <- H1. apply Permutation_middle.
  - by rewrite length_front.
  - assert (linked (nx (unlinked b bs)) (pv (unlinked b bs)) (bhead :: (l1 ++ l2) ++ [bhead])) as Hl.
    { eapply linked_unlink; [exact Hnd|exact H3| |]; intros x; unfold unlinked; cbv zeta.
      - rewrite pv_prev by done. rewrite (decide_False (P := b = _)) by done.
        rewrite nx_next by by rewrite length_alter. by rewrite !nx_prev.
      - rewrite pv_next, pv_prev by done. reflexivity. }
    assert (length (unlinked b bs) = S NBUF) as HL
      by (unfold unlinked; cbv zeta; by rewrite !length_alter).
    apply push_front_linked; [done|done| | | |exact Hl].
    + intros x Hx. assert (x ∈ seq 0 NBUF) as Hs%elem_of_seq; [|lia].
      rewrite <- H1, <- Permutation_middle. by right.
    + rewrite <- Permutation_middle in Hnd. apply NoDup_cons in Hnd as [_ [Hnd _]%NoDup_cons]. exact Hnd.
    + rewrite <- Permutation_middle in Hnd. apply NoDup_cons in Hnd as [_ [_ Hnd]%NoDup_cons]. exact Hnd.
Qed.
