(* ===== verification/BioSpec.v ===== *)
(** * What the buffer cache promises

    [bget] returns the buffer of a block or recycles the least recently used one;
    [cache] relates the buffers to the contents of the blocks, and with it [bread],
    [bwrite], [brelse], [bpin] and [bunpin] have specifications that speak of blocks
    only. *)

From S2P Require Import Prelude Riscv Memory State Spinlock Sched SchedSpec Sleeplock SleepSpec.
From S2P Require Import Bio BioRing.

(** ** Choosing a buffer *)

Definition incref (x : buf) : buf := with_b_refcnt (u32 (b_refcnt x + 1)) x.
Definition decref (x : buf) : buf := with_b_refcnt (u32 (b_refcnt x - 1)) x.
Definition recycled (dev bn : Z) (x : buf) : buf :=
  with_b_refcnt 1 (with_b_valid 0 (with_b_blockno bn (with_b_dev dev x))).

Definition is_block (dev bn : Z) (x : buf) : bool := (b_dev x =? dev) && (b_blockno x =? bn).
Definition is_unused (x : buf) : bool := b_refcnt x =? 0.

(** The buffer [bget] chooses, and what it makes of it. *)
Definition pick (o : list nat) (bs : list buf) (dev bn : Z) : option (nat * (buf -> buf)) :=
  match find (fun i => is_block dev bn (getb bs i)) o with
  | Some b => Some (b, incref)
  | None => (fun b => (b, recycled dev bn)) <$> find (fun i => is_unused (getb bs i)) (reverse o)
  end.

Definition upd_buf (b : nat) (f : buf -> buf) (s : kst) : kst := with_bufs (alter f b (bufs s)) s.

Lemma upd_buf_framed b f : framed (upd_buf b f).
Proof. unfold upd_buf. solve_framed. Qed.

Lemma bufset_eq b f : bufset b f = modify (upd_buf b f).
Proof. done. Qed.

Lemma upd_buf_upd b f g s : upd_buf b f (upd_buf b g s) = upd_buf b (fun x => f (g x)) s.
Proof. unfold upd_buf. kst_cbv. by rewrite list_alter_alter_eq. Qed.

Lemma idle_upd_buf p pr h b f s : idle p pr h s -> idle p pr h (upd_buf b f s).
Proof. by apply idle_frame. Qed.

Section bget.
Context `{environment} `{patience}.

Lemma bget_wp p pr h o dev bn b f s :
  (0 < wakeups)%nat -> idle p pr h s -> ring o (bufs s) ->
  pick o (bufs s) dev bn = Some (b, f) -> b ∉ h ->
  wp (bget dev bn) (fun b' s' =>
    b' = b /\ idle p pr ({[b]} ∪ h) s' /\ body s' = body (upd_buf b f s)) s.
Proof.
  intros Hw Hi Hr Hp Hb. pose proof (idle_hart _ _ _ _ Hi) as Hh.
  pose proof (id_locks _ _ _ _ Hi L_bcache eq_refl) as Hl.
  assert (b ∈ o) as Ho.
  { unfold pick in Hp. destruct (find _ o) as [c|] eqn:E1.
    - injection Hp as <- <-. apply find_some in E1 as [E1 _]. by apply list_elem_of_In.
    - destruct (find _ (reverse o)) as [c|] eqn:E2; [|done]. injection Hp as <- <-.
      apply find_some in E2 as [E2 _]. by apply elem_of_reverse, list_elem_of_In. }
  assert (wp (acquiresleep (SL_buf b);; ret b)%M (fun b' s' =>
    b' = b /\ idle p pr ({[b]} ∪ h) s' /\ body s' = body (upd_buf b f s)) (upd_buf b f (touch s))) as Hend.
  { apply wp_bind. eapply wp_mono.
    - apply (acquiresleep_idle p pr h); [done|by apply idle_upd_buf, idle_touch|by eapply ring_lt|done].
    - intros _ s1 [Hi1 Hb1]. by apply wp_ret. }
  unfold bget. apply wp_bind. eapply wp_eq; [by apply acquire_eq|]. set (s1 := take_lock _ s).
  apply wp_bind. apply wp_gets. apply wp_bind. change (ring o (bufs s1)) in Hr.
  eapply wp_eq; [exact (scan_forward o s1 (is_block dev bn) Hr)|]. unfold pick in Hp.
  change (bufs s) with (bufs s1) in Hp.
  destruct (find _ o) as [c|] eqn:E1.
  - injection Hp as <- <-. rewrite bufset_eq. apply wp_bind, wp_modify, wp_bind.
    eapply wp_eq; [by apply (release_framed (upd_buf c incref)); [apply upd_buf_framed|..]|]. exact Hend.
  - apply wp_bind, wp_gets, wp_bind.
    eapply wp_eq; [exact (scan_backward o s1 is_unused Hr)|].
    destruct (find _ (reverse o)) as [c|] eqn:E2; [|done]. injection Hp as <- <-.
    rewrite !bufset_eq. do 4 apply wp_bind, wp_modify. apply wp_bind. rewrite !upd_buf_upd.
    eapply wp_eq; [by apply (release_framed (upd_buf c (recycled dev bn))); [apply upd_buf_framed|..]|].
    exact Hend.
Qed.

Lemma bget_panic p pr h o dev bn s :
  idle p pr h s -> ring o (bufs s) -> pick o (bufs s) dev bn = None ->
  bget dev bn s = Panic "bget: no buffers" (take_lock L_bcache s).
Proof.
  intros Hi Hr Hp. pose proof (idle_hart _ _ _ _ Hi) as Hh.
  pose proof (id_locks _ _ _ _ Hi L_bcache eq_refl) as Hl.
  unfold bget. rewrite (bind_ok _ _ _ _ _ (acquire_eq _ s Hh Hl)). set (s1 := take_lock _ s).
  unfold bufget. rewrite bind_gets. change (ring o (bufs s1)) in Hr.
  rewrite (bind_ok _ _ _ _ _ (scan_forward o s1 (is_block dev bn) Hr)). unfold pick in Hp.
  change (bufs s) with (bufs s1) in Hp.
  destruct (find _ o) as [c|] eqn:E1; [done|]. rewrite bind_gets.
  rewrite (bind_ok _ _ _ _ _ (scan_backward o s1 is_unused Hr)).
  by destruct (find _ (reverse o)) as [c|].
Qed.

End bget.

(** ** Buffers and blocks *)

Definition dblock (d : gmap Z (list Z)) (bn : Z) : list Z :=
  default (replicate (Z.to_nat BSIZE) 0) (d !! bn).

(** Block numbers the driver can address: sectors are 32-bit. *)
Definition block_ok (bn : Z) : Prop := 0 <= bn < 2 ^ 31.

(** The buffers [B] cache blocks of device [dv], whose contents are [V].  [R] counts the
    references to the blocks that have any; the process holds the buffers in [h], each with
    its block.  A block to which there is no reference is as on the disk [d]. *)
Record blocks (dv : Z) (V : Z -> list Z) (R : gmap Z nat) (h : gmap nat Z) (B : nat -> buf)
  (d : gmap Z (list Z)) : Prop := {
  c_disk : forall i, (i < NBUF)%nat -> b_disk (B i) = 0;
  c_dev : forall i, (i < NBUF)%nat -> b_dev (B i) = dv \/ (b_refcnt (B i) = 0 /\ b_valid (B i) = 0);
  c_uniq : forall i j, (i < NBUF)%nat -> (j < NBUF)%nat -> b_dev (B i) = dv -> b_dev (B j) = dv ->
    b_blockno (B i) = b_blockno (B j) -> i = j;
  c_refs : forall i, (i < NBUF)%nat -> b_dev (B i) = dv ->
    b_refcnt (B i) = Z.of_nat (default O (R !! b_blockno (B i)));
  c_dom : forall bn n, R !! bn = Some n -> (0 < n)%nat /\ Z.of_nat n < 2 ^ 32 /\ block_ok bn /\
    exists i, (i < NBUF)%nat /\ b_dev (B i) = dv /\ b_blockno (B i) = bn /\ b_valid (B i) <> 0;
  c_view : forall i, (i < NBUF)%nat -> b_dev (B i) = dv -> b_valid (B i) <> 0 ->
    b_data (B i) = V (b_blockno (B i));
  c_clean : forall bn, R !! bn = None -> V bn = dblock d bn;
  c_held : forall b bn, h !! b = Some bn -> (b < NBUF)%nat /\ b_dev (B b) = dv /\
    b_blockno (B b) = bn /\ is_Some (R !! bn);
  c_size : forall bn, length (V bn) = Z.to_nat BSIZE;
}.

Section blocks.
Context (dv : Z).
Implicit Types (V : Z -> list Z) (R : gmap Z nat) (h : gmap nat Z) (B : nat -> buf).

(** A buffer with references is valid, and there is only one for a block. *)
Lemma c_valid V R h B d i :
  blocks dv V R h B d -> (i < NBUF)%nat -> b_dev (B i) = dv -> is_Some (R !! b_blockno (B i)) ->
  b_valid (B i) <> 0.
Proof.
  intros Hc Hi Hd [n Hn].
  destruct (c_dom _ _ _ _ _ _ Hc _ _ Hn) as (_ & _ & _ & j & Hj & Hdj & Hbj & Hv).
  by rewrite (c_uniq _ _ _ _ _ _ Hc i j).
Qed.

Lemma c_unused V R h B d i :
  blocks dv V R h B d -> (i < NBUF)%nat -> b_dev (B i) = dv -> b_refcnt (B i) = 0 ->
  R !! b_blockno (B i) = None.
Proof.
  intros Hc Hi Hd Hr. rewrite (c_refs _ _ _ _ _ _ Hc) in Hr by done.
  destruct (R !! _) as [n|] eqn:E; [|done]. destruct (c_dom _ _ _ _ _ _ Hc _ _ E) as [Hn _].
  cbn in Hr. lia.
Qed.

Lemma blocks_ext V R h B B' d :
  (forall i, payload (B' i) = payload (B i)) -> blocks dv V R h B d -> blocks dv V R h B' d.
Proof.
  intros Hp [H1 H2 H3 H4 H5 H6 H7 H8 H9].
  assert (forall i, b_disk (B' i) = b_disk (B i) /\ b_dev (B' i) = b_dev (B i) /\
    b_refcnt (B' i) = b_refcnt (B i) /\ b_valid (B' i) = b_valid (B i) /\
    b_blockno (B' i) = b_blockno (B i) /\ b_data (B' i) = b_data (B i)) as E.
  { intros i. specialize (Hp i). destruct (B' i), (B i). by injection Hp. }
  split; [..|done].
  - intros i. destruct (E i) as (-> & _). apply H1.
  - intros i. destruct (E i) as (_ & -> & -> & -> & _). apply H2.
  - intros i j. destruct (E i) as (_ & -> & _ & _ & -> & _), (E j) as (_ & -> & _ & _ & -> & _). apply H3.
  - intros i. destruct (E i) as (_ & -> & -> & _ & -> & _). apply H4.
  - intros bn n Hn. destruct (H5 bn n Hn) as (? & ? & ? & i & Hi). split_and!; try done. exists i.
    destruct (E i) as (_ & -> & _ & -> & -> & _). exact Hi.
  - intros i. destruct (E i) as (_ & -> & _ & -> & -> & ->). apply H6.
  - exact H7.
  - intros b bn Hb. destruct (E b) as (_ & -> & _ & _ & -> & _). by apply H8.
Qed.

(** Replacing one buffer. *)
Definition put (b : nat) (x : buf) (B : nat -> buf) (i : nat) : buf := if decide (i = b) then x else B i.

Lemma put_eq b x B : put b x B b = x.
Proof. unfold put. by rewrite decide_True. Qed.
Lemma put_ne b x B i : i <> b -> put b x B i = B i.
Proof. intros. unfold put. by rewrite decide_False. Qed.

(** Getting hold of block [bn] through buffer [b]: either [b] already caches it, or
    nobody does and [b] is not in use. *)
Lemma blocks_acquire V R h B d b x bn :
  blocks dv V R h B d -> (b < NBUF)%nat -> block_ok bn ->
  Z.of_nat (S (default O (R !! bn))) < 2 ^ 32 ->
  (b_dev (B b) = dv /\ b_blockno (B b) = bn \/
   b_refcnt (B b) = 0 /\ forall i, (i < NBUF)%nat -> is_block dv bn (B i) = false) ->
  b_disk x = 0 -> b_dev x = dv -> b_blockno x = bn -> b_valid x <> 0 -> b_data x = V bn ->
  b_refcnt x = Z.of_nat (S (default O (R !! bn))) ->
  blocks dv V (<[bn := S (default O (R !! bn))]> R) (<[b := bn]> h) (put b x B) d.
Proof.
  intros Hc Hb Hok Hmax Hpick X1 X2 X3 X4 X5 X6.
  assert (forall i, (i < NBUF)%nat -> b_dev (B i) = dv -> b_blockno (B i) = bn -> i = b) as Hone.
  { intros i Hi Hd Hn. destruct Hpick as [[Hd' Hn']|[_ Hno]].
    - apply (c_uniq _ _ _ _ _ _ Hc); congruence.
    - specialize (Hno i Hi). unfold is_block in Hno. lia. }
  assert (forall bn' n, R !! bn' = Some n -> bn' <> bn -> b_dev (B b) = dv -> b_blockno (B b) <> bn') as Hoth.
  { intros bn' n Hn Hne Hd E. destruct Hpick as [[_ Hn']|[Hr _]]; [congruence|].
    pose proof (c_unused _ _ _ _ _ b Hc Hb Hd Hr). congruence. }
  destruct Hc as [H1 H2 H3 H4 H5 H6 H7 H8 H9]. split.
  - intros i Hi. unfold put. destruct (decide (i = b)); auto.
  - intros i Hi. unfold put. destruct (decide (i = b)); auto.
  - intros i j Hi Hj. unfold put.
    destruct (decide (i = b)) as [->|Hib], (decide (j = b)) as [->|Hjb]; [done|..|by apply H3].
    + intros _ Hd E. exfalso. apply Hjb, Hone; congruence.
    + intros Hd _ E. exfalso. apply Hib, Hone; congruence.
  - intros i Hi. unfold put. destruct (decide (i = b)) as [->|Hib].
    + intros _. by rewrite X3, lookup_insert_eq.
    + intros Hd. rewrite lookup_insert_ne by (intros E; apply Hib, Hone; congruence). by apply H4.
  - intros bn' n. destruct (decide (bn' = bn)) as [->|Hne].
    + rewrite lookup_insert_eq. intros [= <-]. split_and!; [lia|done|done|]. exists b. by rewrite put_eq.
    + rewrite lookup_insert_ne by done. intros Hn. destruct (H5 _ _ Hn) as (? & ? & ? & i & Hi & Hd & Hn' & Hv).
      split_and!; try done. exists i. rewrite put_ne; [done|]. intros ->. by apply (Hoth bn' n).
  - intros i Hi. unfold put. destruct (decide (i = b)) as [->|Hib]; [by rewrite X3|by apply H6].
  - intros bn' [Hn Hne]%lookup_insert_None. by apply H7.
  - intros b' bn'. destruct (decide (b' = b)) as [->|Hne].
    + rewrite lookup_insert_eq. intros [= <-]. rewrite put_eq, lookup_insert_eq. eauto.
    + rewrite lookup_insert_ne by done. intros Hn. destruct (H8 _ _ Hn) as (? & ? & ? & Hs).
      rewrite put_ne by done. split_and!; try done. rewrite lookup_insert_is_Some'. by right.
  - exact H9.
Qed.

(** What is known of a buffer one holds. *)
Lemma c_mine V R h B d b bn :
  blocks dv V R h B d -> h !! b = Some bn ->
  exists n, (b < NBUF)%nat /\ b_dev (B b) = dv /\ b_blockno (B b) = bn /\ R !! bn = Some n /\
    (0 < n)%nat /\ Z.of_nat n < 2 ^ 32 /\ block_ok bn /\ b_refcnt (B b) = Z.of_nat n /\
    b_data (B b) = V bn /\ b_disk (B b) = 0 /\ b_valid (B b) <> 0.
Proof.
  intros Hc Hh. destruct (c_held _ _ _ _ _ _ Hc _ _ Hh) as (Hb & Hd & Hn & n & Hr).
  destruct (c_dom _ _ _ _ _ _ Hc _ _ Hr) as (Hn0 & Hn1 & Hok & _). exists n.
  assert (b_valid (B b) <> 0) as Hv by (apply (c_valid _ _ _ _ _ b Hc); [done|done|rewrite Hn; by eexists]).
  split_and!; try done.
  - rewrite (c_refs _ _ _ _ _ _ Hc) by done. by rewrite Hn, Hr.
  - rewrite (c_view _ _ _ _ _ _ Hc) by done. by rewrite Hn.
  - by apply (c_disk _ _ _ _ _ _ Hc).
Qed.

(** The number of references to a block one holds changes, but not to 0. *)
Lemma blocks_refcnt V R h B d b bn n :
  blocks dv V R h B d -> h !! b = Some bn -> (0 < n)%nat -> Z.of_nat n < 2 ^ 32 ->
  blocks dv V (<[bn := n]> R) h (put b (with_b_refcnt (Z.of_nat n) (B b)) B) d.
Proof.
  intros Hc Hh Hn0 Hn1. destruct (c_mine _ _ _ _ _ _ _ Hc Hh) as (n' & Hb & Hd & Hn & Hr & _ & _ & Hok & _ & Hx & _ & Hv).
  assert (forall i, (i < NBUF)%nat -> b_dev (B i) = dv -> i <> b -> b_blockno (B i) <> bn) as Hone.
  { intros i Hi Hdi Hne E. apply Hne, (c_uniq _ _ _ _ _ _ Hc); congruence. }
  destruct Hc as [H1 H2 H3 H4 H5 H6 H7 H8 H9]. split; [..|exact H9].
  - intros i Hi. unfold put. destruct (decide (i = b)) as [->|]; by apply H1.
  - intros i Hi. unfold put. destruct (decide (i = b)) as [->|]; [by left|by apply H2].
  - intros i j. unfold put. destruct (decide (i = b)) as [->|], (decide (j = b)) as [->|]; apply H3.
  - intros i Hi. unfold put. destruct (decide (i = b)) as [->|Hne]; cbn.
    + intros _. by rewrite Hn, lookup_insert_eq.
    + intros Hdi. rewrite lookup_insert_ne by (symmetry; by apply Hone). by apply H4.
  - intros bn' n2. destruct (decide (bn' = bn)) as [->|Hne].
    + rewrite lookup_insert_eq. intros [= <-]. split_and!; try done. exists b. by rewrite put_eq.
    + rewrite lookup_insert_ne by done. intros Hn2. destruct (H5 _ _ Hn2) as (? & ? & ? & i & Hi).
      split_and!; try done. exists i. rewrite put_ne; [done|]. intros ->. destruct Hi as (_ & _ & ? & _). congruence.
  - intros i Hi. unfold put. destruct (decide (i = b)) as [->|Hne]; apply H6; done.
  - intros bn' [Hn' Hne]%lookup_insert_None. by apply H7.
  - intros b' bn' Hb'. destruct (H8 _ _ Hb') as (? & Hd' & Hn' & Hs). split; [done|].
    unfold put. destruct (decide (b' = b)) as [->|]; cbn; (split_and!; try done);
      rewrite lookup_insert_is_Some'; by right.
Qed.

(** The last reference goes: the block must be as on the disk. *)
Lemma blocks_unref V R h B d b bn :
  blocks dv V R h B d -> h !! b = Some bn -> V bn = dblock d bn ->
  blocks dv V (delete bn R) (delete b h) (put b (with_b_refcnt 0 (B b)) B) d.
Proof.
  intros Hc Hh Hcl. destruct (c_mine _ _ _ _ _ _ _ Hc Hh) as (n & Hb & Hd & Hn & Hr & _ & _ & Hok & _ & Hx & _ & Hv).
  assert (forall i, (i < NBUF)%nat -> b_dev (B i) = dv -> i <> b -> b_blockno (B i) <> bn) as Hone.
  { intros i Hi Hdi Hne E. apply Hne, (c_uniq _ _ _ _ _ _ Hc); congruence. }
  destruct Hc as [H1 H2 H3 H4 H5 H6 H7 H8 H9]. split; [..|exact H9].
  - intros i Hi. unfold put. destruct (decide (i = b)) as [->|]; by apply H1.
  - intros i Hi. unfold put. destruct (decide (i = b)) as [->|]; [by left|by apply H2].
  - intros i j. unfold put. destruct (decide (i = b)) as [->|], (decide (j = b)) as [->|]; apply H3.
  - intros i Hi. unfold put. destruct (decide (i = b)) as [->|Hne]; cbn.
    + intros _. by rewrite Hn, lookup_delete_eq.
    + intros Hdi. rewrite lookup_delete_ne by (symmetry; by apply Hone). by apply H4.
  - intros bn' n2 [Hne Hn2]%lookup_delete_Some. destruct (H5 _ _ Hn2) as (? & ? & ? & i & Hi).
    split_and!; try done. exists i. rewrite put_ne; [done|]. intros ->. destruct Hi as (_ & _ & ? & _). congruence.
  - intros i Hi. unfold put. destruct (decide (i = b)) as [->|Hne]; apply H6; done.
  - intros bn' [->|Hn']%lookup_delete_None; [done|by apply H7].
  - intros b' bn' [Hne Hb']%lookup_delete_Some. destruct (H8 _ _ Hb') as (Hlt & Hd' & Hn' & Hs).
    rewrite put_ne by done. split_and!; try done. rewrite lookup_delete_ne; [done|].
    intros <-. by apply (Hone b').
Qed.

Lemma blocks_forget V R h B d b : blocks dv V R h B d -> blocks dv V R (delete b h) B d.
Proof.
  intros [H1 H2 H3 H4 H5 H6 H7 H8 H9]. split; try done.
  intros b' bn' [_ Hb']%lookup_delete_Some. by apply H8.
Qed.

Definition setv V (bn : Z) (x : list Z) (bn' : Z) : list Z := if decide (bn' = bn) then x else V bn'.

Lemma setv_eq V bn x : setv V bn x bn = x.
Proof. unfold setv. by rewrite decide_True. Qed.
Lemma setv_ne V bn x bn' : bn' <> bn -> setv V bn x bn' = V bn'.
Proof. intros. unfold setv. by rewrite decide_False. Qed.

(** Storing into a buffer one holds. *)
Lemma blocks_store V R h B d b bn x :
  blocks dv V R h B d -> h !! b = Some bn -> length x = Z.to_nat BSIZE ->
  blocks dv (setv V bn x) R h (put b (with_b_data x (B b)) B) d.
Proof.
  intros Hc Hh Hx. destruct (c_mine _ _ _ _ _ _ _ Hc Hh) as (n & Hb & Hd & Hn & Hr & _ & _ & Hok & _ & _ & _ & Hv).
  assert (forall i, (i < NBUF)%nat -> b_dev (B i) = dv -> i <> b -> b_blockno (B i) <> bn) as Hone.
  { intros i Hi Hdi Hne E. apply Hne, (c_uniq _ _ _ _ _ _ Hc); congruence. }
  destruct Hc as [H1 H2 H3 H4 H5 H6 H7 H8 H9]. split.
  - intros i Hi. unfold put. destruct (decide (i = b)) as [->|]; by apply H1.
  - intros i Hi. unfold put. destruct (decide (i = b)) as [->|]; [by left|by apply H2].
  - intros i j. unfold put. destruct (decide (i = b)) as [->|], (decide (j = b)) as [->|]; apply H3.
  - intros i Hi. unfold put. destruct (decide (i = b)) as [->|Hne]; apply H4; done.
  - intros bn' n2 Hn2. destruct (H5 _ _ Hn2) as (? & ? & ? & i & Hi).
    split_and!; try done. exists i. unfold put. destruct (decide (i = b)) as [->|]; done.
  - intros i Hi. unfold put, setv. destruct (decide (i = b)) as [->|Hne]; cbn.
    + intros _ _. by rewrite decide_True.
    + intros Hdi Hvi. rewrite decide_False by by apply Hone. by apply H6.
  - intros bn' Hn'. unfold setv. rewrite decide_False by congruence. by apply H7.
  - intros b' bn' Hb'. unfold put. destruct (decide (b' = b)) as [->|]; by apply H8.
  - intros bn'. unfold setv. by destruct (decide (bn' = bn)).
Qed.

(** Writing a block one holds to the disk. *)
Lemma blocks_write V R h B d b bn :
  blocks dv V R h B d -> h !! b = Some bn -> blocks dv V R h B (<[bn := V bn]> d).
Proof.
  intros Hc Hh. destruct (c_mine _ _ _ _ _ _ _ Hc Hh) as (n & _ & _ & _ & Hr & _).
  destruct Hc as [H1 H2 H3 H4 H5 H6 H7 H8 H9]. split; try done.
  intros bn' Hn'. unfold dblock. rewrite lookup_insert_ne by congruence. by apply H7.
Qed.

(** With fewer referenced blocks than buffers, some buffer is free. *)
Lemma blocks_room V R h B d :
  blocks dv V R h B d -> (size R < NBUF)%nat -> exists i, (i < NBUF)%nat /\ b_refcnt (B i) = 0.
Proof.
  intros Hc Hsz.
  destruct (decide (Exists (fun i => b_refcnt (B i) = 0) (seq 0 NBUF))) as [He|Hn].
  { apply Exists_exists in He as (i & Hi%elem_of_seq & Hr). exists i. split; [lia|done]. }
  exfalso. assert (forall i, (i < NBUF)%nat -> b_refcnt (B i) <> 0) as Hall.
  { intros i Hi Hr. apply Hn, Exists_exists. exists i. split; [apply elem_of_seq; lia|done]. }
  assert (forall i, (i < NBUF)%nat -> b_dev (B i) = dv) as Hd.
  { intros i Hi. destruct (c_dev _ _ _ _ _ _ Hc i Hi) as [?|[Hr _]]; [done|]. by destruct (Hall i Hi). }
  assert (NoDup ((fun i => b_blockno (B i)) <$> seq 0 NBUF)) as Hnd.
  { apply NoDup_fmap_2_strong; [|apply NoDup_seq]. intros i j Hi%elem_of_seq Hj%elem_of_seq E.
    apply (c_uniq _ _ _ _ _ _ Hc); [lia|lia|apply Hd; lia|apply Hd; lia|done]. }
  assert (list_to_set ((fun i => b_blockno (B i)) <$> seq 0 NBUF) ⊆@{gset Z} dom R) as Hsub.
  { intros bn Hbn. apply elem_of_list_to_set, list_elem_of_fmap in Hbn as (i & -> & Hi%elem_of_seq).
    apply elem_of_dom. specialize (Hall i ltac:(lia)). rewrite (c_refs _ _ _ _ _ _ Hc) in Hall by (try apply Hd; lia).
    destruct (R !! _); [by eexists|done]. }
  apply subseteq_size in Hsub. rewrite size_list_to_set, length_fmap, length_seq, size_dom in Hsub by done. lia.
Qed.

End blocks.

(** ** The interface to the disk *)

(** What the cache expects of the driver: a read fills the buffer from its block, a write
    puts the buffer's data on the disk, and nothing else of the cache's concern changes.
    [dwrites] records the writes in order. *)
Definition disk_put (bn : Z) (x : list Z) (s : kst) : kst :=
  with_dwrites (dwrites s ++ [(bn, x)]) (with_disk (<[bn := x]> (disk s)) s).

Class disk_laws `{disk_driver} := {
  disk_read : forall p pr h b s,
    idle p pr h s -> length (bufs s) = S NBUF -> (b < NBUF)%nat -> b_disk (getb (bufs s) b) = 0 ->
    block_ok (b_blockno (getb (bufs s) b)) ->
    wp (disk_rw b false) (fun _ s' => idle p pr h s' /\
      body s' = body (upd_buf b (with_b_data (dblock (disk s) (b_blockno (getb (bufs s) b)))) s)) s;
  disk_write : forall p pr h b s,
    idle p pr h s -> length (bufs s) = S NBUF -> (b < NBUF)%nat -> b_disk (getb (bufs s) b) = 0 ->
    block_ok (b_blockno (getb (bufs s) b)) ->
    wp (disk_rw b true) (fun _ s' => idle p pr h s' /\
      body s' = body (disk_put (b_blockno (getb (bufs s) b)) (b_data (getb (bufs s) b)) s)) s;
}.

(** ** The operations of the cache *)

(** The state of the cache for its clients. *)
Record store (dv : Z) (p : nat) (pr : proc) (V : Z -> list Z) (R : gmap Z nat) (h : gmap nat Z)
  (s : kst) : Prop := {
  st_idle : idle p pr (dom h) s;
  st_ring : exists o, ring o (bufs s);
  st_blocks : blocks dv V R h (getb (bufs s)) (disk s);
}.

(** A state apart from the buffers and from what [body] leaves out. *)
Definition outer (s : kst) : kst := body (with_bufs [] s).

Lemma body_outer s s' : body s' = body s -> outer s' = outer s.
Proof. intros E. exact (f_equal (with_bufs []) E). Qed.
Lemma body_bufs s s' : body s' = body s -> bufs s' = bufs s.
Proof. intros E. exact (f_equal bufs E). Qed.
Lemma body_disk s s' : body s' = body s -> disk s' = disk s.
Proof. intros E. exact (f_equal disk E). Qed.

Lemma ring_alter o bs f b :
  (forall x, b_next (f x) = b_next x /\ b_prev (f x) = b_prev x) -> ring o bs -> ring o (alter f b bs).
Proof.
  intros Hf. apply ring_ext; [apply length_alter|..]; intros i; unfold nx, pv, getb;
    (destruct (decide (i = b)) as [->|Hne]; [rewrite list_lookup_alter_eq; destruct (bs !! b); [apply Hf|done]
                                            |by rewrite list_lookup_alter_ne]).
Qed.

Lemma pick_spec dv V R h bs d o bn :
  ring o bs -> blocks dv V R h (getb bs) d -> is_Some (R !! bn) \/ (size R < NBUF)%nat ->
  exists b f, pick o bs dv bn = Some (b, f) /\ (b < NBUF)%nat /\
    (b_dev (getb bs b) = dv /\ b_blockno (getb bs b) = bn /\ f = incref \/
     b_refcnt (getb bs b) = 0 /\ (forall i, (i < NBUF)%nat -> is_block dv bn (getb bs i) = false) /\
     f = recycled dv bn).
Proof.
  intros Hr Hc Hroom. unfold pick. destruct (find _ o) as [b|] eqn:E1.
  - apply find_some in E1 as [Hb%list_elem_of_In Hm]. exists b, incref. split; [done|].
    split; [by apply (ring_lt o bs)|]. left. unfold is_block in Hm. split_and!; [lia|lia|done].
  - assert (forall i, (i < NBUF)%nat -> is_block dv bn (getb bs i) = false) as Hno.
    { intros i Hi. apply (find_none _ _ E1), list_elem_of_In. by apply (ring_in o bs). }
    assert (R !! bn = None) as HR.
    { destruct (R !! bn) as [n|] eqn:E; [|done]. destruct (c_dom _ _ _ _ _ _ Hc _ _ E) as (_ & _ & _ & i & Hi & Hd & Hn & _).
      specialize (Hno i Hi). unfold is_block in Hno. lia. }
    destruct Hroom as [[n Hn]|Hsz]; [congruence|].
    destruct (find _ (reverse o)) as [b|] eqn:E2.
    + apply find_some in E2 as [Hb%list_elem_of_In Hm]. rewrite elem_of_reverse in Hb. exists b, (recycled dv bn). split; [done|].
      split; [by apply (ring_lt o bs)|]. right. unfold is_unused in Hm. split_and!; [lia|done|done].
    + destruct (blocks_room _ _ _ _ _ _ Hc Hsz) as (i & Hi & Hz).
      assert (is_unused (getb bs i) = false) as Hu; [|unfold is_unused in Hu; lia].
      apply (find_none _ _ E2), list_elem_of_In, elem_of_reverse. by apply (ring_in o bs).
Qed.

Section ops.
Context `{environment} `{patience} `{disk_laws}.
Context (dv : Z) (p : nat) (pr : proc).

(** The buffer that [bread] returns, in the buffers it found. *)
Lemma store_acquire V R h s s' b bn x :
  store dv p pr V R h s -> (b < NBUF)%nat -> block_ok bn ->
  Z.of_nat (S (default O (R !! bn))) < 2 ^ 32 ->
  (b_dev (getb (bufs s) b) = dv /\ b_blockno (getb (bufs s) b) = bn \/
   b_refcnt (getb (bufs s) b) = 0 /\ forall i, (i < NBUF)%nat -> is_block dv bn (getb (bufs s) i) = false) ->
  b_disk x = 0 -> b_dev x = dv -> b_blockno x = bn -> b_valid x <> 0 -> b_data x = V bn ->
  b_refcnt x = Z.of_nat (S (default O (R !! bn))) ->
  idle p pr ({[b]} ∪ dom h) s' -> (exists o, ring o (bufs s')) -> disk s' = disk s ->
  (forall i, getb (bufs s') i = put b x (getb (bufs s)) i) ->
  store dv p pr V (<[bn := S (default O (R !! bn))]> R) (<[b := bn]> h) s'.
Proof.
  intros [Hi Hr Hc] Hb Hok Hmax Hpick X1 X2 X3 X4 X5 X6 Hi' Hr' Hd Hg. split; [|done|].
  - by rewrite dom_insert_L.
  - rewrite Hd. eapply blocks_ext; [intros i; by rewrite Hg|]. by apply blocks_acquire.
Qed.

Lemma getb_upd b f s i :
  length (bufs s) = S NBUF -> (b < NBUF)%nat ->
  getb (bufs (upd_buf b f s)) i = put b (f (getb (bufs s) b)) (getb (bufs s)) i.
Proof. intros Hl Hb. unfold upd_buf. cbn [bufs with_bufs]. rewrite getb_alter by lia. done. Qed.

Lemma st_length V R h s : store dv p pr V R h s -> length (bufs s) = S NBUF.
Proof. intros Hs. destruct (st_ring _ _ _ _ _ _ _ Hs) as [o Hr]. apply Hr. Qed.

(** What the chosen buffer [b] and the update [f] of [bget] must satisfy. *)
Definition chosen (B : nat -> buf) b bn (f : buf -> buf) : Prop :=
  b_dev (B b) = dv /\ b_blockno (B b) = bn /\ f = incref \/
  b_refcnt (B b) = 0 /\ (forall i, (i < NBUF)%nat -> is_block dv bn (B i) = false) /\ f = recycled dv bn.

(** The block behind a buffer that is not valid is as on the disk. *)
Lemma pick_clean V R h B d b bn f :
  blocks dv V R h B d -> (b < NBUF)%nat ->
  chosen B b bn f ->
  b_valid (f (B b)) = 0 -> R !! bn = None.
Proof.
  intros Hc Hb Hpick Hv. destruct (R !! bn) as [n|] eqn:E; [|done]. exfalso.
  destruct Hpick as [(Hd & Hn & ->)|(_ & Hno & ->)].
  - apply (c_valid _ _ _ _ _ _ b Hc); [done|done|rewrite Hn; by eexists|exact Hv].
  - destruct (c_dom _ _ _ _ _ _ Hc _ _ E) as (_ & _ & _ & i & Hi & Hd & Hn & _).
    specialize (Hno i Hi). unfold is_block in Hno. lia.
Qed.

(** The fields of the chosen buffer. *)
Lemma pick_fields V R h B d b bn f :
  blocks dv V R h B d -> (b < NBUF)%nat -> Z.of_nat (S (default O (R !! bn))) < 2 ^ 32 ->
  chosen B b bn f ->
  b_disk (f (B b)) = 0 /\ b_dev (f (B b)) = dv /\ b_blockno (f (B b)) = bn /\
  b_refcnt (f (B b)) = Z.of_nat (S (default O (R !! bn))) /\
  (b_valid (f (B b)) <> 0 -> b_data (f (B b)) = V bn) /\
  (forall x, b_next (f x) = b_next x /\ b_prev (f x) = b_prev x).
Proof.
  intros Hc Hb Hmax Hpick. pose proof (c_disk _ _ _ _ _ _ Hc b Hb) as Hdk.
  destruct Hpick as [(Hd & Hn & ->)|(_ & Hno & ->)].
  - cbn. split_and!; try done.
    + rewrite (c_refs _ _ _ _ _ _ Hc), Hn by done. rewrite u32_small by lia. lia.
    + intros Hv. rewrite (c_view _ _ _ _ _ _ Hc) by done. by rewrite Hn.
  - cbn. destruct (R !! bn) as [n|] eqn:E; [|by split_and!].
    destruct (c_dom _ _ _ _ _ _ Hc _ _ E) as (_ & _ & _ & i & Hi & Hd & Hn & _).
    specialize (Hno i Hi). unfold is_block in Hno. lia.
Qed.

(** The part of [bread] after [bget]. *)
Lemma bread_fill V R h bn b f o s s1 :
  store dv p pr V R h s -> ring o (bufs s) -> block_ok bn -> Z.of_nat (S (default O (R !! bn))) < 2 ^ 32 ->
  (b < NBUF)%nat -> h !! b = None -> chosen (getb (bufs s)) b bn f ->
  idle p pr ({[b]} ∪ dom h) s1 -> body s1 = body (upd_buf b f s) ->
  wp (bp <- bufget b;;
      (if b_valid bp =? 0 then disk_rw b false;; bufset b (with_b_valid 1) else ret tt);;
      ret b)%M (fun b s' => h !! b = None /\
    store dv p pr V (<[bn := S (default O (R !! bn))]> R) (<[b := bn]> h) s' /\ outer s' = outer s) s1.
Proof.
  intros Hs Hr Hok Hmax Hb Hnb Hpick Hi1 Hb1. pose proof (st_blocks _ _ _ _ _ _ _ Hs) as Hc.
  pose proof (st_length _ _ _ _ Hs) as Hlen.
  destruct (pick_fields _ _ _ _ _ _ _ _ Hc Hb Hmax Hpick) as (X1 & X2 & X3 & X4 & X5 & X6).
  assert (Hpick' : b_dev (getb (bufs s) b) = dv /\ b_blockno (getb (bufs s) b) = bn \/
    b_refcnt (getb (bufs s) b) = 0 /\ forall i, (i < NBUF)%nat -> is_block dv bn (getb (bufs s) i) = false)
    by (unfold chosen in Hpick; tauto).
  apply wp_bind, wp_gets. fold (getb (bufs s1) b).
  pose proof (body_bufs _ _ Hb1) as Ebs. rewrite Ebs, getb_upd, put_eq by done.
  destruct (Z.eqb_spec (b_valid (f (getb (bufs s) b))) 0) as [Hv|Hv].
  - apply wp_bind, wp_bind. eapply wp_mono.
    { apply (disk_read p pr _ b s1 Hi1); rewrite ?Ebs, ?getb_upd, ?put_eq; rewrite ?X1, ?X3; try done.
      unfold upd_buf. cbn. by rewrite length_alter. }
    intros _ s2 [Hi2 Hb2]. apply wp_modify, wp_ret. split; [done|].
    rewrite Ebs, getb_upd, put_eq, X3, (body_disk _ _ Hb1) in Hb2 by done. change (disk (upd_buf _ _ s)) with (disk s) in Hb2.
    pose proof (body_bufs _ _ Hb2) as Ebs2. cbn [bufs upd_buf with_bufs] in Ebs2. rewrite Ebs in Ebs2.
    fold (upd_buf b (with_b_valid 1) s2). split.
    + eapply (store_acquire _ _ _ s _ b bn (with_b_valid 1 (with_b_data (dblock (disk s) bn) (f (getb (bufs s) b)))));
        try done.
      * cbn. symmetry. apply (c_clean _ _ _ _ _ _ Hc). by eapply pick_clean.
      * by apply idle_upd_buf.
      * exists o. cbn. rewrite Ebs2. by repeat apply ring_alter.
      * cbn. rewrite (body_disk _ _ Hb2). exact (body_disk _ _ Hb1).
      * intros i. cbn. rewrite Ebs2. unfold upd_buf. cbn. rewrite !list_alter_alter_eq.
        by rewrite getb_alter by lia.
    + transitivity (outer s2); [done|]. rewrite (body_outer _ _ Hb2). exact (body_outer _ _ Hb1).
  - apply wp_bind, wp_ret, wp_ret. split; [done|]. split; [|exact (body_outer _ _ Hb1)].
    eapply (store_acquire _ _ _ s s1 b bn (f (getb (bufs s) b))); try done.
    + by apply X5.
    + exists o. rewrite Ebs. by apply ring_alter.
    + exact (body_disk _ _ Hb1).
    + intros i. rewrite Ebs. by apply getb_upd.
Qed.

Lemma bread_wp V R h bn s :
  (0 < wakeups)%nat -> store dv p pr V R h s -> block_ok bn -> Z.of_nat (S (default O (R !! bn))) < 2 ^ 32 ->
  (forall b, h !! b <> Some bn) -> is_Some (R !! bn) \/ (size R < NBUF)%nat ->
  wp (bread dv bn) (fun b s' => h !! b = None /\
    store dv p pr V (<[bn := S (default O (R !! bn))]> R) (<[b := bn]> h) s' /\ outer s' = outer s) s.
Proof.
  intros Hw Hs Hok Hmax Hnh Hroom. pose proof Hs as [Hi [o Hr] Hc].
  destruct (pick_spec _ _ _ _ _ _ _ _ Hr Hc Hroom) as (b & f & Hp & Hb & Hpick).
  assert (h !! b = None) as Hnb.
  { destruct (h !! b) as [bn'|] eqn:E; [|done]. exfalso.
    destruct (c_mine _ _ _ _ _ _ _ _ Hc E) as (n & _ & _ & Hn' & Hr' & Hn0 & _ & _ & Hrc & _).
    destruct Hpick as [(_ & Hn & _)|(Hz & _)]; [apply (Hnh b); congruence|lia]. }
  unfold bread. apply wp_bind. eapply wp_mono.
  { apply (bget_wp p pr (dom h) o dv bn b f s); try done. by apply not_elem_of_dom. }
  intros b' s1 (-> & Hi1 & Hb1). by apply (bread_fill V R h bn b f o s s1).
Qed.

(** [b->data] of a buffer one holds. *)
Lemma bdata_wp V R h b bn s (Q : list Z -> kst -> Prop) :
  store dv p pr V R h s -> h !! b = Some bn -> Q (V bn) s -> wp (bdata b) Q s.
Proof.
  intros Hs Hh HQ. destruct (c_mine _ _ _ _ _ _ _ _ (st_blocks _ _ _ _ _ _ _ Hs) Hh)
    as (n & _ & _ & _ & _ & _ & _ & _ & _ & Hx & _).
  unfold bdata. apply wp_bind, wp_gets, wp_ret. fold (getb (bufs s) b). by rewrite Hx.
Qed.

Lemma bdata_set_wp V R h b bn g s :
  store dv p pr V R h s -> h !! b = Some bn -> length (g (V bn)) = Z.to_nat BSIZE ->
  wp (bdata_set b g) (fun _ s' => store dv p pr (setv V bn (g (V bn))) R h s' /\ outer s' = outer s) s.
Proof.
  intros Hs Hh Hg. pose proof Hs as [Hi [o Hr] Hc].
  destruct (c_mine _ _ _ _ _ _ _ _ Hc Hh) as (n & Hb & _ & _ & _ & _ & _ & _ & _ & Hx & _).
  unfold bdata_set. rewrite bufset_eq. apply wp_modify. split; [|done]. split.
  - by apply idle_upd_buf.
  - exists o. by apply ring_alter.
  - eapply blocks_ext; [|by apply (blocks_store dv V R h (getb (bufs s)) (disk s) b)]. intros i.
    rewrite getb_upd; [by rewrite Hx|by eapply st_length|done].
Qed.

Lemma bwrite_wp V R h b bn s :
  store dv p pr V R h s -> h !! b = Some bn ->
  wp (bwrite b) (fun _ s' => store dv p pr V R h s' /\ outer s' = outer (disk_put bn (V bn) s)) s.
Proof.
  intros Hs Hh. pose proof Hs as [Hi [o Hr] Hc].
  destruct (c_mine _ _ _ _ _ _ _ _ Hc Hh) as (n & Hb & _ & Hn & _ & _ & _ & Hok & _ & Hx & Hdk & _).
  unfold bwrite. apply wp_bind. eapply wp_eq.
  { apply (holdingsleep_idle p pr (dom h)); [done|done|]. apply elem_of_dom. by eexists. }
  cbn [negb]. eapply wp_mono.
  { apply (disk_write p pr (dom h)); [by apply idle_touch|exact (st_length _ _ _ _ Hs)|done|exact Hdk|].
    change (bufs (touch s)) with (bufs s). by rewrite Hn. }
  change (bufs (touch s)) with (bufs s). rewrite Hn, Hx. intros _ s' [Hi' Hb'].
  split; [|exact (body_outer _ _ Hb')]. split; [done| |].
  - exists o. rewrite (body_bufs _ _ Hb'). exact Hr.
  - rewrite (body_bufs _ _ Hb'), (body_disk _ _ Hb'). by apply (blocks_write dv V R h (getb (bufs s)) (disk s) b).
Qed.

(** A critical section of [bcache.lock] that changes a reference count. *)
Lemma crit_refcnt V R h b bn f n s :
  store dv p pr V R h s -> h !! b = Some bn -> (0 < n)%nat -> Z.of_nat n < 2 ^ 32 ->
  f (getb (bufs s) b) = with_b_refcnt (Z.of_nat n) (getb (bufs s) b) ->
  (forall x, b_next (f x) = b_next x /\ b_prev (f x) = b_prev x) ->
  wp (acquire L_bcache;; bufset b f;; release L_bcache)%M
    (fun _ s' => store dv p pr V (<[bn := n]> R) h s' /\ outer s' = outer s) s.
Proof.
  intros Hs Hh Hn0 Hn1 Hf Hl. pose proof Hs as [Hi [o Hr] Hc].
  destruct (c_held _ _ _ _ _ _ Hc _ _ Hh) as (Hb & _).
  pose proof (idle_hart _ _ _ _ Hi) as Hh'. pose proof (id_locks _ _ _ _ Hi L_bcache eq_refl) as Hfr.
  apply wp_bind. eapply wp_eq; [by apply acquire_eq|]. rewrite bufset_eq. apply wp_bind, wp_modify.
  eapply wp_eq; [by apply (release_framed (upd_buf b f)); [apply upd_buf_framed|..]|].
  split; [|done]. split.
  - by apply idle_upd_buf, idle_touch.
  - exists o. by apply ring_alter.
  - eapply blocks_ext; [|by apply (blocks_refcnt dv V R h (getb (bufs s)) (disk s) b bn n)]. intros i.
    change (getb (bufs (upd_buf b f (touch s)))) with (getb (bufs (upd_buf b f s))).
    rewrite getb_upd; [by rewrite Hf|by eapply st_length|done].
Qed.

Lemma bpin_wp V R h b bn n s :
  store dv p pr V R h s -> h !! b = Some bn -> R !! bn = Some n -> Z.of_nat (S n) < 2 ^ 32 ->
  wp (bpin b) (fun _ s' => store dv p pr V (<[bn := S n]> R) h s' /\ outer s' = outer s) s.
Proof.
  intros Hs Hh Hn Hmax. apply crit_refcnt; [done|done|lia|done| |done].
  destruct (c_mine _ _ _ _ _ _ _ _ (st_blocks _ _ _ _ _ _ _ Hs) Hh) as (n' & _ & _ & _ & Hn' & _ & _ & _ & Hrc & _).
  rewrite Hn in Hn'. injection Hn' as <-. f_equal. rewrite Hrc, u32_small by lia. lia.
Qed.

Lemma bunpin_wp V R h b bn n s :
  store dv p pr V R h s -> h !! b = Some bn -> R !! bn = Some (S n) -> (0 < n)%nat ->
  wp (bunpin b) (fun _ s' => store dv p pr V (<[bn := n]> R) h s' /\ outer s' = outer s) s.
Proof.
  intros Hs Hh Hn Hpos.
  destruct (c_mine _ _ _ _ _ _ _ _ (st_blocks _ _ _ _ _ _ _ Hs) Hh) as (n' & _ & _ & _ & Hn' & _ & Hmax & _ & Hrc & _).
  rewrite Hn in Hn'. injection Hn' as <-. apply crit_refcnt; [done|done|lia|lia| |done].
  f_equal. rewrite Hrc, u32_small by lia. lia.
Qed.

(** One reference less. *)
Definition unref (bn : Z) (R : gmap Z nat) : gmap Z nat :=
  match R !! bn with Some (S (S n)) => <[bn := S n]> R | _ => delete bn R end.

Definition front (b : nat) (s : kst) : kst := with_bufs (pushed_front b (unlinked b (bufs s))) s.

Lemma front_framed b f : framed (fun s => front b (upd_buf b f s)).
Proof. unfold front, upd_buf. solve_framed. Qed.

(** The blocks after [brelse]. *)
Lemma blocks_release V R h B d b bn n :
  blocks dv V R h B d -> h !! b = Some bn -> R !! bn = Some n -> (n = 1%nat -> V bn = dblock d bn) ->
  blocks dv V (unref bn R) (delete b h) (put b (decref (B b)) B) d.
Proof.
  intros Hc Hh Hn Hcl. destruct (c_mine _ _ _ _ _ _ _ _ Hc Hh) as (n' & _ & _ & _ & Hn' & Hpos & Hmax & _ & Hrc & _).
  rewrite Hn in Hn'. injection Hn' as <-. unfold unref. rewrite Hn. unfold decref. rewrite Hrc, u32_small by lia.
  destruct n as [|[|n]]; [lia| |].
  - by apply blocks_unref; [|done|apply Hcl].
  - apply blocks_forget. replace (Z.of_nat (S (S n)) - 1) with (Z.of_nat (S n)) by lia.
    by apply blocks_refcnt; [|done|lia|lia].
Qed.

Lemma ring_member o bs b :
  ring o bs -> (b < NBUF)%nat -> exists o', ring o' (pushed_front b (unlinked b bs)).
Proof.
  intros Hr Hb. pose proof (ring_in _ _ _ Hr Hb) as (l1 & l2 & ->)%list_elem_of_split.
  eexists. by apply ring_front.
Qed.

Lemma brelse_wp V R h b bn n s :
  store dv p pr V R h s -> h !! b = Some bn -> R !! bn = Some n ->
  (n = 1%nat -> V bn = dblock (disk s) bn) ->
  wp (brelse b) (fun _ s' => store dv p pr V (unref bn R) (delete b h) s' /\ outer s' = outer s) s.
Proof.
  intros Hs Hh Hn Hcl. pose proof Hs as [Hi [o Hr] Hc]. pose proof (st_length _ _ _ _ Hs) as Hlen.
  destruct (c_held _ _ _ _ _ _ Hc _ _ Hh) as (Hb & _).
  unfold brelse. apply wp_bind. eapply wp_eq.
  { apply (holdingsleep_idle p pr (dom h)); [done|done|]. apply elem_of_dom. by eexists. }
  cbn [negb]. apply wp_bind. eapply wp_mono; [apply (releasesleep_idle p pr (dom h)); [by apply idle_touch|done]|].
  intros _ s1 [Hi1 Hb1]. rewrite <- dom_delete_L in Hi1. pose proof (body_bufs _ _ Hb1 : _ = bufs s) as Ebs.
  pose proof (body_disk _ _ Hb1 : _ = disk s) as Ed.
  pose proof (idle_hart _ _ _ _ Hi1) as Hhart. pose proof (id_locks _ _ _ _ Hi1 L_bcache eq_refl) as Hfr.
  assert (blocks dv V (unref bn R) (delete b h) (getb (bufs (upd_buf b decref (touch s1)))) (disk s1)) as Hc'.
  { eapply blocks_ext; [|rewrite Ed; by apply (blocks_release V R h (getb (bufs s)) (disk s) b bn n)].
    intros i. change (bufs (upd_buf b decref (touch s1))) with (bufs (upd_buf b decref s1)).
    rewrite getb_upd; rewrite ?Ebs; done. }
  assert (ring o (bufs (upd_buf b decref (touch s1)))) as Hr'.
  { cbn. rewrite Ebs. by apply ring_alter. }
  apply wp_bind. eapply wp_eq; [by apply acquire_eq|]. rewrite bufset_eq. apply wp_bind, wp_modify.
  change (fun bp => with_b_refcnt (u32 (b_refcnt bp - 1)) bp) with decref.
  apply wp_bind, wp_gets, wp_bind. case_match.
  - eapply wp_eq; [reflexivity|].
    eapply wp_eq; [by apply (release_framed (fun s0 => front b (upd_buf b decref s0))); [apply front_framed|..]|].
    split; [|exact (body_outer _ _ Hb1)]. split.
    + eapply idle_frame; [..|by apply idle_touch]; reflexivity.
    + by apply (ring_member o).
    + eapply blocks_ext; [|exact Hc']. intros i. apply payload_front.
  - apply wp_ret. eapply wp_eq; [by apply (release_framed (upd_buf b decref)); [apply upd_buf_framed|..]|].
    split; [|exact (body_outer _ _ Hb1)]. split; [by apply idle_upd_buf, idle_touch|by exists o|exact Hc'].
Qed.

Lemma store_ext V V' R h s :
  (forall bn, V' bn = V bn) -> store dv p pr V R h s -> store dv p pr V' R h s.
Proof.
  intros E [Hi Hr [H1' H2' H3' H4' H5' H6' H7' H8' H9']]. split; [done..|]. split; try done.
  - intros i Hlt Hd Hv. rewrite E. by apply H6'.
  - intros bn Hn. rewrite E. by apply H7'.
  - intros bn. rewrite E. apply H9'.
Qed.

(** Using a buffer whose lock one does not hold. *)
Lemma holdingsleep_other h b s :
  idle p pr h s -> (b < NBUF)%nat -> b ∉ h -> holdingsleep (SL_buf b) s = Ok false (touch s).
Proof.
  intros Hi Hb Hh. destruct (id_slocks _ _ _ _ Hi b Hb) as (sl & Es & Hl).
  rewrite decide_False in Hl by done.
  destruct (idle_caller _ _ _ _ Hi) as (q & Hq & _).
  rewrite (holdingsleep_eq p q (SL_buf b) sl s); [|done|by eapply idle_buf_lock|done].
  by rewrite Hl.
Qed.

(** [bget] is a least-recently-used cache.  It returns the buffer of the block if some
    buffer caches it, with one more reference; otherwise it recycles the unreferenced buffer
    that was released longest ago, not yet valid and with one reference; in both cases the
    caller holds the buffer's sleep lock and nothing else has changed.  It panics when
    neither exists. *)
Theorem bget_correct h o dev bn s :
  (0 < wakeups)%nat -> idle p pr h s -> ring o (bufs s) ->
  match find (fun i => is_block dev bn (getb (bufs s) i)) o,
        find (fun i => b_refcnt (getb (bufs s) i) =? 0) (reverse o) with
  | Some b, _ => b ∉ h -> exists s', bget dev bn s = Ok b s' /\ idle p pr ({[b]} ∪ h) s' /\
      body s' = body (upd_buf b (fun x => with_b_refcnt (u32 (b_refcnt x + 1)) x) s)
  | None, Some b => b ∉ h -> exists s', bget dev bn s = Ok b s' /\ idle p pr ({[b]} ∪ h) s' /\
      body s' = body (upd_buf b (fun x =>
        with_b_refcnt 1 (with_b_valid 0 (with_b_blockno bn (with_b_dev dev x)))) s)
  | None, None => exists s', bget dev bn s = Panic "bget: no buffers" s'
  end.
Proof.
  intros Hw Hi Hr.
  change (fun i => b_refcnt (getb (bufs s) i) =? 0) with (fun i => is_unused (getb (bufs s) i)).
  destruct (pick o (bufs s) dev bn) as [[b f]|] eqn:E.
  - pose proof (bget_wp p pr h o dev bn b f s Hw Hi Hr E) as Hget. unfold pick in E.
    destruct (find _ o) as [c|]; [|destruct (find _ (reverse o)) as [c|]; [|done]];
      injection E as -> <-; intros Hb; (apply wp_ok in Hget as (b' & s' & Eq & -> & Hrest); [|done]); by exists s'.
  - pose proof (bget_panic p pr h o dev bn s Hi Hr E) as Hp. unfold pick in E.
    destruct (find _ o) as [c|]; [done|]. destruct (find _ (reverse o)) as [c|]; [done|]. by eexists.
Qed.

(** C24: the cache is transparent.  [V] is the contents of the blocks of the device as its
    users see them, [R] the number of references to each block and [h] the buffers this
    process holds.  [bread] returns a buffer with the block's contents that the process
    then holds, [bwrite] makes the disk agree with the contents of one block, [brelse]
    gives a buffer up, and none of them changes the contents of any block or breaks the
    invariant of the cache, provided that the last reference to a block is given up only
    when the disk agrees with it.  Writing or releasing a buffer one does not hold panics. *)
Theorem buffer_cache_correct V R h s :
  (0 < wakeups)%nat -> store dv p pr V R h s ->
  (forall bn, block_ok bn -> Z.of_nat (S (default O (R !! bn))) < 2 ^ 32 ->
     (forall b, h !! b <> Some bn) -> is_Some (R !! bn) \/ (size R < NBUF)%nat ->
     exists b s', bread dv bn s = Ok b s' /\ h !! b = None /\ b_data (getb (bufs s') b) = V bn /\
       store dv p pr V (<[bn := S (default O (R !! bn))]> R) (<[b := bn]> h) s' /\ outer s' = outer s) /\
  (forall b bn, h !! b = Some bn -> exists s', bwrite b s = Ok tt s' /\
     store dv p pr V R h s' /\ outer s' = outer (disk_put bn (V bn) s)) /\
  (forall b bn n, h !! b = Some bn -> R !! bn = Some n -> (n = 1%nat -> V bn = dblock (disk s) bn) ->
     exists s', brelse b s = Ok tt s' /\ store dv p pr V (unref bn R) (delete b h) s' /\ outer s' = outer s) /\
  (forall b, (b < NBUF)%nat -> h !! b = None ->
     (exists s', bwrite b s = Panic "bwrite" s') /\ exists s', brelse b s = Panic "brelse" s').
Proof.
  intros Hw Hs. split; [|split; [|split]].
  - intros bn Hok Hmax Hnh Hroom. pose proof (bread_wp V R h bn s Hw Hs Hok Hmax Hnh Hroom) as Hwp.
    apply wp_ok in Hwp as (b & s' & E & Hb & Hs' & Ho). exists b, s'. split; [exact E|]. split; [done|].
    split; [|by split].
    destruct (c_mine dv _ _ _ _ _ b bn (st_blocks _ _ _ _ _ _ _ Hs') (lookup_insert_eq _ _ _))
      as (n & _ & _ & _ & _ & _ & _ & _ & _ & Hx & _). exact Hx.
  - intros b bn Hb. pose proof (bwrite_wp V R h b bn s Hs Hb) as Hwp.
    apply wp_ok in Hwp as ([] & s' & E & Hrest). by exists s'.
  - intros b bn n Hb HR Hcl. pose proof (brelse_wp V R h b bn n s Hs Hb HR Hcl) as Hwp.
    apply wp_ok in Hwp as ([] & s' & E & Hrest). by exists s'.
  - intros b Hb Hn. apply not_elem_of_dom in Hn.
    pose proof (holdingsleep_other (dom h) b s (st_idle _ _ _ _ _ _ _ Hs) Hb Hn) as E.
    split; eexists; [unfold bwrite|unfold brelse]; by rewrite (bind_ok _ _ _ _ _ E).
Qed.

End ops.
