(* ===== verification/VirtioSpec.v ===== *)
(** * The disk driver and its device

    [virtio_disk_rw] fills three descriptors, hands them to the device and sleeps; the device
    transfers the block and raises an interrupt, in which [virtio_disk_intr] wakes the process
    up; the scheduler resumes it.  This file puts the driver, the handler and the scheduler of
    one hart together with a device that does what the virtio specification says, and shows
    that they implement the disk the buffer cache relies on, [disk_laws]. *)

From S2P Require Import Prelude Riscv Memory State Spinlock Sched SchedSpec Sleeplock Virtio SleepSpec Bio BioRing BioSpec.

(** ** Critical sections of a quiet system *)

(** A state apart from the scheduling, the locks and the device registers. *)
Definition core (s : kst) : kst := with_rcl csrs0 [] ∅ (with_procs [] (with_nswtch 0 (with_mmio ∅ s))).

Lemma core_vd s s' : core s' = core s -> vd s' = vd s.
Proof. intros E. exact (f_equal vd E). Qed.
Lemma core_bufs s s' : core s' = core s -> bufs s' = bufs s.
Proof. intros E. exact (f_equal bufs E). Qed.
Lemma core_disk s s' : core s' = core s -> disk s' = disk s.
Proof. intros E. exact (f_equal disk E). Qed.
Lemma core_slocks s s' : core s' = core s -> slocks s' = slocks s.
Proof. intros E. exact (f_equal slocks E). Qed.
Lemma core_with_vd d s s' : core s' = core s -> core (with_vd d s') = core (with_vd d s).
Proof. intros E. exact (f_equal (with_vd d) E). Qed.
Lemma core_with_bufs l s s' : core s' = core s -> core (with_bufs l s') = core (with_bufs l s).
Proof. intros E. exact (f_equal (with_bufs l) E). Qed.
Lemma core_put w d s s' : core s' = core s -> core (with_dwrites w (with_disk d s')) = core (with_dwrites w (with_disk d s)).
Proof. intros E. exact (f_equal (fun s => with_dwrites w (with_disk d s)) E). Qed.
Lemma core_dwrites s s' : core s' = core s -> dwrites s' = dwrites s.
Proof. intros E. exact (f_equal dwrites E). Qed.

(** This hart holds no lock, or only [l], and the other locks of the storage code are free. *)
Record calm (s : kst) : Prop := {
  ca_hart : no_lock s;
  ca_locks : forall k, store_lock k = true -> lock_free k s;
  ca_procs : length (procs s) = NPROC;
}.
Record busy (l : lockref) (s : kst) : Prop := {
  bu_hart : only_lock l s;
  bu_locks : forall k, store_lock k = true -> k <> l -> lock_free k s;
  bu_procs : length (procs s) = NPROC;
}.

(** What critical sections leave alone. *)
Definition here (s : kst) : option nat * nat := (cur s, me s).
Definition same (s s' : kst) : Prop := core s' = core s /\ procs s' = procs s /\ here s' = here s.

Lemma same_driver_refl s : same s s.
Proof. done. Qed.
Lemma same_driver_trans s1 s2 s3 : same s1 s2 -> same s2 s3 -> same s1 s3.
Proof. intros (A1 & A2 & A3) (B1 & B2 & B3). split_and!; congruence. Qed.

Lemma me_drop l s : me (drop_lock l s) = me s.
Proof. unfold me, drop_lock, popped. cbn. unfold pop_regs. by destruct (_ && _). Qed.

Lemma acquire_calm l s : calm s -> store_lock l = true -> wp (acquire l) (fun _ s' => busy l s' /\ same s s') s.
Proof.
  intros [H1 H2 H3] Hl. eapply wp_eq; [by apply acquire_eq; [apply no_lock_hart|apply H2]|]. split.
  - split; [by apply take_only| |done]. intros k Hk Hne. by apply take_lock_other; [|apply H2].
  - split; [done|]. split; [done|]. unfold here. by rewrite cur_take.
Qed.

Lemma release_busy l s : busy l s -> store_lock l = true -> wp (release l) (fun _ s' => calm s' /\ same s s') s.
Proof.
  intros [H1 H2 H3] Hl. eapply wp_eq; [by apply release_held, only_held|]. split.
  - split; [by apply drop_no_lock| |done]. intros k Hk. destruct (decide (k = l)) as [->|Hne]; [apply drop_free|].
    apply drop_other; [done|by apply H2].
  - split; [done|]. split; [done|]. unfold here. by rewrite cur_drop, me_drop.
Qed.

(** Data may change under a lock. *)
Lemma busy_frame l s s' :
  regs s' = regs s -> cpus s' = cpus s -> locks s' = locks s -> length (procs s') = length (procs s) -> busy l s -> busy l s'.
Proof.
  intros Er Ec El Ep [H1 H2 H3]. unfold only_lock, lock_held, lock_free, me, sie in *.
  split; unfold only_lock, lock_held, lock_free, me, sie; rewrite ?Er, ?Ec, ?El, ?Ep; done.
Qed.
Lemma calm_frame s s' :
  regs s' = regs s -> cpus s' = cpus s -> locks s' = locks s -> length (procs s') = length (procs s) -> calm s -> calm s'.
Proof.
  intros Er Ec El Ep [H1 H2 H3]. unfold no_lock, lock_free, me in *.
  split; unfold no_lock, lock_free, me; rewrite ?Er, ?Ec, ?El, ?Ep; done.
Qed.

Lemma wakeup_busy `{environment} l ch s :
  busy l s -> (forall i, l <> L_proc i) ->
  wp (wakeup ch) (fun _ s' => busy l s' /\ core s' = core s /\ procs s' = wake ch (cur s) (procs s) /\ here s' = here s) s.
Proof.
  intros Hb Hne. pose proof Hb as [H1 H2 H3]. eapply wp_eq.
  - apply wakeup_eq; [by eapply only_hart|done|]. intros i Hi _. apply H2; [by apply Nat.ltb_lt|by apply not_eq_sym].
  - unfold woken. rewrite (only_touch l) by done. split_and!; try done.
    eapply busy_frame; [..|exact Hb]; try done. apply wake_length.
Qed.

(** ** The device *)

(** A request as the device finds it: the head of its chain, what to do, the sector and the buffer. *)
Record request := Request { rq_head : nat; rq_write : bool; rq_sector : Z; rq_buf : nat }.

(** The chain that starts at descriptor [h]: a header of 16 bytes, a block of data that the device reads or writes, and a
    byte for the status. *)
Definition chain (d : vdisk) (h : nat) : option request :=
  d0 ← v_desc d !! h;
  d1 ← v_desc d !! Z.to_nat (d_next d0);
  d2 ← v_desc d !! Z.to_nat (d_next d1);
  match d_addr d0, d_addr d1, d_addr d2 with
  | A_op i, A_data b, A_status j =>
      r ← v_ops d !! i;
      let w := r_type r =? VIRTIO_BLK_T_OUT in
      if bool_decide (j = h) && (w || (r_type r =? VIRTIO_BLK_T_IN)) && (r_sector r mod 2 =? 0) &&
         (d_len d0 =? 16) && (d_flags d0 =? VRING_DESC_F_NEXT) &&
         (d_len d1 =? BSIZE) && (d_flags d1 =? (if w then VRING_DESC_F_NEXT else Z.lor VRING_DESC_F_WRITE VRING_DESC_F_NEXT)) &&
         (d_len d2 =? 1) && (d_flags d2 =? VRING_DESC_F_WRITE)
      then Some (Request h w (r_sector r) b) else None
  | _, _, _ => None
  end.

(** The one request that has been made available and not been used yet. *)
Definition pending (d : vdisk) : option request :=
  if avail_idx d =? u16 (used_dev_idx d + 1)
  then chain d (Z.to_nat (default 0 (avail_ring d !! Z.to_nat (used_dev_idx d mod Z.of_nat NUM)))) else None.

(** The request done: the block transferred, the status zero, and an entry in the used ring. *)
Definition used (h : nat) (d : vdisk) : vdisk :=
  with_info_status (<[h := 0]> (info_status d))
    (with_used_ring (<[Z.to_nat (used_dev_idx d mod Z.of_nat NUM) := Z.of_nat h]> (used_ring d))
      (with_used_dev_idx (u16 (used_dev_idx d + 1)) d)).
Definition transferred (b : nat) (write : bool) (bn : Z) (s : kst) : kst :=
  if write then disk_put bn (b_data (getb (bufs s) b)) s else upd_buf b (with_b_data (dblock (disk s) bn)) s.
Definition served (r : request) (s : kst) : kst :=
  transferred (rq_buf r) (rq_write r) (rq_sector r / 2) (with_vd (used (rq_head r) (vd s)) s).

(** A device, and what the specification promises of it; what it does to its registers is open. *)
Class block_device := serve : kst -> kst.
Class block_device_laws `{block_device} :=
  serve_pending : forall s r, pending (vd s) = Some r -> exists m, serve s = with_mmio m (served r s).

(** ** One hart *)

(** What happens on the hart after process [p] has given it up: the scheduler thread ends its turn and enables
    interrupts; the device serves its request and interrupts; the scheduler finds [p] runnable and switches to it. *)
Definition hart_turn `{block_device} (p : nat) : K unit :=
  c <- mycpu;;
  cset c (with_c_proc None);;
  release (L_proc p);;
  intr_on;;
  modify serve;;
  intr_off;;
  virtio_disk_intr;;
  intr_on;;
  acquire (L_proc p);;
  pr <- pget p;;
  if decide (p_state pr = RUNNABLE) then
    pset p (with_p_state RUNNING);;
    pset p (fun pr => with_runCount (i32 (runCount pr + 1)) pr);;
    cset c (with_c_proc (Some p))
  else fun s => Gone s.

#[local] Instance one_hart `{block_device} : environment := fun _ s =>
  match cur s with
  | Some p => match hart_turn p s with Ok _ s' => Some s' | _ => None end
  | None => None
  end.

(** ** The request of the driver *)

(** The table after three descriptors were taken, when all were free. *)
Definition three_taken : list Z := [0; 0; 0; 1; 1; 1; 1; 1].

Lemma with_vd_id s : with_vd (vd s) s = s.
Proof. by destruct s. Qed.
Lemma with_v_free_id d : with_v_free (v_free d) d = d.
Proof. by destruct d. Qed.

Lemma alloc3_eq `{environment} s :
  v_free (vd s) = replicate NUM 1 ->
  alloc3_desc s = Ok (Some [0%nat; 1%nat; 2%nat]) (with_vd (with_v_free three_taken (vd s)) s).
Proof.
  intros Hf. rewrite <- (with_vd_id s) at 1. rewrite <- (with_v_free_id (vd s)) at 1. rewrite Hf. reflexivity.
Qed.

(** The driver's data once the request has been handed over. *)
Definition submitted (b : nat) (w : bool) (sector : Z) (d : vdisk) : vdisk :=
  with_avail_idx (u16 (avail_idx d + 1))
    (with_avail_ring (<[Z.to_nat (avail_idx d mod Z.of_nat NUM) := 0]> (avail_ring d))
      (with_info_b (<[0%nat := Some b]> (info_b d))
        (with_info_status (<[0%nat := 0xff]> (info_status d))
          (with_v_ops (<[0%nat := Vreq (if w then VIRTIO_BLK_T_OUT else VIRTIO_BLK_T_IN) 0 sector]> (v_ops d))
            (with_v_desc (Vdesc (A_op 0) 16 VRING_DESC_F_NEXT 1 ::
                          Vdesc (A_data b) BSIZE (Z.lor (if w then 0 else VRING_DESC_F_WRITE) VRING_DESC_F_NEXT) 2 ::
                          Vdesc (A_status 0) 1 VRING_DESC_F_WRITE 0 :: drop 3 (v_desc d)) d))))).

Lemma vdset_with {B} f (k : unit -> K B) d s : bind (vdset f) k (with_vd d s) = k tt (with_vd (f d) s).
Proof. done. Qed.
Lemma bufset_with {B} b f (k : unit -> K B) d s : bind (bufset b f) k (with_vd d s) = k tt (with_vd d (upd_buf b f s)).
Proof. done. Qed.

(** Compute with the fields of the driver's data. *)
Ltac vd_cbv :=
  cbn [with_v_ops with_v_desc with_v_free with_info_b with_info_status with_avail_ring with_avail_idx with_used_ring
       with_used_dev_idx with_v_used_idx v_ops v_desc v_free info_b info_status avail_ring avail_idx used_ring used_dev_idx
       v_used_idx with_d_addr with_d_len with_d_flags with_d_next with_r_type with_r_reserved with_r_sector
       alter list_alter insert list_insert].
Ltac vd_step := first [rewrite vdset_with|rewrite bufset_with]; vd_cbv.

Lemma submit_eq `{environment} b w sector s :
  length (v_desc (vd s)) = NUM -> length (v_ops (vd s)) = NUM ->
  exists m, submit b w sector 0 1 2 s =
    Ok tt (with_mmio m (upd_buf b (with_b_disk 1) (with_vd (submitted b w sector (vd s)) s))).
Proof.
  intros Hd Ho. exists (<[VIRTIO0 + VIRTIO_MMIO_QUEUE_NOTIFY := u32 0]> (mmio s)). rewrite <- (with_vd_id s) at 1. unfold submit, ops_set, desc_set, R_write, mmio_wr, submitted.
  destruct (vd s) as [pa1 pa2 pa3 desc ai ar ui ur fr vi ib st ops]. cbn [v_desc v_ops] in *.
  destruct desc as [|e0 [|e1 [|e2 desc]]]; try discriminate Hd. destruct ops as [|o ops]; [discriminate Ho|].
  do 21 vd_step. reflexivity.
Qed.

(** What the driver hands over is the request the device finds. *)
Lemma pending_submitted b w sector d :
  vdisk_idle d -> sector mod 2 = 0 -> pending (submitted b w sector (with_v_free three_taken d)) = Some (Request 0 w sector b).
Proof.
  intros [H1 H2 H3 H4 H5 H6 (H7 & H8 & H9)] Hs. unfold pending, submitted. vd_cbv. rewrite H9, Z.eqb_refl.
  rewrite list_lookup_insert_eq by (rewrite H3; pose proof (Z.mod_pos_bound (used_dev_idx d) (Z.of_nat NUM) ltac:(done)); lia).
  unfold chain. destruct (v_ops d) as [|o ops]; [discriminate H6|]. vd_cbv. destruct w; lazy -[Z.modulo drop v_desc]; by rewrite Hs.
Qed.

(** ** The interrupt *)

Section driver.
Context `{block_device} `{!block_device_laws} `{patience}.

Lemma next_index x : u16 (u16 (x + 1) - x) = 1.
Proof. unfold u16. rewrite Zminus_mod_idemp_l. by replace (x + 1 - x) with 1 by lia. Qed.
Lemma next_index_ne x : u16 (x + 1) <> x.
Proof. intros E. pose proof (next_index x) as E1. rewrite E, Z.sub_diag in E1. done. Qed.

(** A request is complete that the driver has not looked at. *)
Record completed (h b : nat) (d : vdisk) : Prop := {
  cp_index : used_dev_idx d = u16 (v_used_idx d + 1);
  cp_used : used_ring d !! Z.to_nat (v_used_idx d mod Z.of_nat NUM) = Some (Z.of_nat h);
  cp_head : (h < NUM)%nat;
  cp_status : info_status d !! h = Some 0;
  cp_buf : info_b d !! h = Some (Some b);
}.

Lemma complete_one_wp h b s :
  busy L_vdisk s -> completed h b (vd s) ->
  wp complete_one (fun _ s' => busy L_vdisk s' /\
    core s' = core (with_vd (with_v_used_idx (used_dev_idx (vd s)) (vd s)) (upd_buf b (with_b_disk 0) s)) /\
    procs s' = wake (Ch_buf b) (cur s) (procs s) /\ here s' = here s) s.
Proof.
  intros Hb [C1 C2 C3 C4 C5]. unfold complete_one. apply wp_bind, wp_gets. rewrite C2. cbn [default from_option id].
  rewrite i32_small, Nat2Z.id by (unfold NUM in *; lia). rewrite C4, C5. cbn [default from_option id Z.eqb negb deref].
  apply wp_bind, wp_ret, wp_bind, wp_modify, wp_bind. change (with_bufs _ s) with (upd_buf b (with_b_disk 0) s).
  assert (busy L_vdisk (upd_buf b (with_b_disk 0) s)) as Hb1 by by eapply busy_frame; [..|exact Hb].
  eapply wp_mono; [by apply wakeup_busy|]. intros [] s1 (Hb2 & E1 & E2 & E3).
  apply wp_modify. rewrite (core_vd _ _ E1). change (vd (upd_buf b _ s)) with (vd s).
  split; [by eapply busy_frame; [..|exact Hb2]|]. rewrite <- C1. split; [by apply core_with_vd|done].
Qed.

Lemma virtio_disk_intr_wp h b s :
  calm s -> completed h b (vd s) ->
  wp virtio_disk_intr (fun _ s' => calm s' /\
    core s' = core (with_vd (with_v_used_idx (used_dev_idx (vd s)) (vd s)) (upd_buf b (with_b_disk 0) s)) /\
    procs s' = wake (Ch_buf b) (cur s) (procs s) /\ here s' = here s) s.
Proof.
  intros Hc Hd. unfold virtio_disk_intr. apply wp_bind. eapply wp_mono; [by apply acquire_calm|].
  intros [] s1 (Hb1 & E1 & P1 & C1). apply wp_bind, wp_gets, wp_bind, wp_modify. set (s2 := with_mmio _ s1).
  assert (busy L_vdisk s2) as Hb2 by by eapply busy_frame; [..|exact Hb1].
  assert (core s2 = core s) as E2 by exact E1. assert (procs s2 = procs s /\ here s2 = here s) as [P2 C2] by done.
  clearbody s2. clear s1 Hb1 E1 P1 C1. pose proof (core_vd _ _ E2) as Ev. rewrite <- Ev in Hd.
  apply wp_bind, wp_gets. rewrite (cp_index _ _ _ Hd), next_index. change (S (Z.to_nat 1)) with 2%nat. cbn [loopM].
  apply wp_bind, wp_bind, wp_bind, wp_gets. rewrite (proj2 (Z.eqb_neq _ _)) by (rewrite (cp_index _ _ _ Hd); apply not_eq_sym, next_index_ne).
  apply wp_bind. eapply wp_mono; [by eapply complete_one_wp|]. intros [] s3 (Hb3 & E3 & P3 & C3). apply wp_ret.
  apply wp_bind, wp_bind, wp_gets. rewrite (core_vd _ _ E3). vd_cbv.
  rewrite Z.eqb_refl. apply wp_ret, wp_ret. eapply wp_mono; [by apply release_busy|].
  intros [] s4 (Hc4 & E4 & P4 & C4). split; [done|]. rewrite E4, P4, C4, E3, P3, C3, P2, C2, Ev, (f_equal fst C2 : cur s2 = cur s). split; [|done].
  unfold upd_buf. rewrite (core_bufs _ _ E2). exact (core_with_vd _ _ _ (core_with_bufs _ _ _ E2)).
Qed.

(** ** The turn of the hart *)

Lemma intr_wp (m : K unit) f s (Q : unit -> kst -> Prop) :
  m s = Ok tt (with_regs (f (regs s)) s) -> tp (f (regs s)) = tp (regs s) ->
  calm s -> (forall s', calm s' -> same s s' -> Q tt s') -> wp m Q s.
Proof.
  intros E Et Hc HQ. eapply wp_eq; [exact E|]. assert (me (with_regs (f (regs s)) s) = me s) as Em by (unfold me; cbn; by rewrite Et).
  apply HQ.
  - destruct Hc as [C1 C2 C3]. split; [|exact C2|exact C3]. unfold no_lock. rewrite Em. exact C1.
  - split; [done|]. split; [done|]. unfold here, cur. by rewrite Em.
Qed.

Lemma set_cur_busy l i s : busy l s -> busy l (set_cur i s) /\ here (set_cur i s) = (i, me s).
Proof.
  intros [B1 B2 B3]. split.
  - split; [by apply set_cur_only|exact B2|exact B3].
  - unfold here. by rewrite (set_cur_cur l).
Qed.

Lemma cset_me c i s : c = me s -> cset c (with_c_proc i) s = Ok tt (set_cur i s).
Proof. by intros ->. Qed.

(** The scheduler thread once [p] is runnable. *)
Lemma dispatch_wp p q s :
  calm s -> (p < NPROC)%nat -> procs s !! p = Some q -> p_state q = RUNNABLE ->
  wp (acquire (L_proc p);;
      pr <- pget p;;
      if decide (p_state pr = RUNNABLE) then
        pset p (with_p_state RUNNING);;
        pset p (fun pr => with_runCount (i32 (runCount pr + 1)) pr);;
        cset (me s) (with_c_proc (Some p))
      else fun s => Gone s)%M
    (fun _ s' => busy (L_proc p) s' /\ core s' = core s /\ procs s' !! p = Some (dispatched q) /\ cur s' = Some p) s.
Proof.
  intros Hc Hp Eq Hr. apply wp_bind. eapply wp_mono; [apply acquire_calm; [done|by apply Nat.ltb_lt]|].
  intros [] s1 (Hb & E1 & P1 & C1). apply wp_bind, wp_gets. rewrite P1, Eq. cbn [default from_option id]. rewrite decide_True by done.
  apply wp_bind, wp_modify, wp_bind, wp_modify. change (with_procs _ (with_procs _ s1)) with
    (upd p (fun pr => with_runCount (i32 (runCount pr + 1)) pr) (upd p (with_p_state RUNNING) s1)). rewrite upd_upd.
  set (s2 := upd p _ s1). assert (busy (L_proc p) s2) as Hb2.
  { eapply busy_frame; [..|exact Hb]; try done. apply length_alter. }
  destruct (set_cur_busy _ (Some p) s2 Hb2) as [Hb3 Hc3].
  eapply wp_eq; [apply cset_me; exact (eq_sym (f_equal snd C1))|]. split; [exact Hb3|]. split; [exact E1|].
  split; [|exact (f_equal fst Hc3)]. cbn. by rewrite list_lookup_alter_eq, P1, Eq.
Qed.

(** What the handler makes of the driver's data after the device used chain [h]. *)
Definition handled (h : nat) (d : vdisk) : vdisk := with_v_used_idx (u16 (used_dev_idx d + 1)) (used h d).

Lemma vd_transferred b w bn s : vd (transferred b w bn s) = vd s.
Proof. by destruct w. Qed.

Lemma core_transferred b w bn s s' : core s' = core s -> core (transferred b w bn s') = core (transferred b w bn s).
Proof.
  intros E. unfold transferred, disk_put, upd_buf.
  rewrite (core_bufs _ _ E), (core_disk _ _ E), (core_dwrites _ _ E). destruct w.
  - by apply core_put.
  - by apply core_with_bufs.
Qed.

Lemma core_upd_buf b f s s' : core s' = core s -> core (upd_buf b f s') = core (upd_buf b f s).
Proof. intros E. unfold upd_buf. rewrite (core_bufs _ _ E). by apply core_with_bufs. Qed.

(** What the device does is seen by the handler. *)
Lemma transferred_vd b w bn d d' s :
  core (with_vd d' (upd_buf b (with_b_disk 0) (transferred b w bn (with_vd d s)))) =
  core (with_vd d' (upd_buf b (with_b_disk 0) (transferred b w bn s))).
Proof. by destruct w. Qed.

Lemma wake_other ch ps p q : ps !! p = Some q -> p_state q = SLEEPING -> p_chan q = ch ->
  wake ch None ps !! p = Some (with_p_state RUNNABLE q).
Proof.
  intros E Hs Hch. unfold wake. rewrite list_lookup_imap, E. cbn. rewrite decide_True by done. unfold wake_one. by rewrite decide_True.
Qed.

Lemma handled_core h b w bn s s3 s5 :
  core s3 = core s -> core s5 = core (transferred b w bn (with_vd (used h (vd s)) s3)) ->
  core (with_vd (with_v_used_idx (used_dev_idx (vd s5)) (vd s5)) (upd_buf b (with_b_disk 0) s5)) =
  core (with_vd (handled h (vd s)) (upd_buf b (with_b_disk 0) (transferred b w bn s))).
Proof.
  intros E3 E5. assert (vd s5 = used h (vd s)) as -> by (rewrite (core_vd _ _ E5); apply vd_transferred).
  change (with_v_used_idx _ (used h (vd s))) with (handled h (vd s)).
  rewrite (core_with_vd _ _ _ (core_upd_buf _ _ _ _ E5)), transferred_vd. by apply core_with_vd, core_upd_buf, core_transferred.
Qed.

Lemma hart_turn_wp p h b w bn q s :
  busy (L_proc p) s -> (p < NPROC)%nat -> procs s !! p = Some q -> p_state q = SLEEPING -> p_chan q = Ch_buf b ->
  pending (vd s) = Some (Request h w (bn * 2) b) -> completed h b (used h (vd s)) ->
  wp (hart_turn p) (fun _ s' => busy (L_proc p) s' /\ cur s' = Some p /\
    procs s' !! p = Some (dispatched (with_p_state RUNNABLE q)) /\
    core s' = core (with_vd (handled h (vd s)) (upd_buf b (with_b_disk 0) (transferred b w bn s)))) s.
Proof.
  intros Hb Hp Eq Hs Hch Hpend Hcomp. unfold hart_turn. apply wp_bind, wp_bind, wp_gets, wp_ret. fold (me s).
  apply wp_bind. eapply wp_eq; [by apply cset_me|]. destruct (set_cur_busy _ None s Hb) as [Hb1 Hc1].
  apply wp_bind. eapply wp_mono; [apply release_busy; [done|by apply Nat.ltb_lt]|]. intros [] s2 (Hc2 & E2 & P2 & C2).
  apply wp_bind. eapply (intr_wp _ intr_on_regs); [done|done|done|]. intros s3 Hc3 (E3 & P3 & C3).
  assert (core s3 = core s) as E by by rewrite E3, E2. rewrite P2 in P3. change (procs (set_cur None s)) with (procs s) in P3.
  rewrite C2, Hc1 in C3. clear Hb1 Hc1 Hc2 E2 P2 C2 E3 s2.
  apply wp_bind, wp_modify. pose proof (core_vd _ _ E) as Ev. rewrite <- Ev in Hpend.
  destruct (serve_pending _ _ Hpend) as [m ->]. unfold served. cbn [rq_buf rq_write rq_sector rq_head].
  rewrite Z.div_mul, Ev by done. set (s4 := with_mmio m _).
  assert (calm s4) as Hc4 by (eapply calm_frame; [..|exact Hc3]; by destruct w).
  assert (core s4 = core (transferred b w bn (with_vd (used h (vd s)) s3))) as E4 by done.
  assert (procs s4 = procs s /\ here s4 = (None, me s)) as [P4 C4] by (rewrite <- P3, <- C3; by destruct w).
  assert (vd s4 = used h (vd s)) as Ev4 by by destruct w. clearbody s4. clear Hc3 P3 C3 Ev.
  apply wp_bind. eapply (intr_wp _ intr_off_regs); [done|done|done|]. intros s5 Hc5 (E5 & P5 & C5). rewrite E4 in E5. rewrite P4 in P5.
  rewrite C4 in C5. apply wp_bind. eapply wp_mono; [apply (virtio_disk_intr_wp h b); [done|]|].
  { rewrite (f_equal vd E5 : vd s5 = _). cbn. by rewrite vd_transferred. }
  intros [] s6 (Hc6 & E6 & P6 & C6). rewrite P5, (f_equal fst C5 : cur s5 = None) in P6. rewrite C5 in C6.
  apply wp_bind. eapply (intr_wp _ intr_on_regs); [done|done|done|]. intros s7 Hc7 (E7 & P7 & C7).
  rewrite C6 in C7. pose proof (f_equal snd C7 : me s7 = me s) as <-.
  eapply wp_mono; [apply (dispatch_wp p (with_p_state RUNNABLE q)); [done|done| |done]|].
  { rewrite P7, P6. by apply wake_other. }
  intros [] s8 (Hb8 & E8 & P8 & C8). split; [done|]. split; [done|]. split; [done|]. rewrite E8, E7, E6. by eapply handled_core.
Qed.

(** ** Waiting for the device *)

Lemma asleep_busy p ch l s :
  busy l s -> store_lock l = true -> l <> L_proc p -> (p < NPROC)%nat -> busy (L_proc p) (asleep p ch l s).
Proof.
  intros [B1 B2 B3] Hl Hne Hp. unfold asleep. split.
  - apply framed_only; [apply upd_framed|]. by apply switch_only.
  - intros k Hk Hkp. apply framed_free; [apply upd_framed|]. destruct (decide (k = l)) as [->|Hkl]; [apply switch_free|].
    apply drop_other; [by apply not_eq_sym|]. apply take_lock_other; [by apply not_eq_sym|by apply B2].
  - rewrite <- B3. apply length_alter.
Qed.

Lemma asleep_cur p ch l s : busy l s -> cur (asleep p ch l s) = cur s.
Proof. intros Hb. unfold asleep. rewrite cur_framed by apply upd_framed. apply switch_cur, Hb. Qed.

Lemma set_intena_busy l ie s : busy l s -> busy l (set_intena ie s) /\ cur (set_intena ie s) = cur s.
Proof.
  intros [B1 B2 B3]. split; [split; [by apply set_intena_only|exact B2|exact B3]|].
  unfold cur, set_intena. change (me (with_cpus _ s)) with (me s). cbn [cpus with_cpus]. rewrite list_lookup_alter_eq.
  by destruct (cpus s !! me s).
Qed.

(** What follows [sched] in [sleep]. *)
Lemma wake_up_wp p q l s :
  busy (L_proc p) s -> store_lock l = true -> (p < NPROC)%nat -> procs s !! p = Some q ->
  wp (wake_up p l) (fun _ s' => busy l s' /\ core s' = core s /\ procs s' !! p = Some (with_p_chan Ch_null q) /\ cur s' = cur s) s.
Proof.
  intros Hb Hl Hp Eq. unfold wake_up. apply wp_bind, wp_modify. set (s1 := with_procs _ s).
  assert (busy (L_proc p) s1) as Hb1 by (eapply busy_frame; [..|exact Hb]; try done; apply length_alter).
  assert (core s1 = core s /\ procs s1 !! p = Some (with_p_chan Ch_null q) /\ cur s1 = cur s) as (E1 & P1 & C1).
  { split; [done|]. split; [|done]. cbn. by rewrite list_lookup_alter_eq, Eq. }
  clearbody s1. apply wp_bind. eapply wp_mono; [apply release_busy; [done|by apply Nat.ltb_lt]|]. intros [] s2 (Hc2 & E2 & P2 & C2).
  eapply wp_mono; [by apply acquire_calm|]. intros [] s3 (Hb3 & E3 & P3 & C3). split; [done|].
  split; [by rewrite E3, E2|]. split; [by rewrite P3, P2|]. by rewrite (f_equal fst C3 : cur s3 = cur s2), (f_equal fst C2 : cur s2 = cur s1).
Qed.

Lemma sleep_disk_wp p h b w bn q s :
  busy L_vdisk s -> (p < NPROC)%nat -> cur s = Some p -> procs s !! p = Some q -> p_state q = RUNNING ->
  pending (vd s) = Some (Request h w (bn * 2) b) -> completed h b (used h (vd s)) ->
  wp (sleep (Ch_buf b) L_vdisk) (fun _ s' => busy L_vdisk s' /\ cur s' = Some p /\
    (exists q', procs s' !! p = Some q' /\ p_state q' = RUNNING /\ frozen q' = frozen q) /\
    core s' = core (with_vd (handled h (vd s)) (upd_buf b (with_b_disk 0) (transferred b w bn s)))) s.
Proof.
  intros Hb Hp Hc Eq Hr Hpend Hcomp. set (sa := asleep p (Ch_buf b) L_vdisk s).
  assert (busy (L_proc p) sa) as Hba by by apply asleep_busy.
  assert (procs sa !! p = Some (sleeping (Ch_buf b) q)) as Ea by by apply upd_lookup.
  assert (cur sa = Some p) as Ca by by unfold sa; rewrite asleep_cur.
  pose proof (hart_turn_wp p h b w bn _ sa Hba Hp Ea eq_refl eq_refl Hpend Hcomp) as Ht.
  apply wp_ok in Ht as ([] & s2 & E2 & Hb2 & C2 & P2 & K2).
  assert (env (nswtch sa) sa = Some s2) as Eenv by (unfold env, one_hart; by rewrite Ca, E2).
  unfold wp. rewrite (sleep_eq _ _ p q); [|apply Hb|done|by apply Hb; [apply Nat.ltb_lt|]|done|done]. fold sa.
  rewrite (resume_eq _ _ _ _ Eenv). set (s3 := set_intena _ _).
  assert (busy (L_proc p) s3 /\ cur s3 = cur s2) as [Hb3 C3].
  { change (cur s2) with (cur (with_nswtch (S (nswtch sa)) s2)). apply set_intena_busy. by eapply busy_frame; [..|exact Hb2]. }
  pose proof (wake_up_wp p _ L_vdisk s3 Hb3 eq_refl Hp P2) as Hw. unfold wp in Hw. destruct (wake_up p L_vdisk s3) as [[] s4| | | |]; try done.
  destruct Hw as (Hb4 & E4 & P4 & C4). split; [done|]. split; [by rewrite C4, C3|]. split.
  - eexists. split; [exact P4|]. split; [done|]. unfold frozen. by destruct q; cbn in *; subst.
  - rewrite E4. change (core s3) with (core s2). rewrite K2. change (vd sa) with (vd s). by apply core_with_vd, core_upd_buf, core_transferred.
Qed.

(** ** Freeing the chain *)

Definition freed (i : nat) (d : vdisk) : vdisk :=
  with_v_free (<[i := 1]> (v_free d)) (with_v_desc (alter (fun _ => vdesc0) i (v_desc d)) d).

(** What freeing leaves alone: the process [p] and all but the driver's data. *)
Definition after_free (p : nat) (d : vdisk) (s s' : kst) : Prop :=
  busy L_vdisk s' /\ core s' = core (with_vd d s) /\ procs s' !! p = procs s !! p /\ cur s' = Some p.

Lemma desc_cleared d i :
  with_v_desc (alter (with_d_next 0) i (alter (with_d_flags 0) i (alter (with_d_len 0) i (alter (with_d_addr A_null) i (v_desc d))))) d =
  with_v_desc (alter (fun _ => vdesc0) i (v_desc d)) d.
Proof. f_equal. rewrite !list_alter_alter_eq. apply list_alter_ext; [|done]. by intros []. Qed.

Lemma free_desc_wp p q i s :
  busy L_vdisk s -> cur s = Some p -> procs s !! p = Some q -> (i < NUM)%nat -> v_free (vd s) !! i = Some 0 ->
  wp (free_desc i) (fun _ s' => after_free p (freed i (vd s)) s s') s.
Proof.
  intros Hb Hc Eq Hi Hf. unfold free_desc. rewrite (proj2 (Nat.leb_gt _ _)) by done. apply wp_bind, wp_gets. rewrite Hf.
  cbn [default from_option id Z.eqb negb]. do 5 (apply wp_bind, wp_modify). set (s1 := with_vd _ _).
  assert (core s1 = core (with_vd (freed i (vd s)) s)) as E1.
  { unfold s1, freed. kst_cbv. rewrite <- desc_cleared. reflexivity. }
  assert (busy L_vdisk s1) as Hb1 by by eapply busy_frame; [..|exact Hb].
  assert (procs s1 = procs s /\ cur s1 = Some p) as [P1 C1] by done. clearbody s1.
  eapply wp_mono; [by apply wakeup_busy|]. intros [] s2 (Hb2 & E2 & P2 & C2). split; [done|]. split; [by rewrite E2|].
  rewrite P2, P1, C1. split; [|by rewrite (f_equal fst C2 : cur s2 = cur s1)]. rewrite Eq. by apply wake_self.
Qed.

(** One round of the loop of [free_chain]. *)
Lemma free_round_wp {A} p q i e (k : nat + unit -> K A) s (Q : A -> kst -> Prop) :
  busy L_vdisk s -> cur s = Some p -> procs s !! p = Some q -> (i < NUM)%nat -> v_free (vd s) !! i = Some 0 ->
  v_desc (vd s) !! i = Some e ->
  (forall s', after_free p (freed i (vd s)) s s' ->
     wp (k (if negb (Z.land (d_flags e) VRING_DESC_F_NEXT =? 0) then inl (Z.to_nat (d_next e)) else inr tt)) Q s') ->
  wp (r <- (d <- desc_get i;;
            let flag := d_flags d in
            let nxt := d_next d in
            free_desc i;;
            if negb (Z.land flag VRING_DESC_F_NEXT =? 0) then ret (inl (Z.to_nat nxt)) else ret (inr tt));; k r)%M Q s.
Proof.
  intros Hb Hc Eq Hi Hf He HQ. apply wp_bind, wp_bind, wp_gets. rewrite He. cbn [default from_option id]. cbv zeta.
  apply wp_bind. eapply wp_mono; [by eapply free_desc_wp|]. intros [] s' Hs.
  specialize (HQ s' Hs). destruct (negb _); by apply wp_ret.
Qed.

Lemma after_free_trans p d1 d2 s s1 s2 : after_free p d1 s s1 -> after_free p d2 s1 s2 -> after_free p d2 s s2.
Proof.
  intros (B1 & E1 & P1 & C1) (B2 & E2 & P2 & C2). split; [done|]. split; [|by rewrite P2].
  rewrite E2. change (core (with_vd d2 s)) with (core (with_vd d2 (with_vd d1 s))). by apply core_with_vd.
Qed.

Lemma after_free_facts p q d s s' : after_free p d s s' -> procs s !! p = Some q ->
  busy L_vdisk s' /\ cur s' = Some p /\ procs s' !! p = Some q /\ vd s' = d.
Proof. intros (B & E & P & C) Eq. split_and!; [done|done|by rewrite P|exact (core_vd _ _ E)]. Qed.

Lemma free_chain_wp p q e0 e1 e2 l s :
  busy L_vdisk s -> cur s = Some p -> procs s !! p = Some q -> v_free (vd s) = three_taken ->
  v_desc (vd s) = e0 :: e1 :: e2 :: l ->
  d_flags e0 = VRING_DESC_F_NEXT -> d_next e0 = 1 -> Z.testbit (d_flags e1) 0 = true -> d_next e1 = 2 -> d_flags e2 = VRING_DESC_F_WRITE ->
  wp (free_chain 0) (fun _ s' =>
    after_free p (with_v_free (replicate NUM 1) (with_v_desc (vdesc0 :: vdesc0 :: vdesc0 :: l) (vd s))) s s') s.
Proof.
  intros Hb Hc Eq Hf Hd F0 N0 F1 N1 F2. unfold free_chain. change (S NUM) with (S (S (S 6))). cbn [loopM].
  assert (Z.land (d_flags e1) VRING_DESC_F_NEXT <> 0) as Hf1.
  { intros E. apply (f_equal (fun x => Z.testbit x 0)) in E. rewrite Z.land_spec, F1 in E. done. }
  eapply free_round_wp; [done|done|done|unfold NUM; lia|by rewrite Hf|by rewrite Hd|]. intros s1 A1.
  destruct (after_free_facts _ _ _ _ _ A1 Eq) as (B1 & C1 & P1 & V1). rewrite F0, N0. cbn [Z.land Pos.land negb Z.eqb].
  change (Z.to_nat 1) with 1%nat.
  eapply free_round_wp; [done|done|done|unfold NUM; lia|by rewrite V1; unfold freed; vd_cbv; rewrite Hf|
    by rewrite V1; unfold freed; vd_cbv; rewrite Hd|]. intros s2 A2.
  destruct (after_free_facts _ _ _ _ _ A2 P1) as (B2 & C2 & P2 & V2). rewrite (proj2 (Z.eqb_neq _ _)), N1 by done. cbn [negb].
  change (Z.to_nat 2) with 2%nat.
  eapply free_round_wp; [done|done|done|unfold NUM; lia|by rewrite V2, V1; unfold freed; vd_cbv; rewrite Hf|
    by rewrite V2, V1; unfold freed; vd_cbv; rewrite Hd|]. intros s3 A3.
  rewrite F2. cbn [Z.land Pos.land negb Z.eqb VRING_DESC_F_WRITE VRING_DESC_F_NEXT]. apply wp_ret.
  replace (with_v_free _ _) with (freed 2 (vd s2)); [by do 2 (eapply after_free_trans; [done|])|].
  rewrite V2, V1. unfold freed. vd_cbv. rewrite Hf, Hd. by destruct (vd s).
Qed.

(** ** The driver *)

(** The driver's data after the request: as before, but for the rings and the contents of unused entries. *)
Definition request_done (b : nat) (w : bool) (sector : Z) (d : vdisk) : vdisk :=
  let d1 := handled 0 (submitted b w sector (with_v_free three_taken d)) in
  with_v_free (replicate NUM 1) (with_v_desc (vdesc0 :: vdesc0 :: vdesc0 :: drop 3 (v_desc d)) (with_info_b (<[0%nat := None]> (info_b d1)) d1)).

Lemma request_done_idle b w sector d : vdisk_idle d -> vdisk_idle (request_done b w sector d).
Proof.
  intros [I1 I2 I3 I4 [I5 I5'] I6 (I7 & I8 & I9)]. unfold request_done, handled, used, submitted.
  split; vd_cbv; rewrite ?length_insert; try done.
  - cbn [length]. by rewrite length_drop, I2.
  - rewrite I9. unfold u16. split; [|done]. apply Z.mod_pos_bound. done.
Qed.

Lemma submitted_completed b w sector d :
  vdisk_idle d -> completed 0 b (used 0 (submitted b w sector (with_v_free three_taken d))).
Proof.
  intros [I1 I2 I3 I4 [I5 I5'] I6 (I7 & I8 & I9)]. unfold used, submitted. split; vd_cbv.
  - by rewrite I8.
  - rewrite I8. apply list_lookup_insert_eq. rewrite I4. pose proof (Z.mod_pos_bound (used_dev_idx d) (Z.of_nat NUM) ltac:(done)). lia.
  - apply Nat.lt_0_succ.
  - apply list_lookup_insert_eq. rewrite length_insert, I5'. apply Nat.lt_0_succ.
  - apply list_lookup_insert_eq. rewrite I5. apply Nat.lt_0_succ.
Qed.

Lemma idle_calm p pr h s : idle p pr h s -> calm s.
Proof. intros [I1 I2 I3 I4 I5 I6 I7]. by split. Qed.

(** A quiet state is idle again once the driver's data are. *)
Lemma calm_idle p pr h q s s' :
  idle p pr h s -> calm s' -> cur s' = Some p -> procs s' !! p = Some q -> p_state q = RUNNING -> frozen q = frozen pr ->
  slocks s' = slocks s -> vdisk_idle (vd s') -> idle p pr h s'.
Proof.
  intros [I1 I2 I3 I4 I5 I6 I7] [C1 C2 C3] Hc Eq Hr Hf Es Hv. split; try done.
  - by exists q.
  - by rewrite Es.
Qed.

Lemma disk_flag_back b (f : buf -> buf) bs :
  b_disk (getb bs b) = 0 -> (forall x, b_disk (f x) = b_disk x) -> (forall v x, with_b_disk v (f x) = f (with_b_disk v x)) ->
  alter (with_b_disk 0) b (alter f b (alter (with_b_disk 1) b bs)) = alter f b bs.
Proof.
  intros Hz Hd Hc. rewrite !list_alter_alter_eq. apply list_alter_ext; [|done]. intros x Ex. unfold compose.
  rewrite !Hc. f_equal. unfold getb in Hz. rewrite Ex in Hz. cbn in Hz. destruct x. cbn in *. by subst.
Qed.

Lemma transferred_body b w bn d m s s' :
  b_disk (getb (bufs s) b) = 0 -> (b < length (bufs s))%nat ->
  core s' = core (with_vd d (upd_buf b (with_b_disk 0) (transferred b w bn (with_mmio m (upd_buf b (with_b_disk 1) s))))) ->
  body s' = body (transferred b w bn s).
Proof.
  intros Hz Hl E. pose proof (f_equal (fun s => with_slocks ∅ (with_vd vdisk0 s)) E) as Eb.
  change (body s' = body (with_vd d (upd_buf b (with_b_disk 0) (transferred b w bn (with_mmio m (upd_buf b (with_b_disk 1) s)))))) in Eb.
  rewrite Eb. clear Eb E. revert Hz Hl. unfold transferred, disk_put, upd_buf. destruct s. destruct w; kst_cbv; intros Hz Hl.
  - rewrite getb_alter, decide_True by done. cbn [b_data with_b_disk].
    pose proof (disk_flag_back b id bufs Hz ltac:(done) ltac:(done)) as Eb. rewrite !(list_alter_id id) in Eb by done. by rewrite Eb.
  - by rewrite disk_flag_back.
Qed.

(** Waiting for the device: one sleep is enough. *)
Lemma wait_wp p b w bn q s :
  (1 < wakeups)%nat -> busy L_vdisk s -> (p < NPROC)%nat -> cur s = Some p -> procs s !! p = Some q -> p_state q = RUNNING ->
  (b < length (bufs s))%nat -> b_disk (getb (bufs s) b) = 1 ->
  pending (vd s) = Some (Request 0 w (bn * 2) b) -> completed 0 b (used 0 (vd s)) ->
  wp (loopM wakeups (fun _ =>
        bp <- bufget b;;
        if b_disk bp =? 1 then sleep (Ch_buf b) L_vdisk;; ret (inl tt) else ret (inr tt)) tt)%M
    (fun _ s' => busy L_vdisk s' /\ cur s' = Some p /\
      (exists q', procs s' !! p = Some q' /\ p_state q' = RUNNING /\ frozen q' = frozen q) /\
      core s' = core (with_vd (handled 0 (vd s)) (upd_buf b (with_b_disk 0) (transferred b w bn s)))) s.
Proof.
  intros Hw Hb Hp Hc Eq Hr Hl Hd Hpend Hcomp. destruct wakeups as [|[|n]]; [lia|lia|]. cbn [loopM].
  apply wp_bind, wp_bind, wp_gets. fold (getb (bufs s) b). rewrite Hd. cbn [Z.eqb Pos.eqb].
  apply wp_bind. eapply wp_mono; [by apply (sleep_disk_wp p 0 b w bn q)|]. intros [] s1 (Hb1 & C1 & Hq & E1). apply wp_ret.
  apply wp_bind, wp_bind, wp_gets. fold (getb (bufs s1) b).
  assert (b_disk (getb (bufs s1) b) = 0) as ->; [|by apply wp_ret, wp_ret].
  rewrite (core_bufs _ _ E1). destruct w; cbn; rewrite getb_alter, decide_True by (rewrite ?length_alter; done); done.
Qed.

(** Taking the request back. *)
Lemma reclaim_wp p q b w sector d s x :
  busy L_vdisk s -> cur s = Some p -> procs s !! p = Some q ->
  core s = core (with_vd (handled 0 (submitted b w sector (with_v_free three_taken d))) x) ->
  wp (vdset (fun d => with_info_b (<[0%nat := None]> (info_b d)) d);; free_chain 0;; release L_vdisk)%M
    (fun _ s' => calm s' /\ cur s' = Some p /\ procs s' !! p = Some q /\ core s' = core (with_vd (request_done b w sector d) x)) s.
Proof.
  intros Hb Hc Eq E. pose proof (core_vd _ _ E) as V. cbn [vd with_vd] in V. apply wp_bind, wp_modify. rewrite V. set (s5 := with_vd _ s).
  assert (busy L_vdisk s5) as Hb5 by by eapply busy_frame; [..|exact Hb].
  apply wp_bind. eapply wp_mono; [eapply (free_chain_wp p q); try done; by destruct w|].
  intros [] s6 (Hb6 & E6 & P6 & C6). eapply wp_mono; [by apply release_busy|]. intros [] s7 (Hc7 & E7 & P7 & C7).
  split; [done|]. split; [by rewrite (f_equal fst C7 : cur s7 = cur s6)|]. split; [by rewrite P7, P6|].
  rewrite E7, E6. exact (core_with_vd _ _ _ E).
Qed.

Lemma virtio_disk_rw_wp p pr h b w s :
  (1 < wakeups)%nat -> idle p pr h s -> length (bufs s) = S NBUF -> (b < NBUF)%nat -> b_disk (getb (bufs s) b) = 0 ->
  block_ok (b_blockno (getb (bufs s) b)) ->
  wp (virtio_disk_rw b w) (fun _ s' => idle p pr h s' /\ body s' = body (transferred b w (b_blockno (getb (bufs s) b)) s)) s.
Proof.
  intros Hw Hi Hlen Hb Hz Hok. set (bn := b_blockno (getb (bufs s) b)) in *. destruct (id_proc _ _ _ _ Hi) as (q & Eq & Hr & Hq).
  assert (p < NPROC)%nat as Hp by (rewrite <- (id_len _ _ _ _ Hi); by eapply lookup_lt_Some). pose proof (id_disk _ _ _ _ Hi) as Hv.
  unfold virtio_disk_rw. apply wp_bind, wp_gets. fold (getb (bufs s) b). fold bn. change (BSIZE / 512) with 2. cbv zeta.
  rewrite u32_small by (unfold block_ok in Hok; lia).
  apply wp_bind. eapply wp_mono; [by eapply acquire_calm; [eapply idle_calm|]|]. intros [] s1 (Hb1 & E1 & P1 & C1).
  pose proof (core_vd _ _ E1) as V1. pose proof (core_bufs _ _ E1) as F1.
  apply wp_bind. eapply wp_eq.
  { apply loopM_done; [lia|]. rewrite (bind_ok _ _ _ _ _ (alloc3_eq s1 ltac:(rewrite V1; apply Hv))). reflexivity. }
  cbn [nth]. apply wp_bind. set (s2 := with_vd _ s1).
  destruct (submit_eq b w (bn * 2) s2) as [m E2]; [cbn; rewrite V1; apply Hv|cbn; rewrite V1; apply Hv|].
  eapply wp_eq; [exact E2|]. clear E2. cbn [vd with_vd s2]. rewrite V1.
  set (D := submitted b w (bn * 2) (with_v_free three_taken (vd s))). set (s3 := with_mmio m _).
  assert (busy L_vdisk s3) as Hb3 by by eapply busy_frame; [..|exact Hb1].
  assert (vd s3 = D) as V3 by done. assert (bufs s3 = alter (with_b_disk 1) b (bufs s)) as F3 by exact (f_equal (alter _ b) F1).
  assert (pending D = Some (Request 0 w (bn * 2) b)) as Hpend by (apply pending_submitted; [done|by apply Z_mod_mult]).
  assert (completed 0 b (used 0 D)) as Hcomp by by apply submitted_completed.
  apply wp_bind. eapply wp_mono; [apply (wait_wp p b w bn q); try done|].
  { exact (eq_trans (f_equal fst C1) (id_cur _ _ _ _ Hi)). }
  { change (procs s1 !! p = Some q). by rewrite P1. }
  { rewrite F3, length_alter. lia. }
  { by rewrite F3, getb_alter, decide_True by lia. }
  intros [] s4 (Hb4 & C4 & (q' & P4 & Hr4 & Hq4) & E4). rewrite V3 in E4.
  eapply wp_mono; [by eapply (reclaim_wp p q')|]. intros [] s7 (Hc7 & C7 & P7 & E7). split.
  - eapply (calm_idle p pr h q' s s7); try done.
    + by rewrite Hq4.
    + rewrite (core_slocks _ _ E7). transitivity (slocks s1); [by destruct w|exact (core_slocks _ _ E1)].
    + rewrite (core_vd _ _ E7). by apply request_done_idle.
  - apply (transferred_body b w bn (request_done b w (bn * 2) (vd s)) m); [done|lia|]. rewrite E7.
    change s3 with (with_vd D (with_mmio m (upd_buf b (with_b_disk 1) s1))). rewrite transferred_vd.
    by apply core_with_vd, core_upd_buf, core_transferred, core_upd_buf.
Qed.

(** The driver as the disk of the buffer cache. *)
#[local] Instance virtio_driver : disk_driver := virtio_disk_rw.

Lemma virtio_laws : (1 < wakeups)%nat -> disk_laws.
Proof. intros Hw. split; intros p pr h b s Hi Hl Hb Hz Hok; exact (virtio_disk_rw_wp p pr h b _ s Hw Hi Hl Hb Hz Hok). Qed.


End driver.
