(* ===== verification/BioInit.v ===== *)
(** * Initialising the buffer cache

    [binit] builds the list of buffers and their sleep locks. *)

From S2P Require Import Prelude Riscv Memory State Spinlock Sched SchedSpec Sleeplock SleepSpec Bio BioRing BioSpec.

(** Unlocked, with the name [binit] gives it. *)
Definition buffer_lock : sleeplock := Sleeplock 0 "buffer" 0.

(** A state apart from locks and buffers. *)
Definition apart (s : kst) : kst := with_locks ∅ (with_slocks ∅ (with_bufs [] s)).

(** What the loop of [binit] has done for the buffers [l], last one first. *)
Record binit_inv (s : kst) (l : list nat) (s' : kst) : Prop := {
  bi_length : length (bufs s') = S NBUF;
  bi_linked : linked (nx (bufs s')) (pv (bufs s')) (bhead :: reverse l ++ [bhead]);
  bi_payload : forall i, payload (getb (bufs s') i) = payload (getb (bufs s) i);
  bi_slocks : forall b, b ∈ l -> slocks s' !! SL_buf b = Some buffer_lock;
  bi_locks : forall b, b ∈ l -> lock_free (L_buf b) s';
  bi_bcache : lock_free L_bcache s';
  bi_other : forall k, k <> L_bcache -> (forall b, k <> L_buf b) -> locks s' !! k = locks s !! k;
  bi_apart : apart s' = apart s;
}.

(** The state after a round of the loop. *)
Definition with_buffer (b : nat) (s : kst) : kst :=
  with_bufs (pushed_front b (bufs s)) (with_slocks (<[SL_buf b := buffer_lock]> (slocks s))
    (with_locks (<[L_buf b := Spinlock 0 "sleep lock" None]> (locks s)) s)).

Definition binit_round (b : nat) : K unit :=
  (head_push b;; initsleeplock (SL_buf b) "buffer";; head_link b)%M.

Lemma binit_round_eq b s : binit_round b s = Ok tt (with_buffer b s).
Proof.
  unfold binit_round, initsleeplock, slset, with_buffer.
  unfold head_push, head_link, initlock, lset, bufget, bufset, slset, bind, gets, modify, ret.
  f_equal. kst_cbv. f_equal. rewrite !lookup_insert_eq. by rewrite !insert_insert_eq.
Qed.

Lemma binit_step s l b s1 :
  binit_inv s l s1 -> (b < NBUF)%nat -> (forall x, x ∈ l -> (x < NBUF)%nat) -> b ∉ l -> NoDup l ->
  binit_inv s (l ++ [b]) (with_buffer b s1).
Proof.
  intros [H1 H2 H3 H4 H5 H6 H7 H8] Hb Hlt Hbl Hnd. split.
  - cbn. unfold pushed_front. cbv zeta. by rewrite !length_alter.
  - rewrite reverse_app. cbn [reverse app]. cbn [bufs with_buffer with_bufs].
    apply push_front_linked; [done|done| | | |done].
    + intros x Hx. apply Hlt. by apply elem_of_reverse.
    + by rewrite elem_of_reverse.
    + by rewrite reverse_Permutation.
  - intros i. cbn. unfold pushed_front. cbv zeta. by rewrite !payload_alter.
  - intros c. cbn. destruct (decide (c = b)) as [->|Hne]; [by rewrite lookup_insert_eq|].
    rewrite lookup_insert_ne by congruence. intros [Hc|Hc%list_elem_of_singleton]%elem_of_app; [by apply H4|done].
  - intros c Hc. unfold lock_free. cbn. destruct (decide (c = b)) as [->|Hne]; [rewrite lookup_insert_eq; by eexists|].
    rewrite lookup_insert_ne by congruence. apply elem_of_app in Hc as [Hc|Hc%list_elem_of_singleton]; [by apply H5|done].
  - unfold lock_free. cbn. by rewrite lookup_insert_ne.
  - intros k Hk1 Hk2. cbn. rewrite lookup_insert_ne by (symmetry; apply Hk2). by apply H7.
  - exact H8.
Qed.

Lemma binit_wp s :
  length (bufs s) = S NBUF -> wp binit (fun _ s' => binit_inv s (seq 0 NBUF) s') s.
Proof.
  intros Hlen. unfold binit. apply wp_bind, wp_modify, wp_bind, wp_modify, wp_bind, wp_modify.
  apply (wp_forM (seq 0 NBUF) binit_round (binit_inv s)).
  - split; try done.
    + cbn. by rewrite !length_alter.
    + cbn. rewrite !nx_next, !pv_next, !pv_prev by (rewrite ?length_alter, Hlen; unfold bhead; lia).
      by rewrite !decide_True.
    + intros i. cbn. by rewrite !payload_alter.
    + intros b Hb. by apply elem_of_nil in Hb.
    + intros b Hb. by apply elem_of_nil in Hb.
    + eexists. apply lookup_insert_eq.
    + intros k Hk _. cbn. by rewrite lookup_insert_ne.
  - intros pre b post s1 El HI. eapply wp_eq; [apply binit_round_eq|].
    pose proof (NoDup_seq 0 NBUF) as Hnd. rewrite El in Hnd. apply NoDup_app in Hnd as (Hnd & Hd & _).
    assert (forall x, x ∈ pre ++ b :: post -> (x < NBUF)%nat) as Hlt
      by (intros x Hx; rewrite <- El in Hx; apply elem_of_seq in Hx; lia).
    apply binit_step; [done| | | |done].
    + apply Hlt, elem_of_app. right. by left.
    + intros x Hx. apply Hlt, elem_of_app. by left.
    + intros Hin. apply (Hd b Hin). by left.
Qed.

(** An empty cache: no buffer belongs to the device. *)
Lemma blocks_fresh dv B d :
  dv <> 0 -> (forall i, payload (B i) = payload buf0) -> (forall bn, length (dblock d bn) = Z.to_nat BSIZE) ->
  blocks dv (dblock d) ∅ ∅ B d.
Proof.
  intros Hdv Hb Hd. apply (blocks_ext dv _ _ _ (fun _ => buf0)); [done|].
  split; try done; cbn; intros; first [by right|congruence].
Qed.

(** The states in which the system initialises the cache: the buffers are zeroed and no
    lock of the storage code is held. *)
Record bootable (p : nat) (pr : proc) (s : kst) : Prop := {
  bo_bufs : bufs s = replicate (S NBUF) buf0;
  bo_disk : forall bn, length (dblock (disk s) bn) = Z.to_nat BSIZE;
  bo_no_lock : no_lock s;
  bo_cur : cur s = Some p;
  bo_proc : procs s !! p = Some pr /\ p_state pr = RUNNING;
  bo_len : length (procs s) = NPROC;
  bo_locks : forall l, store_lock l = true -> l <> L_bcache -> (forall b, l <> L_buf b) -> lock_free l s;
  bo_vd : vdisk_idle (vd s);
}.

Lemma binit_store dv p pr s :
  dv <> 0 -> bootable p pr s ->
  wp binit (fun _ s' => store dv p pr (dblock (disk s)) ∅ ∅ s' /\ disk s' = disk s /\ lg s' = lg s) s.
Proof.
  intros Hdv [B1 B2 B3 B4 B5 B6 B7 B8]. eapply wp_mono; [apply binit_wp; by rewrite B1|].
  intros [] s' [I1 I2 I3 I4 I5 I6 I7 I8].
  pose proof (f_equal disk I8 : disk s' = disk s) as Ed. pose proof (f_equal lg I8 : lg s' = lg s) as El.
  pose proof (f_equal regs I8 : regs s' = regs s) as Er. pose proof (f_equal cpus I8 : cpus s' = cpus s) as Ec.
  pose proof (f_equal procs I8 : procs s' = procs s) as Ep.
  pose proof (f_equal vd I8 : vd s' = vd s) as Ev.
  assert (forall b, (b < NBUF)%nat -> b ∈ seq 0 NBUF) as Hin by (intros b Hb; apply elem_of_seq; lia).
  split; [|done]. split.
  - split; unfold no_lock, cur, me; rewrite ?Er, ?Ec, ?Ep, ?Ev; try done.
    + destruct B5 as [Ep1 Hrun]. by exists pr.
    + intros l Hl. destruct (decide (l = L_bcache)) as [->|Hne]; [done|].
      destruct l; try (apply B7 in Hl; [|done|done]; destruct Hl as [nm Hl]; exists nm; by rewrite I7).
      apply I5, Hin. by apply Nat.ltb_lt.
    + intros b Hb. exists buffer_lock. split; [by apply I4, Hin|]. by rewrite dom_empty_L.
  - exists (reverse (seq 0 NBUF)). split; [apply reverse_Permutation|done|done].
  - rewrite Ed. apply blocks_fresh; [done| |done]. intros i. rewrite I3, B1. unfold getb.
    destruct (replicate (S NBUF) buf0 !! i) as [x|] eqn:E; [|done]. by apply lookup_replicate in E as [-> _].
Qed.

(** C34: [binit] establishes the cache: on zeroed buffers it returns with all of them linked in a
    ring, unlocked and unreferenced, so that for every device the contents of the blocks
    are those of the disk. *)
Theorem binit_correct dv p pr s :
  dv <> 0 -> bootable p pr s ->
  exists s', binit s = Ok tt s' /\ store dv p pr (dblock (disk s)) ∅ ∅ s' /\ disk s' = disk s.
Proof.
  intros Hdv Hb. pose proof (binit_store dv p pr s Hdv Hb) as Hwp.
  destruct (proj1 (wp_ok _ _ _) Hwp) as ([] & s' & E & Hs & Hd & _). exists s'. split; [exact E|]. split; [exact Hs|exact Hd].
Qed.
