(* ===== verification/Log.v ===== *)
(** * The log: kernel/log.c *)

From S2P Require Import Prelude Riscv Memory Bytes State Spinlock Sched Sleeplock Bio.

Section log.
Context `{environment} `{patience} `{disk_driver}.

(** The offset of [block[i]] in [struct logheader]. *)
Definition lh_off (i : Z) : Z := 4 + 4 * i.
Definition LH_SIZE : Z := 4 + 4 * LOGSIZE.

(** [log.lh.block[i]] and its assignment. *)
Definition lh_get (i : Z) : K Z :=
  l <- gets lg;;
  match lh_block l !! Z.to_nat i with Some b => ret b | None => undefined end.
Definition lh_set (i v : Z) : K unit :=
  l <- gets lg;;
  if (0 <=? i) && (i <? LOGSIZE)
  then lgset (fun l => with_lh_block (<[Z.to_nat i := v]> (lh_block l)) l)
  else undefined.

(** [for(i = 0; i < log.lh.n; i++) body], for bodies that leave [log.lh.n] alone (nobody
    else changes it while the log is being committed or recovered). *)
Definition for_log (body : Z -> K unit) : K unit :=
  l <- gets lg;;
  forM (map Z.of_nat (seq 0 (Z.to_nat (lh_n l)))) body.

Definition install_trans (recovering : bool) : K unit :=
  for_log (fun tail =>
    l <- gets lg;;
    lbuf <- bread (u32 (l_dev l)) (u32 (l_start l + tail + 1));;
    blk <- lh_get tail;;
    dbuf <- bread (u32 (l_dev l)) (u32 blk);;
    data <- bdata lbuf;;
    bdata_set dbuf (fun _ => data);;
    bwrite dbuf;;
    (if recovering then ret tt else bunpin dbuf);;
    brelse lbuf;;
    brelse dbuf).

Definition read_head : K unit :=
  l <- gets lg;;
  b <- bread (u32 (l_dev l)) (u32 (l_start l));;
  data <- bdata b;;
  lgset (with_lh_n (i32 (get32 data 0)));;
  for_log (fun i => lh_set i (i32 (get32 data (lh_off i))));;
  brelse b.

Definition write_head : K unit :=
  l <- gets lg;;
  b <- bread (u32 (l_dev l)) (u32 (l_start l));;
  l <- gets lg;;
  bdata_set b (fun d => set32 d 0 (lh_n l));;
  for_log (fun i =>
    blk <- lh_get i;;
    bdata_set b (fun d => set32 d (lh_off i) blk));;
  bwrite b;;
  brelse b.

Definition recover_from_log : K unit :=
  read_head;;
  install_trans true;;
  lgset (with_lh_n 0);;
  write_head.

Definition initlog (dev : Z) (s : superblock) : K unit :=
  if BSIZE <=? LH_SIZE then panic "initlog: too big logheader" else
  initlock L_log "log";;
  lgset (with_l_start (i32 (sb_logstart s)));;
  lgset (with_l_size (i32 (sb_nlog s)));;
  lgset (with_l_dev dev);;
  recover_from_log.

Definition begin_op : K unit :=
  acquire L_log;;
  loopM wakeups (fun _ =>
    l <- gets lg;;
    if negb (l_committing l =? 0) then sleep Ch_log L_log;; ret (inl tt)
    else if LOGSIZE <? lh_n l + (l_outstanding l + 1) * MAXOPBLOCKS
    then sleep Ch_log L_log;; ret (inl tt)
    else
      lgset (with_l_outstanding (l_outstanding l + 1));;
      release L_log;;
      ret (inr tt)) tt.

Definition write_log : K unit :=
  for_log (fun tail =>
    l <- gets lg;;
    to <- bread (u32 (l_dev l)) (u32 (l_start l + tail + 1));;
    blk <- lh_get tail;;
    from <- bread (u32 (l_dev l)) (u32 blk);;
    data <- bdata from;;
    bdata_set to (fun _ => data);;
    bwrite to;;
    brelse from;;
    brelse to).

Definition commit : K unit :=
  l <- gets lg;;
  if 0 <? lh_n l then
    write_log;;
    write_head;;
    install_trans false;;
    lgset (with_lh_n 0);;
    write_head
  else ret tt.

Definition end_op : K unit :=
  acquire L_log;;
  lgset (fun l => with_l_outstanding (l_outstanding l - 1) l);;
  l <- gets lg;;
  if negb (l_committing l =? 0) then panic "log.committing" else
  let do_commit := l_outstanding l =? 0 in
  (if do_commit then lgset (with_l_committing 1) else wakeup Ch_log);;
  release L_log;;
  if do_commit then
    commit;;
    acquire L_log;;
    lgset (with_l_committing 0);;
    wakeup Ch_log;;
    release L_log
  else ret tt.

(** The first [i] with [log.lh.block[i] == blockno], or [log.lh.n]. *)
Definition absorb (l : log) (blockno : Z) : Z :=
  match list_find (fun b => u32 b = blockno) (take (Z.to_nat (lh_n l)) (lh_block l)) with
  | Some (i, _) => Z.of_nat i
  | None => lh_n l
  end.

Definition log_write (b : nat) : K unit :=
  acquire L_log;;
  l <- gets lg;;
  if (LOGSIZE <=? lh_n l) || (l_size l - 1 <=? lh_n l)
  then panic "too big a transaction" else
  if l_outstanding l <? 1 then panic "log_write outside of trans" else
  bp <- bufget b;;
  let i := absorb l (b_blockno bp) in
  lh_set i (i32 (b_blockno bp));;
  (if i =? lh_n l then
     bpin b;;
     lgset (fun l => with_lh_n (lh_n l + 1) l)
   else ret tt);;
  release L_log.

End log.
