(* ===== verification/LogDisk.v ===== *)
(** * The log on the disk

    Sequences of disk writes, reference counts of blocks, the header block and the writes
    of a commit and of a recovery, apart from the code that makes them. *)

From S2P Require Import Prelude Riscv Memory Bytes State Bio BioRing BioSpec Log.

(** ** Sequences of disk writes *)

Definition put_block (d : gmap Z (list Z)) (w : Z * list Z) : gmap Z (list Z) := <[w.1 := w.2]> d.

(** The disk after some writes. *)
Definition apply_writes (ws : list (Z * list Z)) (d : gmap Z (list Z)) : gmap Z (list Z) :=
  foldl put_block d ws.

Definition puts (ws : list (Z * list Z)) (s : kst) : kst := foldl (fun s w => disk_put w.1 w.2 s) s ws.

(** The contents of the blocks after some writes. *)
Definition setvs (ws : list (Z * list Z)) (V : Z -> list Z) : Z -> list Z :=
  foldl (fun V w => setv V w.1 w.2) V ws.

Lemma puts_snoc ws w s : puts (ws ++ [w]) s = disk_put w.1 w.2 (puts ws s).
Proof. unfold puts. by rewrite foldl_app. Qed.
Lemma puts_app ws ws' s : puts (ws ++ ws') s = puts ws' (puts ws s).
Proof. unfold puts. by rewrite foldl_app. Qed.
Lemma setvs_snoc ws w V : setvs (ws ++ [w]) V = setv (setvs ws V) w.1 w.2.
Proof. unfold setvs. by rewrite foldl_app. Qed.
Lemma apply_writes_app ws ws' d : apply_writes (ws ++ ws') d = apply_writes ws' (apply_writes ws d).
Proof. unfold apply_writes. by rewrite foldl_app. Qed.

Lemma puts_disk ws s : disk (puts ws s) = apply_writes ws (disk s).
Proof. induction ws as [|w ws IH] using rev_ind; [done|]. rewrite puts_snoc, apply_writes_app, <- IH. done. Qed.
Lemma puts_dwrites ws s : dwrites (puts ws s) = dwrites s ++ ws.
Proof.
  induction ws as [|w ws IH] using rev_ind; [by rewrite app_nil_r|].
  rewrite puts_snoc, app_assoc. cbn. rewrite IH. by destruct w.
Qed.
Lemma puts_lg ws s : lg (puts ws s) = lg s.
Proof. induction ws as [|w ws IH] using rev_ind; [done|]. by rewrite puts_snoc. Qed.

Lemma outer_lg s s' : outer s' = outer s -> lg s' = lg s.
Proof. intros E. exact (f_equal lg E). Qed.
Lemma outer_disk s s' : outer s' = outer s -> disk s' = disk s.
Proof. intros E. exact (f_equal disk E). Qed.
Lemma outer_put bn x s s' : outer s' = outer s -> outer (disk_put bn x s') = outer (disk_put bn x s).
Proof. intros E. exact (f_equal (disk_put bn x) E). Qed.
Lemma outer_puts ws s s' : outer s' = outer s -> outer (puts ws s') = outer (puts ws s).
Proof.
  intros E. induction ws as [|w ws IH] using rev_ind; [done|]. rewrite !puts_snoc. by apply outer_put.
Qed.

(** A block that no write concerns. *)
Lemma setvs_other ws V bn : bn ∉ ws.*1 -> setvs ws V bn = V bn.
Proof.
  induction ws as [|w ws IH] using rev_ind; [done|]. rewrite fmap_app, not_elem_of_app. intros [H1 H2].
  rewrite setvs_snoc. unfold setv. rewrite decide_False by set_solver. by apply IH.
Qed.

Lemma apply_other ws d bn : bn ∉ ws.*1 -> apply_writes ws d !! bn = d !! bn.
Proof.
  induction ws as [|w ws IH] using rev_ind; [done|]. rewrite fmap_app, not_elem_of_app. intros [H1 H2].
  rewrite apply_writes_app. cbn. unfold put_block. rewrite lookup_insert_ne by set_solver. by apply IH.
Qed.

(** A block that one write concerns. *)
Lemma setvs_one ws V bn x i : NoDup ws.*1 -> ws !! i = Some (bn, x) -> setvs ws V bn = x.
Proof.
  intros Hnd Hi. induction ws as [|w ws IH] using rev_ind; [done|]. rewrite setvs_snoc.
  rewrite fmap_app in Hnd. apply NoDup_app in Hnd as (Hnd & Hd & _).
  apply lookup_app_Some in Hi as [Hi|[_ Hi]].
  - unfold setv. rewrite decide_False; [by apply IH|]. intros ->. apply (Hd w.1); [|set_solver].
    apply list_elem_of_fmap. exists (w.1, x). split; [done|]. by eapply list_elem_of_lookup_2.
  - apply list_lookup_singleton_Some in Hi as [_ ->]. unfold setv. by rewrite decide_True.
Qed.

Lemma apply_one ws d bn x i : NoDup ws.*1 -> ws !! i = Some (bn, x) -> apply_writes ws d !! bn = Some x.
Proof.
  intros Hnd Hi. induction ws as [|w ws IH] using rev_ind; [done|]. rewrite apply_writes_app.
  cbn. unfold put_block. rewrite fmap_app in Hnd. apply NoDup_app in Hnd as (Hnd & Hd & _).
  apply lookup_app_Some in Hi as [Hi|[_ Hi]].
  - rewrite lookup_insert_ne; [by apply IH|]. intros <-. apply (Hd w.1); [|set_solver].
    apply list_elem_of_fmap. exists (w.1, x). split; [done|]. by eapply list_elem_of_lookup_2.
  - apply list_lookup_singleton_Some in Hi as [_ ->]. by rewrite lookup_insert_eq.
Qed.

(** ** Counting references *)

(** One reference more. *)
Definition ref (bn : Z) (R : gmap Z nat) : gmap Z nat := <[bn := S (default O (R !! bn))]> R.

Lemma unref_ref R bn : R !! bn <> Some O -> unref bn (ref bn R) = R.
Proof.
  intros Hn. unfold unref, ref. rewrite lookup_insert_eq. destruct (R !! bn) as [[|n]|] eqn:E; cbn.
  - done.
  - rewrite insert_insert_eq. by apply insert_id.
  - by rewrite delete_insert_id.
Qed.

Lemma ref_ne R bn bn' : bn <> bn' -> ref bn R !! bn' = R !! bn'.
Proof. apply lookup_insert_ne. Qed.

Lemma ref_comm R bn bn' : bn <> bn' -> ref bn (ref bn' R) = ref bn' (ref bn R).
Proof. intros Hne. unfold ref at 1 3. rewrite !ref_ne by done. by apply insert_insert_ne. Qed.

Definition unrefs (bns : list Z) (R : gmap Z nat) : gmap Z nat := foldl (fun R bn => unref bn R) R bns.

Lemma unrefs_snoc bns bn R : unrefs (bns ++ [bn]) R = unref bn (unrefs bns R).
Proof. unfold unrefs. by rewrite foldl_app. Qed.

Lemma unref_ne R bn bn' : bn <> bn' -> unref bn R !! bn' = R !! bn'.
Proof.
  intros Hne. unfold unref. destruct (R !! bn) as [[|[|n]]|]; by rewrite ?lookup_delete_ne, ?lookup_insert_ne.
Qed.

Lemma unrefs_ne bns R bn : bn ∉ bns -> unrefs bns R !! bn = R !! bn.
Proof.
  induction bns as [|b bns IH] using rev_ind; [done|]. intros [H1 H2]%not_elem_of_app.
  rewrite unrefs_snoc, unref_ne by set_solver. by apply IH.
Qed.

Lemma unref_size R bn : (size (unref bn R) <= size R)%nat.
Proof.
  unfold unref. destruct (R !! bn) as [[|[|n]]|] eqn:E; try (rewrite map_size_delete, E; simpl; lia).
  rewrite map_size_insert_Some by by eexists. done.
Qed.

Lemma unrefs_size bns R : (size (unrefs bns R) <= size R)%nat.
Proof.
  induction bns as [|b bns IH] using rev_ind; [done|]. rewrite unrefs_snoc.
  pose proof (unref_size (unrefs bns R) b). lia.
Qed.

(** Every count leaves room for one more reference. *)
Definition few (R : gmap Z nat) : Prop :=
  forall bn n, R !! bn = Some n -> (0 < n)%nat /\ Z.of_nat (S (S n)) < 2 ^ 32.

Lemma few_max R bn : few R -> Z.of_nat (S (default O (R !! bn))) < 2 ^ 32 /\ R !! bn <> Some O.
Proof.
  intros Hf. destruct (R !! bn) as [n|] eqn:E; [|done]. destruct (Hf _ _ E). cbn. split; [lia|].
  intros [= ->]. lia.
Qed.

Lemma few_unref R bn : few R -> few (unref bn R).
Proof.
  intros Hf bn' n. unfold unref. destruct (R !! bn) as [[|[|m]]|] eqn:E;
    try (intros [_ Hn]%lookup_delete_Some; by apply (Hf bn')).
  intros [[<- <-]|[_ Hn]]%lookup_insert_Some; [|by apply (Hf bn')].
  destruct (Hf _ _ E). lia.
Qed.

Lemma few_unrefs bns R : few R -> few (unrefs bns R).
Proof.
  intros Hf. induction bns as [|b bns IH] using rev_ind; [done|]. rewrite unrefs_snoc. by apply few_unref.
Qed.

(** ** The log on the disk *)

Definition slot (start : Z) (i : nat) : Z := start + Z.of_nat i + 1.
Definition in_log (start bn : Z) : Prop := start <= bn < start + LOGSIZE.

(** The log is on device [dv], its header lists the home blocks [blks]. *)
Record log_ok (dv : Z) (blks : list Z) (l : log) : Prop := {
  lo_dev : u32 (l_dev l) = dv;
  lo_start : 0 <= l_start l /\ l_start l + LOGSIZE < 2 ^ 31;
  lo_n : lh_n l = Z.of_nat (length blks);
  lo_len : length (lh_block l) = Z.to_nat LOGSIZE;
  lo_blks : take (length blks) (lh_block l) = blks;
  lo_max : (length blks < Z.to_nat LOGSIZE)%nat;
  lo_nodup : NoDup blks;
  lo_home : forall b, b ∈ blks -> block_ok b /\ ~ in_log (l_start l) b;
}.

(** *** What is written *)

(** The writes of [write_log]. *)
Definition log_writes (start : Z) (V : Z -> list Z) (blks : list Z) : list (Z * list Z) :=
  imap (fun i b => (slot start i, V b)) blks.

Lemma log_writes_lookup start V blks i b :
  blks !! i = Some b -> log_writes start V blks !! i = Some (slot start i, V b).
Proof. intros E. unfold log_writes. by rewrite list_lookup_imap, E. Qed.

Lemma log_writes_in start V blks bn :
  bn ∈ (log_writes start V blks).*1 -> exists i, (i < length blks)%nat /\ bn = slot start i.
Proof.
  intros ([? x] & -> & Hin)%list_elem_of_fmap. apply list_elem_of_lookup in Hin as [i Hi].
  unfold log_writes in Hi. apply list_lookup_imap_Some in Hi as (b & Hb & [= -> ->]).
  exists i. split; [by eapply lookup_lt_Some|done].
Qed.

(** The writes of [install_trans]. *)
Definition install_writes (start : Z) (V : Z -> list Z) (blks : list Z) : list (Z * list Z) :=
  imap (fun i b => (b, V (slot start i))) blks.

Lemma install_writes_lookup start V blks i b :
  blks !! i = Some b -> install_writes start V blks !! i = Some (b, V (slot start i)).
Proof. intros E. unfold install_writes. by rewrite list_lookup_imap, E. Qed.

Lemma install_writes_blocks start V blks : (install_writes start V blks).*1 = blks.
Proof.
  apply list_eq. intros i. unfold install_writes. rewrite list_lookup_fmap, list_lookup_imap.
  by destruct (blks !! i).
Qed.

(** The bytes of [log.lh] on top of the old contents of the block. *)
Definition hdr_fields (blks : list Z) : list (Z * Z) := imap (fun i b => (lh_off (Z.of_nat i), b)) blks.
Definition hdr_put (ws : list (Z * Z)) (d : list Z) : list Z := foldl (fun d w => set32 d w.1 w.2) d ws.
Definition hdr (blks : list Z) (d : list Z) : list Z :=
  hdr_put (hdr_fields blks) (set32 d 0 (Z.of_nat (length blks))).

Lemma hdr_put_snoc ws w d : hdr_put (ws ++ [w]) d = set32 (hdr_put ws d) w.1 w.2.
Proof. unfold hdr_put. by rewrite foldl_app. Qed.

Lemma hdr_fields_lookup blks i b : blks !! i = Some b -> hdr_fields blks !! i = Some (lh_off (Z.of_nat i), b).
Proof. intros E. unfold hdr_fields. by rewrite list_lookup_imap, E. Qed.

Lemma hdr_fields_snoc blks b :
  hdr_fields (blks ++ [b]) = hdr_fields blks ++ [(lh_off (Z.of_nat (length blks)), b)].
Proof. unfold hdr_fields. rewrite imap_app. cbn. by rewrite Nat.add_0_r. Qed.

Lemma hdr_fits blks (d : list Z) :
  (length blks <= Z.to_nat LOGSIZE)%nat -> length d = Z.to_nat BSIZE ->
  length (hdr_put (hdr_fields blks) d) = Z.to_nat BSIZE.
Proof.
  intros Hb Hd. induction blks as [|b blks IH] using rev_ind; [done|]. rewrite length_app in Hb. cbn in Hb.
  rewrite hdr_fields_snoc, hdr_put_snoc. unfold lh_off, BSIZE, LOGSIZE, MAXOPBLOCKS in *. cbn [fst snd].
  rewrite set32_length; rewrite ?IH; lia.
Qed.

Lemma hdr_count blks d :
  (length blks <= Z.to_nat LOGSIZE)%nat -> length d = Z.to_nat BSIZE ->
  get32 (hdr_put (hdr_fields blks) d) 0 = get32 d 0.
Proof.
  intros Hb Hd. induction blks as [|b blks IH] using rev_ind; [done|]. rewrite length_app in Hb. cbn in Hb.
  rewrite hdr_fields_snoc, hdr_put_snoc. pose proof (hdr_fits blks d ltac:(lia) Hd) as Hl.
  unfold lh_off, BSIZE, LOGSIZE, MAXOPBLOCKS in *. cbn [fst snd].
  rewrite get32_set32_ne by lia. apply IH. lia.
Qed.

Lemma hdr_entry blks d i b :
  (length blks <= Z.to_nat LOGSIZE)%nat -> length d = Z.to_nat BSIZE -> blks !! i = Some b ->
  get32 (hdr_put (hdr_fields blks) d) (lh_off (Z.of_nat i)) = u32 b.
Proof.
  intros Hb Hd. induction blks as [|c blks IH] using rev_ind; [done|]. rewrite length_app in Hb. cbn in Hb.
  rewrite hdr_fields_snoc, hdr_put_snoc. pose proof (hdr_fits blks d ltac:(lia) Hd) as Hl. cbn [fst snd].
  unfold LOGSIZE, MAXOPBLOCKS in *.
  intros [Hi|[Hi Hc]]%lookup_app_Some.
  - pose proof (lookup_lt_Some _ _ _ Hi). rewrite get32_set32_ne; [apply IH; [lia|done]|unfold lh_off, BSIZE in *; lia..].
  - apply list_lookup_singleton_Some in Hc as [Hz ->]. replace i with (length blks) by lia.
    apply get32_set32; unfold lh_off, BSIZE in *; lia.
Qed.

Lemma hdr_get blks d :
  (length blks <= Z.to_nat LOGSIZE)%nat -> length d = Z.to_nat BSIZE ->
  length (hdr blks d) = Z.to_nat BSIZE /\ get32 (hdr blks d) 0 = Z.of_nat (length blks) /\
  forall i b, blks !! i = Some b -> block_ok b -> get32 (hdr blks d) (lh_off (Z.of_nat i)) = b.
Proof.
  intros Hb Hd. unfold hdr. assert (length (set32 d 0 (Z.of_nat (length blks))) = Z.to_nat BSIZE) as Hd'
    by (rewrite set32_length; unfold BSIZE in *; lia).
  split; [by apply hdr_fits|]. split.
  - rewrite hdr_count, get32_set32 by (done || unfold BSIZE in *; lia). apply u32_small.
    unfold LOGSIZE, MAXOPBLOCKS in Hb. lia.
  - intros i b Hi Hok. rewrite (hdr_entry _ _ _ b) by done. apply u32_small. unfold block_ok in Hok. lia.
Qed.

(** The writes of a commit of the blocks [blks]. *)
Definition home_writes (V : Z -> list Z) (blks : list Z) : list (Z * list Z) :=
  (fun b => (b, V b)) <$> blks.
Definition commit_writes (start : Z) (V : Z -> list Z) (blks : list Z) : list (Z * list Z) :=
  log_writes start V blks ++ [(start, hdr blks (V start))] ++
  home_writes V blks ++ [(start, hdr [] (hdr blks (V start)))].

Lemma start_not_slot start V blks : start ∉ (log_writes start V blks).*1.
Proof. intros (i & _ & E)%log_writes_in. unfold slot in E. lia. Qed.

Lemma log_writes_nodup start V blks : NoDup (log_writes start V blks).*1.
Proof.
  apply NoDup_alt. intros i j bn Hi Hj. rewrite list_lookup_fmap in Hi, Hj.
  unfold log_writes in Hi, Hj. rewrite list_lookup_imap in Hi, Hj.
  destruct (blks !! i), (blks !! j); try done. cbn in Hi, Hj. unfold slot in *. injection Hi as <-. injection Hj. lia.
Qed.

(** The header block [d] lists the home blocks [blks]. *)
Record header (start : Z) (blks : list Z) (d : list Z) : Prop := {
  hd_n : get32 d 0 = Z.of_nat (length blks);
  hd_max : (length blks < Z.to_nat LOGSIZE)%nat;
  hd_block : forall i b, blks !! i = Some b -> get32 d (lh_off (Z.of_nat i)) = b;
  hd_nodup : NoDup blks;
  hd_home : forall b, b ∈ blks -> block_ok b /\ ~ in_log start b;
}.

(** The writes of the recovery from a log whose header lists [blks]. *)
Definition recover_writes (start : Z) (V : Z -> list Z) (blks : list Z) : list (Z * list Z) :=
  install_writes start V blks ++ [(start, hdr [] (V start))].
