(* ===== verification/LogSpec.v ===== *)
(** * The operations of the log

    What [write_log], [write_head], [install_trans], [commit] and the recovery write, in
    terms of the contents of the blocks. *)

From S2P Require Import Prelude Riscv Memory Bytes State Spinlock Sched SchedSpec Sleeplock SleepSpec.
From S2P Require Import Bio BioRing BioSpec Log LogDisk.

Section log.
Context `{environment} `{patience} `{disk_laws}.

(** The rounds of [for_log], with an invariant. *)
Lemma for_log_wp n body (Inv : nat -> kst -> Prop) s :
  lh_n (lg s) = Z.of_nat n -> Inv O s ->
  (forall k s1, (k < n)%nat -> Inv k s1 -> wp (body (Z.of_nat k)) (fun _ s2 => Inv (S k) s2) s1) ->
  wp (for_log body) (fun _ s' => Inv n s') s.
Proof.
  intros Hn Hinit Hstep. unfold for_log. apply wp_bind, wp_gets. rewrite Hn, Nat2Z.id.
  pose proof (wp_forM (map Z.of_nat (seq 0 n)) body (fun pre => Inv (length pre)) s Hinit) as Hf.
  cbv beta in Hf. rewrite length_map, length_seq in Hf. apply Hf. intros pre i post s1 El HI.
  assert (map Z.of_nat (seq 0 n) !! length pre = Some i) as Ei by (rewrite El; by apply list_lookup_middle).
  apply list_lookup_fmap_Some in Ei as (k & -> & Ek). apply lookup_seq in Ek as [-> Hlt]. cbn in Hlt |- *.
  rewrite length_app. cbn. rewrite Nat.add_1_r. by apply Hstep.
Qed.

Lemma lh_set_wp i v s (Q : unit -> kst -> Prop) :
  (i < Z.to_nat LOGSIZE)%nat ->
  Q tt (with_lg (with_lh_block (<[i := v]> (lh_block (lg s))) (lg s)) s) -> wp (lh_set (Z.of_nat i) v) Q s.
Proof.
  intros Hi HQ. unfold lh_set. apply wp_bind, wp_gets.
  destruct ((0 <=? Z.of_nat i) && (Z.of_nat i <? LOGSIZE)) eqn:E; [|lia].
  apply wp_modify. by rewrite Nat2Z.id.
Qed.

Context (Hw : (0 < wakeups)%nat) (dv : Z) (p : nat) (pr : proc).

Lemma slot_ok blks l i :
  log_ok dv blks l -> (i < length blks)%nat ->
  u32 (l_start l + Z.of_nat i + 1) = slot (l_start l) i /\ block_ok (slot (l_start l) i) /\
  in_log (l_start l) (slot (l_start l) i).
Proof.
  intros Hl Hi. pose proof (lo_start _ _ _ Hl). pose proof (lo_max _ _ _ Hl). unfold slot, block_ok, in_log.
  rewrite u32_small by lia. split; [done|]. lia.
Qed.

Lemma slot_home blks l i b :
  log_ok dv blks l -> (i < length blks)%nat -> b ∈ blks -> slot (l_start l) i <> b.
Proof.
  intros Hl Hi Hb <-. apply (lo_home _ _ _ Hl _ Hb). by eapply slot_ok.
Qed.

Lemma lh_get_wp blks i b s (Q : Z -> kst -> Prop) :
  log_ok dv blks (lg s) -> blks !! i = Some b -> Q b s -> wp (lh_get (Z.of_nat i)) Q s.
Proof.
  intros Hl Hi HQ. unfold lh_get. apply wp_bind, wp_gets. rewrite Nat2Z.id.
  assert (lh_block (lg s) !! i = Some b) as ->; [|by apply wp_ret].
  rewrite <- (lo_blks _ _ _ Hl) in Hi. apply lookup_take_Some in Hi. tauto.
Qed.

(** [bread] and [brelse] in a transaction, in terms of references. *)
Lemma bread_ref V R h bn s :
  store dv p pr V R h s -> block_ok bn -> Z.of_nat (S (default O (R !! bn))) < 2 ^ 32 ->
  (forall b, h !! b <> Some bn) -> is_Some (R !! bn) \/ (size R < NBUF)%nat ->
  wp (bread dv bn) (fun b s' => h !! b = None /\ store dv p pr V (ref bn R) (<[b := bn]> h) s' /\
    outer s' = outer s) s.
Proof. by apply bread_wp. Qed.

Lemma brelse_ref V R h b bn s :
  store dv p pr V (ref bn R) (<[b := bn]> h) s -> h !! b = None -> R !! bn <> Some O ->
  (R !! bn = None -> V bn = dblock (disk s) bn) ->
  wp (brelse b) (fun _ s' => store dv p pr V R h s' /\ outer s' = outer s) s.
Proof.
  intros Hs Hb Hz Hcl. eapply wp_mono.
  - eapply (brelse_wp dv p pr); [exact Hs|apply lookup_insert_eq|apply lookup_insert_eq|].
    destruct (R !! bn) as [[|n]|]; [done|done|]. intros _. by apply Hcl.
  - intros [] s'. rewrite delete_insert_id, unref_ref by done. done.
Qed.

(** *** Copying the modified blocks to the log *)

(** Both loops begin by reading a slot of the log and the block it belongs to. *)
Lemma read_pair_wp V R blks k b s (next : nat -> nat -> K unit) (Q : unit -> kst -> Prop) :
  store dv p pr V R ∅ s -> log_ok dv blks (lg s) -> few R -> blks !! k = Some b ->
  (size R < NBUF)%nat -> is_Some (R !! b) \/ (S (size R) < NBUF)%nat ->
  let sl := slot (l_start (lg s)) k in
  (forall x y s2, x <> y -> store dv p pr V (ref b (ref sl R)) (<[y := b]> {[x := sl]}) s2 ->
     outer s2 = outer s -> wp (next x y) Q s2) ->
  wp (l <- gets lg;;
      x <- bread (u32 (l_dev l)) (u32 (l_start l + Z.of_nat k + 1));;
      blk <- lh_get (Z.of_nat k);;
      y <- bread (u32 (l_dev l)) (u32 blk);;
      next x y)%M Q s.
Proof.
  intros Hs Hl Hf Hk Hsz HR sl Hnext. pose proof (lookup_lt_Some _ _ _ Hk) as Hlt.
  destruct (slot_ok _ _ _ Hl Hlt) as (Es & Hok & _). fold sl in Es, Hok.
  assert (b ∈ blks) as Hin by by eapply list_elem_of_lookup_2.
  pose proof (slot_home blks _ _ _ Hl Hlt Hin : sl <> b) as Hne.
  destruct (lo_home _ _ _ Hl b Hin) as [Hokb _].
  destruct (few_max R sl Hf) as [Hm1 Hz1]. destruct (few_max R b Hf) as [Hm2 Hz2].
  apply wp_bind, wp_gets. rewrite Es, (lo_dev _ _ _ Hl). apply wp_bind.
  eapply wp_mono; [apply (bread_ref V R ∅ sl s); try done; by right|].
  intros x s1 (_ & Hs1 & Ho1). rewrite insert_empty in Hs1. apply wp_bind.
  eapply lh_get_wp; [by rewrite (outer_lg _ _ Ho1)|done|].
  rewrite (u32_small b) by (unfold block_ok in Hokb; lia).
  apply wp_bind. eapply wp_mono.
  { apply (bread_ref V (ref sl R) {[x := sl]} b s1); rewrite ?ref_ne by done; try done.
    - intros c [_ ?]%lookup_singleton_Some. done.
    - destruct HR as [HR|HR]; [by left|right]. unfold ref.
      destruct (R !! sl) eqn:E; [rewrite map_size_insert_Some by by eexists|rewrite map_size_insert_None by done]; lia. }
  intros y s2 (Hft%lookup_singleton_None & Hs2 & Ho2). apply Hnext; [done|done|by rewrite Ho2].
Qed.

(** One round of [write_log]. *)
Lemma write_log_step V R blks k b s :
  store dv p pr V R ∅ s -> log_ok dv blks (lg s) -> few R -> (size R < NBUF)%nat ->
  blks !! k = Some b -> is_Some (R !! b) ->
  wp (l <- gets lg;;
      to <- bread (u32 (l_dev l)) (u32 (l_start l + Z.of_nat k + 1));;
      blk <- lh_get (Z.of_nat k);;
      from <- bread (u32 (l_dev l)) (u32 blk);;
      data <- bdata from;;
      bdata_set to (fun _ => data);;
      bwrite to;;
      brelse from;;
      brelse to)%M
    (fun _ s' => store dv p pr (setv V (slot (l_start (lg s)) k) (V b)) R ∅ s' /\
       outer s' = outer (disk_put (slot (l_start (lg s)) k) (V b) s)) s.
Proof.
  intros Hs Hl Hf Hsz Hk HR. eapply (read_pair_wp V R blks k b); [done..|by left|].
  intros to from s2 Hft Hs2 Ho2. set (sl := slot _ k) in *.
  assert (sl <> b) as Hne by (eapply slot_home; [done|by eapply lookup_lt_Some|by eapply list_elem_of_lookup_2]).
  destruct (few_max R sl Hf) as [_ Hz1]. destruct (few_max R b Hf) as [_ Hz2].
  apply wp_bind. apply (bdata_wp dv p pr _ _ _ from b s2 _ Hs2 (lookup_insert_eq _ _ _)).
  assert (<[from := b]> ({[to := sl]} : gmap nat Z) !! to = Some sl) as Hto
    by (rewrite lookup_insert_ne by done; apply lookup_singleton_eq).
  apply wp_bind. eapply wp_mono.
  { apply (bdata_set_wp dv p pr _ _ _ to sl (fun _ => V b) s2 Hs2 Hto).
    apply (c_size _ _ _ _ _ _ (st_blocks _ _ _ _ _ _ _ Hs)). }
  intros _ s3 [Hs3 Ho3]. apply wp_bind. eapply wp_mono; [exact (bwrite_wp dv p pr _ _ _ to sl s3 Hs3 Hto)|].
  intros _ s4 [Hs4 Ho4]. rewrite setv_eq in Ho4. apply wp_bind. eapply wp_mono.
  { apply (brelse_ref _ _ _ from b s4 Hs4); [by apply lookup_singleton_None|by rewrite ref_ne|].
    rewrite ref_ne by done. intros E. rewrite E in HR. by destruct HR. }
  intros _ s5 [Hs5 Ho5]. eapply wp_mono.
  { apply (brelse_ref (setv V sl (V b)) R ∅ to sl s5); [by rewrite insert_empty|done|done|]. intros _.
    rewrite setv_eq. unfold dblock. rewrite (outer_disk _ _ Ho5), (outer_disk _ _ Ho4). cbn.
    by rewrite lookup_insert_eq. }
  intros _ s6 [Hs6 Ho6]. split; [done|]. rewrite Ho6, Ho5, Ho4. apply outer_put. by rewrite Ho3, Ho2.
Qed.

(** [write_log] copies the logged blocks to the log and changes nothing else. *)
Lemma write_log_wp V R blks s :
  store dv p pr V R ∅ s -> log_ok dv blks (lg s) -> few R -> (size R < NBUF)%nat ->
  (forall b, b ∈ blks -> is_Some (R !! b)) ->
  let ws := log_writes (l_start (lg s)) V blks in
  wp write_log (fun _ s' => store dv p pr (setvs ws V) R ∅ s' /\ outer s' = outer (puts ws s)) s.
Proof.
  intros Hs Hl Hf Hsz HR ws.
  assert (length ws = length blks) as Hlen by (unfold ws, log_writes; apply length_imap).
  eapply wp_mono.
  - apply (for_log_wp (length blks) _ (fun k s1 => store dv p pr (setvs (take k ws) V) R ∅ s1 /\
      outer s1 = outer (puts (take k ws) s))); [apply Hl|done|].
    intros k s1 Hk [Hs1 Ho1]. destruct (lookup_lt_is_Some_2 blks k Hk) as [b Hb].
    pose proof (log_writes_lookup (l_start (lg s)) V _ _ _ Hb) as Ew. fold ws in Ew.
    assert (lg s1 = lg s) as El by (rewrite (outer_lg _ _ Ho1); apply puts_lg).
    rewrite (take_S_r _ _ _ Ew), setvs_snoc, puts_snoc. cbn [fst snd].
    assert (setvs (take k ws) V b = V b) as Eb.
    { apply setvs_other. intros Hin. rewrite fmap_take in Hin. apply elem_of_take in Hin as (i & Hi & _).
      apply list_elem_of_lookup_2 in Hi. apply log_writes_in in Hi as (j & Hj & E).
      eapply (slot_home blks (lg s) j b); [done|done|by eapply list_elem_of_lookup_2|done]. }
    eapply wp_mono; [apply (write_log_step (setvs (take k ws) V) R blks k b s1); rewrite ?El; try done|].
    + by apply HR; eapply list_elem_of_lookup_2.
    + rewrite El, Eb. intros _ s2 [Hs2 Ho2]. split; [done|]. rewrite Ho2. by apply outer_put.
  - intros [] s'. by rewrite <- Hlen, firstn_all.
Qed.

(** *** Installing the logged blocks *)

(** The end of a round of [install_trans]. *)
Lemma install_release (recovering : bool) V R lb db sl b s :
  store dv p pr V (ref b (ref sl R)) (<[db := b]> {[lb := sl]}) s -> sl <> b -> lb <> db -> few R ->
  (R !! sl = None -> V sl = dblock (disk s) sl) -> V b = dblock (disk s) b ->
  (recovering = false -> is_Some (R !! b)) ->
  wp ((if recovering then ret tt else bunpin db);; brelse lb;; brelse db)%M
    (fun _ s' => store dv p pr V (if recovering then R else unref b R) ∅ s' /\ outer s' = outer s) s.
Proof.
  intros Hs Hne Hne2 Hf Hcs Hcb HR.
  destruct (few_max R sl Hf) as [_ Hz1]. destruct (few_max R b Hf) as [_ Hz2].
  assert (({[lb := sl]} : gmap nat Z) = <[lb := sl]> ∅) as Eh by done.
  apply wp_bind. destruct recovering.
  - apply wp_ret. rewrite ref_comm, Eh, insert_insert_ne in Hs by done. apply wp_bind. eapply wp_mono.
    { apply (brelse_ref _ _ _ lb sl s Hs); [by rewrite lookup_insert_ne|by rewrite ref_ne|by rewrite ref_ne]. }
    intros _ s1 [Hs1 Ho1]. eapply wp_mono.
    { apply (brelse_ref _ _ _ db b s1 Hs1); [done|done|]. by rewrite (outer_disk _ _ Ho1). }
    intros _ s2 [Hs2 Ho2]. split; [done|]. by rewrite Ho2.
  - destruct HR as [n HR]; [done|]. destruct (Hf _ _ HR) as [Hpos _].
    assert (ref b (ref sl R) !! b = Some (S n)) as Ebb
      by (unfold ref at 1; by rewrite lookup_insert_eq, ref_ne, HR).
    eapply wp_mono; [eapply (bunpin_wp dv p pr _ _ _ db b n s Hs); [apply lookup_insert_eq|done|done]|].
    intros _ s1 [Hs1 Ho1]. unfold ref at 1 in Hs1. rewrite insert_insert_eq, insert_id in Hs1 by by rewrite ref_ne.
    rewrite Eh, insert_insert_ne in Hs1 by done. apply wp_bind. eapply wp_mono.
    { apply (brelse_ref _ _ _ lb sl s1 Hs1); [by rewrite lookup_insert_ne|done|]. by rewrite (outer_disk _ _ Ho1). }
    intros _ s2 [Hs2 Ho2]. eapply wp_mono.
    { eapply (brelse_wp dv p pr _ _ _ db b n s2 Hs2); [apply lookup_insert_eq|done|].
      intros _. by rewrite (outer_disk _ _ Ho2), (outer_disk _ _ Ho1). }
    intros _ s3 [Hs3 Ho3]. rewrite delete_insert_id in Hs3 by done. split; [done|]. by rewrite Ho3, Ho2.
Qed.

(** One round of [install_trans]. *)
Lemma install_step (recovering : bool) V R blks k b s :
  store dv p pr V R ∅ s -> log_ok dv blks (lg s) -> few R -> blks !! k = Some b ->
  (size R < NBUF)%nat -> (if recovering then (S (size R) < NBUF)%nat else is_Some (R !! b)) ->
  let x := V (slot (l_start (lg s)) k) in
  wp (l <- gets lg;;
      lbuf <- bread (u32 (l_dev l)) (u32 (l_start l + Z.of_nat k + 1));;
      blk <- lh_get (Z.of_nat k);;
      dbuf <- bread (u32 (l_dev l)) (u32 blk);;
      data <- bdata lbuf;;
      bdata_set dbuf (fun _ => data);;
      bwrite dbuf;;
      (if recovering then ret tt else bunpin dbuf);;
      brelse lbuf;;
      brelse dbuf)%M
    (fun _ s' => store dv p pr (setv V b x) (if recovering then R else unref b R) ∅ s' /\
       outer s' = outer (disk_put b x s)) s.
Proof.
  intros Hs Hl Hf Hk Hsz HR x. eapply (read_pair_wp V R blks k b); [done..| |].
  { destruct recovering; [by right|by left]. }
  intros lb db s2 Hft Hs2 Ho2. unfold x. set (sl := slot _ k) in *.
  assert (sl <> b) as Hne by (eapply slot_home; [done|by eapply lookup_lt_Some|by eapply list_elem_of_lookup_2]).
  pose proof (lookup_insert_eq ({[lb := sl]} : gmap nat Z) db b) as Hdb.
  apply wp_bind. eapply (bdata_wp dv p pr _ _ _ lb sl s2 _ Hs2).
  { rewrite lookup_insert_ne by done. apply lookup_singleton_eq. }
  apply wp_bind. eapply wp_mono.
  { apply (bdata_set_wp dv p pr _ _ _ db b (fun _ => V sl) s2 Hs2 Hdb).
    apply (c_size _ _ _ _ _ _ (st_blocks _ _ _ _ _ _ _ Hs)). }
  intros _ s3 [Hs3 Ho3]. apply wp_bind. eapply wp_mono; [exact (bwrite_wp dv p pr _ _ _ db b s3 Hs3 Hdb)|].
  intros _ s4 [Hs4 Ho4]. rewrite setv_eq in Ho4. pose proof (outer_disk _ _ Ho4) as Ed. cbn in Ed.
  eapply wp_mono.
  { apply (install_release recovering _ R lb db sl b s4 Hs4); [done|done|done| | |by intros ->].
    - intros HRs. rewrite setv_ne by done. rewrite Ed. unfold dblock. rewrite lookup_insert_ne by done.
      rewrite (outer_disk _ _ Ho3), (outer_disk _ _ Ho2). by apply (c_clean _ _ _ _ _ _ (st_blocks _ _ _ _ _ _ _ Hs)).
    - rewrite setv_eq, Ed. unfold dblock. by rewrite lookup_insert_eq. }
  intros _ s5 [Hs5 Ho5]. split; [done|]. rewrite Ho5, Ho4. apply outer_put. by rewrite Ho3, Ho2.
Qed.

(** [install_trans] copies the slots of the log to the blocks they belong to. *)
Lemma install_trans_wp (recovering : bool) V R blks s :
  store dv p pr V R ∅ s -> log_ok dv blks (lg s) -> few R -> (size R < NBUF)%nat ->
  (if recovering then (S (size R) < NBUF)%nat else forall b, b ∈ blks -> is_Some (R !! b)) ->
  let ws := install_writes (l_start (lg s)) V blks in
  wp (install_trans recovering) (fun _ s' =>
    store dv p pr (setvs ws V) (if recovering then R else unrefs blks R) ∅ s' /\
    outer s' = outer (puts ws s)) s.
Proof.
  intros Hs Hl Hf Hsz HR ws.
  assert (length ws = length blks) as Hlen by (unfold ws, install_writes; apply length_imap).
  eapply wp_mono.
  - apply (for_log_wp (length blks) _ (fun k s1 =>
      store dv p pr (setvs (take k ws) V) (if recovering then R else unrefs (take k blks) R) ∅ s1 /\
      outer s1 = outer (puts (take k ws) s))); [apply Hl|by destruct recovering|].
    intros k s1 Hk [Hs1 Ho1]. destruct (lookup_lt_is_Some_2 blks k Hk) as [b Hb].
    pose proof (install_writes_lookup (l_start (lg s)) V _ _ _ Hb) as Ew. fold ws in Ew.
    assert (lg s1 = lg s) as El by (rewrite (outer_lg _ _ Ho1); apply puts_lg).
    rewrite (take_S_r _ _ _ Ew), (take_S_r _ _ _ Hb), setvs_snoc, puts_snoc, unrefs_snoc. cbn [fst snd].
    assert (setvs (take k ws) V (slot (l_start (lg s)) k) = V (slot (l_start (lg s)) k)) as Eb.
    { apply setvs_other. rewrite fmap_take. unfold ws. rewrite install_writes_blocks.
      intros (i & Hi & _)%elem_of_take. by eapply (slot_home blks (lg s) k); [..|by eapply list_elem_of_lookup_2|]. }
    assert (b ∉ take k blks) as Hnb.
    { intros (i & Hi & Hik)%elem_of_take. pose proof (NoDup_lookup _ _ _ _ (lo_nodup _ _ _ Hl) Hb Hi). lia. }
    pose proof (unrefs_size (take k blks) R) as Hsz'.
    eapply wp_mono; [apply (install_step recovering (setvs (take k ws) V)
      (if recovering then R else unrefs (take k blks) R) blks k b s1); rewrite ?El; try done|].
    + destruct recovering; [done|by apply few_unrefs].
    + destruct recovering; [done|lia].
    + destruct recovering; [done|]. rewrite unrefs_ne by done. by apply HR; eapply list_elem_of_lookup_2.
    + rewrite El, Eb. intros _ s2 [Hs2 Ho2]. split; [by destruct recovering|].
      rewrite Ho2. by apply outer_put.
  - intros [] s'. by rewrite <- Hlen, firstn_all, Hlen, firstn_all.
Qed.

(** *** The header *)

(** [write_head] writes the header and nothing else. *)
Lemma write_head_wp V R blks s :
  store dv p pr V R ∅ s -> log_ok dv blks (lg s) -> few R -> (size R < NBUF)%nat ->
  let bn := l_start (lg s) in
  wp write_head (fun _ s' => store dv p pr (setv V bn (hdr blks (V bn))) R ∅ s' /\
    outer s' = outer (disk_put bn (hdr blks (V bn)) s)) s.
Proof.
  intros Hs Hl Hf Hsz bn. pose proof (lo_start _ _ _ Hl) as Hst. fold bn in Hst.
  pose proof (c_size _ _ _ _ _ _ (st_blocks _ _ _ _ _ _ _ Hs) bn) as Hsize.
  assert (block_ok bn) as Hok by (unfold block_ok, LOGSIZE, MAXOPBLOCKS in *; lia).
  destruct (few_max R bn Hf) as [Hm Hz]. set (d0 := set32 (V bn) 0 (Z.of_nat (length blks))).
  assert (length d0 = Z.to_nat BSIZE) as Hd0 by (unfold d0; rewrite set32_length; unfold BSIZE in *; lia).
  unfold write_head. apply wp_bind, wp_gets. fold bn. rewrite (lo_dev _ _ _ Hl).
  rewrite (u32_small bn) by (unfold block_ok in Hok; lia). apply wp_bind.
  eapply wp_mono; [apply (bread_ref V R ∅ bn s); try done; by right|].
  intros b s1 (_ & Hs1 & Ho1). apply wp_bind, wp_gets. rewrite (outer_lg _ _ Ho1), (lo_n _ _ _ Hl).
  apply wp_bind. eapply wp_mono.
  { eapply (bdata_set_wp dv p pr _ _ _ b bn _ s1 Hs1); [apply lookup_insert_eq|exact Hd0]. }
  intros _ s2 [Hs2 Ho2]. cbv beta in Hs2. fold d0 in Hs2. apply wp_bind. eapply wp_mono.
  { apply (for_log_wp (length blks) _ (fun k s3 => outer s3 = outer s /\
      store dv p pr (setv V bn (hdr_put (hdr_fields (take k blks)) d0)) (ref bn R) (<[b := bn]> ∅) s3)).
    - rewrite (outer_lg _ _ Ho2), (outer_lg _ _ Ho1). apply Hl.
    - split; [by rewrite Ho2|exact Hs2].
    - intros k s3 Hk [Ho3 Hs3]. destruct (lookup_lt_is_Some_2 blks k Hk) as [c Hc]. apply wp_bind.
      eapply (lh_get_wp blks); [by rewrite (outer_lg _ _ Ho3)|done|]. eapply wp_mono.
      + eapply (bdata_set_wp dv p pr _ _ _ b bn _ s3 Hs3); [apply lookup_insert_eq|].
        cbv beta. rewrite setv_eq, set32_length;
          rewrite ?hdr_fits; rewrite ?length_take; pose proof (lo_max _ _ _ Hl); unfold lh_off, BSIZE, LOGSIZE, MAXOPBLOCKS in *; lia.
      + cbv beta. rewrite setv_eq. intros _ s4 [Hs4 Ho4]. split; [by rewrite Ho4|].
        eapply store_ext; [|exact Hs4]. intros bn'. rewrite (take_S_r _ _ _ Hc), hdr_fields_snoc, hdr_put_snoc.
        cbn [fst snd]. rewrite length_take, Nat.min_l by lia. unfold setv. by destruct (decide (bn' = bn)). }
  rewrite firstn_all. fold (hdr blks (V bn)). intros _ s3 [Ho3 Hs3]. apply wp_bind.
  eapply wp_mono; [eapply (bwrite_wp dv p pr _ _ _ b bn s3 Hs3); apply lookup_insert_eq|].
  rewrite setv_eq. intros _ s4 [Hs4 Ho4]. eapply wp_mono.
  { apply (brelse_ref _ _ _ b bn s4 Hs4); [done|done|]. intros _. rewrite setv_eq, (outer_disk _ _ Ho4).
    unfold dblock. cbn. by rewrite lookup_insert_eq. }
  intros _ s5 [Hs5 Ho5]. split; [done|]. rewrite Ho5, Ho4. by apply outer_put.
Qed.

(** *** commit *)

Lemma store_lg V R h l s : store dv p pr V R h s -> store dv p pr V R h (with_lg l s).
Proof. intros [Hi Hr Hc]. split; [eapply idle_frame; [..|exact Hi]; reflexivity|done|done]. Qed.

Lemma outer_with_lg l s s' : outer s' = outer s -> outer (with_lg l s') = outer (with_lg l s).
Proof. intros E. exact (f_equal (with_lg l) E). Qed.

Lemma puts_with_lg ws l s : puts ws (with_lg l s) = with_lg l (puts ws s).
Proof. induction ws as [|w ws IH] using rev_ind; [done|]. by rewrite !puts_snoc, IH. Qed.

Definition empty_log (l : log) : log := with_lh_n 0 l.

Lemma empty_log_ok blks l : log_ok dv blks l -> log_ok dv [] (empty_log l).
Proof.
  intros [H1' H2' H3' H4' H5' H6' H7' H8']. split; try done.
  - cbn. lia.
  - apply NoDup_nil_2.
  - intros b Hb. by apply elem_of_nil in Hb.
Qed.

(** What [commit] expects. *)
Record ready (V : Z -> list Z) (R : gmap Z nat) (blks : list Z) (s : kst) : Prop := {
  rd_store : store dv p pr V R ∅ s;
  rd_log : log_ok dv blks (lg s);
  rd_few : few R;
  rd_room : (size R < NBUF)%nat;
  rd_pinned : forall b, b ∈ blks -> is_Some (R !! b);
}.

(** Once the header is written, the slots hold the blocks. *)
Lemma install_is_home V blks l :
  log_ok dv blks l ->
  let V1 := setvs (log_writes (l_start l) V blks) V in
  install_writes (l_start l) (setv V1 (l_start l) (hdr blks (V1 (l_start l)))) blks = home_writes V blks.
Proof.
  intros Hl V1. apply list_eq. intros i. unfold home_writes. rewrite list_lookup_fmap.
  unfold install_writes. rewrite list_lookup_imap. destruct (blks !! i) as [b|] eqn:E; [|done]. cbn. f_equal. f_equal.
  rewrite setv_ne by (unfold slot; lia). unfold V1. eapply setvs_one; [apply log_writes_nodup|].
  by apply log_writes_lookup.
Qed.

Lemma commit_wp V R blks s :
  ready V R blks s -> blks <> [] ->
  let ws := commit_writes (l_start (lg s)) V blks in
  wp commit (fun _ s' => exists V', store dv p pr V' (unrefs blks R) ∅ s' /\
    outer s' = outer (with_lg (empty_log (lg s)) (puts ws s))) s.
Proof.
  intros [Hs Hl Hf Hsz HR] Hne ws. unfold commit. apply wp_bind, wp_gets.
  rewrite (lo_n _ _ _ Hl). destruct (Z.ltb_spec 0 (Z.of_nat (length blks))); [|destruct blks; [done|cbn in *; lia]].
  apply wp_bind. eapply wp_mono; [by apply (write_log_wp V R blks)|]. intros _ s1 [Hs1 Ho1].
  set (V1 := setvs _ V) in *. assert (lg s1 = lg s) as El1 by (rewrite (outer_lg _ _ Ho1); apply puts_lg).
  assert (V1 (l_start (lg s)) = V (l_start (lg s))) as EV by apply setvs_other, start_not_slot.
  apply wp_bind. eapply wp_mono; [apply (write_head_wp V1 R blks); rewrite ?El1; done|].
  rewrite El1. intros _ s2 [Hs2 Ho2]. rewrite EV in Hs2, Ho2.
  assert (lg s2 = lg s) as El2 by (rewrite (outer_lg _ _ Ho2); exact El1).
  apply wp_bind. eapply wp_mono; [apply (install_trans_wp false _ R blks s2 Hs2); rewrite ?El2; done|].
  rewrite El2. pose proof (install_is_home V blks _ Hl) as Eh. cbv zeta in Eh. fold V1 in Eh. rewrite EV in Eh.
  rewrite Eh. intros _ s3 [Hs3 Ho3].
  assert (lg s3 = lg s) as El3 by (rewrite (outer_lg _ _ Ho3), puts_lg; exact El2).
  apply wp_bind, wp_modify. rewrite El3. fold (empty_log (lg s)).
  pose proof (unrefs_size blks R) as Hsz'. eapply wp_mono.
  { apply (write_head_wp _ (unrefs blks R) [] _ (store_lg _ _ _ (empty_log (lg s)) _ Hs3));
      [by eapply empty_log_ok|by apply few_unrefs|lia]. }
  intros _ s4 [Hs4 Ho4]. eexists. split; [exact Hs4|]. rewrite Ho4. cbn [l_start lg with_lg empty_log with_lh_n].
  rewrite setvs_other, setv_eq.
  2:{ unfold home_writes. rewrite <- list_fmap_compose. intros Hin. rewrite list_fmap_id in Hin.
      apply (lo_home _ _ _ Hl) in Hin as [_ Hin]. apply Hin. unfold in_log, LOGSIZE, MAXOPBLOCKS. lia. }
  unfold ws, commit_writes. rewrite !puts_app, <- puts_with_lg. cbn [puts foldl fst snd].
  apply outer_put, outer_with_lg. rewrite Ho3. apply outer_puts. rewrite Ho2. by apply outer_put.
Qed.

(** *** Recovery *)

(** Where the log is. *)
Record layout (start : Z) (l : log) : Prop := {
  la_dev : u32 (l_dev l) = dv;
  la_start : l_start l = start;
  la_range : 0 <= start /\ start + LOGSIZE < 2 ^ 31;
  la_len : length (lh_block l) = Z.to_nat LOGSIZE;
}.

Definition loaded (n k : nat) (blks : list Z) (l : log) : log :=
  with_lh_block (take k blks ++ drop k (lh_block l)) (with_lh_n (Z.of_nat n) l).

Lemma loaded_ok start blks d l :
  layout start l -> header start blks d -> log_ok dv blks (loaded (length blks) (length blks) blks l).
Proof.
  intros [H1' H2' H3' H4'] [H5' H6' H7' H8' H9']. split; cbn; try done.
  - by rewrite H2'.
  - rewrite length_app, length_drop, firstn_all. lia.
  - rewrite firstn_all. by apply take_app_length.
  - by rewrite H2'.
Qed.

Lemma loaded_step n k blks l b :
  blks !! k = Some b -> (k < length (lh_block l))%nat ->
  with_lh_block (<[k := b]> (lh_block (loaded n k blks l))) (loaded n k blks l) = loaded n (S k) blks l.
Proof.
  intros Hb Hk. unfold loaded.
  transitivity (with_lh_block (<[k := b]> (take k blks ++ drop k (lh_block l))) (with_lh_n (Z.of_nat n) l)); [done|].
  f_equal. rewrite (take_S_r _ _ _ Hb), <- app_assoc.
  pose proof (lookup_lt_Some _ _ _ Hb).
  rewrite insert_app_r_alt; rewrite length_take; [|lia]. f_equal.
  destruct (lookup_lt_is_Some_2 _ _ Hk) as [c Hc]. rewrite (drop_S _ _ _ Hc).
  by replace (k - k `min` length blks)%nat with O by lia.
Qed.

Lemma read_head_wp V R start blks s :
  store dv p pr V R ∅ s -> layout start (lg s) -> header start blks (V start) -> few R -> (size R < NBUF)%nat ->
  wp read_head (fun _ s' => store dv p pr V R ∅ s' /\
    outer s' = outer (with_lg (loaded (length blks) (length blks) blks (lg s)) s)) s.
Proof.
  intros Hs Hla Hh Hf Hsz. pose proof Hla as [Hdev Hst [Hr1 Hr2] Hlen]. destruct (few_max R start Hf) as [Hm Hz].
  pose proof (hd_max _ _ _ Hh) as Hmax. unfold read_head.
  apply wp_bind, wp_gets. rewrite Hdev, Hst. unfold LOGSIZE, MAXOPBLOCKS in Hr2.
  rewrite (u32_small start) by lia. apply wp_bind.
  eapply wp_mono; [apply (bread_ref V R ∅ start s); try done; [unfold block_ok; lia|by right]|].
  intros b s1 (_ & Hs1 & Ho1). apply wp_bind. apply (bdata_wp dv p pr _ _ _ b start s1 _ Hs1 (lookup_insert_eq _ _ _)).
  rewrite (hd_n _ _ _ Hh), i32_small by (unfold LOGSIZE, MAXOPBLOCKS in Hmax; lia).
  apply wp_bind, wp_modify. rewrite (outer_lg _ _ Ho1). apply wp_bind. eapply wp_mono.
  { apply (for_log_wp (length blks) _ (fun k s2 => store dv p pr V (ref start R) (<[b := start]> ∅) s2 /\
      outer s2 = outer (with_lg (loaded (length blks) k blks (lg s)) s))).
    - done.
    - split; [by apply store_lg|]. unfold loaded. cbn [take app drop].
      replace (with_lh_block _ _) with (with_lh_n (Z.of_nat (length blks)) (lg s)) by by destruct (lg s).
      by apply outer_with_lg.
    - intros k s2 Hk [Hs2 Ho2]. destruct (lookup_lt_is_Some_2 blks k Hk) as [c Hc].
      destruct (hd_home _ _ _ Hh c) as [Hok _]; [by eapply list_elem_of_lookup_2|]. unfold block_ok in Hok.
      rewrite (hd_block _ _ _ Hh _ _ Hc), i32_small by lia. apply lh_set_wp; [lia|].
      assert (lg s2 = loaded (length blks) k blks (lg s)) as -> by exact (outer_lg _ _ Ho2).
      rewrite (loaded_step _ _ _ _ _ Hc) by lia. split; [by apply store_lg|].
      exact (f_equal (with_lg (loaded (length blks) (S k) blks (lg s))) Ho2). }
  intros _ s2 [Hs2 Ho2]. eapply wp_mono.
  { apply (brelse_ref _ _ _ b start s2 Hs2); [done|done|]. intros HR.
    rewrite (outer_disk _ _ Ho2). by apply (c_clean _ _ _ _ _ _ (st_blocks _ _ _ _ _ _ _ Hs)). }
  intros _ s3 [Hs3 Ho3]. split; [done|]. by rewrite Ho3.
Qed.

Lemma recover_wp V R start blks s :
  store dv p pr V R ∅ s -> layout start (lg s) -> header start blks (V start) -> few R ->
  (S (size R) < NBUF)%nat ->
  wp recover_from_log (fun _ s' =>
    (exists V', store dv p pr V' R ∅ s') /\ lh_n (lg s') = 0 /\ layout start (lg s') /\
    disk s' = apply_writes (recover_writes start V blks) (disk s)) s.
Proof.
  intros Hs Hla Hh Hf Hsz. unfold recover_from_log. apply wp_bind.
  eapply wp_mono; [apply (read_head_wp V R start blks s); (done || lia)|]. intros _ s1 [Hs1 Ho1].
  pose proof (loaded_ok _ _ _ _ Hla Hh) as Hl. pose proof (outer_lg _ _ Ho1 : _ = loaded _ _ _ _) as El1.
  rewrite <- El1 in Hl. assert (l_start (lg s1) = start) as Est by (rewrite El1; apply Hla).
  apply wp_bind. eapply wp_mono.
  { apply (install_trans_wp true V R blks s1); (done || lia). }
  rewrite Est. intros _ s2 [Hs2 Ho2]. assert (lg s2 = lg s1) as El2 by (rewrite (outer_lg _ _ Ho2); apply puts_lg).
  apply wp_bind, wp_modify. rewrite El2. fold (empty_log (lg s1)). eapply wp_mono.
  { apply (write_head_wp _ R [] _ (store_lg _ _ _ (empty_log (lg s1)) _ Hs2)); [by eapply empty_log_ok|done|lia]. }
  cbn [l_start lg with_lg empty_log with_lh_n]. rewrite Est. intros _ s3 [Hs3 Ho3].
  split; [by eexists|]. pose proof (outer_lg _ _ Ho3 : _ = empty_log (lg s1)) as El3. rewrite El3.
  split; [done|]. split.
  - destruct Hla as [H1' H2' H3' H4'], Hl as [L1 L2 L3 L4 _ _ _ _]. by split.
  - pose proof (outer_disk _ _ Ho3) as Ed. cbn in Ed. rewrite (outer_disk _ _ Ho2), puts_disk in Ed.
    rewrite (outer_disk _ _ Ho1 : _ = disk s) in Ed. rewrite Ed, setvs_other.
    + unfold recover_writes. by rewrite apply_writes_app.
    + rewrite install_writes_blocks. intros Hin. apply (hd_home _ _ _ Hh) in Hin as [_ Hin]. apply Hin.
      unfold in_log, LOGSIZE, MAXOPBLOCKS. lia.
Qed.

End log.
