(* ===== verification/LogTxn.v ===== *)
(** * Inside a transaction

    [begin_op] reserves room in the log, [log_write] records a modified block in the header
    and pins its buffer; a block that is written twice is recorded once. *)

From S2P Require Import Prelude Riscv Memory Bytes State Spinlock Sched SchedSpec Sleeplock SleepSpec.
From S2P Require Import Bio BioRing BioSpec Log LogDisk LogSpec.

(** The blocks of the log after [log_write] of block [bn]. *)
Definition record_block (bn : Z) (blks : list Z) : list Z :=
  if decide (bn ∈ blks) then blks else blks ++ [bn].

Section txn.
Context `{environment} `{patience} `{disk_laws}.
Context (dv : Z) (p : nat) (pr : proc).

Lemma begin_op_eq h s :
  (0 < wakeups)%nat -> idle p pr h s -> l_committing (lg s) = 0 ->
  lh_n (lg s) + (l_outstanding (lg s) + 1) * MAXOPBLOCKS <= LOGSIZE ->
  begin_op s = Ok tt (with_lg (with_l_outstanding (l_outstanding (lg s) + 1) (lg s)) (touch s)).
Proof.
  intros Hw Hi Hc Hroom. pose proof (idle_hart _ _ _ _ Hi) as Hh.
  pose proof (id_locks _ _ _ _ Hi L_log eq_refl) as Hl. set (l1 := with_l_outstanding _ _).
  unfold begin_op. rewrite (bind_ok _ _ _ _ _ (acquire_eq _ s Hh Hl)). apply loopM_done; [done|].
  rewrite bind_gets. change (lg (take_lock L_log s)) with (lg s). rewrite Hc. cbn [Z.eqb negb].
  destruct (Z.ltb_spec LOGSIZE (lh_n (lg s) + (l_outstanding (lg s) + 1) * MAXOPBLOCKS)); [lia|].
  unfold lgset. rewrite bind_modify. change (lg (take_lock L_log s)) with (lg s).
  change (with_lg _ (take_lock L_log s)) with (with_lg l1 (take_lock L_log s)).
  assert (release L_log (with_lg l1 (take_lock L_log s)) = Ok tt (with_lg l1 (touch s))) as E
    by (apply (release_framed (with_lg l1)); [solve_framed|done|done]).
  by rewrite (bind_ok _ _ _ _ _ E).
Qed.

(** [bpin] under another lock. *)
Lemma bpin_locked h b s l :
  idle p pr h s -> store_lock l = true -> l <> L_bcache ->
  bpin b (take_lock l s) = Ok tt (upd_buf b incref (take_lock l s)).
Proof.
  intros Hi Hl Hne. pose proof (idle_hart _ _ _ _ Hi) as Hh.
  assert (hart_ok (take_lock l s)) as Hh' by by apply take_lock_hart_ok.
  assert (lock_free L_bcache (take_lock l s)) as Hf
    by (apply take_lock_other; [done|]; by apply (id_locks _ _ _ _ Hi)).
  unfold bpin. rewrite (bind_ok _ _ _ _ _ (acquire_eq _ _ Hh' Hf)), bufset_eq, bind_modify.
  rewrite (release_framed (upd_buf b incref)) by (done || apply upd_buf_framed).
  by rewrite (touch_held l) by by apply held_take.
Qed.

Lemma absorb_spec blks bn l :
  log_ok dv blks l -> block_ok bn ->
  absorb l bn = match list_find (bn =.) blks with Some (i, _) => Z.of_nat i | None => lh_n l end.
Proof.
  intros Hl Hok. unfold absorb. rewrite (lo_n _ _ _ Hl), Nat2Z.id, (lo_blks _ _ _ Hl).
  assert (forall b, b ∈ blks -> u32 b = b) as Hu.
  { intros b Hb. destruct (lo_home _ _ _ Hl b Hb) as [Hb' _]. unfold block_ok in Hb'. apply u32_small. lia. }
  assert (list_find (fun b => u32 b = bn) blks = list_find (bn =.) blks) as ->; [|done].
  clear Hl. induction blks as [|b blks IH]; [done|]. cbn [list_find].
  rewrite (Hu b) by by left. rewrite IH by (intros c Hc; apply Hu; by right).
  destruct (decide (b = bn)) as [E|Hne], (decide (bn = b)); (done || congruence).
Qed.

(** The header after [log_write]. *)
Lemma log_ok_record blks bn l :
  log_ok dv blks l -> block_ok bn -> ~ in_log (l_start l) bn -> bn ∉ blks ->
  (S (length blks) < Z.to_nat LOGSIZE)%nat ->
  log_ok dv (blks ++ [bn])
    (with_lh_n (lh_n l + 1) (with_lh_block (<[length blks := bn]> (lh_block l)) l)).
Proof.
  intros [L1 L2 L3 L4 L5 L6 L7 L8] Hok Hnl Hnb Hmax. split; cbn; try done.
  - rewrite length_app. cbn. lia.
  - by rewrite length_insert.
  - rewrite length_app. cbn. rewrite Nat.add_1_r.
    rewrite (take_S_r _ _ bn) by (apply list_lookup_insert_eq; lia).
    rewrite take_insert_ge by lia. by rewrite L5.
  - rewrite length_app. cbn. lia.
  - apply NoDup_app. split; [done|]. split; [|apply NoDup_singleton]. intros x Hx ->%list_elem_of_singleton. done.
  - intros b [Hb| ->%list_elem_of_singleton]%elem_of_app; [by apply L8|done].
Qed.

Lemma log_ok_same blks bn i l :
  log_ok dv blks l -> blks !! i = Some bn -> with_lh_block (<[i := bn]> (lh_block l)) l = l.
Proof.
  intros Hl Hi. rewrite <- (lo_blks _ _ _ Hl) in Hi. apply lookup_take_Some in Hi as [Hi _].
  rewrite list_insert_id by done. by destruct l.
Qed.

Lemma log_write_wp V R h blks b bn n s :
  store dv p pr V R h s -> log_ok dv blks (lg s) -> h !! b = Some bn -> R !! bn = Some n ->
  Z.of_nat (S n) < 2 ^ 32 -> ~ in_log (l_start (lg s)) bn ->
  1 <= l_outstanding (lg s) -> l_size (lg s) <= LOGSIZE -> lh_n (lg s) < l_size (lg s) - 1 ->
  wp (log_write b) (fun _ s' =>
    store dv p pr V (if decide (bn ∈ blks) then R else <[bn := S n]> R) h s' /\
    log_ok dv (record_block bn blks) (lg s') /\
    outer s' = outer (with_lg (lg s') s) /\ l_start (lg s') = l_start (lg s) /\
    l_outstanding (lg s') = l_outstanding (lg s) /\ l_committing (lg s') = l_committing (lg s) /\
    l_size (lg s') = l_size (lg s)) s.
Proof.
  intros Hs Hl Hh HR Hmax Hnl Ho Hn1 Hn2. pose proof Hs as [Hi [o Hr] Hc].
  destruct (c_mine _ _ _ _ _ _ _ _ Hc Hh) as (n' & Hb & _ & Hbn & Hn' & Hpos & _ & Hok & Hrc & _).
  rewrite HR in Hn'. injection Hn' as <-.
  pose proof (idle_hart _ _ _ _ Hi) as Hhart. pose proof (id_locks _ _ _ _ Hi L_log eq_refl) as Hfree.
  unfold log_write. apply wp_bind. eapply wp_eq; [by apply acquire_eq|]. apply wp_bind, wp_gets.
  change (lg (take_lock L_log s)) with (lg s).
  destruct ((LOGSIZE <=? lh_n (lg s)) || (l_size (lg s) - 1 <=? lh_n (lg s))) eqn:E1; [lia|].
  destruct (Z.ltb_spec (l_outstanding (lg s)) 1); [lia|]. apply wp_bind, wp_gets.
  fold (getb (bufs (take_lock L_log s)) b). change (bufs (take_lock L_log s)) with (bufs s). rewrite Hbn.
  assert (i32 bn = bn) as -> by (apply i32_small; unfold block_ok in Hok; lia).
  rewrite (absorb_spec blks) by done. unfold record_block. pose proof (lo_n _ _ _ Hl) as Hn.
  destruct (list_find (bn =.) blks) as [[i x]|] eqn:Ef.
  - apply list_find_Some in Ef as (Hx & <- & _). pose proof (lookup_lt_Some _ _ _ Hx) as Hlt.
    rewrite !decide_True by by eapply list_elem_of_lookup_2.
    apply wp_bind, lh_set_wp; [pose proof (lo_max _ _ _ Hl); lia|].
    change (lg (take_lock L_log s)) with (lg s). rewrite (log_ok_same blks bn i) by done.
    destruct (Z.eqb_spec (Z.of_nat i) (lh_n (lg s))); [lia|].
    apply wp_bind, wp_ret. eapply wp_eq; [apply (release_framed (with_lg (lg s))); [solve_framed|done|done]|].
    split; [|by destruct s]. split; [|by exists o|done]. eapply idle_frame; [..|by apply idle_touch]; reflexivity.
  - apply list_find_None in Ef. assert (bn ∉ blks) as Hnb.
    { intros Hin. rewrite Forall_forall in Ef. by apply (Ef bn Hin). }
    rewrite !decide_False by done. rewrite Hn. apply wp_bind, lh_set_wp; [lia|].
    change (lg (take_lock L_log s)) with (lg s). rewrite Z.eqb_refl.
    set (l1 := with_lh_block _ _). apply wp_bind, wp_bind.
    assert (with_lg l1 (take_lock L_log s) = take_lock L_log (with_lg l1 s)) as El
      by (apply (framed_take (with_lg l1)); solve_framed).
    assert (idle p pr (dom h) (with_lg l1 s)) as Hi1 by (eapply idle_frame; [..|exact Hi]; reflexivity).
    eapply wp_eq; [rewrite El; by eapply bpin_locked|]. rewrite <- El. apply wp_modify.
    set (l2 := with_lh_n (lh_n (lg s) + 1) l1).
    eapply wp_eq; [apply (release_framed (fun s0 => with_lg l2 (upd_buf b incref s0))); [unfold upd_buf; solve_framed|done|done]|].
    split; [|split; [|done]].
    + split; [eapply idle_frame; [..|by apply idle_touch]; reflexivity|exists o; by apply ring_alter|].
      eapply blocks_ext; [|by apply (blocks_refcnt dv V R h (getb (bufs s)) (disk s) b bn (S n)); [|done|lia|]].
      intros j. change (getb (bufs (with_lg l2 (upd_buf b incref (touch s))))) with (getb (bufs (upd_buf b incref s))).
      rewrite getb_upd; [|by eapply st_length|done]. unfold incref. rewrite Hrc, u32_small by lia.
      by replace (Z.of_nat n + 1) with (Z.of_nat (S n)) by lia.
    + cbn [lg with_lg]. unfold l2, l1. apply log_ok_record; (done || lia).
Qed.

(** C33: [log_write] of a buffer one holds records its block in the header of the log at most
    once: a block that is already there is absorbed, a new one is appended and its buffer
    pinned.  Contents, the rest of the header and everything outside the log stay as they
    are.  Outside a transaction, or when the log is full, it panics. *)
Theorem log_write_correct V R h blks b bn n s :
  store dv p pr V R h s -> log_ok dv blks (lg s) -> h !! b = Some bn -> R !! bn = Some n ->
  Z.of_nat (S n) < 2 ^ 32 -> ~ in_log (l_start (lg s)) bn -> l_size (lg s) <= LOGSIZE ->
  if decide (lh_n (lg s) < LOGSIZE /\ lh_n (lg s) < l_size (lg s) - 1)
  then if decide (1 <= l_outstanding (lg s))
    then exists s', log_write b s = Ok tt s' /\
      store dv p pr V (if decide (bn ∈ blks) then R else <[bn := S n]> R) h s' /\
      log_ok dv (if decide (bn ∈ blks) then blks else blks ++ [bn]) (lg s') /\
      outer s' = outer (with_lg (lg s') s)
    else exists s', log_write b s = Panic "log_write outside of trans" s'
  else exists s', log_write b s = Panic "too big a transaction" s'.
Proof.
  intros Hs Hl Hh HR Hmax Hnl Hsize.
  pose proof (st_idle _ _ _ _ _ _ _ Hs) as Hi. pose proof (idle_hart _ _ _ _ Hi) as Hhart.
  pose proof (acquire_eq L_log s Hhart (id_locks _ _ _ _ Hi L_log eq_refl)) as Ea.
  destruct (decide (_ /\ _)) as [[Hn1 Hn2]|Hbig].
  - destruct (decide (1 <= _)) as [Ho|Ho].
    + pose proof (log_write_wp V R h blks b bn n s Hs Hl Hh HR Hmax Hnl Ho Hsize Hn2) as Hwp.
      apply wp_ok in Hwp as ([] & s' & E & Hs' & Hl' & Ho' & _). by exists s'.
    + eexists. unfold log_write. rewrite (bind_ok _ _ _ _ _ Ea), bind_gets. change (lg (take_lock L_log s)) with (lg s).
      destruct ((LOGSIZE <=? lh_n (lg s)) || (l_size (lg s) - 1 <=? lh_n (lg s))) eqn:E1; [lia|].
      destruct (Z.ltb_spec (l_outstanding (lg s)) 1); [reflexivity|lia].
  - eexists. unfold log_write. rewrite (bind_ok _ _ _ _ _ Ea), bind_gets. change (lg (take_lock L_log s)) with (lg s).
    destruct ((LOGSIZE <=? lh_n (lg s)) || (l_size (lg s) - 1 <=? lh_n (lg s))) eqn:E1; [reflexivity|lia].
Qed.

End txn.
