(* ===== verification/LogCrash.v ===== *)
(** * The log survives crashes

    Whatever prefix of the writes of a commit has reached the disk, the recovery that
    [initlog] runs at the next boot leaves either all the blocks of the transaction or
    none. *)

From S2P Require Import Prelude Riscv Memory Bytes State Spinlock Sched SchedSpec Sleeplock SleepSpec.
From S2P Require Import Bio BioRing BioSpec Log LogDisk LogSpec.

Lemma dblock_other ws d bn : bn ∉ ws.*1 -> dblock (apply_writes ws d) bn = dblock d bn.
Proof. intros Hn. unfold dblock. by rewrite apply_other. Qed.

Lemma dblock_one ws d bn x i : NoDup ws.*1 -> ws !! i = Some (bn, x) -> dblock (apply_writes ws d) bn = x.
Proof. intros Hnd Hi. unfold dblock. by rewrite (apply_one _ _ _ x i). Qed.

Lemma dblock_last ws bn x d : dblock (apply_writes (ws ++ [(bn, x)]) d) bn = x.
Proof. rewrite apply_writes_app. unfold dblock. cbn. unfold put_block. cbn. by rewrite lookup_insert_eq. Qed.

Lemma dblock_snoc_ne ws bn x d bn' :
  bn' <> bn -> dblock (apply_writes (ws ++ [(bn, x)]) d) bn' = dblock (apply_writes ws d) bn'.
Proof. intros Hne. rewrite apply_writes_app. unfold dblock. cbn. unfold put_block. cbn. by rewrite lookup_insert_ne. Qed.

Lemma hdr_nil (x : list Z) :
  length x = Z.to_nat BSIZE -> get32 (hdr [] x) 0 = 0 /\ length (hdr [] x) = Z.to_nat BSIZE.
Proof. intros Hx. destruct (hdr_get [] x ltac:(cbn; lia) Hx) as (? & ? & _). done. Qed.

Lemma start_in_log start : in_log start start.
Proof. unfold in_log, LOGSIZE, MAXOPBLOCKS. lia. Qed.

(** The disk after a crash, and what the recovery makes of it. *)
Definition recovered (start : Z) (bns : list Z) (d1 : gmap Z (list Z)) : gmap Z (list Z) :=
  apply_writes (recover_writes start (dblock d1) bns) d1.

(** A header without blocks: recovery touches the header only. *)
Lemma recovered_nil start d1 :
  get32 (dblock d1 start) 0 = 0 -> length (dblock d1 start) = Z.to_nat BSIZE ->
  header start [] (dblock d1 start) /\ get32 (dblock (recovered start [] d1) start) 0 = 0 /\
  forall bn, ~ in_log start bn -> dblock (recovered start [] d1) bn = dblock d1 bn.
Proof.
  intros Hz Hlen. unfold recovered, recover_writes. split; [|split].
  - split; [exact Hz|cbn; unfold LOGSIZE, MAXOPBLOCKS; lia|done|apply NoDup_nil_2|]. intros b Hb. by apply elem_of_nil in Hb.
  - rewrite dblock_last. by apply hdr_nil.
  - intros bn Hn. rewrite dblock_snoc_ne; [done|]. intros ->. by apply Hn, start_in_log.
Qed.

(** ** Every prefix of a commit *)

Section prefix.
Context (start : Z) (V : Z -> list Z) (blks : list Z) (d : gmap Z (list Z)).
Context (Hmax : (length blks < Z.to_nat LOGSIZE)%nat) (Hnodup : NoDup blks).
Context (Hhome : forall b, b ∈ blks -> block_ok b /\ ~ in_log start b).
Context (Hsize : forall bn, length (V bn) = Z.to_nat BSIZE).
Context (Hclean : forall bn, bn ∉ blks -> V bn = dblock d bn).
Context (Hempty : get32 (dblock d start) 0 = 0).

Lemma slot_in_log i : (i < length blks)%nat -> in_log start (slot start i).
Proof. unfold in_log, slot. lia. Qed.

Lemma home_writes_blocks bns : (home_writes V bns).*1 = bns.
Proof. unfold home_writes. rewrite <- list_fmap_compose. apply list_fmap_id. Qed.

Lemma not_slot k bn : ~ in_log start bn -> bn ∉ (take k (log_writes start V blks)).*1.
Proof.
  intros Hn Hin. rewrite fmap_take in Hin. apply elem_of_take in Hin as (i & Hi & _).
  apply list_elem_of_lookup_2, log_writes_in in Hi as (j & Hj & ->). by apply Hn, slot_in_log.
Qed.

Lemma not_home k bn : in_log start bn -> bn ∉ (home_writes V (take k blks)).*1.
Proof.
  intros Hl. rewrite home_writes_blocks. intros (i & Hi & _)%elem_of_take.
  by eapply Hhome; [by eapply list_elem_of_lookup_2|].
Qed.

(** Before the header is written. *)
Lemma crash_before k :
  let d1 := apply_writes (take k (log_writes start V blks)) d in
  header start [] (dblock d1 start) /\ get32 (dblock (recovered start [] d1) start) 0 = 0 /\
  forall bn, ~ in_log start bn -> dblock (recovered start [] d1) bn = dblock d bn.
Proof.
  intros d1. assert (dblock d1 start = dblock d start) as Es.
  { apply dblock_other. intros Hin. rewrite fmap_take in Hin. apply elem_of_take in Hin as (i & Hi & _).
    apply list_elem_of_lookup_2 in Hi. by eapply start_not_slot. }
  assert (start ∉ blks) as Hns by (intros [_ Hn]%Hhome; apply Hn, start_in_log).
  destruct (recovered_nil start d1) as (H1 & H2 & H3); rewrite ?Es; [done|rewrite <- Hclean by done; apply Hsize|].
  rewrite Es in H1. split; [done|]. split; [done|]. intros bn Hn. rewrite H3 by done.
  by apply dblock_other, not_slot.
Qed.

Definition head_written : list (Z * list Z) := log_writes start V blks ++ [(start, hdr blks (V start))].

(** The blocks after the header and [k] of the home blocks have been written. *)
Lemma written_blocks k :
  let d1 := apply_writes (head_written ++ home_writes V (take k blks)) d in
  dblock d1 start = hdr blks (V start) /\
  (forall i b, blks !! i = Some b -> dblock d1 (slot start i) = V b) /\
  (forall bn, ~ in_log start bn -> bn ∉ blks -> dblock d1 bn = V bn) /\
  (forall bn, bn ∈ take k blks -> dblock d1 bn = V bn).
Proof.
  intros d1. unfold d1. rewrite apply_writes_app.
  split; [|split; [|split]].
  - rewrite dblock_other by apply not_home, start_in_log. apply dblock_last.
  - intros i b Hi. rewrite dblock_other by (apply not_home, slot_in_log; by eapply lookup_lt_Some).
    unfold head_written. rewrite dblock_snoc_ne by (unfold slot; lia).
    eapply dblock_one; [apply log_writes_nodup|]. by apply log_writes_lookup.
  - intros bn Hn Hb. rewrite dblock_other.
    + unfold head_written. rewrite dblock_snoc_ne by (intros ->; by apply Hn, start_in_log).
      rewrite <- (firstn_all (log_writes start V blks)), dblock_other by by apply not_slot.
      symmetry. by apply Hclean.
    + rewrite home_writes_blocks. intros (i & Hi & _)%elem_of_take. by apply Hb; eapply list_elem_of_lookup_2.
  - intros bn (i & Hi)%list_elem_of_lookup. eapply (dblock_one _ _ _ _ i).
    + rewrite home_writes_blocks. pose proof Hnodup as Hx. rewrite <- (take_drop k blks) in Hx.
      by apply NoDup_app in Hx as [? _].
    + unfold home_writes. by rewrite list_lookup_fmap, Hi.
Qed.

(** Once the header is written. *)
Lemma crash_after k :
  let d1 := apply_writes (head_written ++ home_writes V (take k blks)) d in
  header start blks (dblock d1 start) /\ get32 (dblock (recovered start blks d1) start) 0 = 0 /\
  forall bn, ~ in_log start bn -> dblock (recovered start blks d1) bn = V bn.
Proof.
  intros d1. destruct (written_blocks k) as (Hs & Hsl & Hoth & _). fold d1 in Hs, Hsl, Hoth.
  destruct (hdr_get blks (V start) (Nat.lt_le_incl _ _ Hmax) (Hsize start)) as (Hl & Hn & Hb).
  assert (install_writes start (dblock d1) blks = home_writes V blks) as Ei.
  { apply list_eq. intros i. unfold install_writes, home_writes. rewrite list_lookup_imap, list_lookup_fmap.
    destruct (blks !! i) as [b|] eqn:E; [|done]. cbn. by rewrite (Hsl i b). }
  unfold recovered, recover_writes. rewrite Ei, Hs. split; [|split].
  - split; [done|done| |done|done]. intros i b Hi. apply Hb; [done|]. apply Hhome. by eapply list_elem_of_lookup_2.
  - rewrite dblock_last. by apply hdr_nil.
  - intros bn Hn'. rewrite dblock_snoc_ne by (intros ->; by apply Hn', start_in_log).
    destruct (decide (bn ∈ blks)) as [[i Hi]%list_elem_of_lookup|Hnb].
    + eapply (dblock_one _ _ _ _ i); [by rewrite home_writes_blocks|]. unfold home_writes. by rewrite list_lookup_fmap, Hi.
    + rewrite dblock_other by by rewrite home_writes_blocks. by apply Hoth.
Qed.

(** When everything is written. *)
Lemma crash_end :
  let d1 := apply_writes (commit_writes start V blks) d in
  header start [] (dblock d1 start) /\ get32 (dblock (recovered start [] d1) start) 0 = 0 /\
  (forall bn, ~ in_log start bn -> dblock d1 bn = V bn) /\
  forall bn, ~ in_log start bn -> dblock (recovered start [] d1) bn = V bn.
Proof.
  intros d1. destruct (written_blocks (length blks)) as (_ & _ & Hoth & Hin). rewrite firstn_all in Hoth, Hin.
  assert (commit_writes start V blks = (head_written ++ home_writes V blks) ++
    [(start, hdr [] (hdr blks (V start)))]) as Ew by (unfold commit_writes, head_written; by rewrite <- !app_assoc).
  assert (dblock d1 start = hdr [] (hdr blks (V start))) as Es by (unfold d1; rewrite Ew; apply dblock_last).
  destruct (hdr_get blks (V start) (Nat.lt_le_incl _ _ Hmax) (Hsize start)) as (Hl & _ & _).
  destruct (hdr_nil _ Hl) as [Hn' Hl'].
  assert (forall bn, ~ in_log start bn -> dblock d1 bn = V bn) as Hv.
  { intros bn Hn. unfold d1. rewrite Ew, dblock_snoc_ne by (intros ->; by apply Hn, start_in_log).
    destruct (decide (bn ∈ blks)); auto. }
  destruct (recovered_nil start d1) as (R1 & R2 & R3); rewrite ?Es; [done|done|]. rewrite Es in R1.
  split; [done|]. split; [done|]. split; [done|]. intros bn Hn. rewrite R3 by done. by apply Hv.
Qed.

(** A crash after any prefix of the writes of a commit. *)
Lemma crash_any ws1 ws2 :
  commit_writes start V blks = ws1 ++ ws2 ->
  let d1 := apply_writes ws1 d in
  exists bns, header start bns (dblock d1 start) /\ get32 (dblock (recovered start bns d1) start) 0 = 0 /\
    forall bn, ~ in_log start bn ->
      dblock (recovered start bns d1) bn = if decide (length ws1 <= length blks)%nat then dblock d bn else V bn.
Proof.
  intros Ew d1. assert (ws1 = take (length ws1) (commit_writes start V blks)) as E1 by by rewrite Ew, take_app_length.
  assert (length (log_writes start V blks) = length blks) as Hl1 by apply length_imap.
  assert (length head_written = S (length blks)) as Hl2
    by (unfold head_written; rewrite length_app, Hl1; cbn; lia).
  assert (commit_writes start V blks = head_written ++ home_writes V blks ++
    [(start, hdr [] (hdr blks (V start)))]) as Ec by (unfold commit_writes, head_written; by rewrite <- !app_assoc).
  destruct (decide (length ws1 <= length blks)%nat) as [Hle|Hgt].
  - exists []. unfold commit_writes in E1. rewrite take_app_le in E1 by lia. unfold d1. rewrite E1. apply crash_before.
  - destruct (decide (length ws1 <= S (length blks + length blks))%nat) as [Hle2|Hgt2].
    + exists blks. rewrite Ec, take_app_ge, Hl2, take_app_le in E1 by (unfold home_writes; rewrite ?length_fmap; lia).
      unfold home_writes in E1. rewrite <- fmap_take in E1. unfold d1. rewrite E1. apply crash_after.
    + exists []. assert (ws2 = []) as ->.
      { apply nil_length_inv. apply (f_equal length) in Ew. rewrite Ec, !length_app, Hl2 in Ew.
        unfold home_writes in Ew. rewrite length_fmap in Ew. cbn in Ew. lia. }
      rewrite app_nil_r in Ew. unfold d1. rewrite <- Ew. destruct crash_end as (? & ? & _ & ?). done.
Qed.

End prefix.

(** ** The end of a transaction *)

Section crash.
Context `{environment} `{patience} `{disk_laws}.
Context (dv : Z).

(** The last critical section of [end_op]. *)
Lemma log_wakeup_wp p pr h f s :
  idle p pr h s ->
  wp (acquire L_log;; lgset f;; wakeup Ch_log;; release L_log)%M
    (fun _ s' => idle p pr h s' /\ body s' = body (with_lg (f (lg s)) s)) s.
Proof.
  intros Hi. pose proof (idle_hart _ _ _ _ Hi) as Hh. pose proof (id_locks _ _ _ _ Hi L_log eq_refl) as Hl.
  set (g := fun s0 => with_procs (wake Ch_log (Some p) (procs s)) (with_lg (f (lg s)) s0)).
  assert (framed g) as Hg by (unfold g; solve_framed).
  apply wp_bind. eapply wp_eq; [by apply acquire_eq|]. apply wp_bind, wp_modify. apply wp_bind.
  set (s1 := with_lg _ (take_lock L_log s)). assert (s1 = take_lock L_log (with_lg (f (lg s)) s)) as Es1
    by (apply (framed_take (with_lg (f (lg s)))); solve_framed).
  assert (hart_ok (with_lg (f (lg s)) s)) as Hh1 by exact Hh.
  eapply (wp_eq _ _ _ tt (g (take_lock L_log s))).
  { rewrite Es1, wakeup_eq.
    - unfold woken. rewrite (touch_held L_log) by by apply held_take. rewrite cur_take.
      rewrite (id_cur _ _ _ _ Hi : cur (with_lg (f (lg s)) s) = Some p). unfold g. by rewrite <- Es1.
    - by apply take_lock_hart_ok.
    - exact (id_len _ _ _ _ Hi).
    - intros i Hlt _. apply take_lock_other; [done|]. exact (idle_proc_lock _ _ _ _ _ Hi Hlt). }
  eapply wp_eq; [by apply (release_framed g)|]. split; [|reflexivity].
  apply (idle_wake p pr h Ch_log (with_lg (f (lg s)) (touch s))). eapply idle_frame; [..|by apply idle_touch]; reflexivity.
Qed.

Lemma log_ok_flags blks o c l :
  log_ok dv blks l -> log_ok dv blks (with_l_committing c (with_l_outstanding o l)).
Proof. intros [L1 L2 L3 L4 L5 L6 L7 L8]. by split. Qed.

Lemma store_touch p pr V R h s : store dv p pr V R h s -> store dv p pr V R h (touch s).
Proof. intros [Hi Hr Hc]. split; [by apply idle_touch|done|done]. Qed.

Definition transaction_writes (start : Z) (V : Z -> list Z) (blks : list Z) : list (Z * list Z) :=
  match blks with [] => [] | _ => commit_writes start V blks end.

(** [commit], whether or not there is something to commit. *)
Lemma commit_any_wp p pr V R blks s :
  (0 < wakeups)%nat -> ready dv p pr V R blks s ->
  wp commit (fun _ s' => (exists V', store dv p pr V' (unrefs blks R) ∅ s') /\
    outer s' = outer (with_lg (empty_log (lg s)) (puts (transaction_writes (l_start (lg s)) V blks) s))) s.
Proof.
  intros Hw Hr. destruct blks as [|b blks].
  - destruct Hr as [Hs Hl _ _ _]. unfold commit. apply wp_bind, wp_gets. rewrite (lo_n _ _ _ Hl). cbn.
    split; [by exists V|]. assert (empty_log (lg s) = lg s) as ->; [|by destruct s].
    pose proof (lo_n _ _ _ Hl) as Hn. unfold empty_log. destruct (lg s); cbn in *. by subst.
  - eapply wp_mono; [by apply (commit_wp Hw dv p pr V R)|]. intros _ s' (V' & Hs & Ho). split; [by exists V'|done].
Qed.

Lemma end_op_wp p pr V R blks s :
  (0 < wakeups)%nat -> ready dv p pr V R blks s -> l_outstanding (lg s) = 1 -> l_committing (lg s) = 0 ->
  let ws := transaction_writes (l_start (lg s)) V blks in
  wp end_op (fun _ s' => (exists V', store dv p pr V' (unrefs blks R) ∅ s') /\
    outer s' = outer (with_lg (with_l_outstanding 0 (empty_log (lg s))) (puts ws s))) s.
Proof.
  intros Hw Hr Ho Hc ws. pose proof (st_idle _ _ _ _ _ _ _ (rd_store _ _ _ _ _ _ _ Hr)) as Hi.
  pose proof (idle_hart _ _ _ _ Hi) as Hh. pose proof (id_locks _ _ _ _ Hi L_log eq_refl) as Hl.
  set (l1 := with_l_committing 1 (with_l_outstanding 0 (lg s))).
  unfold end_op. apply wp_bind. eapply wp_eq; [by apply acquire_eq|]. apply wp_bind, wp_modify, wp_bind, wp_gets.
  cbn [lg with_lg l_committing with_l_outstanding l_outstanding]. change (lg (take_lock L_log s)) with (lg s).
  rewrite Ho, Hc. cbn [Z.eqb negb Z.sub Z.add Z.opp Z.pos_sub]. apply wp_bind, wp_modify. apply wp_bind.
  change (with_lg _ (with_lg _ (take_lock L_log s))) with (with_lg l1 (take_lock L_log s)).
  eapply wp_eq; [apply (release_framed (with_lg l1)); [solve_framed|done|done]|].
  assert (ready dv p pr V R blks (with_lg l1 (touch s))) as Hr1.
  { destruct Hr as [Hs Hlo Hf Hsz HR]. split; [by apply store_lg, store_touch|by apply log_ok_flags|done..]. }
  apply wp_bind. eapply wp_mono; [by apply (commit_any_wp p pr V R blks)|].
  intros _ s1 [[V' Hs1] Ho1]. eapply wp_mono; [apply log_wakeup_wp, Hs1|]. intros _ s2 [Hi2 Hb2].
  split.
  - exists V'. destruct Hs1 as [_ Hrg Hbl]. split; [done|by rewrite (body_bufs _ _ Hb2)|].
    by rewrite (body_bufs _ _ Hb2), (body_disk _ _ Hb2).
  - rewrite (body_outer _ _ Hb2). rewrite (outer_lg _ _ Ho1 : _ = empty_log l1).
    transitivity (outer (with_lg (with_l_outstanding 0 (empty_log (lg s))) (with_lg (empty_log l1) (puts ws (with_lg l1 (touch s)))))).
    + replace (with_l_committing 0 (empty_log l1)) with (with_l_outstanding 0 (empty_log (lg s)));
        [exact (outer_with_lg _ _ _ Ho1)|]. unfold l1. destruct (lg s); cbn in *. by subst.
    + rewrite puts_with_lg. change (outer (with_lg (with_l_outstanding 0 (empty_log (lg s))) (puts ws (touch s))) =
        outer (with_lg (with_l_outstanding 0 (empty_log (lg s))) (puts ws s))). by apply outer_with_lg, outer_puts.
Qed.

(** ** Booting *)

(** The cache when the system starts on the disk of [s]: nothing is referenced. *)
Definition booted (p : nat) (pr : proc) (s : kst) : Prop := store dv p pr (dblock (disk s)) ∅ ∅ s.

Lemma initlog_wp p pr dev sbk start bns s :
  (0 < wakeups)%nat -> booted p pr s -> u32 dev = dv -> i32 (sb_logstart sbk) = start ->
  0 <= start /\ start + LOGSIZE < 2 ^ 31 -> length (lh_block (lg s)) = Z.to_nat LOGSIZE ->
  header start bns (dblock (disk s) start) ->
  wp (initlog dev sbk) (fun _ s' => (exists V', store dv p pr V' ∅ ∅ s') /\
    lh_n (lg s') = 0 /\ layout dv start (lg s') /\ disk s' = recovered start bns (disk s)) s.
Proof.
  intros Hw [Hi Hr Hc] Hdev Hst Hrange Hlen Hh. unfold initlog. change (BSIZE <=? LH_SIZE) with false. cbv iota.
  apply wp_bind, wp_modify, wp_bind, wp_modify, wp_bind, wp_modify, wp_bind, wp_modify.
  set (s1 := with_lg _ _).
  assert (store dv p pr (dblock (disk s)) ∅ ∅ s1) as Hs1.
  { split; [|done|done]. destruct Hi as [I1 I2 I3 I4 I5 I6]. split; try done.
    intros l Hl. destruct (decide (l = L_log)) as [->|Hne].
    - eexists. apply lookup_insert_eq.
    - destruct (I5 l Hl) as [nm E]. exists nm. unfold s1. cbn. by rewrite lookup_insert_ne. }
  eapply wp_mono; [apply (recover_wp Hw dv p pr _ ∅ start bns s1 Hs1)|].
  - by split.
  - done.
  - done.
  - rewrite map_size_empty. unfold NBUF. lia.
  - intros _ s' (HV & Hn & Hla & Hd). done.
Qed.

(** A crash after any prefix of the writes of a transaction. *)
Lemma transaction_crash p pr V R blks s ws1 ws2 :
  let start := l_start (lg s) in
  ready dv p pr V R blks s -> (forall bn, bn ∉ blks -> V bn = dblock (disk s) bn) ->
  get32 (dblock (disk s) start) 0 = 0 -> transaction_writes start V blks = ws1 ++ ws2 ->
  exists bns, header start bns (dblock (apply_writes ws1 (disk s)) start) /\
    forall bn, ~ in_log start bn -> dblock (recovered start bns (apply_writes ws1 (disk s))) bn =
      if decide (length ws1 <= length blks)%nat then dblock (disk s) bn else V bn.
Proof.
  intros start Hr Hclean Hz Ews. pose proof (rd_log _ _ _ _ _ _ _ Hr) as Hl.
  pose proof (c_size _ _ _ _ _ _ (st_blocks _ _ _ _ _ _ _ (rd_store _ _ _ _ _ _ _ Hr))) as Hsize.
  destruct blks as [|b blks].
  - symmetry in Ews. apply app_nil in Ews as [-> ->]. cbn [apply_writes foldl].
    assert (length (dblock (disk s) start) = Z.to_nat BSIZE) as Hlen
      by (rewrite <- Hclean by apply not_elem_of_nil; apply Hsize).
    destruct (recovered_nil start (disk s) Hz Hlen) as (H1' & _ & H3'). by exists [].
  - destruct (crash_any start V (b :: blks) (disk s) (lo_max _ _ _ Hl) (lo_nodup _ _ _ Hl)
      (lo_home _ _ _ Hl) Hsize Hclean Hz ws1 ws2 Ews) as (bns & H1' & _ & H3'). by exists bns.
Qed.

(** C1: a transaction is atomic and durable.  When the last system call of a transaction ends,
    [end_op] commits: it returns with the log empty and every block outside the log on the
    disk as the transaction left it, through the disk writes [ws].  If the machine stops
    after any prefix [ws1] of these writes, then [initlog], run at the next boot on what is
    on the disk, returns, and it leaves every block outside the log either as it was before
    the transaction or as the transaction left it: the new contents appear all at once, as
    soon as the header has been written after the logged blocks. *)
Theorem end_op_crash_safe p pr V R blks s :
  (0 < wakeups)%nat -> ready dv p pr V R blks s -> l_outstanding (lg s) = 1 -> l_committing (lg s) = 0 ->
  (forall bn, bn ∉ blks -> V bn = dblock (disk s) bn) ->
  get32 (dblock (disk s) (l_start (lg s))) 0 = 0 ->
  exists s' ws, end_op s = Ok tt s' /\
    dwrites s' = dwrites s ++ ws /\ disk s' = apply_writes ws (disk s) /\
    lh_n (lg s') = 0 /\ l_outstanding (lg s') = 0 /\ l_committing (lg s') = 0 /\
    (forall bn, ~ in_log (l_start (lg s)) bn -> dblock (disk s') bn = V bn) /\
    forall ws1 ws2 q pq t dev sbk,
      ws = ws1 ++ ws2 -> booted q pq t -> disk t = apply_writes ws1 (disk s) ->
      u32 dev = dv -> i32 (sb_logstart sbk) = l_start (lg s) ->
      length (lh_block (lg t)) = Z.to_nat LOGSIZE ->
      exists t', initlog dev sbk t = Ok tt t' /\ lh_n (lg t') = 0 /\
        forall bn, ~ in_log (l_start (lg s)) bn -> dblock (disk t') bn =
          if decide (length ws1 <= length blks)%nat then dblock (disk s) bn else V bn.
Proof.
  intros Hw Hr Ho Hc Hclean Hz. pose proof (end_op_wp p pr V R blks s Hw Hr Ho Hc) as Hwp. cbv zeta in Hwp.
  set (ws := transaction_writes _ V blks) in Hwp. apply wp_ok in Hwp as ([] & s' & E & _ & Hout).
  pose proof (rd_log _ _ _ _ _ _ _ Hr) as Hl. pose proof (lo_start _ _ _ Hl) as Hrange.
  pose proof (c_size _ _ _ _ _ _ (st_blocks _ _ _ _ _ _ _ (rd_store _ _ _ _ _ _ _ Hr))) as Hsize.
  pose proof (outer_disk _ _ Hout : _ = disk (puts ws s)) as Ed. rewrite puts_disk in Ed.
  pose proof (f_equal dwrites Hout : _ = dwrites (puts ws s)) as Edw. rewrite puts_dwrites in Edw.
  pose proof (outer_lg _ _ Hout : _ = with_l_outstanding 0 (empty_log (lg s))) as El.
  exists s', ws. split; [exact E|]. split; [exact Edw|]. split; [exact Ed|]. rewrite El.
  split; [done|]. split; [done|]. split; [exact Hc|].
  split.
  - intros bn Hn. rewrite Ed. destruct blks as [|b blks]; [symmetry; apply Hclean, not_elem_of_nil|].
    apply (crash_end (l_start (lg s)) V (b :: blks) (disk s)); first [exact Hn|exact Hsize|exact Hclean|apply Hl].
  - intros ws1 ws2 q pq t dev sbk Ews Hb Hd Hdev Hst Hlen. 
    destruct (transaction_crash p pr V R blks s ws1 ws2 Hr Hclean Hz Ews) as (bns & Hh & Hrec).
    rewrite <- Hd in Hh, Hrec. pose proof (initlog_wp q pq dev sbk _ bns t Hw Hb Hdev Hst Hrange Hlen Hh) as Hwp.
    apply wp_ok in Hwp as ([] & t' & Et & _ & Hn & _ & Hd'). exists t'. split; [exact Et|]. split; [exact Hn|].
    rewrite Hd'. exact Hrec.
Qed.

End crash.
