(* ===== verification/LogExamples.v ===== *)
(** * The storage theorems on a concrete machine

    A machine with one hart, the disk driver and a device that serves its requests; a system that
    has just initialised its buffer cache, and a transaction that changes one block. *)

From S2P Require Import Prelude Riscv Memory Bytes State Spinlock Sched SchedSpec Sleeplock Virtio SleepSpec.
From S2P Require Import Bio BioRing BioSpec VirtioSpec BioInit Log LogDisk LogSpec LogTxn LogCrash.

(** A device that serves the request it finds. *)
#[local] Instance demo_device : block_device := fun s => match pending (vd s) with Some r => served r s | None => s end.
Lemma demo_device_laws : block_device_laws.
Proof. intros s r E. exists (mmio (served r s)). unfold serve, demo_device. rewrite E. by destruct (served r s). Qed.
#[local] Existing Instances one_hart demo_device_laws virtio_driver.
#[local] Instance two_rounds : patience := 2%nat.

Lemma demo_wakeups : (0 < wakeups)%nat.
Proof. apply Nat.lt_0_2. Qed.

Lemma demo_laws : disk_laws.
Proof. apply virtio_laws, Nat.lt_1_2. Qed.
#[local] Existing Instance demo_laws.

(** The state after a computation. *)
Definition state_of {A} (r : result kst A) : kst := match r with Ok _ s => s | _ => kst0 end.

Lemma wp_state {A} (m : K A) Q s : wp m Q s -> exists a, m s = Ok a (state_of (m s)) /\ Q a (state_of (m s)).
Proof. unfold wp. destruct (m s); intros HQ; [by eexists|done..]. Qed.

Definition demo_pr : proc := with_p_pid 1 (with_p_state RUNNING proc0).

(** Process 0 runs on hart 0; the log is at block 2. *)
Definition demo_log : log :=
  with_l_dev 1 (with_l_size 30 (with_l_start 2 log0)).
Definition demo_locks : gmap lockref spinlock :=
  <[L_log := spinlock0]> (<[L_vdisk := spinlock0]> (<[L_pr := spinlock0]> (<[L_itable := spinlock0]>
    (list_to_map ((fun i => (L_proc i, spinlock0)) <$> seq 0 NPROC))))).
Definition demo_vd : vdisk := with_v_free (replicate NUM 1) vdisk0.
Definition demo_base (d : gmap Z (list Z)) : kst :=
  with_disk d (with_vd demo_vd (with_lg demo_log (with_locks demo_locks
    (with_procs (<[0%nat := demo_pr]> (replicate NPROC proc0))
    (with_cpus (<[0%nat := with_c_proc (Some 0%nat) cpu0]> (replicate NCPU cpu0)) kst0))))).

Lemma demo_proc_lock i : (i < NPROC)%nat -> demo_locks !! L_proc i = Some spinlock0.
Proof.
  intros Hi. unfold demo_locks. rewrite !lookup_insert_ne by done. apply elem_of_list_to_map_1.
  - rewrite <- list_fmap_compose. apply NoDup_fmap_2; [|apply NoDup_seq]. by intros i1 i2 [=].
  - apply list_elem_of_fmap. exists i. split; [done|]. apply elem_of_seq. lia.
Qed.

Definition disk_sized (d : gmap Z (list Z)) : Prop := forall bn, length (dblock d bn) = Z.to_nat BSIZE.

Lemma demo_bootable d : disk_sized d -> bootable 0 demo_pr (demo_base d).
Proof.
  intros Hd. split; try done.
  - by exists (with_c_proc (Some 0%nat) cpu0).
  - intros l Hl H1 H2. exists EmptyString. change (demo_locks !! l = Some spinlock0).
    destruct l; try discriminate Hl; try done.
    + apply demo_proc_lock. by apply Nat.ltb_lt.
    + by destruct (H2 i).
Qed.

#[local] Opaque binit.

(** The machine with an initialised cache. *)
Definition demo_boot (d : gmap Z (list Z)) : kst := state_of (binit (demo_base d)).

Lemma demo_booted d : disk_sized d ->
  booted 1 0 demo_pr (demo_boot d) /\ disk (demo_boot d) = d /\ lg (demo_boot d) = demo_log.
Proof.
  intros Hd. pose proof (binit_store 1 0 demo_pr (demo_base d) ltac:(done) (demo_bootable d Hd)) as Hwp.
  destruct (wp_state _ _ _ Hwp) as (a & _ & Hs & Ed & El). fold (demo_boot d) in Hs, Ed, El.
  change (disk (demo_base d)) with d in Ed. split; [|exact (conj Ed El)]. unfold booted. rewrite Ed. exact Hs.
Qed.

Lemma empty_sized : disk_sized ∅.
Proof. intros bn. unfold dblock. rewrite lookup_empty. apply length_replicate. Qed.

Lemma binit_correct_witness :
  exists s', binit (demo_base ∅) = Ok tt s' /\ store 1 0 demo_pr (dblock ∅) ∅ ∅ s' /\ disk s' = ∅.
Proof. exact (binit_correct 1 0 demo_pr (demo_base ∅) ltac:(done) (demo_bootable ∅ empty_sized)). Defined.

(** A transaction that stores 7 in the first word of block 50. *)
Definition demo_txn : K unit :=
  (begin_op;;
   b <- bread 1 50;;
   bdata_set b (fun x => set32 x 0 7);;
   log_write b;;
   brelse b)%M.

Definition demo_V : Z -> list Z := setv (dblock ∅) 50 (set32 (dblock ∅ 50) 0 7).

(** The state in which the transaction ends. *)
Definition demo_ready : kst := state_of (demo_txn (demo_boot ∅)).

Lemma demo_log_ok : log_ok 1 [] (with_l_outstanding 1 demo_log).
Proof.
  split; try done.
  - cbn. unfold LOGSIZE, MAXOPBLOCKS. lia.
  - apply NoDup_nil_2.
  - intros b Hb. by apply elem_of_nil in Hb.
Qed.

Lemma demo_txn_wp :
  wp demo_txn (fun _ s' => store 1 0 demo_pr demo_V {[50 := 1%nat]} ∅ s' /\ log_ok 1 [50] (lg s') /\
    disk s' = ∅ /\ l_start (lg s') = 2 /\ l_outstanding (lg s') = 1 /\ l_committing (lg s') = 0) (demo_boot ∅).
Proof.
  generalize (demo_booted ∅ empty_sized). generalize (demo_boot ∅). intros s0 (Hb & Ed & El).
  pose proof demo_wakeups as Hw.
  unfold demo_txn. apply wp_bind. eapply wp_eq.
  { apply (begin_op_eq 0 demo_pr ∅ s0 Hw).
    - pose proof (st_idle _ _ _ _ _ _ _ Hb) as Hi. by rewrite dom_empty_L in Hi.
    - by rewrite El.
    - rewrite El. cbv. discriminate. }
  rewrite El. change (with_l_outstanding _ demo_log) with (with_l_outstanding 1 demo_log).
  set (s1 := with_lg _ (touch s0)).
  assert (store 1 0 demo_pr (dblock ∅) ∅ ∅ s1) as Hs1.
  { rewrite <- Ed at 1. apply store_lg, store_touch. exact Hb. }
  assert (lg s1 = with_l_outstanding 1 demo_log) as El1 by reflexivity.
  assert (disk s1 = ∅) as Ed1 by (rewrite <- Ed; reflexivity). clearbody s1.
  apply wp_bind. eapply wp_mono; [apply (bread_wp 1 0 demo_pr _ ∅ ∅ 50 s1 Hw Hs1)|].
  { split; [done|]. by vm_compute. } { done. } { done. } { right. rewrite map_size_empty. unfold NBUF. lia. }
  intros b s2 (_ & Hs2 & Ho2). cbn [default] in Hs2. apply wp_bind. eapply wp_mono.
  { apply (bdata_set_wp 1 0 demo_pr _ _ _ b 50 _ s2 Hs2 (lookup_insert_eq _ _ _)).
    rewrite set32_length; rewrite ?empty_sized; unfold BSIZE; lia. }
  intros _ s3 [Hs3 Ho3]. cbv beta in Hs3. pose proof (outer_lg _ _ Ho3) as El3. rewrite (outer_lg _ _ Ho2), El1 in El3.
  apply wp_bind. eapply wp_mono.
  { eapply (log_write_wp 1 0 demo_pr _ _ _ [] b 50 1 s3 Hs3); rewrite ?El3;
      [exact demo_log_ok|apply lookup_insert_eq|apply lookup_insert_eq|done| |by vm_compute..].
    unfold in_log. cbv. by intros [_ Hx]. }
  rewrite decide_False by apply not_elem_of_nil. unfold record_block.
  rewrite decide_False by apply not_elem_of_nil. rewrite El3.
  intros _ s4 (Hs4 & Hl4 & Ho4 & Hst & Hout & Hcom & _). eapply wp_mono.
  { eapply (brelse_wp 1 0 demo_pr _ _ _ b 50 2 s4 Hs4); [apply lookup_insert_eq|apply lookup_insert_eq|done]. }
  intros _ s5 [Hs5 Ho5]. rewrite (outer_lg _ _ Ho5). split; [|split; [exact Hl4|]].
  - rewrite delete_insert_eq, delete_empty in Hs5. unfold unref in Hs5. rewrite !insert_insert_eq, lookup_insert_eq in Hs5.
    exact Hs5.
  - rewrite (outer_disk _ _ Ho5), (outer_disk _ _ Ho4). change (disk (with_lg _ s3)) with (disk s3).
    rewrite (outer_disk _ _ Ho3), (outer_disk _ _ Ho2). split; [exact Ed1|]. split; [exact Hst|]. split; [exact Hout|exact Hcom].
Qed.

Lemma demo_sized_V bn : bn <> 50 -> demo_V bn = dblock ∅ bn.
Proof. apply setv_ne. Qed.

Lemma demo_is_ready :
  ready 1 0 demo_pr demo_V {[50 := 1%nat]} [50] demo_ready /\ disk demo_ready = ∅ /\
  l_start (lg demo_ready) = 2 /\ l_outstanding (lg demo_ready) = 1 /\ l_committing (lg demo_ready) = 0.
Proof.
  destruct (wp_state _ _ _ demo_txn_wp) as (a & _ & Hs & Hl & Hd & Hst & Hout & Hcom).
  fold demo_ready in Hs, Hl, Hd, Hst, Hout, Hcom. split; [|split_and!; assumption]. split; [exact Hs|exact Hl| | |].
  - intros bn n [<- <-]%lookup_singleton_Some. lia.
  - rewrite map_size_singleton. unfold NBUF. lia.
  - intros b ->%list_elem_of_singleton. by eexists.
Qed.

#[local] Opaque end_op initlog demo_ready demo_boot.

(** The transaction of [demo_txn], and a crash just after the header was written. *)
Lemma end_op_crash_safe_witness :
  exists s' ws, end_op demo_ready = Ok tt s' /\ dwrites s' = dwrites demo_ready ++ ws /\
    dblock (disk s') 50 = demo_V 50 /\
    forall ws1 ws2, ws = ws1 ++ ws2 -> length ws1 = 2%nat -> disk_sized (apply_writes ws1 ∅) ->
      exists t', initlog 1 (with_sb_logstart 2 superblock0) (demo_boot (apply_writes ws1 ∅)) = Ok tt t' /\
        dblock (disk t') 50 = demo_V 50.
Proof.
  destruct demo_is_ready as (Hr & Hd & Hst & Hout & Hcom).
  destruct (end_op_crash_safe 1 0 demo_pr demo_V {[50 := 1%nat]} [50] demo_ready) as
    (s' & ws & E & Hdw & _ & _ & _ & _ & Hnew & Hcrash).
  - exact demo_wakeups.
  - exact Hr.
  - exact Hout.
  - exact Hcom.
  - intros bn Hbn. rewrite Hd. apply demo_sized_V. intros ->. apply Hbn. by left.
  - rewrite Hd. by vm_compute.
  - assert (~ in_log (l_start (lg demo_ready)) 50) as Hnl.
    { rewrite Hst. unfold in_log, LOGSIZE, MAXOPBLOCKS. lia. }
    exists s', ws. split; [exact E|]. split; [exact Hdw|]. split; [exact (Hnew 50 Hnl)|].
    intros ws1 ws2 Ews Hlen Hsz. destruct (demo_booted _ Hsz) as (Hb & Hbd & Hbl).
    destruct (Hcrash ws1 ws2 0%nat demo_pr (demo_boot (apply_writes ws1 ∅)) 1 (with_sb_logstart 2 superblock0) Ews Hb)
      as (t' & Et & _ & Hrec).
    + by rewrite Hbd, Hd.
    + reflexivity.
    + by rewrite Hst.
    + by rewrite Hbl.
    + exists t'. split; [exact Et|]. rewrite (Hrec 50 Hnl), Hlen. reflexivity.
Defined.

Lemma demo_idle : idle 0 demo_pr ∅ (demo_boot ∅) /\ exists o, ring o (bufs (demo_boot ∅)).
Proof.
  destruct (demo_booted ∅ empty_sized) as ([Hi Hr _] & _). rewrite dom_empty_L in Hi. by split.
Qed.

#[local] Opaque bget bread bwrite brelse log_write.

Lemma bget_correct_witness : exists o, ring o (bufs (demo_boot ∅)) /\
  match find (fun i => is_block 1 50 (getb (bufs (demo_boot ∅)) i)) o,
        find (fun i => b_refcnt (getb (bufs (demo_boot ∅)) i) =? 0) (reverse o) with
  | Some b, _ => b ∉ (∅ : gset nat) -> exists s', bget 1 50 (demo_boot ∅) = Ok b s' /\
      idle 0 demo_pr ({[b]} ∪ ∅) s' /\
      body s' = body (upd_buf b (fun x => with_b_refcnt (u32 (b_refcnt x + 1)) x) (demo_boot ∅))
  | None, Some b => b ∉ (∅ : gset nat) -> exists s', bget 1 50 (demo_boot ∅) = Ok b s' /\
      idle 0 demo_pr ({[b]} ∪ ∅) s' /\
      body s' = body (upd_buf b (fun x =>
        with_b_refcnt 1 (with_b_valid 0 (with_b_blockno 50 (with_b_dev 1 x)))) (demo_boot ∅))
  | None, None => exists s', bget 1 50 (demo_boot ∅) = Panic "bget: no buffers" s'
  end.
Proof.
  destruct demo_idle as [Hi [o Hr]]. exists o. split; [exact Hr|].
  exact (bget_correct 0 demo_pr ∅ o 1 50 (demo_boot ∅) demo_wakeups Hi Hr).
Defined.

Lemma buffer_cache_correct_witness :
  exists b s', bread 1 50 (demo_boot ∅) = Ok b s' /\ b_data (getb (bufs s') b) = dblock ∅ 50.
Proof.
  destruct (demo_booted ∅ empty_sized) as (Hb & Hd & _). unfold booted in Hb. rewrite Hd in Hb.
  destruct (buffer_cache_correct 1 0 demo_pr (dblock ∅) ∅ ∅ (demo_boot ∅) demo_wakeups Hb) as (Hread & _).
  destruct (Hread 50) as (b & s' & E & _ & Hx & _).
  - split; [done|]. by vm_compute.
  - done.
  - done.
  - right. rewrite map_size_empty. unfold NBUF. lia.
  - exists b, s'. split; [exact E|exact Hx].
Defined.

(** Block 50 has been read in a transaction. *)
Definition demo_read : K nat := (begin_op;; bread 1 50)%M.

Lemma demo_read_wp :
  wp demo_read (fun b s' => store 1 0 demo_pr (dblock ∅) {[50 := 1%nat]} {[b := 50]} s' /\
    lg s' = with_l_outstanding 1 demo_log) (demo_boot ∅).
Proof.
  generalize (demo_booted ∅ empty_sized). generalize (demo_boot ∅). intros s0 (Hb & Ed & El).
  pose proof demo_wakeups as Hw. unfold demo_read. apply wp_bind. eapply wp_eq.
  { apply (begin_op_eq 0 demo_pr ∅ s0 Hw).
    - pose proof (st_idle _ _ _ _ _ _ _ Hb) as Hi. by rewrite dom_empty_L in Hi.
    - by rewrite El.
    - rewrite El. cbv. discriminate. }
  rewrite El. set (s1 := with_lg _ (touch s0)).
  assert (store 1 0 demo_pr (dblock ∅) ∅ ∅ s1) as Hs1.
  { rewrite <- Ed at 1. apply store_lg, store_touch. exact Hb. }
  assert (lg s1 = with_l_outstanding 1 demo_log) as El1 by reflexivity. clearbody s1.
  eapply wp_mono; [apply (bread_wp 1 0 demo_pr _ ∅ ∅ 50 s1 Hw Hs1)|].
  { split; [done|]. by vm_compute. } { done. } { done. } { right. rewrite map_size_empty. unfold NBUF. lia. }
  intros b s2 (_ & Hs2 & Ho2). split; [exact Hs2|]. by rewrite (outer_lg _ _ Ho2).
Qed.

Lemma log_write_correct_witness :
  exists b s', log_write b (state_of (demo_read (demo_boot ∅))) = Ok tt s' /\ log_ok 1 [50] (lg s').
Proof.
  destruct (wp_state _ _ _ demo_read_wp) as (b & _ & Hs & El). exists b.
  pose proof (log_write_correct 1 0 demo_pr (dblock ∅) {[50 := 1%nat]} {[b := 50]} [] b 50 1
    (state_of (demo_read (demo_boot ∅))) Hs) as Hlog.
  rewrite El in Hlog. specialize (Hlog demo_log_ok (lookup_singleton_eq _ _) (lookup_singleton_eq _ _) ltac:(done)).
  destruct Hlog as (s' & E & _ & Hl & _).
  - unfold in_log. cbv. by intros [_ Hx].
  - by vm_compute.
  - exists s'. split; [exact E|exact Hl].
Defined.

#[local] Opaque virtio_disk_rw.

