(* ===== verification/FsTxn.v ===== *)
(** * Blocks inside a transaction

    The file system reads and changes blocks between [begin_op] and [end_op].  [txn] is the
    state of such a transaction: the contents [V] of the blocks, the blocks [blks] it has
    changed so far, each logged and pinned, and the buffers [hs] the process holds, the
    latest first.  [tx_bread], [tx_modify] and [tx_brelse] are all that the functions of
    kernel/fs.c need to know of the buffer cache and the log. *)

From S2P Require Import Prelude Riscv Memory Bytes State Spinlock Sched SchedSpec Sleeplock SleepSpec.
From S2P Require Import Bio BioRing BioSpec Log LogDisk LogSpec LogTxn.

(** ** References *)

Definition pins (blks : list Z) : gmap Z nat := gset_to_gmap 1%nat (list_to_set blks).
Definition refs (blks : list Z) (bns : list Z) : gmap Z nat := foldr ref (pins blks) bns.

Lemma pins_lookup blks bn : pins blks !! bn = if decide (bn ∈ blks) then Some 1%nat else None.
Proof.
  unfold pins. rewrite lookup_gset_to_gmap. destruct (decide (bn ∈ blks)).
  - by rewrite option_guard_True by by apply elem_of_list_to_set.
  - by rewrite option_guard_False by by rewrite elem_of_list_to_set.
Qed.

Lemma refs_lookup blks bns bn : NoDup bns ->
  refs blks bns !! bn =
    if decide (bn ∈ bns) then Some (if decide (bn ∈ blks) then 2 else 1)%nat
    else if decide (bn ∈ blks) then Some 1%nat else None.
Proof.
  induction 1 as [|b bns Hb _ IH]; [apply pins_lookup|]. cbn [refs foldr]. fold (refs blks bns). destruct (decide (bn = b)) as [->|Hne].
  - rewrite decide_True by by left. unfold ref. rewrite lookup_insert_eq, IH, (decide_False (P := b ∈ bns)) by done. by destruct (decide (b ∈ blks)).
  - rewrite ref_ne, IH by done. destruct (decide (bn ∈ bns)).
    + by rewrite (decide_True (P := bn ∈ b :: bns)) by by right.
    + by rewrite (decide_False (P := bn ∈ b :: bns)) by (intros [?|?]%elem_of_cons; done).
Qed.

Lemma refs_size blks bns : NoDup blks -> (size (refs blks bns) <= length blks + length bns)%nat.
Proof.
  intros Hnd. induction bns as [|b bns IH]; cbn [refs foldr length].
  - unfold pins. rewrite <- size_dom, dom_gset_to_gmap, size_list_to_set by done. lia.
  - fold (refs blks bns). unfold ref. rewrite map_size_insert. destruct (refs blks bns !! b); cbn; lia.
Qed.

(** A pin commutes with the references held. *)
Lemma refs_pin blks bns bn : bn ∉ blks -> ref bn (refs blks bns) = refs (blks ++ [bn]) bns.
Proof.
  intros Hb. induction bns as [|b bns IH]; cbn [refs foldr].
  - apply map_eq. intros b. unfold ref. destruct (decide (b = bn)) as [->|Hne].
    + rewrite lookup_insert_eq, !pins_lookup, decide_False, decide_True by set_solver. done.
    + rewrite lookup_insert_ne, !pins_lookup by done. by destruct (decide (b ∈ blks)), (decide (b ∈ blks ++ [bn])); set_solver.
  - fold (refs blks bns) (refs (blks ++ [bn]) bns). rewrite <- IH.
    destruct (decide (b = bn)) as [->|Hne]; [done|by apply ref_comm].
Qed.

(** ** Transactions *)

(** A state apart from the log, the buffers and what they leave out. *)
Definition rest (s : kst) : kst := outer (with_lg log0 s).

Lemma outer_rest s s' : outer s' = outer s -> rest s' = rest s.
Proof. intros E. exact (f_equal (with_lg log0) E). Qed.
Lemma rest_disk s s' : rest s' = rest s -> disk s' = disk s.
Proof. intros E. exact (f_equal disk E). Qed.
Lemma rest_sb s s' : rest s' = rest s -> sb s' = sb s.
Proof. intros E. exact (f_equal sb E). Qed.

Section txn.
Context `{environment} `{patience} `{disk_laws}.
Context (Hw : (0 < wakeups)%nat) (dv : Z) (p : nat) (pr : proc).

(** The log starts at block [start] and has room for [cap] blocks.  With [cap] zero nothing can be changed,
    and no operation need be open: this is the state in which [fileread] reads. *)
Record txn (start : Z) (cap : nat) (V : Z -> list Z) (blks : list Z) (hs : list (nat * Z)) (s : kst) : Prop := {
  tx_store : store dv p pr V (refs blks hs.*2) (list_to_map hs) s;
  tx_bufs : NoDup hs.*1;
  tx_held : NoDup hs.*2;
  tx_log : log_ok dv blks (lg s);
  tx_start : l_start (lg s) = start;
  tx_cap : Z.of_nat cap <= l_size (lg s) - 1 /\ l_size (lg s) <= LOGSIZE;
  tx_open : (0 < cap)%nat -> 1 <= l_outstanding (lg s) /\ l_committing (lg s) = 0;
  tx_clean : forall bn, bn ∉ blks -> V bn = dblock (disk s) bn
}.

Context (start : Z) (cap : nat).

Lemma tx_size V blks hs s bn : txn start cap V blks hs s -> length (V bn) = Z.to_nat BSIZE.
Proof. intros T. apply (c_size _ _ _ _ _ _ (st_blocks _ _ _ _ _ _ _ (tx_store _ _ _ _ _ _ T))). Qed.

(** Reading a block. *)
Lemma tx_bread V blks hs bn s :
  txn start cap V blks hs s -> block_ok bn -> bn ∉ hs.*2 -> bn ∈ blks \/ (length blks + length hs < NBUF)%nat ->
  wp (bread dv bn) (fun b s' => txn start cap V blks ((b, bn) :: hs) s' /\ rest s' = rest s) s.
Proof.
  intros T Hok Hnh Hroom. pose proof T as [Hs Hb Hh Hl Hst Hc Ho Hcl].
  assert (refs blks hs.*2 !! bn = if decide (bn ∈ blks) then Some 1%nat else None) as Er
    by by rewrite refs_lookup, decide_False.
  eapply wp_mono; [apply (bread_wp dv p pr V (refs blks hs.*2) (list_to_map hs) bn); try done|].
  - rewrite Er. destruct (decide _); cbn; lia.
  - intros b E. apply Hnh. apply elem_of_list_to_map_2 in E. by apply (list_elem_of_fmap_2 snd) in E.
  - destruct Hroom as [Hin|Hlt]; [left; rewrite Er, decide_True by done; by eexists|right].
    pose proof (refs_size blks hs.*2 (lo_nodup _ _ _ Hl)) as Hsz. rewrite length_fmap in Hsz. lia.
  - intros b s' (Hnb & Hs' & E). split; [|by apply outer_rest]. pose proof (outer_lg _ _ E) as El.
    split; cbn [fmap list_fmap list_to_map]; rewrite ?El; try done.
    + constructor; [|done]. by apply not_elem_of_list_to_map_2 in Hnb.
    + by constructor.
    + intros b' Hb'. rewrite (outer_disk _ _ E). by apply Hcl.
Qed.

Lemma tx_bdata V blks hs b bn s (Q : list Z -> kst -> Prop) :
  txn start cap V blks hs s -> (b, bn) ∈ hs -> Q (V bn) s -> wp (bdata b) Q s.
Proof.
  intros T Hin HQ. eapply bdata_wp; [apply T| |done]. by apply elem_of_list_to_map_1; [apply T|].
Qed.

(** Changing a block and logging it. *)
Lemma tx_modify V blks hs b bn g s :
  txn start cap V blks hs s -> (b, bn) ∈ hs -> length (g (V bn)) = Z.to_nat BSIZE -> ~ in_log start bn ->
  (length blks < cap)%nat ->
  wp (bdata_set b g;; log_write b)%M (fun _ s' =>
    txn start cap (setv V bn (g (V bn))) (record_block bn blks) hs s' /\ rest s' = rest s) s.
Proof.
  intros T Hin Hg Hnl Hroom. pose proof T as [Hs Hb Hh Hl Hst Hc Ho Hcl].
  assert ((list_to_map hs : gmap nat Z) !! b = Some bn) as Hlk by by apply elem_of_list_to_map_1.
  assert (bn ∈ hs.*2) as Hin2 by by apply (list_elem_of_fmap_2 snd) in Hin.
  apply wp_bind. eapply wp_mono; [by eapply bdata_set_wp|]. intros [] s1 [Hs1 E1].
  pose proof (outer_lg _ _ E1) as El. pose proof (lo_n _ _ _ Hl) as Hn.
  assert (refs blks hs.*2 !! bn = Some (if decide (bn ∈ blks) then 2 else 1)%nat) as Er
    by by rewrite refs_lookup, decide_True.
  eapply wp_mono; [eapply (log_write_wp dv p pr); [exact Hs1|by rewrite El|exact Hlk|exact Er|..]|].
  - destruct (decide _); lia.
  - by rewrite El, Hst.
  - rewrite El. apply Ho. lia.
  - rewrite El. lia.
  - rewrite El, Hn. lia.
  - intros [] s2 (Hs2 & Hl2 & E2 & L1 & L2 & L3 & L4). rewrite El in L1, L2, L3, L4.
    assert (rest s2 = rest s) as Er2.
    { transitivity (rest s1); [exact (f_equal (with_lg log0) E2)|by apply outer_rest]. }
    split; [|done]. split; rewrite ?L1, ?L2, ?L3, ?L4; try done.
    + unfold record_block. destruct (decide (bn ∈ blks)) as [?|Hnb]; [done|].
      rewrite <- refs_pin by done. unfold ref. rewrite Er. by destruct (decide (bn ∈ blks)).
    + intros b' Hb'. rewrite (rest_disk _ _ Er2). unfold record_block in Hb'.
      assert (b' <> bn /\ b' ∉ blks) as [Hne Hnb] by (destruct (decide (bn ∈ blks)); set_solver).
      rewrite setv_ne by done. by apply Hcl.
Qed.

(** Giving a block back. *)
Lemma tx_brelse V blks b bn hs s :
  txn start cap V blks ((b, bn) :: hs) s ->
  wp (brelse b) (fun _ s' => txn start cap V blks hs s' /\ rest s' = rest s) s.
Proof.
  intros T. pose proof T as [Hs Hb Hh Hl Hst Hc Ho Hcl]. cbn in Hs, Hb, Hh.
  apply NoDup_cons in Hb as [Hb1 Hb2]. apply NoDup_cons in Hh as [Hh1 Hh2].
  assert (refs blks hs.*2 !! bn = if decide (bn ∈ blks) then Some 1%nat else None) as Er
    by by rewrite refs_lookup, decide_False.
  eapply wp_mono; [apply (brelse_ref dv p pr V (refs blks hs.*2) (list_to_map hs) b bn); [exact Hs|..]|].
  - by apply not_elem_of_list_to_map_1.
  - rewrite Er. by destruct (decide _).
  - rewrite Er. destruct (decide (bn ∈ blks)) as [?|Hnb]; [done|]. intros _. by apply Hcl.
  - intros [] s' [Hs' E]. split; [|by apply outer_rest]. split; rewrite ?(outer_lg _ _ E); try done.
    intros b' Hb'. rewrite (outer_disk _ _ E). by apply Hcl.
Qed.

(** The two, and what follows. *)
Lemma tx_update {A} V blks hs b bn g s (k : K A) Q :
  txn start cap V blks hs s -> (b, bn) ∈ hs -> length (g (V bn)) = Z.to_nat BSIZE -> ~ in_log start bn ->
  (length blks < cap)%nat ->
  (forall s', txn start cap (setv V bn (g (V bn))) (record_block bn blks) hs s' -> rest s' = rest s -> wp k Q s') ->
  wp (bdata_set b g;; log_write b;; k)%M Q s.
Proof.
  intros T Hin Hg Hnl Hroom Hk. pose proof (tx_modify V blks hs b bn g s T Hin Hg Hnl Hroom) as Hm.
  unfold wp, bind in *. destruct (bdata_set b g s) as [[] s1| | | |]; try done.
  destruct (log_write b s1) as [[] s2| | | |]; try done. destruct Hm as [Hm1 Hm2]. exact (Hk s2 Hm1 Hm2).
Qed.

(** A buffer that is changed, logged and given back. *)
Lemma tx_finish {A} V blks hs b bn g s (k : K A) Q :
  txn start cap V blks ((b, bn) :: hs) s -> length (g (V bn)) = Z.to_nat BSIZE -> ~ in_log start bn ->
  (length blks < cap)%nat ->
  (forall s', txn start cap (setv V bn (g (V bn))) (record_block bn blks) hs s' -> rest s' = rest s -> wp k Q s') ->
  wp (bdata_set b g;; log_write b;; brelse b;; k)%M Q s.
Proof.
  intros T Hg Hnl Hroom Hk. eapply tx_update; [exact T|by left|done|done|done|]. intros s1 T1 E1.
  apply wp_bind. eapply wp_mono; [eapply tx_brelse; exact T1|]. intros [] s2 [T2 E2]. apply Hk; [done|by rewrite E2].
Qed.

End txn.
