(* ===== verification/Fs.v ===== *)
(** * The file system: kernel/fs.c

    Blocks, inodes, file contents, directories and path names.  A block's contents are a
    list of bytes; a path or a name is the list of characters of the C string. *)

From S2P Require Import Prelude Riscv Memory CString Bytes State Spinlock Sched Sleeplock.
From S2P Require Import Kalloc Vm Uart Printf Console Bio Log.

(** ** Layout (kernel/fs.h, kernel/stat.h) *)

Definition T_DIR : Z := 1.
Definition T_FILE : Z := 2.
Definition T_DEVICE : Z := 3.

Definition IBLOCK (i : Z) (sb : superblock) : Z := u32 (i / IPB + sb_inodestart sb).
Definition BBLOCK (b : Z) (sb : superblock) : Z := u32 (b / BPB + sb_bmapstart sb).

(** Where inode [inum] lies in its block. *)
Definition di_off (inum : Z) : Z := (inum mod IPB) * 64.

(** [struct dinode] in a block, at offset [o]. *)
Definition dinode_addrs (d : list Z) (o : Z) : list Z :=
  map (fun k => get32 d (o + 12 + 4 * Z.of_nat k)) (seq 0 13).
Definition set_addrs (d : list Z) (o : Z) (addrs : list Z) : list Z :=
  patch d (o + 12) (concat (map (unle 4) addrs)).

(** Copy the disk part of an inode out of a block, and into one. *)
Definition inode_of (d : list Z) (o : Z) (ip : inode) : inode :=
  Inode (i_dev ip) (i_inum ip) (i_ref ip) (i_valid ip)
    (i16 (get16 d o)) (i16 (get16 d (o + 2))) (i16 (get16 d (o + 4))) (i16 (get16 d (o + 6)))
    (get32 d (o + 8)) (dinode_addrs d o).
Definition dinode_of (ip : inode) (d : list Z) (o : Z) : list Z :=
  let d := set16 d o (i_type ip) in
  let d := set16 d (o + 2) (i_major ip) in
  let d := set16 d (o + 4) (i_minor ip) in
  let d := set16 d (o + 6) (i_nlink ip) in
  let d := set32 d (o + 8) (i_size ip) in
  set_addrs d o (i_addrs ip).

Definition superblock_of (d : list Z) : superblock :=
  Superblock (get32 d 0) (get32 d 4) (get32 d 8) (get32 d 12) (get32 d 16) (get32 d 20)
    (get32 d 24) (get32 d 28).

(** [struct dirent]: an inode number and a name of [DIRSIZ] bytes. *)
Definition DE_SIZE : Z := 16.
Definition de_inum (d : list Z) : Z := get16 d 0.
Definition de_name (d : list Z) : list Z := slice 2 DIRSIZ d.

(** Local variables that are passed by address lie in the kernel stack region. *)
Definition local_de : Z := KSTACK 0.

Section fs.
Context `{image} `{environment} `{patience} `{disk_driver}.

(** ** Blocks *)

Definition readsb (dev : Z) : K unit :=
  bp <- bread (u32 dev) 1;;
  d <- bdata bp;;
  modify (with_sb (superblock_of d));;
  brelse bp.

Definition fsinit (dev : Z) : K unit :=
  readsb dev;;
  s <- gets sb;;
  if negb (sb_magic s =? FSMAGIC) then panic "invalid file system" else
  initlog dev s.

Definition bzero (dev bno : Z) : K unit :=
  bp <- bread (u32 dev) (u32 bno);;
  bdata_set bp (fun _ => replicate (Z.to_nat BSIZE) 0);;
  log_write bp;;
  brelse bp.

Definition bit_mask (bi : Z) : Z := Z.shiftl 1 (bi mod 8).
Definition bit_is_free (d : list Z) (bi : Z) : bool :=
  Z.land (get8 d (bi / 8)) (bit_mask bi) =? 0.

(** The inner loop of [balloc]: the first free bit of a bitmap block, among the first
    [limit] ones. *)
Definition find_free (d : list Z) (limit : Z) : option Z :=
  hd_error (filter (fun bi => bit_is_free d bi = true)
    (map Z.of_nat (seq 0 (Z.to_nat (Z.min BPB limit))))).

Definition balloc (dev : Z) : K Z :=
  s <- gets sb;;
  r <- searchM (map (fun k => Z.of_nat k * BPB) (seq 0 (Z.to_nat ((sb_size s + BPB - 1) / BPB))))
    (fun b =>
      bp <- bread dev (BBLOCK b s);;
      d <- bdata bp;;
      match find_free d (sb_size s - b) with
      | Some bi =>
          bdata_set bp (fun d => set8 d (bi / 8) (Z.lor (get8 d (bi / 8)) (bit_mask bi)));;
          log_write bp;;
          brelse bp;;
          bzero (i32 dev) (b + bi);;
          ret (Some (b + bi))
      | None => brelse bp;; ret None
      end);;
  match r with
  | Some b => ret b
  | None => printf (chars "balloc: out of blocks" ++ newline) [];; ret 0
  end.

Definition bfree (dev b : Z) : K unit :=
  s <- gets sb;;
  bp <- bread (u32 dev) (BBLOCK b s);;
  let bi := b mod BPB in
  let m := bit_mask bi in
  d <- bdata bp;;
  if Z.land (get8 d (bi / 8)) m =? 0 then panic "freeing free block" else
  bdata_set bp (fun d => set8 d (bi / 8) (Z.land (get8 d (bi / 8)) (Z.lnot m)));;
  log_write bp;;
  brelse bp.

(** ** Inodes *)

Definition iinit : K unit :=
  initlock L_itable "itable";;
  forM (seq 0 NINODE) (fun i => initsleeplock (SL_inode i) "inode").

(** The loop of [iget]: an entry for the inode, or the first empty one. *)
Fixpoint iget_loop (l : list nat) (dev inum : Z) (empty : option nat) : K (nat + option nat) :=
  match l with
  | [] => ret (inr empty)
  | i :: l =>
      ip <- ipget i;;
      if (i_ref ip >? 0) && (i_dev ip =? dev) && (i_inum ip =? inum) then
        ipset i (fun ip => with_i_ref (i_ref ip + 1) ip);;
        ret (inl i)
      else
        let empty := match empty with
                     | None => if i_ref ip =? 0 then Some i else None
                     | Some e => Some e
                     end in
        iget_loop l dev inum empty
  end.

Definition iget (dev inum : Z) : K nat :=
  acquire L_itable;;
  r <- iget_loop (seq 0 NINODE) dev inum None;;
  match r with
  | inl i => release L_itable;; ret i
  | inr None => panic "iget: no inodes"
  | inr (Some i) =>
      ipset i (with_i_dev dev);;
      ipset i (with_i_inum inum);;
      ipset i (with_i_ref 1);;
      ipset i (with_i_valid 0);;
      release L_itable;;
      ret i
  end.

(** [None] for a null pointer. *)
Definition ialloc (dev type : Z) : K (option nat) :=
  s <- gets sb;;
  r <- searchM (map Z.of_nat (seq 1 (Z.to_nat (sb_ninodes s) - 1)))
    (fun inum =>
      bp <- bread dev (IBLOCK inum s);;
      d <- bdata bp;;
      let o := di_off inum in
      if i16 (get16 d o) =? 0 then
        bdata_set bp (fun d => set16 (patch d o (replicate 64 0)) o type);;
        log_write bp;;
        brelse bp;;
        i <- iget dev inum;;
        ret (Some i)
      else brelse bp;; ret None);;
  match r with
  | Some i => ret (Some i)
  | None => printf (chars "ialloc: no inodes" ++ newline) [];; ret None
  end.

Definition iupdate (i : nat) : K unit :=
  s <- gets sb;;
  ip <- ipget i;;
  bp <- bread (i_dev ip) (IBLOCK (i_inum ip) s);;
  ip <- ipget i;;
  bdata_set bp (fun d => dinode_of ip d (di_off (i_inum ip)));;
  log_write bp;;
  brelse bp.

Definition idup (i : nat) : K nat :=
  acquire L_itable;;
  ipset i (fun ip => with_i_ref (i_ref ip + 1) ip);;
  release L_itable;;
  ret i.

Definition ilock (i : nat) : K unit :=
  ip <- ipget i;;
  if i_ref ip <? 1 then panic "ilock" else
  acquiresleep (SL_inode i);;
  ip <- ipget i;;
  if i_valid ip =? 0 then
    s <- gets sb;;
    bp <- bread (i_dev ip) (IBLOCK (i_inum ip) s);;
    d <- bdata bp;;
    ipset i (fun ip => inode_of d (di_off (i_inum ip)) ip);;
    brelse bp;;
    ipset i (with_i_valid 1);;
    ip <- ipget i;;
    if i_type ip =? 0 then panic "ilock: no type" else ret tt
  else ret tt.

Definition iunlock (i : nat) : K unit :=
  h <- holdingsleep (SL_inode i);;
  if negb h then panic "iunlock" else
  ip <- ipget i;;
  if i_ref ip <? 1 then panic "iunlock" else
  releasesleep (SL_inode i).

Definition addr_get (i : nat) (k : Z) : K Z :=
  ip <- ipget i;; ret (default 0 (i_addrs ip !! Z.to_nat k)).
Definition addr_set (i : nat) (k v : Z) : K unit :=
  ipset i (fun ip => with_i_addrs (<[Z.to_nat k := v]> (i_addrs ip)) ip).

Definition itrunc (i : nat) : K unit :=
  ip <- ipget i;;
  forM (map Z.of_nat (seq 0 (Z.to_nat NDIRECT))) (fun k =>
    a <- addr_get i k;;
    if a =? 0 then ret tt else bfree (i32 (i_dev ip)) a;; addr_set i k 0);;
  a <- addr_get i NDIRECT;;
  (if a =? 0 then ret tt else
     bp <- bread (i_dev ip) a;;
     forM (map Z.of_nat (seq 0 (Z.to_nat NINDIRECT))) (fun j =>
       d <- bdata bp;;
       let aj := get32 d (4 * j) in
       if aj =? 0 then ret tt else bfree (i32 (i_dev ip)) aj);;
     brelse bp;;
     a <- addr_get i NDIRECT;;
     bfree (i32 (i_dev ip)) a;;
     addr_set i NDIRECT 0);;
  ipset i (with_i_size 0);;
  iupdate i.

Definition iput (i : nat) : K unit :=
  acquire L_itable;;
  ip <- ipget i;;
  (if (i_ref ip =? 1) && negb (i_valid ip =? 0) && (i_nlink ip =? 0) then
     acquiresleep (SL_inode i);;
     release L_itable;;
     itrunc i;;
     ipset i (with_i_type 0);;
     iupdate i;;
     ipset i (with_i_valid 0);;
     releasesleep (SL_inode i);;
     acquire L_itable
   else ret tt);;
  ipset i (fun ip => with_i_ref (i_ref ip - 1) ip);;
  release L_itable.

Definition iunlockput (i : nat) : K unit := iunlock i;; iput i.

(** ** File contents *)

Definition bmap (i : nat) (bn : Z) : K Z :=
  ip <- ipget i;;
  if bn <? NDIRECT then
    addr <- addr_get i bn;;
    if addr =? 0 then
      addr <- balloc (i_dev ip);;
      if addr =? 0 then ret 0 else addr_set i bn addr;; ret addr
    else ret addr
  else
  let bn := bn - NDIRECT in
  if bn <? NINDIRECT then
    addr <- addr_get i NDIRECT;;
    addr <- (if addr =? 0 then
               addr <- balloc (i_dev ip);;
               (if addr =? 0 then ret tt else addr_set i NDIRECT addr);;
               ret addr
             else ret addr);;
    if addr =? 0 then ret 0 else
    bp <- bread (i_dev ip) addr;;
    d <- bdata bp;;
    let addr := get32 d (4 * bn) in
    addr <- (if addr =? 0 then
               addr <- balloc (i_dev ip);;
               (if addr =? 0 then ret tt
                else bdata_set bp (fun d => set32 d (4 * bn) addr);; log_write bp);;
               ret addr
             else ret addr);;
    brelse bp;;
    ret addr
  else panic "bmap: out of range".

(** [struct stat]. *)
Record stat := Stat { st_dev : Z; st_ino : Z; st_type : Z; st_nlink : Z; st_size : Z }.

Definition stati (i : nat) : K stat :=
  ip <- ipget i;;
  ret (Stat (i32 (i_dev ip)) (i_inum ip) (i_type ip) (i_nlink ip) (i_size ip)).

(** A transfer of [n] bytes touches at most [n / BSIZE + 2] blocks. *)
Definition rw_fuel (n : Z) : nat := Z.to_nat (n / BSIZE + 3).

Fixpoint readi_loop (fuel : nat) (i : nat) (user_dst : bool) (dst off n tot : Z) : K Z :=
  match fuel with
  | O => fun _ => NoFuel
  | S f =>
      if negb (tot <? n) then ret tot else
      addr <- bmap i (off / BSIZE);;
      if addr =? 0 then ret tot else
      ip <- ipget i;;
      bp <- bread (i_dev ip) addr;;
      let m := Z.min (n - tot) (BSIZE - off mod BSIZE) in
      d <- bdata bp;;
      r <- either_copyout user_dst dst (slice (off mod BSIZE) m d) m;;
      brelse bp;;
      if r =? -1 then ret (u32 (-1)) else
      readi_loop f i user_dst (dst +u m) (u32 (off + m)) n (u32 (tot + m))
  end.

Definition readi (i : nat) (user_dst : bool) (dst off n : Z) : K Z :=
  ip <- ipget i;;
  if (i_size ip <? off) || (u32 (off + n) <? off) then ret 0 else
  let n := if i_size ip <? u32 (off + n) then u32 (i_size ip - off) else n in
  tot <- readi_loop (rw_fuel n) i user_dst dst off n 0;;
  ret (i32 tot).

(** The loop of [writei]: the bytes written and the offset reached.  When the copy fails
    the block in the cache keeps what was copied before the failure. *)
Fixpoint writei_loop (fuel : nat) (i : nat) (user_src : bool) (src off n tot : Z) : K (Z * Z) :=
  match fuel with
  | O => fun _ => NoFuel
  | S f =>
      if negb (tot <? n) then ret (tot, off) else
      addr <- bmap i (off / BSIZE);;
      if addr =? 0 then ret (tot, off) else
      ip <- ipget i;;
      bp <- bread (i_dev ip) addr;;
      let m := Z.min (n - tot) (BSIZE - off mod BSIZE) in
      r <- either_copyin user_src src m;;
      bdata_set bp (fun d => patch d (off mod BSIZE) r.2);;
      if r.1 =? -1 then brelse bp;; ret (tot, off) else
      log_write bp;;
      brelse bp;;
      writei_loop f i user_src (src +u m) (u32 (off + m)) n (u32 (tot + m))
  end.

Definition writei (i : nat) (user_src : bool) (src off n : Z) : K Z :=
  ip <- ipget i;;
  if (i_size ip <? off) || (u32 (off + n) <? off) then ret (-1) else
  if MAXFILE * BSIZE <? u32 (off + n) then ret (-1) else
  r <- writei_loop (rw_fuel n) i user_src src off n 0;;
  ip <- ipget i;;
  (if i_size ip <? r.2 then ipset i (with_i_size r.2) else ret tt);;
  iupdate i;;
  ret (i32 r.1).

(** ** Directories *)

(** [strncmp] on two separate arrays. *)
Definition namecmp (s t : list Z) : Z :=
  strncmp (blit (blit ∅ 0 s) src_base t) 0 src_base DIRSIZ.

Definition readi_de (i : nat) (off : Z) (msg : string) : K (list Z) :=
  r <- readi i false local_de off DE_SIZE;;
  if negb (r =? DE_SIZE) then panic msg else
  load_bytes local_de (Z.to_nat DE_SIZE).

(** The offsets of the entries of a directory of [size] bytes. *)
Definition de_offsets (size : Z) : list Z :=
  map (fun k => Z.of_nat k * DE_SIZE) (seq 0 (Z.to_nat ((size + DE_SIZE - 1) / DE_SIZE))).

(** The inode and, for [*poff], the offset of its entry. *)
Definition dirlookup (dp : nat) (name : list Z) : K (option (nat * Z)) :=
  ip <- ipget dp;;
  if negb (i_type ip =? T_DIR) then panic "dirlookup not DIR" else
  searchM (de_offsets (i_size ip)) (fun off =>
    de <- readi_de dp off "dirlookup read";;
    if de_inum de =? 0 then ret None else
    if namecmp name (de_name de) =? 0 then
      ip <- ipget dp;;
      i <- iget (i_dev ip) (de_inum de);;
      ret (Some (i, off))
    else ret None).

(** The offset where [dirlink] stops: that of a free entry, or the end of the directory. *)
Definition dirlink_off (dp : nat) : K Z :=
  ip <- ipget dp;;
  r <- searchM (de_offsets (i_size ip)) (fun off =>
    de <- readi_de dp off "dirlink read";;
    if de_inum de =? 0 then ret (Some off) else ret None);;
  match r with
  | Some off => ret off
  | None => ret (DE_SIZE * ((i_size ip + DE_SIZE - 1) / DE_SIZE))
  end.

Definition dirlink (dp : nat) (name : list Z) (inum : Z) : K Z :=
  r <- dirlookup dp name;;
  match r with
  | Some (i, _) => iput i;; ret (-1)
  | None =>
      off <- dirlink_off dp;;
      de <- load_bytes local_de (Z.to_nat DE_SIZE);;
      store_bytes (local_de + 2) (strncpy_arr (de_name de) (name ++ [0]) DIRSIZ);;
      store_bytes local_de (unle 2 inum);;
      w <- writei dp false local_de (u32 off) DE_SIZE;;
      if negb (w =? DE_SIZE) then ret (-1) else ret 0
  end.

End fs.

(** ** Paths *)

Definition SLASH : Z := 47.

(** [while( *path == '/') path++]. *)
Fixpoint skip_slashes (path : list Z) : list Z :=
  match path with
  | c :: path' => if c =? SLASH then skip_slashes path' else path
  | [] => []
  end.

(** [while( *path != '/' && *path != 0) path++]: the characters passed, and the rest. *)
Fixpoint take_elem (path : list Z) : list Z * list Z :=
  match path with
  | c :: path' =>
      if (c =? SLASH) || (c =? 0) then ([], path)
      else let r := take_elem path' in (c :: r.1, r.2)
  | [] => ([], [])
  end.

(** The next path element goes into the array [name] of [DIRSIZ] bytes; [None] for the
    null pointer. *)
Definition skipelem (path name : list Z) : option (list Z * list Z) :=
  let path := skip_slashes path in
  match path with
  | [] => None
  | _ =>
      let (s, path) := take_elem path in
      let len := Z.of_nat (length s) in
      let name :=
        if len >=? DIRSIZ then patch name 0 (take (Z.to_nat DIRSIZ) s)
        else set8 (patch name 0 s) len 0 in
      Some (skip_slashes path, name)
  end.

Section paths.
Context `{image} `{environment} `{patience} `{disk_driver}.

(** The loop of [namex]: every round consumes a character of the path. *)
Fixpoint namex_loop (fuel : nat) (ip : nat) (path : list Z) (parent : bool) (name : list Z)
  : K (option nat * list Z) :=
  match fuel with
  | O => fun _ => NoFuel
  | S f =>
      match skipelem path name with
      | None =>
          if parent then iput ip;; ret (None, name) else ret (Some ip, name)
      | Some (path, name) =>
          ilock ip;;
          n <- ipget ip;;
          if negb (i_type n =? T_DIR) then iunlockput ip;; ret (None, name) else
          if parent && match path with [] => true | _ => false end
          then iunlock ip;; ret (Some ip, name) else
          r <- dirlookup ip name;;
          match r with
          | None => iunlockput ip;; ret (None, name)
          | Some (next, _) => iunlockput ip;; namex_loop f next path parent name
          end
      end
  end.

Definition namex (path : list Z) (parent : bool) (name : list Z) : K (option nat * list Z) :=
  ip <- (if hd 0 path =? SLASH then iget ROOTDEV ROOTINO
         else p <- curproc;; pr <- pget p;; c <- deref (p_cwd pr);; idup c);;
  namex_loop (S (length path)) ip path parent name.

Definition namei (path : list Z) : K (option nat) :=
  r <- namex path false (replicate (Z.to_nat DIRSIZ) 0);;
  ret r.1.

Definition nameiparent (path name : list Z) : K (option nat * list Z) := namex path true name.

End paths.
