(* ===== verification/FsAlloc.v ===== *)
(** * The block allocator of kernel/fs.c

    The bitmap on the disk as a set of blocks in use: [balloc] takes the lowest block that is
    not in the set and clears its contents, [bfree] takes a block out of the set. *)

From S2P Require Import Prelude Riscv Memory CString Bytes State Spinlock Sched SchedSpec Sleeplock SleepSpec.
From S2P Require Import Kalloc Vm Uart Printf PrintfSpec Console Bio BioRing BioSpec Log LogDisk LogSpec LogTxn FsTxn Fs.

Ltac blia := unfold BPB, BSIZE in *; lia.

(** ** Bits *)

Lemma bit_free_testbit d bi :
  0 <= bi -> bit_is_free d bi = negb (Z.testbit (get8 d (bi / 8)) (bi mod 8)).
Proof.
  intros Hb. unfold bit_is_free, bit_mask. pose proof (Z.mod_pos_bound bi 8). rewrite Z.shiftl_1_l.
  destruct (Z.testbit (get8 d (bi / 8)) (bi mod 8)) eqn:E; cbn [negb].
  - apply Z.eqb_neq. intros H0. apply (f_equal (fun x => Z.testbit x (bi mod 8))) in H0.
    rewrite Z.land_spec, E, Z.pow2_bits_true, Z.bits_0 in H0 by lia. done.
  - apply Z.eqb_eq. apply Z.bits_inj'. intros n Hn. rewrite Z.land_spec, Z.bits_0.
    destruct (decide (n = bi mod 8)) as [->|Hne]; [by rewrite E|]. rewrite Z.pow2_bits_false by lia. apply andb_false_r.
Qed.

(** The bit [bi] of a bitmap block set to [v]. *)
Definition put_bit (bi : Z) (v : bool) (d : list Z) : list Z :=
  set8 d (bi / 8) (if v then Z.lor (get8 d (bi / 8)) (bit_mask bi) else Z.land (get8 d (bi / 8)) (Z.lnot (bit_mask bi))).

Lemma get8_set8 d off v off' :
  0 <= off < Z.of_nat (length d) -> 0 <= off' -> get8 (set8 d off v) off' = if decide (off' = off) then u8 v else get8 d off'.
Proof.
  intros Ho Ho'. unfold get8, set8. destruct (decide (off' = off)) as [->|Hne].
  - pose proof (slice_patch_same d off (unle 1 v)) as E. rewrite unle_length in E. change (Z.of_nat 1) with 1 in E.
    rewrite E by lia. apply (le_unle 1).
  - f_equal. apply slice_patch_ne; rewrite ?unle_length; lia.
Qed.

Lemma put_bit_length bi v d : 0 <= bi < BPB -> length d = Z.to_nat BSIZE -> length (put_bit bi v d) = Z.to_nat BSIZE.
Proof.
  intros Hb Hd. unfold put_bit, set8. rewrite patch_length; [done|apply Z.div_pos; lia|]. rewrite unle_length, Hd.
  assert (bi / 8 < BSIZE) by (apply Z.div_lt_upper_bound; unfold BPB, BSIZE in *; lia).
  pose proof (Z.div_pos bi 8). unfold BSIZE in *. lia.
Qed.

Lemma put_bit_spec bi v d bj :
  0 <= bi < BPB -> 0 <= bj < BPB -> length d = Z.to_nat BSIZE ->
  bit_is_free (put_bit bi v d) bj = if decide (bj = bi) then negb v else bit_is_free d bj.
Proof.
  intros Hi Hj Hd. rewrite !bit_free_testbit by lia. unfold put_bit.
  pose proof (Z.div_mod bi 8). pose proof (Z.div_mod bj 8). pose proof (Z.mod_pos_bound bi 8). pose proof (Z.mod_pos_bound bj 8).
  assert (0 <= bi / 8 < BSIZE /\ 0 <= bj / 8) as [Hbi Hbj].
  { split; [split; [apply Z.div_pos; lia|]|apply Z.div_pos; lia]. apply Z.div_lt_upper_bound; unfold BPB, BSIZE in *; lia. }
  rewrite get8_set8 by (rewrite ?Hd; unfold BSIZE in *; lia).
  destruct (decide (bj / 8 = bi / 8)) as [E|Hne].
  - unfold u8, bit_mask. rewrite Z.shiftl_1_l, E. change 256 with (2 ^ 8). rewrite Z.mod_pow2_bits_low by lia.
    destruct (decide (bj = bi)) as [->|Hne].
    + destruct v; [rewrite Z.lor_spec, Z.pow2_bits_true by lia; by rewrite orb_true_r|].
      rewrite Z.land_spec, Z.lnot_spec, Z.pow2_bits_true by lia. by rewrite andb_false_r.
    + assert (bj mod 8 <> bi mod 8) by lia.
      destruct v; [rewrite Z.lor_spec, Z.pow2_bits_false by lia; by rewrite orb_false_r|].
      rewrite Z.land_spec, Z.lnot_spec, Z.pow2_bits_false by lia. by rewrite andb_true_r.
  - rewrite (decide_False (P := bj = bi)) by congruence. done.
Qed.

(** [find_free] finds the first free bit. *)
Lemma find_free_spec d limit :
  match find_free d limit with
  | Some bi => 0 <= bi < Z.min BPB limit /\ bit_is_free d bi = true /\ forall j, 0 <= j < bi -> bit_is_free d j = false
  | None => forall j, 0 <= j < Z.min BPB limit -> bit_is_free d j = false
  end.
Proof.
  unfold find_free. set (N := Z.to_nat (Z.min BPB limit)).
  assert (forall n k, (n + k = N)%nat -> (forall j, 0 <= j < Z.of_nat n -> bit_is_free d j = false) ->
    match hd_error (filter (fun bi => bit_is_free d bi = true) (map Z.of_nat (seq n k))) with
    | Some bi => 0 <= bi < Z.of_nat N /\ bit_is_free d bi = true /\ forall j, 0 <= j < bi -> bit_is_free d j = false
    | None => forall j, 0 <= j < Z.of_nat N -> bit_is_free d j = false
    end) as Hgen.
  { intros n k. revert n. induction k as [|k IH]; intros n HN Hlow; cbn [seq map].
    - cbn. intros j Hj. apply Hlow. lia.
    - rewrite filter_cons. destruct (decide (bit_is_free d (Z.of_nat n) = true)) as [E|E]; cbn [hd_error].
      + split; [lia|]. split; [done|]. done.
      + apply IH; [lia|]. intros j Hj. destruct (decide (j = Z.of_nat n)) as [->|Hne]; [by apply not_true_is_false|].
        apply Hlow. lia. }
  pose proof (Hgen 0%nat N ltac:(lia) ltac:(lia)) as Hg. destruct (hd_error _) as [bi|].
  - destruct Hg as (H1 & H2 & H3). split_and!; try done; lia.
  - intros j Hj. apply Hg. lia.
Qed.

(** ** The bitmap *)

(** Where block [b] is recorded, and whether it is in use. *)
Definition in_use (g : superblock) (V : Z -> list Z) (b : Z) : bool := negb (bit_is_free (V (BBLOCK b g)) (b mod BPB)).
Definition set_use (g : superblock) (b : Z) (v : bool) (V : Z -> list Z) : Z -> list Z :=
  setv V (BBLOCK b g) (put_bit (b mod BPB) v (V (BBLOCK b g))).

(** A file system of [sb_size g] blocks whose bitmap is outside the log. *)
Record geometry (g : superblock) (start : Z) : Prop := {
  ge_size : 0 <= sb_size g < 2 ^ 31;
  ge_bmap : 0 <= sb_bmapstart g /\ sb_bmapstart g + sb_size g / BPB + 1 < 2 ^ 31;
  ge_log : forall b, 0 <= b < sb_size g -> ~ in_log start (BBLOCK b g)
}.

(** A block for data: neither the first block, nor in the log, nor of the bitmap. *)
Definition data_block (g : superblock) (start b : Z) : Prop :=
  0 < b < sb_size g /\ ~ in_log start b /\ forall j, 0 <= j < sb_size g -> b <> BBLOCK j g.

(** Only such blocks are free. *)
Definition free_ok (g : superblock) (start : Z) (V : Z -> list Z) : Prop :=
  forall b, 0 <= b < sb_size g -> in_use g V b = false -> data_block g start b.

Lemma BBLOCK_eq g start b : geometry g start -> 0 <= b < sb_size g ->
  BBLOCK b g = b / BPB + sb_bmapstart g /\ block_ok (BBLOCK b g).
Proof.
  intros [H1 H2 _] Hb. assert (0 <= b / BPB <= sb_size g / BPB) as Hd.
  { split; [apply Z.div_pos; done || lia|]. apply Z.div_le_mono; done || lia. }
  unfold BBLOCK, block_ok. rewrite u32_small by lia. lia.
Qed.

Lemma set_use_spec g start b v V j :
  geometry g start -> 0 <= b < sb_size g -> 0 <= j < sb_size g -> length (V (BBLOCK b g)) = Z.to_nat BSIZE ->
  in_use g (set_use g b v V) j = if decide (j = b) then v else in_use g V j.
Proof.
  intros Hg Hb Hj Hl. destruct (BBLOCK_eq g start b Hg Hb) as [E1 _]. destruct (BBLOCK_eq g start j Hg Hj) as [E2 _].
  pose proof (Z.mod_pos_bound b BPB ltac:(done)). pose proof (Z.mod_pos_bound j BPB ltac:(done)).
  pose proof (Z.div_mod b BPB ltac:(done)). pose proof (Z.div_mod j BPB ltac:(done)).
  unfold in_use, set_use. destruct (decide (BBLOCK j g = BBLOCK b g)) as [E|Hne].
  - rewrite E, setv_eq, put_bit_spec by done. destruct (decide (j = b)) as [->|Hne].
    + rewrite decide_True by done. apply negb_involutive.
    + rewrite decide_False; [done|]. intros Em. apply Hne. rewrite E1, E2 in E. assert (j / BPB = b / BPB) as Ed by lia. rewrite Ed in *. lia.
  - rewrite setv_ne by done. rewrite decide_False; [done|congruence].
Qed.

(** Data blocks do not hold bits. *)
Lemma in_use_data g start V b x j :
  data_block g start b -> 0 <= j < sb_size g -> in_use g (setv V b x) j = in_use g V j.
Proof. intros (_ & _ & Hb) Hj. unfold in_use. rewrite setv_ne; [done|]. apply not_eq_sym. by apply Hb. Qed.

Section alloc.
Context `{image} `{environment} `{patience} `{disk_laws}.
Context (Hw : (0 < wakeups)%nat) (dv : Z) (p : nat) (pr : proc) (start : Z) (cap : nat) (g : superblock).
Context (Hdv : 0 <= dv < 2 ^ 32) (Hg : geometry g start).

Notation txn := (txn dv p pr start cap).

Definition zeros : list Z := replicate (Z.to_nat BSIZE) 0.

Lemma u32_i32 x : 0 <= x < 2 ^ 32 -> u32 (i32 x) = x.
Proof.
  intros Hx. unfold u32, i32. rewrite Z.mod_eq at 1 by lia.
  destruct (decide (x < 2 ^ 31)).
  - rewrite (Z.mod_small (x + 2 ^ 31)) by lia. rewrite Z.div_small by lia. lia.
  - replace ((x + 2 ^ 31) mod 2 ^ 32) with (x - 2 ^ 31) by (apply Z.mod_unique with 1; lia).
    replace ((x - 2 ^ 31 - 2 ^ 31) / 2 ^ 32) with (-1) by (apply Z.div_unique with x; lia). lia.
Qed.

(** Clearing a block. *)
Lemma bzero_wp V blks hs b s :
  txn V blks hs s -> 0 <= b < 2 ^ 31 -> b ∉ hs.*2 -> ~ in_log start b ->
  (length blks < cap)%nat -> (length blks + length hs < NBUF)%nat ->
  wp (bzero (i32 dv) b) (fun _ s' => txn (setv V b zeros) (record_block b blks) hs s' /\ rest s' = rest s) s.
Proof.
  intros T Hb Hnh Hnl Hc Hr. unfold bzero. rewrite u32_i32, (u32_small b) by lia. apply wp_bind.
  eapply wp_mono; [apply (tx_bread Hw); [exact T|done|done|by right]|]. intros bp s1 [T1 E1].
  eapply (tx_update Hw); [exact T1|by left|apply length_replicate|done|done|]. intros s2 T2 E2.
  eapply wp_mono; [by eapply (tx_brelse dv)|]. intros [] s3 [T3 E3]. split; [exact T3|]. by rewrite E3, E2.
Qed.

(** What [balloc] does to the blocks. *)
Definition allocated (V : Z -> list Z) (b : Z) : Z -> list Z := setv (set_use g b true V) b zeros.

Lemma record_length bn blks : (length (record_block bn blks) <= S (length blks))%nat.
Proof. unfold record_block. destruct (decide _); [lia|]. rewrite length_app. cbn. lia. Qed.

(** One block of the bitmap, from block [b0] on. *)
Lemma balloc_step V blks hs k s :
  txn V blks hs s -> free_ok g start V -> 0 <= k * BPB < sb_size g ->
  (forall b, 0 <= b < sb_size g -> BBLOCK b g ∉ hs.*2 /\ (in_use g V b = false -> b ∉ hs.*2)) ->
  (length blks + 2 <= cap)%nat -> (length blks + length hs + 1 < NBUF)%nat ->
  wp (bp <- bread dv (BBLOCK (k * BPB) g);;
      d <- bdata bp;;
      match find_free d (sb_size g - k * BPB) with
      | Some bi =>
          bdata_set bp (fun d => set8 d (bi / 8) (Z.lor (get8 d (bi / 8)) (bit_mask bi)));;
          log_write bp;;
          brelse bp;;
          bzero (i32 dv) (k * BPB + bi);;
          ret (Some (k * BPB + bi))
      | None => brelse bp;; ret None
      end)%M
    (fun r s' => rest s' = rest s /\ match r with
     | Some b => k * BPB <= b < sb_size g /\ in_use g V b = false /\ (forall j, k * BPB <= j < b -> in_use g V j = true) /\
         txn (allocated V b) (record_block b (record_block (BBLOCK b g) blks)) hs s'
     | None => (forall j, k * BPB <= j < sb_size g -> j < (k + 1) * BPB -> in_use g V j = true) /\ txn V blks hs s'
     end) s.
Proof.
  intros T Hf Hk Hh Hc Hr. set (b0 := k * BPB) in *.
  assert (forall j, 0 <= j < BPB -> b0 + j < sb_size g -> BBLOCK (b0 + j) g = BBLOCK b0 g /\ (b0 + j) mod BPB = j) as Hblk.
  { intros j Hj Hlt. destruct (BBLOCK_eq g start (b0 + j) Hg ltac:(lia)) as [-> _]. destruct (BBLOCK_eq g start b0 Hg Hk) as [-> _].
    unfold b0. rewrite (Z.add_comm _ j), Z.div_add, Z.mod_add, Z.div_mul by done. by rewrite Z.div_small, Z.mod_small. }
  destruct (BBLOCK_eq g start b0 Hg Hk) as [_ Hok]. destruct (Hh b0 Hk) as [Hnh _].
  apply wp_bind. eapply wp_mono; [apply (tx_bread Hw); [exact T|done|done|right; lia]|]. intros bp s1 [T1 E1].
  apply wp_bind. eapply (tx_bdata _ _ _ start cap); [exact T1|by left|].
  pose proof (find_free_spec (V (BBLOCK b0 g)) (sb_size g - b0)) as Hff. destruct (find_free _ _) as [bi|].
  - destruct Hff as (Hbi & Hfree & Hlow). destruct (Hblk bi ltac:(lia) ltac:(lia)) as [Eb Em].
    assert (in_use g V (b0 + bi) = false) as Hu by (unfold in_use; by rewrite Eb, Em, Hfree).
    destruct (Hf (b0 + bi) ltac:(lia) Hu) as (Hpos & Hnl & _). destruct (Hh (b0 + bi) ltac:(lia)) as [_ Hnh2].
    pose proof (ge_size _ _ Hg).
    eapply (tx_finish Hw); [exact T1| |by apply (ge_log _ _ Hg)|lia|].
    { apply (put_bit_length bi true); [lia|]. by eapply tx_size. }
    intros s2 T2 E2. pose proof (record_length (BBLOCK b0 g) blks). apply wp_bind.
    eapply wp_mono; [apply bzero_wp; [exact T2|lia|by apply Hnh2|done|lia|lia]|]. intros [] s3 [T3 E3].
    apply wp_ret. split; [by rewrite E3, E2|]. split; [lia|]. split; [done|]. split.
    + intros j Hj. replace j with (b0 + (j - b0)) by lia. destruct (Hblk (j - b0)) as [Ej Emj]; [lia|lia|].
      unfold in_use. by rewrite Ej, Emj, Hlow by lia.
    + unfold allocated, set_use. by rewrite Eb, Em.
  - apply wp_bind. eapply wp_mono; [by eapply (tx_brelse dv)|]. intros [] s2 [T2 E2]. apply wp_ret.
    split; [by rewrite E2|]. split; [|done]. intros j Hj Hlt. replace j with (b0 + (j - b0)) by lia.
    destruct (Hblk (j - b0)) as [Ej Emj]; [unfold b0; lia|lia|]. unfold in_use. by rewrite Ej, Emj, Hff by (unfold b0; lia).
Qed.

Definition out_of_blocks : list Z := chars "balloc: out of blocks" ++ newline.

(** A hart that may print: [panic] has not been called, the port's latch is closed and the lock of printf is in use. *)
Definition can_print (s : kst) : Prop :=
  panicked s = 0 /\ Z.land (uart_lcr (uart_st s)) LCR_BAUD_LATCH = 0 /\ pr_locking s <> 0.

Lemma can_print_rest s s' : rest s' = rest s -> can_print s -> can_print s'.
Proof.
  intros E (H1' & H2' & H3'). unfold can_print.
  rewrite (f_equal panicked E : panicked s' = panicked s), (f_equal uart_st E : uart_st s' = uart_st s),
    (f_equal pr_locking E : pr_locking s' = pr_locking s). done.
Qed.

(** Printing does not disturb a transaction. *)
Lemma tx_printf V blks hs fmt l s :
  txn V blks hs s -> can_print s -> text fmt [] = Some l -> BACKSPACE ∉ l ->
  wp (printf fmt []) (fun _ s' => txn V blks hs s' /\ rest s' = rest (sends l s)) s.
Proof.
  intros T (P1 & P2 & P3) Hl Hb. pose proof (st_idle _ _ _ _ _ _ _ (tx_store _ _ _ _ _ _ _ _ _ T)) as Hi.
  eapply wp_eq; [apply (printf_eq fmt [] l)|].
  - split; [by eapply idle_hart|done|done].
  - by apply (id_locks _ _ _ _ Hi).
  - done.
  - done.
  - done.
  - done.
  - split; [|done]. destruct T as [[T1 T2 T3] T4 T5 T6 T7 T8 T9 T10]. split; try done.
    split; [|done|done]. eapply idle_frame; [..|by apply idle_touch]; reflexivity.
Qed.

(** The promise of [balloc]: the lowest free block, now in use and cleared, or 0 when there is none. *)
Definition balloc_post (V : Z -> list Z) (blks : list Z) (hs : list (nat * Z)) (s : kst) (r : Z) (s' : kst) : Prop :=
  (0 < r < sb_size g /\ in_use g V r = false /\ (forall j, 0 <= j < r -> in_use g V j = true) /\
   txn (allocated V r) (record_block r (record_block (BBLOCK r g) blks)) hs s' /\ rest s' = rest s) \/
  (r = 0 /\ (forall j, 0 <= j < sb_size g -> in_use g V j = true) /\ txn V blks hs s' /\ rest s' = rest (sends out_of_blocks s)).

Lemma balloc_wp V blks hs s :
  txn V blks hs s -> sb s = g -> can_print s -> free_ok g start V ->
  (forall b, 0 <= b < sb_size g -> BBLOCK b g ∉ hs.*2 /\ (in_use g V b = false -> b ∉ hs.*2)) ->
  (length blks + 2 <= cap)%nat -> (length blks + length hs + 1 < NBUF)%nat ->
  wp (balloc dv) (balloc_post V blks hs s) s.
Proof.
  intros T Hsb Hp Hf Hh Hc Hr. pose proof (ge_size _ _ Hg) as Hsz. unfold balloc. apply wp_bind, wp_gets. rewrite Hsb. apply wp_bind.
  set (n := Z.to_nat ((sb_size g + BPB - 1) / BPB)).
  assert (forall k, (k < n)%nat -> Z.of_nat k * BPB < sb_size g) as Hlt.
  { intros k Hk. assert (Z.of_nat k + 1 <= (sb_size g + BPB - 1) / BPB) as Hle by blia.
    apply (Z.mul_le_mono_nonneg_r _ _ BPB) in Hle; [|done].
    pose proof (Z.mul_div_le (sb_size g + BPB - 1) BPB ltac:(done)). blia. }
  assert (sb_size g <= Z.of_nat n * BPB) as Hcov.
  { unfold n. rewrite Z2Nat.id by (apply Z.div_pos; [blia|done]).
    pose proof (Z.mod_pos_bound (sb_size g + BPB - 1) BPB ltac:(done)). pose proof (Z.div_mod (sb_size g + BPB - 1) BPB ltac:(done)). blia. }
  apply (wp_searchM _ _ (fun pre s1 => rest s1 = rest s /\ txn V blks hs s1 /\
    forall j, 0 <= j < sb_size g -> j < Z.of_nat (length pre) * BPB -> in_use g V j = true)).
  - split_and!; try done. intros j Hj Hlt0. cbn in Hlt0. blia.
  - intros pre i post s1 El (E1 & T1 & Hlow).
    assert (map (fun k => Z.of_nat k * BPB) (seq 0 n) !! length pre = Some i) as Ei by (rewrite El; by apply list_lookup_middle).
    apply list_lookup_fmap_Some in Ei as (k & -> & Ek). apply lookup_seq in Ek as [-> Hk]. cbn in Hk |- *.
    pose proof (Hlt _ Hk). eapply wp_mono; [apply balloc_step; try done; blia|].
    intros [b|] s2 [E2 Hb].
    + destruct Hb as (Hb1 & Hb2 & Hb3 & T2). apply wp_ret. left. destruct (Hf b ltac:(blia) Hb2) as [Hpos _].
      split_and!; try done; [blia|blia| |by rewrite E2].
      intros j Hj. destruct (decide (j < Z.of_nat (length pre) * BPB)); [apply Hlow; blia|apply Hb3; blia].
    + destruct Hb as [Hb T2]. split; [by rewrite E2|]. split; [done|]. intros j Hj Hlt2. rewrite length_app in Hlt2. cbn in Hlt2.
      destruct (decide (j < Z.of_nat (length pre) * BPB)); [apply Hlow; blia|apply Hb; blia].
  - intros s1 (E1 & T1 & Hlow). rewrite length_map, length_seq in Hlow. apply wp_bind.
    eapply wp_mono; [apply (tx_printf V blks hs _ out_of_blocks); [exact T1|by eapply can_print_rest|done|]|].
    { apply (bool_decide_unpack _). by vm_compute. }
    intros [] s2 [T2 E2]. apply wp_ret. right. split; [done|]. split; [intros j Hj; apply Hlow; blia|]. split; [done|].
    rewrite E2. exact (f_equal (sends out_of_blocks) E1).
Qed.

Lemma bfree_wp V blks hs b s :
  txn V blks hs s -> sb s = g -> 0 <= b < sb_size g -> in_use g V b = true -> BBLOCK b g ∉ hs.*2 ->
  (length blks < cap)%nat -> (length blks + length hs < NBUF)%nat ->
  wp (bfree (i32 dv) b) (fun _ s' => txn (set_use g b false V) (record_block (BBLOCK b g) blks) hs s' /\ rest s' = rest s) s.
Proof.
  intros T Hsb Hb Hu Hnh Hc Hr. unfold bfree. apply wp_bind, wp_gets. rewrite Hsb, u32_i32 by done. apply wp_bind.
  destruct (BBLOCK_eq g start b Hg Hb) as [_ Hok].
  eapply wp_mono; [apply (tx_bread Hw); [exact T|done|done|right; lia]|]. intros bp s1 [T1 E1].
  apply wp_bind. eapply (tx_bdata _ _ _ start cap); [exact T1|by left|].
  unfold in_use, bit_is_free in Hu. apply negb_true_iff in Hu. rewrite Hu.
  pose proof (Z.mod_pos_bound b BPB ltac:(done)) as Hm.
  eapply (tx_update Hw); [exact T1|by left| |by apply (ge_log _ _ Hg)|lia|].
  { apply (put_bit_length (b mod BPB) false); [done|]. by eapply tx_size. }
  intros s2 T2 E2. eapply wp_mono; [by eapply (tx_brelse dv)|]. intros [] s3 [T3 E3].
  split; [exact T3|by rewrite E3, E2].
Qed.

Lemma allocated_spec V r : free_ok g start V -> 0 <= r < sb_size g -> in_use g V r = false -> (forall bn, length (V bn) = Z.to_nat BSIZE) ->
  (forall j, 0 <= j < sb_size g -> in_use g (allocated V r) j = bool_decide (j = r) || in_use g V j) /\
  allocated V r r = zeros /\ forall bn, bn <> r -> bn <> BBLOCK r g -> allocated V r bn = V bn.
Proof.
  intros Hf Hr Hu Hl. pose proof (Hf r Hr Hu) as Hd. unfold allocated. split_and!.
  - intros j Hj. rewrite (in_use_data g start), (set_use_spec g start) by done. case_bool_decide as E.
    + by rewrite decide_True.
    + by rewrite decide_False.
  - apply setv_eq.
  - intros bn H1' H2'. unfold set_use. by rewrite !setv_ne.
Qed.

Lemma bfree_panic V blks b s :
  txn V blks [] s -> sb s = g -> 0 <= b < sb_size g -> in_use g V b = false -> (length blks < NBUF)%nat ->
  exists s', bfree (i32 dv) b s = Panic "freeing free block" s'.
Proof.
  intros T Hsb Hb Hu Hr. destruct (BBLOCK_eq g start b Hg Hb) as [_ Hok].
  pose proof (tx_bread Hw dv p pr start cap V blks [] (BBLOCK b g) s T Hok ltac:(set_solver) ltac:(right; cbn; lia)) as Hrd.
  apply wp_ok in Hrd as (bp & s1 & E1 & T1 & _).
  assert (wp (bdata bp) (fun d s' => d = V (BBLOCK b g) /\ s' = s1) s1) as Hda
    by (eapply (tx_bdata dv); [exact T1|by left|done]).
  apply wp_ok in Hda as (d & s2 & E2 & -> & ->). exists s1. unfold bfree. rewrite bind_gets, Hsb, u32_i32 by done.
  rewrite (bind_ok _ _ _ _ _ E1), (bind_ok _ _ _ _ _ E2).
  unfold in_use, bit_is_free in Hu. apply negb_false_iff in Hu. by rewrite Hu.
Qed.

(** C18: [balloc] and [bfree] keep the set of blocks in use that the bitmap on the disk stands for.  [balloc] returns the
    lowest free block, after adding it to the set and clearing its contents; when no block is free it
    prints a message and returns 0.  [bfree] takes a block out of the set, and panics if it was not in it.  Both go
    through the log, and change no other block and nothing outside the file system. *)
Theorem balloc_bfree_correct V blks s :
  txn V blks [] s -> sb s = g -> can_print s -> free_ok g start V ->
  (length blks + 2 <= cap)%nat -> (length blks + 1 < NBUF)%nat ->
  (((forall j, 0 <= j < sb_size g -> in_use g V j = true) /\
    exists s', balloc dv s = Ok 0 s' /\ txn V blks [] s' /\ rest s' = rest (sends out_of_blocks s)) \/
   exists r s' V' blks', balloc dv s = Ok r s' /\ txn V' blks' [] s' /\ rest s' = rest s /\
     0 < r < sb_size g /\ in_use g V r = false /\ (forall j, 0 <= j < r -> in_use g V j = true) /\
     (forall j, 0 <= j < sb_size g -> in_use g V' j = bool_decide (j = r) || in_use g V j) /\
     V' r = zeros /\ forall bn, bn <> r -> bn <> BBLOCK r g -> V' bn = V bn) /\
  (forall b, 0 <= b < sb_size g ->
     if in_use g V b
     then exists s' V' blks', bfree (i32 dv) b s = Ok tt s' /\ txn V' blks' [] s' /\ rest s' = rest s /\
       (forall j, 0 <= j < sb_size g -> in_use g V' j = negb (bool_decide (j = b)) && in_use g V j) /\
       forall bn, bn <> BBLOCK b g -> V' bn = V bn
     else exists s', bfree (i32 dv) b s = Panic "freeing free block" s').
Proof.
  intros T Hsb Hp Hf Hc Hr. pose proof (tx_size dv p pr start cap V blks [] s) as Hl. split.
  - pose proof (balloc_wp V blks [] s T Hsb Hp Hf ltac:(set_solver) Hc ltac:(cbn; lia)) as Hwp.
    apply wp_ok in Hwp as (r & s' & E & [(Hr1 & Hr2 & Hr3 & T' & Er)|(-> & Hall & T' & Er)]); [right|left; split; [done|by exists s']].
    destruct (allocated_spec V r Hf ltac:(lia) Hr2 ltac:(auto)) as (H1' & H2' & H3').
    by exists r, s', (allocated V r), (record_block r (record_block (BBLOCK r g) blks)).
  - intros b Hb. destruct (in_use g V b) eqn:Hu; [|by eapply bfree_panic; (done || lia)].
    pose proof (bfree_wp V blks [] b s T Hsb Hb Hu ltac:(set_solver) ltac:(lia) ltac:(cbn; lia)) as Hwp.
    apply wp_ok in Hwp as ([] & s' & E & T' & Er). exists s', (set_use g b false V), (record_block (BBLOCK b g) blks).
    split_and!; try done.
    + intros j Hj. rewrite (set_use_spec g start) by auto. case_bool_decide as Ej; [by rewrite decide_True|by rewrite decide_False].
    + intros bn Hne. by apply setv_ne.
Qed.

End alloc.
