(* ===== verification/FsFile.v ===== *)
(** * Reading files

    The contents of a file as the bytes of its blocks, found through the direct and the
    indirect block numbers of its inode, and [bmap] and [readi] of kernel/fs.c in these terms. *)

From S2P Require Import Prelude Riscv Memory CString Bytes State Spinlock Sched SchedSpec Sleeplock SleepSpec.
From S2P Require Import Kalloc Vm Uart Printf PrintfSpec Console Bio BioRing BioSpec Log LogDisk LogSpec LogTxn FsTxn Fs FsAlloc.

(** ** Contents *)

Definition addr_of (ip : inode) (k : Z) : Z := default 0 (i_addrs ip !! Z.to_nat k).

(** The disk block of block [bn] of the file, 0 if it has none. *)
Definition fblock (V : Z -> list Z) (ip : inode) (bn : Z) : Z :=
  if bn <? NDIRECT then addr_of ip bn
  else if addr_of ip NDIRECT =? 0 then 0
  else get32 (V (addr_of ip NDIRECT)) (4 * (bn - NDIRECT)).

(** Byte [x] of the file, and [n] bytes from [off]. *)
Definition fbyte (V : Z -> list Z) (ip : inode) (x : Z) : Z :=
  default 0 (V (fblock V ip (x / BSIZE)) !! Z.to_nat (x mod BSIZE)).
Definition fdata (V : Z -> list Z) (ip : inode) (off n : Z) : list Z := fbyte V ip <$> seqZ off n.

Lemma fdata_app V ip off n m : 0 <= n -> 0 <= m -> fdata V ip off (n + m) = fdata V ip off n ++ fdata V ip (off + n) m.
Proof. intros Hn Hm. unfold fdata. by rewrite seqZ_app, fmap_app by done. Qed.

Lemma fdata_length V ip off n : length (fdata V ip off n) = Z.to_nat n.
Proof. unfold fdata. by rewrite length_fmap, length_seqZ. Qed.

(** What lies in one block. *)
Lemma fdata_block V ip off n :
  (forall bn, length (V bn) = Z.to_nat BSIZE) -> 0 <= off -> 0 <= n -> off mod BSIZE + n <= BSIZE ->
  fdata V ip off n = slice (off mod BSIZE) n (V (fblock V ip (off / BSIZE))).
Proof.
  intros HV Ho Hn Hfit. pose proof (Z.mod_pos_bound off BSIZE ltac:(done)) as Hm. pose proof (Z.div_mod off BSIZE ltac:(done)) as Hd.
  apply list_eq_same_length with (Z.to_nat n).
  - by rewrite slice_length by (rewrite ?HV; lia).
  - apply fdata_length.
  - intros j x y Hj. unfold fdata. rewrite list_lookup_fmap, lookup_seqZ_lt by lia. cbn [fmap option_fmap option_map].
    rewrite slice_lookup by lia. intros [= <-] Hy. unfold fbyte.
    assert ((off + Z.of_nat j) / BSIZE = off / BSIZE /\ (off + Z.of_nat j) mod BSIZE = off mod BSIZE + Z.of_nat j) as [-> ->].
    { rewrite Hd at 1 3. rewrite (Z.mul_comm BSIZE), <- Z.add_assoc, (Z.add_comm (_ * BSIZE)), Z.div_add, Z.mod_add by done.
      rewrite Z.div_small, Z.mod_small by lia. lia. }
    rewrite Z2Nat.inj_add, Nat2Z.id, Hy by lia. done.
Qed.

Section file.
Context `{image} `{environment} `{patience} `{disk_laws}.
Context (Hw : (0 < wakeups)%nat) (dv : Z) (p : nat) (pr : proc) (start : Z) (cap : nat).

Notation txn := (txn dv p pr start cap).

(** All blocks of the file are there. *)
Record file_ok (V : Z -> list Z) (ip : inode) : Prop := {
  fo_dev : i_dev ip = dv;
  fo_size : 0 <= i_size ip <= MAXFILE * BSIZE;
  fo_indirect : addr_of ip NDIRECT = 0 \/ block_ok (addr_of ip NDIRECT);
  fo_blocks : forall bn, 0 <= bn -> bn * BSIZE < i_size ip -> fblock V ip bn <> 0 /\ block_ok (fblock V ip bn)
}.

Lemma rest_inodes s s' : rest s' = rest s -> inodes s' = inodes s.
Proof. intros E. exact (f_equal inodes E). Qed.
Lemma rest_mem s s' : rest s' = rest s -> mem s' = mem s.
Proof. intros E. exact (f_equal mem E). Qed.

Lemma ipget_wp i ip s (Q : inode -> kst -> Prop) : inodes s !! i = Some ip -> Q ip s -> wp (ipget i) Q s.
Proof. intros E HQ. unfold ipget. apply wp_gets. by rewrite E. Qed.

Lemma addr_get_wp i k ip s (Q : Z -> kst -> Prop) : inodes s !! i = Some ip -> Q (addr_of ip k) s -> wp (addr_get i k) Q s.
Proof. intros E HQ. unfold addr_get. apply wp_bind. eapply ipget_wp; [exact E|]. by apply wp_ret. Qed.

(** [bmap] of a block that is there only looks it up. *)
Lemma bmap_wp V blks i ip bn s :
  txn V blks [] s -> inodes s !! i = Some ip -> i_dev ip = dv -> 0 <= bn < MAXFILE -> fblock V ip bn <> 0 ->
  addr_of ip NDIRECT = 0 \/ block_ok (addr_of ip NDIRECT) -> (length blks < NBUF)%nat ->
  wp (bmap i bn) (fun r s' => r = fblock V ip bn /\ txn V blks [] s' /\ rest s' = rest s) s.
Proof.
  intros T Ei Hd Hbn Hnz Hind Hr. unfold bmap. apply wp_bind. eapply ipget_wp; [exact Ei|]. unfold fblock in *.
  destruct (Z.ltb_spec bn NDIRECT) as [Hlt|Hge].
  - apply wp_bind. eapply addr_get_wp; [exact Ei|]. rewrite (proj2 (Z.eqb_neq _ _)) by done. by apply wp_ret.
  - rewrite (proj2 (Z.ltb_lt (bn - NDIRECT) NINDIRECT)) by (unfold MAXFILE in Hbn; lia).
    apply wp_bind. eapply addr_get_wp; [exact Ei|]. destruct (Z.eqb_spec (addr_of ip NDIRECT) 0) as [E|Hne]; [done|].
    destruct Hind as [?|Hok]; [done|]. apply wp_bind, wp_ret. rewrite (proj2 (Z.eqb_neq (addr_of ip NDIRECT) 0)) by done.
    rewrite Hd. apply wp_bind. eapply wp_mono; [apply (tx_bread Hw); [exact T|done|set_solver|right; cbn; lia]|].
    intros bp s1 [T1 E1]. apply wp_bind. eapply (tx_bdata _ _ _ start cap); [exact T1|by left|].
    rewrite (proj2 (Z.eqb_neq _ _)) by done. apply wp_bind, wp_ret. apply wp_bind.
    eapply wp_mono; [by eapply (tx_brelse dv)|]. intros [] s2 [T2 E2]. apply wp_ret. split; [done|]. split; [done|by rewrite E2].
Qed.

(** Storing into kernel memory does not disturb a transaction. *)
Lemma tx_mem V blks hs m s : txn V blks hs s -> txn V blks hs (with_mem m s).
Proof.
  intros [[T1 T2 T3] T4 T5 T6 T7 T8 T9 T10]. split; try done. split; [|done|done].
  eapply idle_frame; [..|exact T1]; reflexivity.
Qed.
Lemma tx_touch V blks hs s : txn V blks hs s -> txn V blks hs (touch s).
Proof. intros [[T1 T2 T3] T4 T5 T6 T7 T8 T9 T10]. split; try done. split; [by apply idle_touch|done|done]. Qed.

Lemma either_copyout_wp V blks hs dst l n s (Q : Z -> kst -> Prop) :
  txn V blks hs s ->
  (forall s', txn V blks hs s' -> rest s' = rest (with_mem (wr_bytes (mem s) dst (take (Z.to_nat n) l)) s) -> Q 0 s') ->
  wp (either_copyout false dst l n) Q s.
Proof.
  intros T HQ. pose proof (st_idle _ _ _ _ _ _ _ (tx_store _ _ _ _ _ _ _ _ _ T)) as Hi. unfold either_copyout. apply wp_bind.
  eapply wp_eq; [apply (curproc_eq s p); [by eapply idle_hart|apply Hi]|]. unfold store_bytes.
  apply wp_bind, wp_modify, wp_ret. apply HQ; [by apply tx_mem, tx_touch|done].
Qed.

(** The state after [n] bytes of the file were stored at [dst]. *)
Definition stored (V : Z -> list Z) (ip : inode) (dst off n : Z) (s : kst) : kst :=
  with_mem (wr_bytes (mem s) dst (fdata V ip off n)) s.

Lemma stored_rest V ip dst off n s s' : rest s' = rest s -> rest (stored V ip dst off n s') = rest (stored V ip dst off n s).
Proof. intros E. unfold stored. rewrite (rest_mem _ _ E). exact (f_equal (with_mem _) E). Qed.

Lemma stored_app V ip dst off n m s :
  0 <= n -> 0 <= m -> stored V ip (dst + n) (off + n) m (stored V ip dst off n s) = stored V ip dst off (n + m) s.
Proof.
  intros Hn Hm. unfold stored. kst_cbv. rewrite fdata_app, wr_bytes_app, fdata_length, Z2Nat.id by done. done.
Qed.

(** How many rounds [readi_loop] needs, the last one included. *)
Definition rounds (off n : Z) : nat := if decide (n = 0) then 1%nat else S (S (Z.to_nat ((off + n - 1) / BSIZE - off / BSIZE))).

Lemma rounds_step off n : 0 <= off -> 0 < n ->
  let m := Z.min n (BSIZE - off mod BSIZE) in
  0 < m <= n /\ off mod BSIZE + m <= BSIZE /\ (rounds (off + m) (n - m) < rounds off n)%nat.
Proof.
  intros Ho Hn m. pose proof (Z.mod_pos_bound off BSIZE ltac:(done)) as Hm. pose proof (Z.div_mod off BSIZE ltac:(done)) as Hd.
  split; [blia|]. split; [blia|]. unfold rounds. rewrite (decide_False (P := n = 0)) by blia. destruct (decide (n - m = 0)); [blia|].
  assert (m = BSIZE - off mod BSIZE) as Em by blia.
  assert ((off + m) / BSIZE = off / BSIZE + 1) as ->.
  { replace (off + m) with ((off / BSIZE + 1) * BSIZE) by (rewrite Em; blia). by apply Z.div_mul. }
  replace (off + m + (n - m) - 1) with (off + n - 1) by blia.
  assert (off / BSIZE + 1 <= (off + n - 1) / BSIZE); [|blia]. apply Z.div_le_lower_bound; [done|]. blia.
Qed.

Lemma rounds_fuel off n : 0 <= off -> 0 <= n -> (rounds off n <= rw_fuel n)%nat.
Proof.
  intros Ho Hn. unfold rounds, rw_fuel. pose proof (Z.div_pos n BSIZE Hn ltac:(done)). destruct (decide (n = 0)); [blia|].
  assert ((off + n - 1) / BSIZE <= off / BSIZE + n / BSIZE + 1); [|blia].
  pose proof (Z.div_mod off BSIZE ltac:(done)). pose proof (Z.mod_pos_bound off BSIZE ltac:(done)).
  pose proof (Z.div_mod n BSIZE ltac:(done)). pose proof (Z.mod_pos_bound n BSIZE ltac:(done)).
  apply Z.lt_succ_r, Z.div_lt_upper_bound; [done|]. blia.
Qed.

Lemma readi_loop_wp V blks i ip n fuel : n < 2 ^ 32 -> forall dst off tot s,
  txn V blks [] s -> inodes s !! i = Some ip -> file_ok V ip -> (length blks < NBUF)%nat ->
  0 <= off -> 0 <= tot <= n -> off + (n - tot) <= i_size ip -> 0 <= dst -> dst + (n - tot) < 2 ^ 64 ->
  (rounds off (n - tot) <= fuel)%nat ->
  wp (readi_loop fuel i false dst off n tot) (fun r s' => r = n /\ txn V blks [] s' /\
    rest s' = rest (stored V ip dst off (n - tot) s)) s.
Proof.
  intros Hn32. induction fuel as [|fuel IH]; intros dst off tot s T Ei Hf Hr Ho Ht Hsz Hdst Hwrap Hfuel.
  { unfold rounds in Hfuel. destruct (decide _); blia. }
  cbn [readi_loop]. destruct (Z.ltb_spec tot n) as [Hlt|Hge]; cbn [negb].
  2:{ apply wp_ret. assert (tot = n) as -> by blia. split; [done|]. split; [done|]. rewrite Z.sub_diag. by destruct s. }
  destruct (rounds_step off (n - tot) Ho ltac:(blia)) as (Hm & Hfit & Hrn). set (m := Z.min (n - tot) (BSIZE - off mod BSIZE)) in *.
  pose proof (fo_size _ _ Hf) as Hfs. pose proof (Z.mod_pos_bound off BSIZE ltac:(done)) as Hmod.
  pose proof (Z.div_mod off BSIZE ltac:(done)) as Hdm. assert (0 <= off / BSIZE) as Hq by (apply Z.div_pos; [blia|done]).
  destruct (fo_blocks _ _ Hf (off / BSIZE) Hq ltac:(blia)) as [Hnz Hok].
  apply wp_bind. eapply wp_mono; [apply (bmap_wp V blks i ip); try done|].
  { apply Hf. }
  { split; [done|]. apply Z.div_lt_upper_bound; [done|blia]. }
  { apply Hf. }
  intros r s1 (-> & T1 & E1). rewrite (proj2 (Z.eqb_neq _ _)) by done.
  apply wp_bind. eapply ipget_wp; [by rewrite (rest_inodes _ _ E1)|]. rewrite (fo_dev _ _ Hf).
  apply wp_bind. eapply wp_mono; [apply (tx_bread Hw); [exact T1|done|set_solver|right; cbn; blia]|]. intros bp s2 [T2 E2].
  apply wp_bind. eapply (tx_bdata _ _ _ start cap); [exact T2|by left|].
  assert (slice (off mod BSIZE) m (V (fblock V ip (off / BSIZE))) = fdata V ip off m) as ->.
  { symmetry. apply fdata_block; try blia. intros bn. by eapply tx_size. }
  apply wp_bind. eapply either_copyout_wp; [exact T2|]. intros s3 T3 E3.
  rewrite take_ge in E3 by by rewrite fdata_length. fold (stored V ip dst off m s2) in E3.
  apply wp_bind. eapply wp_mono; [by eapply (tx_brelse dv)|]. intros [] s4 [T4 E4]. cbn [Z.eqb].
  assert (rest s4 = rest (stored V ip dst off m s)) as E5.
  { rewrite E4, E3. apply stored_rest. by rewrite E2. }
  assert (inodes s4 = inodes s) as Ei4 by exact (f_equal inodes E5).
  change (MAXFILE * BSIZE) with 274432 in Hfs. rewrite !u32_small by blia.
  rewrite (u64_small (dst + m)) by blia. eapply wp_mono.
  - apply IH; try done; try blia; [by rewrite Ei4|]. replace (n - (tot + m)) with (n - tot - m) by blia. blia.
  - intros r s5 (-> & T5 & E6). split; [done|]. split; [done|]. rewrite E6.
    rewrite (stored_rest _ _ _ _ _ _ _ E5). replace (n - (tot + m)) with (n - tot - m) by blia.
    rewrite stored_app by blia. by replace (m + (n - tot - m)) with (n - tot) by blia.
Qed.

(** How many bytes a read of [n] bytes at [off] gives. *)
Definition readable (ip : inode) (off n : Z) : Z :=
  if (i_size ip <? off) || (2 ^ 32 <=? off + n) then 0 else Z.min n (i_size ip - off).

Lemma readi_wp V blks i ip dst off n s :
  txn V blks [] s -> inodes s !! i = Some ip -> file_ok V ip -> (length blks < NBUF)%nat ->
  0 <= off < 2 ^ 32 -> 0 <= n < 2 ^ 32 -> 0 <= dst -> dst + n < 2 ^ 64 ->
  wp (readi i false dst off n) (fun r s' => r = readable ip off n /\ txn V blks [] s' /\
    rest s' = rest (stored V ip dst off (readable ip off n) s)) s.
Proof.
  intros T Ei Hf Hr Ho Hn Hd Hwrap. pose proof (fo_size _ _ Hf) as Hfs. change (MAXFILE * BSIZE) with 274432 in Hfs.
  unfold readi, readable. apply wp_bind. eapply ipget_wp; [exact Ei|].
  assert (rest s = rest (stored V ip dst off 0 s)) as E0 by (unfold stored; by destruct s).
  destruct (Z.ltb_spec (i_size ip) off) as [?|Hle]; cbn [orb]; [by apply wp_ret|].
  destruct (Z.leb_spec (2 ^ 32) (off + n)) as [Hbig|Hsmall].
  { assert (u32 (off + n) = off + n - 2 ^ 32) as ->.
    { unfold u32. symmetry. apply Z.mod_unique with 1; lia. }
    rewrite (proj2 (Z.ltb_lt _ _)) by lia. by apply wp_ret. }
  rewrite (u32_small (off + n)), (proj2 (Z.ltb_ge (off + n) off)) by lia.
  assert ((if i_size ip <? off + n then u32 (i_size ip - off) else n) = Z.min n (i_size ip - off)) as ->.
  { destruct (Z.ltb_spec (i_size ip) (off + n)); [rewrite u32_small by lia|]; lia. }
  set (k := Z.min n (i_size ip - off)). apply wp_bind. eapply wp_mono.
  - apply (readi_loop_wp V blks i ip); try done; try lia. rewrite Z.sub_0_r. apply rounds_fuel; lia.
  - intros r s1 (-> & T1 & E1). apply wp_ret. rewrite Z.sub_0_r in E1. split; [apply i32_small; lia|done].
Qed.

(** C20: [readi] into kernel memory gives the bytes of the file.  It returns the number of bytes that lie between the
    offset and the end of the file, at most [n], and none if the offset is beyond the end or the sum of offset and length
    overflows 32 bits; exactly these bytes of the file, found through the direct and indirect blocks, are stored from the
    destination on, and nothing else changes outside the buffer cache.  It returns within the rounds of its loop
    that [rw_fuel] allows. *)
Theorem readi_correct V blks i ip dst off n s :
  txn V blks [] s -> inodes s !! i = Some ip -> file_ok V ip -> (length blks < NBUF)%nat ->
  0 <= off < 2 ^ 32 -> 0 <= n < 2 ^ 32 -> 0 <= dst -> dst + n < 2 ^ 64 ->
  let k := if (i_size ip <? off) || (2 ^ 32 <=? off + n) then 0 else Z.min n (i_size ip - off) in
  exists s', readi i false dst off n s = Ok k s' /\ txn V blks [] s' /\
    rest s' = rest (with_mem (wr_bytes (mem s) dst (fdata V ip off k)) s).
Proof.
  intros T Ei Hf Hr Ho Hn Hd Hwrap k. pose proof (readi_wp V blks i ip dst off n s T Ei Hf Hr Ho Hn Hd Hwrap) as Hwp.
  apply wp_ok in Hwp as (r & s' & E & -> & Hs). by exists s'.
Qed.

End file.
