(* ===== verification/FsDir.v ===== *)
(** * Directories

    A directory as its list of entries, and [dirlookup] of kernel/fs.c as a search in it.
    [iget] finds the in-memory inode of an inode number or takes a free slot of the table. *)

From S2P Require Import Prelude Riscv Memory CString Bytes State Spinlock Sched SchedSpec Sleeplock SleepSpec.
From S2P Require Import Kalloc Vm Uart Printf PrintfSpec Console Bio BioRing BioSpec Log LogDisk LogSpec LogTxn FsTxn Fs FsAlloc FsFile.

(** ** Names *)

(** An array as a name: at most [DIRSIZ] characters, up to the first NUL. *)
Definition name_of (l : list Z) : list Z := take (Z.to_nat DIRSIZ) (cstr l).

Lemma cstr_nth l : Forall byte l ->
  Forall (fun c => c <> 0) (cstr l) /\ nth (length (cstr l)) l 0 = 0 /\ forall i : nat, (i < length (cstr l))%nat -> nth i l 0 = nth i (cstr l) 0.
Proof.
  induction 1 as [|c l Hc _ (IH1 & IH2 & IH3)]; cbn [cstr]; [split_and!; done || (cbn; lia)|].
  destruct (Z.eqb_spec c 0) as [->|Hne]; cbn [length nth]; [split_and!; done || (cbn; lia)|].
  split_and!; [by constructor|done|]. intros [|i] Hi; [done|]. apply IH3. lia.
Qed.

Lemma cstr_length l : (length (cstr l) <= length l)%nat.
Proof. induction l as [|c l IH]; cbn; [lia|]. destruct (c =? 0); cbn; lia. Qed.

(** An array of bytes in memory, followed by a NUL, as a C string. *)
Lemma cstring_array m a l :
  Forall byte l -> (forall i : nat, (i <= length l)%nat -> rd8 m (a + Z.of_nat i) = u8 (nth i l 0)) -> cstring m a (cstr l).
Proof.
  intros Hb Hm. destruct (cstr_nth l Hb) as (H1 & H2 & H3). pose proof (cstr_length l) as Hlen.
  assert (forall i : nat, u8 (nth i l 0) = nth i l 0) as Hu.
  { intros i. apply u8_small. destruct (decide (i < length l)%nat).
    - eapply Forall_nth; [exact Hb|done].
    - rewrite nth_overflow by lia. done. }
  split; [|split; [done|]].
  - apply list_eq_same_length with (length (cstr l)); [done|by rewrite length_rd_bytes|].
    intros i x y Hi. rewrite rd_bytes_lookup, Hm, Hu, H3 by lia. intros [= <-] Hy. by erewrite nth_lookup_Some.
  - by rewrite Hm, Hu, H2 by lia.
Qed.

Lemma namecmp_spec s t :
  Forall byte s -> Forall byte t -> Z.of_nat (length s) < src_base -> namecmp s t = 0 <-> name_of s = name_of t.
Proof.
  intros Hs Ht Hl. unfold namecmp, strncmp, name_of. apply strncmp_loop_zero; apply cstring_array; try done.
  - intros i Hi. rewrite rd8_blit, decide_False by lia. rewrite rd8_blit, Z.add_0_l, Z.sub_0_r, Nat2Z.id.
    destruct (decide _) as [Hin|Hout]; [done|]. rewrite nth_overflow by lia. done.
  - intros i _. rewrite blit_src by lia. by rewrite Nat2Z.id.
Qed.

(** ** The inode table *)

(** The entry [iget] returns, and what it makes of it. *)
Definition iget_pick (l : list inode) (dev inum : Z) : option (nat * (inode -> inode)) :=
  match list_find (fun ip => 0 < i_ref ip /\ i_dev ip = dev /\ i_inum ip = inum) l with
  | Some (i, _) => Some (i, fun ip => with_i_ref (i_ref ip + 1) ip)
  | None => (fun x => (x.1, fun ip => with_i_valid 0 (with_i_ref 1 (with_i_inum inum (with_i_dev dev ip))))) <$>
              list_find (fun ip => i_ref ip = 0) l
  end.

Definition upd_inode (i : nat) (f : inode -> inode) (s : kst) : kst := with_inodes (alter f i (inodes s)) s.

Lemma upd_inode_framed i f : framed (upd_inode i f).
Proof. unfold upd_inode. solve_framed. Qed.

Lemma ipset_eq i f : ipset i f = modify (upd_inode i f).
Proof. done. Qed.

Lemma upd_inode_upd i f h s : upd_inode i f (upd_inode i h s) = upd_inode i (fun ip => f (h ip)) s.
Proof. unfold upd_inode. kst_cbv. by rewrite list_alter_alter_eq. Qed.

Lemma rest_upd_inode i f s s' : rest s' = rest s -> rest (upd_inode i f s') = rest (upd_inode i f s).
Proof.
  intros E. unfold upd_inode. rewrite (rest_inodes _ _ E). exact (f_equal (with_inodes (alter f i (inodes s))) E).
Qed.
Lemma rest_touch s : rest (touch s) = rest s.
Proof. done. Qed.
Lemma rest_with_mem m s s' : rest s' = rest s -> rest (with_mem m s') = rest (with_mem m s).
Proof. intros E. exact (f_equal (with_mem m) E). Qed.
Lemma rest_mem_mem m m' s : rest (with_mem m (with_mem m' s)) = rest (with_mem m s).
Proof. done. Qed.
Lemma rest_mem_id s : rest s = rest (with_mem (mem s) s).
Proof. by destruct s. Qed.
Lemma rest_inodes_mem m s s' : rest s' = rest (with_mem m s) -> inodes s' = inodes s.
Proof. intros E. exact (f_equal inodes E). Qed.
Lemma rest_mem_mem_eq m s s' : rest s' = rest (with_mem m s) -> mem s' = m.
Proof. intros E. exact (f_equal mem E). Qed.

Section iget.
Context (dev inum : Z).

Let match_ (ip : inode) : Prop := 0 < i_ref ip /\ i_dev ip = dev /\ i_inum ip = inum.

Lemma iget_loop_eq post : forall pre s empty, inodes s = pre ++ post ->
  iget_loop (seq (length pre) (length post)) dev inum empty s =
    match list_find match_ post with
    | Some (j, _) => Ok (inl (length pre + j)%nat) (upd_inode (length pre + j) (fun ip => with_i_ref (i_ref ip + 1) ip) s)
    | None => Ok (inr (match empty with
                       | Some e => Some e
                       | None => (fun x => (length pre + x.1)%nat) <$> list_find (fun ip => i_ref ip = 0) post
                       end)) s
    end.
Proof.
  induction post as [|ip post IH]; intros pre s empty Hs; cbn [length seq iget_loop list_find]; [by destruct empty|].
  unfold ipget. rewrite bind_gets, Hs, list_lookup_middle by done. change (default inode0 (Some ip)) with ip.
  assert ((i_ref ip >? 0) && (i_dev ip =? dev) && (i_inum ip =? inum) = bool_decide (match_ ip)) as ->.
  { unfold match_. apply eq_true_iff_eq. rewrite bool_decide_eq_true. lia. }
  destruct (decide (match_ ip)) as [Hm|Hm].
  { rewrite bool_decide_eq_true_2, ipset_eq, bind_modify by done. by rewrite Nat.add_0_r. }
  rewrite bool_decide_eq_false_2 by done. specialize (IH (pre ++ [ip]) s). rewrite length_app, Nat.add_1_r, <- app_assoc in IH.
  rewrite IH by done. clear IH. destruct (list_find match_ post) as [[j x]|]; cbn [fmap option_fmap option_map prod_map fst].
  - by replace (length pre + S j)%nat with (S (length pre) + j)%nat by lia.
  - do 2 f_equal. destruct empty as [e|]; [done|]. destruct (Z.eqb_spec (i_ref ip) 0) as [E0|E0].
    + rewrite decide_True by done. cbn. by rewrite Nat.add_0_r.
    + rewrite decide_False by done. destruct (list_find _ post) as [[j x]|]; cbn; [|done]. do 2 f_equal. lia.
Qed.

(** [iget] under its lock. *)
Lemma iget_eq s : hart_ok s -> lock_free L_itable s -> length (inodes s) = NINODE ->
  match iget_pick (inodes s) dev inum with
  | Some (i, f) => iget dev inum s = Ok i (upd_inode i f (touch s))
  | None => exists s', iget dev inum s = Panic "iget: no inodes" s'
  end.
Proof.
  intros Hh Hf Hl. pose proof (iget_loop_eq (inodes s) [] (take_lock L_itable s) None eq_refl) as E. rewrite Hl in E. cbn [length] in E.
  assert (forall i f, release L_itable (upd_inode i f (take_lock L_itable s)) = Ok tt (upd_inode i f (touch s))) as Hrel.
  { intros i f. apply (release_framed (upd_inode i f)); [apply upd_inode_framed|done|done]. }
  unfold iget_pick. fold match_. destruct (list_find match_ (inodes s)) as [[j x]|] eqn:E1.
  - unfold iget. rewrite (bind_ok _ _ _ _ _ (acquire_eq _ s Hh Hf)), (bind_ok _ _ _ _ _ E). cbn [Nat.add].
    by rewrite (bind_ok _ _ _ _ _ (Hrel j _)).
  - destruct (list_find (fun ip => i_ref ip = 0) (inodes s)) as [[j x]|]; cbn [fmap option_fmap option_map Nat.add fst] in E |- *.
    + unfold iget. rewrite (bind_ok _ _ _ _ _ (acquire_eq _ s Hh Hf)), (bind_ok _ _ _ _ _ E), !ipset_eq.
      rewrite !bind_modify, !upd_inode_upd. by rewrite (bind_ok _ _ _ _ _ (Hrel j _)).
    + eexists. unfold iget. rewrite (bind_ok _ _ _ _ _ (acquire_eq _ s Hh Hf)), (bind_ok _ _ _ _ _ E). reflexivity.
Qed.

End iget.

(** ** Directory entries *)

(** The entry at an offset, and the search for a name. *)
Definition dent (V : Z -> list Z) (ip : inode) (off : Z) : list Z := fdata V ip off DE_SIZE.
Definition is_entry (name e : list Z) : bool := negb (de_inum e =? 0) && bool_decide (name_of name = name_of (de_name e)).
Definition dir_find (V : Z -> list Z) (ip : inode) (name : list Z) : option Z :=
  find (fun off => is_entry name (dent V ip off)) (de_offsets (i_size ip)).

Lemma fdata_bytes V ip off n : (forall bn, Forall byte (V bn)) -> Forall byte (fdata V ip off n).
Proof.
  intros HV. apply Forall_fmap, Forall_forall. intros x _. cbn. unfold fbyte.
  destruct (_ !! _) as [c|] eqn:E; [|done]. cbn. by eapply Forall_lookup_1.
Qed.

Lemma rd_wr_bytes m a l : Forall byte l -> rd_bytes (length l) (wr_bytes m a l) a = l.
Proof.
  intros Hl. apply list_eq_same_length with (length l); [done|by rewrite length_rd_bytes|].
  intros i x y Hi. rewrite rd_bytes_lookup, rd8_wr_bytes, decide_True by lia. replace (a + Z.of_nat i - a) with (Z.of_nat i) by lia.
  rewrite Nat2Z.id. intros [= <-] Hy. rewrite Hy. apply u8_small. by eapply Forall_lookup_1 in Hy; [|exact Hl].
Qed.

(** Memory but for the local variable of the directory functions. *)
Definition same_mem (m m' : memory) : Prop :=
  forall a, a < local_de \/ local_de + DE_SIZE <= a -> rd8 m' a = rd8 m a.

Lemma find_split {A} (P : A -> bool) pre x post :
  Forall (fun y => P y = false) pre -> P x = true -> find P (pre ++ x :: post) = Some x.
Proof. intros Hpre Hx. induction Hpre as [|y pre Hy _ IH]; cbn [app find]; [by rewrite Hx|by rewrite Hy]. Qed.

Lemma find_none_forall {A} (P : A -> bool) l : Forall (fun y => P y = false) l -> find P l = None.
Proof. induction 1 as [|y l Hy _ IH]; cbn [find]; [done|by rewrite Hy]. Qed.

Section dir.
Context `{image} `{environment} `{patience} `{disk_laws}.
Context (Hw : (0 < wakeups)%nat) (dv : Z) (p : nat) (pr : proc) (start : Z) (cap : nat).

Notation txn := (txn dv p pr start cap).
Notation file_ok := (file_ok dv).

(** A directory: whole entries, of bytes. *)
Record dir_ok (V : Z -> list Z) (ip : inode) : Prop := {
  do_file : file_ok V ip;
  do_type : i_type ip = T_DIR;
  do_size : i_size ip mod DE_SIZE = 0;
  do_bytes : forall bn, Forall byte (V bn)
}.

Lemma readi_de_wp V blks i ip off msg s :
  txn V blks [] s -> inodes s !! i = Some ip -> dir_ok V ip -> (length blks < NBUF)%nat ->
  0 <= off -> off + DE_SIZE <= i_size ip ->
  wp (readi_de i off msg) (fun e s' => e = dent V ip off /\ txn V blks [] s' /\
    exists m', same_mem (mem s) m' /\ rest s' = rest (with_mem m' s)) s.
Proof.
  intros T Ei Hd Hr Ho Hsz. pose proof (do_file _ _ Hd) as Hf. pose proof (fo_size _ _ _ Hf) as Hfs.
  change (MAXFILE * BSIZE) with 274432 in Hfs.
  assert (readable ip off DE_SIZE = DE_SIZE) as Er.
  { unfold readable. unfold DE_SIZE in *. rewrite (proj2 (Z.ltb_ge _ _)), (proj2 (Z.leb_gt _ _)) by lia. cbn [orb]. lia. }
  unfold readi_de. apply wp_bind.
  eapply wp_mono; [apply (readi_wp Hw dv p pr start cap V blks i ip); try done; unfold DE_SIZE in *; lia|].
  rewrite Er. intros r s1 (-> & T1 & E1). cbn [Z.eqb negb DE_SIZE]. unfold load_bytes. apply wp_gets.
  rewrite (f_equal mem E1 : mem s1 = _). cbn [stored mem with_mem]. fold (dent V ip off).
  assert (length (dent V ip off) = Z.to_nat DE_SIZE) as El by apply fdata_length.
  split; [rewrite <- El; apply rd_wr_bytes, fdata_bytes, Hd|]. split; [done|].
  exists (wr_bytes (mem s) local_de (dent V ip off)). split; [|done].
  intros a Ha. rewrite rd8_wr_bytes, El, decide_False; [done|]. unfold DE_SIZE in *. lia.
Qed.

Lemma de_offsets_lookup size (k : nat) off :
  size mod DE_SIZE = 0 -> 0 <= size -> de_offsets size !! k = Some off -> 0 <= off /\ off + DE_SIZE <= size.
Proof.
  intros Hm Hs. unfold de_offsets. intros (j & -> & Hj)%list_lookup_fmap_Some. apply lookup_seq in Hj as [-> Hlt]. cbn.
  pose proof (Z.div_mod size DE_SIZE ltac:(done)) as Hd. rewrite Hm in Hd.
  assert ((size + DE_SIZE - 1) / DE_SIZE = size / DE_SIZE) as E.
  { rewrite Hd at 1. unfold DE_SIZE. rewrite Z.add_0_r. replace (16 * (size / 16) + 16 - 1) with (15 + (size / 16) * 16) by lia.
    by rewrite Z.div_add. }
  rewrite E in Hlt. unfold DE_SIZE in *. lia.
Qed.

Lemma tx_upd_inode V blks hs i f s : txn V blks hs s -> txn V blks hs (upd_inode i f s).
Proof.
  intros [[T1 T2 T3] T4 T5 T6 T7 T8 T9 T10]. split; try done. split; [|done|done].
  eapply idle_frame; [..|exact T1]; reflexivity.
Qed.

Lemma same_mem_trans m1 m2 m3 : same_mem m1 m2 -> same_mem m2 m3 -> same_mem m1 m3.
Proof. intros Ha Hb a Hr. by rewrite Hb, Ha. Qed.

(** The promise of [dirlookup]. *)
Definition lookup_post (V : Z -> list Z) (blks : list Z) (ip : inode) (name : list Z) (s : kst)
    (r : option (nat * Z)) (s' : kst) : Prop :=
  txn V blks [] s' /\ exists m', same_mem (mem s) m' /\
  match dir_find V ip name with
  | None => r = None /\ rest s' = rest (with_mem m' s)
  | Some off => exists i f, iget_pick (inodes s) dv (de_inum (dent V ip off)) = Some (i, f) /\
      r = Some (i, off) /\ rest s' = rest (upd_inode i f (with_mem m' s))
  end.

(** What [dirlookup] tests of an entry. *)
Lemma is_entry_eq V ip name off :
  (forall bn, Forall byte (V bn)) -> Forall byte name -> Z.of_nat (length name) < src_base ->
  is_entry name (dent V ip off) =
    negb (de_inum (dent V ip off) =? 0) && (namecmp name (de_name (dent V ip off)) =? 0).
Proof.
  intros HV Hn Hl. unfold is_entry. f_equal. apply eq_true_iff_eq. rewrite bool_decide_eq_true, Z.eqb_eq. symmetry.
  apply namecmp_spec; [done| |done]. by apply Forall_take, Forall_drop, fdata_bytes.
Qed.

(** The name was found: the inode comes out of the table. *)
Lemma lookup_hit V blks dp ip off m s s2 :
  txn V blks [] s2 -> inodes s !! dp = Some ip -> i_dev ip = dv -> length (inodes s) = NINODE ->
  is_Some (iget_pick (inodes s) dv (de_inum (dent V ip off))) -> rest s2 = rest (with_mem m s) ->
  wp (ip0 <- ipget dp;; i <- iget (i_dev ip0) (de_inum (dent V ip off));; ret (Some (i, off)))%M
    (fun r s' => txn V blks [] s' /\ exists (res : nat * Z) i f, r = Some res /\
      iget_pick (inodes s) dv (de_inum (dent V ip off)) = Some (i, f) /\ res = (i, off) /\
      rest s' = rest (upd_inode i f (with_mem m s))) s2.
Proof.
  intros T Ei Hd Hni [[i f] Hpick] E. pose proof (rest_inodes_mem _ _ _ E) as Ei2.
  apply wp_bind. eapply ipget_wp; [by rewrite Ei2|]. rewrite Hd. apply wp_bind.
  pose proof (st_idle _ _ _ _ _ _ _ (tx_store _ _ _ _ _ _ _ _ _ T)) as Hi.
  pose proof (iget_eq dv (de_inum (dent V ip off)) s2 (idle_hart _ _ _ _ Hi) (id_locks _ _ _ _ Hi L_itable eq_refl)) as Eg.
  rewrite Ei2, Hpick in Eg. eapply wp_eq; [by apply Eg|]. apply wp_ret. split; [by apply tx_upd_inode, tx_touch|].
  exists (i, off), i, f. split; [done|]. split; [done|]. split; [done|]. apply rest_upd_inode. by rewrite rest_touch.
Qed.

(** The state while no entry has matched: only the local variable has changed. *)
Definition searching (V : Z -> list Z) (blks : list Z) (s s1 : kst) : Prop :=
  txn V blks [] s1 /\ exists m, same_mem (mem s) m /\ rest s1 = rest (with_mem m s).

Lemma searching_de V blks i ip off msg s s1 :
  searching V blks s s1 -> inodes s !! i = Some ip -> dir_ok V ip -> (length blks < NBUF)%nat ->
  0 <= off -> off + DE_SIZE <= i_size ip ->
  wp (readi_de i off msg) (fun e s' => e = dent V ip off /\ searching V blks s s') s1.
Proof.
  intros (T1 & m1 & Hm1 & E1) Ei Hd Hr Ho Hsz. pose proof (rest_inodes_mem _ _ _ E1) as Ei1.
  eapply wp_mono; [apply (readi_de_wp V blks i ip); try done; by rewrite Ei1|].
  intros e s2 (-> & T2 & m2 & Hm2 & E2). split; [done|]. split; [done|]. exists m2.
  rewrite (rest_mem_mem_eq _ _ _ E1) in Hm2. split; [by eapply same_mem_trans|].
  by rewrite E2, (rest_with_mem m2 _ _ E1), rest_mem_mem.
Qed.

Lemma dirlookup_wp V blks dp ip name s :
  txn V blks [] s -> inodes s !! dp = Some ip -> dir_ok V ip -> (length blks < NBUF)%nat ->
  length (inodes s) = NINODE -> Forall byte name -> Z.of_nat (length name) < src_base ->
  (forall off, dir_find V ip name = Some off -> is_Some (iget_pick (inodes s) dv (de_inum (dent V ip off)))) ->
  wp (dirlookup dp name) (lookup_post V blks ip name s) s.
Proof.
  intros T Ei Hd Hr Hni Hnb Hnl Hroom. pose proof (do_file _ _ Hd) as Hf. pose proof (fo_size _ _ _ Hf) as Hfs.
  unfold dirlookup. apply wp_bind. eapply ipget_wp; [exact Ei|]. rewrite (do_type _ _ Hd), Z.eqb_refl. cbn [negb].
  unfold lookup_post, dir_find in *.
  apply (wp_searchM _ _ (fun pre s1 => searching V blks s s1 /\ Forall (fun off => is_entry name (dent V ip off) = false) pre)).
  - split; [|constructor]. split; [done|]. exists (mem s). split; [done|apply rest_mem_id].
  - intros pre off post s1 El (Hs1 & Hpre).
    assert (de_offsets (i_size ip) !! length pre = Some off) as Hoff by (rewrite El; by apply list_lookup_middle).
    apply de_offsets_lookup in Hoff as [Ho1 Ho2]; [|apply Hd|lia].
    apply wp_bind. eapply wp_mono; [by apply (searching_de V blks dp ip off _ s)|]. intros e s2 (-> & Hs2).
    pose proof (is_entry_eq V ip name off (do_bytes _ _ Hd) Hnb Hnl) as EP.
    destruct (de_inum (dent V ip off) =? 0); cbn [negb andb] in EP; [apply wp_ret; split; [done|by apply Forall_app; repeat constructor]|].
    destruct (namecmp name (de_name (dent V ip off)) =? 0);
      [|apply wp_ret; split; [done|by apply Forall_app; repeat constructor]].
    pose proof (find_split (fun off => is_entry name (dent V ip off)) pre off post Hpre EP) as Efind. rewrite <- El in Efind.
    rewrite Efind in *. destruct Hs2 as (T2 & m2 & Hm2 & E2).
    eapply wp_mono; [exact (lookup_hit V blks dp ip off m2 s s2 T2 Ei (fo_dev _ _ _ Hf) Hni (Hroom off eq_refl) E2)|].
    intros r s3 (T3 & res & i & f & -> & Hpick & -> & E3). split; [done|]. exists m2. split; [done|]. by exists i, f.
  - intros s1 ((T1 & m1 & Hm1 & E1) & Hpre). split; [done|]. exists m1. split; [done|].
    by rewrite (find_none_forall _ _ Hpre).
Qed.

(** C19: [dirlookup] searches the directory as the list of its entries.  It reads every entry up to the first one in use
    whose name is the wanted one, names being compared up to the first NUL and in the first [DIRSIZ] characters only;
    it returns this entry's offset and the table entry of its inode, taken with [iget] - the one
    in use for the inode number, with one reference more, or the first free one - and nothing if there
    is no such entry.  Memory changes only in the local variable the entries are read into. *)
Theorem dirlookup_correct V blks dp ip name s :
  txn V blks [] s -> inodes s !! dp = Some ip -> dir_ok V ip -> (length blks < NBUF)%nat ->
  length (inodes s) = NINODE -> Forall byte name -> Z.of_nat (length name) < src_base ->
  (forall off, dir_find V ip name = Some off -> is_Some (iget_pick (inodes s) dv (de_inum (dent V ip off)))) ->
  exists r s' m', dirlookup dp name s = Ok r s' /\ txn V blks [] s' /\ same_mem (mem s) m' /\
  match dir_find V ip name with
  | None => r = None /\ rest s' = rest (with_mem m' s)
  | Some off => exists i f, iget_pick (inodes s) dv (de_inum (dent V ip off)) = Some (i, f) /\
      r = Some (i, off) /\ rest s' = rest (upd_inode i f (with_mem m' s))
  end.
Proof.
  intros T Ei Hd Hr Hni Hnb Hnl Hroom. pose proof (dirlookup_wp V blks dp ip name s T Ei Hd Hr Hni Hnb Hnl Hroom) as Hwp.
  apply wp_ok in Hwp as (r & s' & E & T' & m' & Hm & Hs). by exists r, s', m'.
Qed.

End dir.
