(* ===== verification/Mkfs.v ===== *)
(** * Building a file system image: mkfs/mkfs.c

    The program that writes the disk the kernel boots from.  The image is a file of the host, a
    sequence of sectors of [BSIZE] bytes; [die], a failed [assert] and the message on wrong usage
    end the program, and are the result [Panic].  What the program prints on the host's terminal is left out.
    The host stores integers in little-endian order. *)

From S2P Require Import Prelude Riscv Memory CString Bytes State Uart Printf Fs.

(** The image, the number of its sectors, and the counters of the program. *)
Record mkfs := MkMkfs {
  img : gmap Z (list Z);
  isize : Z;
  freeinode : Z;
  freeblock : Z;
}.

Definition with_img (m : gmap Z (list Z)) (n : Z) (r : mkfs) : mkfs := MkMkfs m n (freeinode r) (freeblock r).
Definition with_freeinode (v : Z) (r : mkfs) : mkfs := MkMkfs (img r) (isize r) v (freeblock r).
Definition with_freeblock (v : Z) (r : mkfs) : mkfs := MkMkfs (img r) (isize r) (freeinode r) v.

Notation P := (M mkfs).

Definition NINODES : Z := 200.
Definition nbitmap : Z := FSSIZE / (BSIZE * 8) + 1.
Definition ninodeblocks : Z := NINODES / IPB + 1.
Definition nlog : Z := LOGSIZE.
Definition nmeta : Z := 2 + nlog + ninodeblocks + nbitmap.
Definition nblocks : Z := FSSIZE - nmeta.

Definition zeroes : list Z := replicate (Z.to_nat BSIZE) 0.

(** The globals as the program starts. *)
Definition mkfs0 : mkfs := MkMkfs ∅ 0 1 0.

(** [y] has the bytes of [x] in the order of the target. *)
Definition xshort (x : Z) : Z := le [u8 x; u8 (Z.shiftr x 8)].
Definition xint (x : Z) : Z := le [u8 x; u8 (Z.shiftr x 8); u8 (Z.shiftr x 16); u8 (Z.shiftr x 24)].

(** The global [sb], after [main] has filled it. *)
Definition sb : superblock :=
  Superblock FSMAGIC (xint FSSIZE) (xint nblocks) (xint NINODES) (xint nlog) (xint 2) (xint (2 + nlog))
    (xint (2 + nlog + ninodeblocks)).

Definition superblock_bytes (s : superblock) : list Z :=
  concat (map (unle 4) [sb_magic s; sb_size s; sb_nblocks s; sb_ninodes s; sb_nlog s; sb_logstart s;
                        sb_inodestart s; sb_bmapstart s]).

(** [struct dinode]. *)
Record dinode := Dinode { type : Z; major : Z; minor : Z; nlink : Z; size : Z; addrs : list Z }.

Definition with_size (v : Z) (d : dinode) : dinode := Dinode (type d) (major d) (minor d) (nlink d) v (addrs d).
Definition with_addr (k v : Z) (d : dinode) : dinode :=
  Dinode (type d) (major d) (minor d) (nlink d) (size d) (<[Z.to_nat k := v]> (addrs d)).
Definition addr (d : dinode) (k : Z) : Z := default 0 (addrs d !! Z.to_nat k).

Definition dinode_bytes (d : dinode) : list Z :=
  unle 2 (type d) ++ unle 2 (major d) ++ unle 2 (minor d) ++ unle 2 (nlink d) ++ unle 4 (size d) ++
  concat (map (unle 4) (addrs d)).
Definition dinode_at (d : list Z) (o : Z) : dinode :=
  Dinode (i16 (get16 d o)) (i16 (get16 d (o + 2))) (i16 (get16 d (o + 4))) (i16 (get16 d (o + 6)))
    (get32 d (o + 8)) (dinode_addrs d o).

(** ** Sectors *)

Definition die {A} (msg : string) : P A := fun s => Panic msg s.
Definition assert (b : bool) : P unit := if b then ret tt else die "assert".

(** The host's files: a path that can be opened gives the results of the calls of [read]; [io_error] are the sectors
    of the image the host cannot read or write. *)
Class host := { files : list Z -> option (list (list Z)); can_create : list Z -> bool; io_error : Z -> bool }.

Section mkfs.
Context `{host}.

(** The offset [sec * BSIZE] is a [uint]. *)
Definition sector (sec : Z) : Z := u32 (sec * BSIZE) / BSIZE.

Definition wsect (sec : Z) (buf : list Z) : P unit :=
  let o := sector sec in
  if io_error o then die "write" else
  modify (fun s => with_img (<[o := buf]> (img s)) (Z.max (isize s) (o + 1)) s).

Definition rsect (sec : Z) : P (list Z) :=
  let o := sector sec in
  n <- gets isize;;
  if io_error o || (n <=? o) then die "read" else
  gets (fun s => default zeroes (img s !! o)).

(** ** Inodes *)

Definition winode (inum : Z) (ip : dinode) : P unit :=
  let bn := IBLOCK inum sb in
  buf <- rsect bn;;
  wsect bn (patch buf (di_off inum) (dinode_bytes ip)).

Definition rinode (inum : Z) : P dinode :=
  let bn := IBLOCK inum sb in
  buf <- rsect bn;;
  ret (dinode_at buf (di_off inum)).

Definition ialloc (type : Z) : P Z :=
  inum <- gets freeinode;;
  modify (with_freeinode (u32 (inum + 1)));;
  winode inum (Dinode (i16 (xshort type)) 0 0 (i16 (xshort 1)) (xint 0) (replicate 13 0));;
  ret inum.

Definition balloc (used : Z) : P unit :=
  assert (used <? BSIZE * 8);;
  let buf := fold_left (fun buf i => set8 buf (i / 8) (Z.lor (get8 buf (i / 8)) (Z.shiftl 1 (i mod 8))))
               (map Z.of_nat (seq 0 (Z.to_nat used))) zeroes in
  wsect (sb_bmapstart sb) buf.

(** [freeblock++]. *)
Definition next_block : P Z :=
  b <- gets freeblock;;
  modify (with_freeblock (u32 (b + 1)));;
  ret b.

(** ** Contents *)

(** The block that holds block [fbn] of the file, allocated if need be. *)
Definition block_of (din : dinode) (fbn : Z) : P (dinode * Z) :=
  if fbn <? NDIRECT then
    din <- (if xint (addr din fbn) =? 0 then b <- next_block;; ret (with_addr fbn (xint b) din) else ret din);;
    ret (din, xint (addr din fbn))
  else
    din <- (if xint (addr din NDIRECT) =? 0 then b <- next_block;; ret (with_addr NDIRECT (xint b) din) else ret din);;
    indirect <- rsect (xint (addr din NDIRECT));;
    let k := 4 * (fbn - NDIRECT) in
    indirect <- (if get32 indirect k =? 0 then
                   b <- next_block;;
                   let indirect := set32 indirect k (xint b) in
                   wsect (xint (addr din NDIRECT)) indirect;;
                   ret indirect
                 else ret indirect);;
    ret (din, xint (get32 indirect k)).

(** The loop of [iappend], with the bytes that are left; every round takes at least one. *)
Fixpoint iappend_loop (fuel : nat) (din : dinode) (off : Z) (p : list Z) : P (dinode * Z) :=
  match fuel with
  | O => fun _ => NoFuel
  | S fuel =>
      if Z.of_nat (length p) =? 0 then ret (din, off) else
      let fbn := off / BSIZE in
      assert (fbn <? MAXFILE);;
      r <- block_of din fbn;;
      let n1 := Z.min (Z.of_nat (length p)) (u32 ((fbn + 1) * BSIZE - off)) in
      buf <- rsect r.2;;
      wsect r.2 (patch buf (off - fbn * BSIZE) (take (Z.to_nat n1) p));;
      iappend_loop fuel r.1 (u32 (off + n1)) (drop (Z.to_nat n1) p)
  end.

Definition iappend (inum : Z) (xp : list Z) : P unit :=
  din <- rinode inum;;
  let off := xint (size din) in
  r <- iappend_loop (S (length xp)) din off xp;;
  winode inum (with_size (xint r.2) r.1).

(** ** The program *)

(** [struct dirent]. *)
Definition dirent_bytes (inum : Z) (name : list Z) : list Z := unle 2 inum ++ name.

(** [strcpy] of a short name into the cleared array. *)
Definition strcpy_name (s : list Z) : list Z := patch (replicate (Z.to_nat DIRSIZ) 0) 0 (s ++ [0]).

Definition UNDERSCORE : Z := 95.

(** The path without its leading directory. *)
Definition shorten (path : list Z) : list Z :=
  if bool_decide (take 5 path = chars "user/") then drop 5 path else path.

(** [while((cc = read(fd, buf, sizeof(buf))) > 0)]. *)
Fixpoint append_all (inum : Z) (reads : list (list Z)) : P unit :=
  match reads with
  | [] => ret tt
  | buf :: reads => if Z.of_nat (length buf) =? 0 then ret tt else iappend inum buf;; append_all inum reads
  end.

Definition add_file (rootino : Z) (path : list Z) : P unit :=
  let shortname := shorten path in
  assert (bool_decide (SLASH ∉ shortname));;
  match files path with
  | None => die "open"
  | Some reads =>
      let shortname := if hd 0 shortname =? UNDERSCORE then drop 1 shortname else shortname in
      inum <- ialloc T_FILE;;
      iappend rootino (dirent_bytes (xshort inum) (strncpy_arr (replicate (Z.to_nat DIRSIZ) 0) (shortname ++ [0]) DIRSIZ));;
      append_all inum reads
  end.

(** The size of the root directory is rounded up. *)
Definition fix_size (rootino : Z) : P unit :=
  din <- rinode rootino;;
  let off := xint (size din) in
  let off := u32 ((off / BSIZE + 1) * BSIZE) in
  winode rootino (with_size (xint off) din).

Definition main (argv : list (list Z)) : P unit :=
  match argv with
  | _ :: image :: paths =>
      if negb (can_create image) then die "create" else
      modify (with_freeblock nmeta);;
      forM (map Z.of_nat (seq 0 (Z.to_nat FSSIZE))) (fun i => wsect i zeroes);;
      wsect 1 (patch zeroes 0 (superblock_bytes sb));;
      rootino <- ialloc T_DIR;;
      assert (rootino =? ROOTINO);;
      iappend rootino (dirent_bytes (xshort rootino) (strcpy_name (chars ".")));;
      iappend rootino (dirent_bytes (xshort rootino) (strcpy_name (chars "..")));;
      forM paths (add_file rootino);;
      fix_size rootino;;
      used <- gets freeblock;;
      balloc (i32 used)
  | _ => die "Usage: mkfs fs.img files..."
  end.

End mkfs.
