(* ===== verification/MkfsFile.v ===== *)
(** * The files of an image under construction

    Every file of the image is a list of data blocks, found through the direct and indirect block numbers of its
    inode, that hold its contents; the loop of [iappend] adds bytes at the end and takes new blocks from
    [freeblock] on; [winode] and [rinode] write and read the inode table. *)

From S2P Require Import Prelude Riscv Memory CString Bytes State Spinlock Sched SchedSpec Sleeplock SleepSpec.
From S2P Require Import Kalloc Vm Uart Printf PrintfSpec Console Bio BioRing BioSpec Log LogDisk LogSpec LogTxn FsTxn Fs FsAlloc FsFile FsDir Mkfs.

(** ** Integers *)

Lemma u8_shift x n : 0 <= n -> u8 (Z.shiftr x n) = (x / 2 ^ n) mod 256.
Proof. intros Hn. unfold u8. by rewrite Z.shiftr_div_pow2. Qed.

Lemma xshort_eq x : xshort x = u16 x.
Proof. unfold xshort, u16. rewrite u8_shift by lia. unfold u8. rewrite <- (le_unle 2 x : _ = x mod 2 ^ 16). done. Qed.

Lemma xint_eq x : xint x = u32 x.
Proof.
  unfold xint, u32. rewrite !u8_shift by lia. unfold u8. rewrite <- (le_unle 4 x : _ = x mod 2 ^ 32). cbn [unle le].
  rewrite !Z.div_div by lia. done.
Qed.

Lemma xint_small x : 0 <= x < 2 ^ 32 -> xint x = x.
Proof. intros Hx. by rewrite xint_eq, u32_small. Qed.

(** ** Inodes in a block *)

(** Fields in the range of their types. *)
Record dinode_ok (d : dinode) : Prop := {
  dk_short : - 2 ^ 15 <= type d < 2 ^ 15 /\ - 2 ^ 15 <= major d < 2 ^ 15 /\ - 2 ^ 15 <= minor d < 2 ^ 15 /\ - 2 ^ 15 <= nlink d < 2 ^ 15;
  dk_size : 0 <= size d < 2 ^ 32;
  dk_addrs : length (addrs d) = 13%nat /\ Forall (fun a => 0 <= a < 2 ^ 32) (addrs d);
}.

Lemma slice_in_patch d o bs a n :
  0 <= o -> 0 <= a -> 0 <= n -> a + n <= Z.of_nat (length bs) -> o + Z.of_nat (length bs) <= Z.of_nat (length d) ->
  slice (o + a) n (patch d o bs) = slice a n bs.
Proof.
  intros Ho Ha Hn Hbs Hd. rewrite <- (slice_patch_same d o bs) at 2 by lia. by rewrite slice_slice by lia.
Qed.

Lemma dinode_bytes_length d : length (addrs d) = 13%nat -> length (dinode_bytes d) = 64%nat.
Proof.
  destruct d as [t ma mi nl sz ad]. cbn [addrs]. intros Hl. unfold dinode_bytes. do 13 (destruct ad as [|? ad]; [discriminate Hl|]).
  by destruct ad.
Qed.

Lemma dinode_at_ext d d' o o' :
  (forall a n, 0 <= a -> 0 <= n -> a + n <= 64 -> slice (o + a) n d = slice (o' + a) n d') -> dinode_at d o = dinode_at d' o'.
Proof.
  intros E. unfold dinode_at, get16, get32. rewrite <- !E by lia. pose proof (E 0 2) as E0. rewrite !Z.add_0_r in E0. rewrite <- E0 by lia.
  f_equal. unfold dinode_addrs. apply list_fmap_ext. intros i k Hk%lookup_seq. unfold get32. rewrite <- !Z.add_assoc. by rewrite E by lia.
Qed.

Lemma i16_u16 x : - 2 ^ 15 <= x < 2 ^ 15 -> i16 (x mod 256 ^ Z.of_nat 2) = x.
Proof. intros Hx. unfold i16. change (256 ^ Z.of_nat 2) with (2 ^ 16). rewrite Zplus_mod_idemp_l, Z.mod_small by lia. lia. Qed.

Lemma dinode_at_bytes x : dinode_ok x -> dinode_at (dinode_bytes x) 0 = x.
Proof.
  destruct x as [t ma mi nl sz ad]. intros [(K1 & K2 & K3 & K4) K5 [K6 K7]]. cbn [type major minor nlink size addrs] in *.
  do 13 (destruct ad as [|? ad]; [discriminate K6|]). destruct ad; [|discriminate K6]. clear K6.
  assert (forall v, 0 <= v < 2 ^ 32 -> le (unle 4 v) = v) as Hw by (intros v Hv; rewrite le_unle; by apply Z.mod_small).
  assert (forall v, - 2 ^ 15 <= v < 2 ^ 15 -> i16 (le (unle 2 v)) = v) as Hs by (intros v Hv; rewrite le_unle; by apply i16_u16).
  unfold dinode_at, dinode_addrs. cbn [seq map]. rewrite !Forall_cons in K7. destruct_and! K7. f_equal.
  - exact (Hs t K1).
  - exact (Hs ma K2).
  - exact (Hs mi K3).
  - exact (Hs nl K4).
  - exact (Hw sz K5).
  - repeat (apply (f_equal2 cons); [match goal with |- _ = ?v => apply (Hw v); lia end|]). done.
Qed.

(** Writing one inode, and reading it or another one. *)
Lemma dinode_write d inum x inum' :
  dinode_ok x -> length d = Z.to_nat BSIZE ->
  dinode_at (patch d (di_off inum) (dinode_bytes x)) (di_off inum') =
    if decide (inum' mod IPB = inum mod IPB) then x else dinode_at d (di_off inum').
Proof.
  intros Hx Hd. pose proof (Z.mod_pos_bound inum IPB ltac:(done)). pose proof (Z.mod_pos_bound inum' IPB ltac:(done)).
  pose proof (dinode_bytes_length x (proj1 (dk_addrs _ Hx))) as Hl. change (Z.to_nat BSIZE) with 1024%nat in Hd. change IPB with 16 in *.
  unfold di_off. change IPB with 16. destruct (decide _) as [->|Hne].
  - rewrite <- (dinode_at_bytes x Hx) at 2. apply dinode_at_ext. intros a n Ha Hn Hs. by apply slice_in_patch; lia.
  - apply dinode_at_ext. intros a n Ha Hn Hs. apply slice_patch_ne; lia.
Qed.

(** ** Sectors *)

(** The blocks of the image. *)
Definition blocks_of (s : mkfs) : Z -> list Z := dblock (img s).

(** The image has all its sectors. *)
Record image_ok (s : mkfs) : Prop := {
  io_size : isize s = FSSIZE;
  io_len : forall bn, length (blocks_of s bn) = Z.to_nat BSIZE;
  io_bytes : forall bn, Forall byte (blocks_of s bn);
}.

Definition put (bn : Z) (d : list Z) (s : mkfs) : mkfs := with_img (<[bn := d]> (img s)) FSSIZE s.

Lemma blocks_put bn d s b : blocks_of (put bn d s) b = setv (blocks_of s) bn d b.
Proof.
  unfold blocks_of, put, dblock. cbn [img with_img]. destruct (decide (b = bn)) as [->|Hne].
  - by rewrite lookup_insert_eq, setv_eq.
  - by rewrite lookup_insert_ne, setv_ne.
Qed.

Lemma put_ok bn d s : image_ok s -> length d = Z.to_nat BSIZE -> Forall byte d -> image_ok (put bn d s).
Proof.
  intros [H1 H2 H3] Hl Hd. split; [done| |]; intros b; rewrite blocks_put; (destruct (decide (b = bn)) as [->|Hne]; [by rewrite setv_eq|by rewrite setv_ne]).
Qed.

Lemma sector_small bn : 0 <= bn < FSSIZE -> sector bn = bn.
Proof. intros Hb. unfold sector. rewrite u32_small by (unfold FSSIZE, BSIZE in *; lia). by apply Z.div_mul. Qed.

(** ** Files *)

Ltac flia := unfold MAXFILE in *; change NINDIRECT with 256 in *; change NDIRECT with 12 in *; unfold BSIZE in *; lia.

(** The blocks for [n] bytes, and with the indirect block. *)
Definition nblk (n : Z) : Z := (n + BSIZE - 1) / BSIZE.
Definition with_indirect (k : Z) : Z := if NDIRECT <? k then k + 1 else k.

(** [data] are the blocks of the file in order; they hold the bytes [c], followed by zeros. *)
Record file_body (V : Z -> list Z) (din : dinode) (c data : list Z) : Prop := {
  fb_room : Z.of_nat (length c) <= Z.of_nat (length data) * BSIZE /\ Z.of_nat (length data) <= MAXFILE;
  fb_addrs : length (addrs din) = 13%nat;
  fb_direct : forall k, 0 <= k < NDIRECT -> addr din k = default 0 (data !! Z.to_nat k);
  fb_ind : addr din NDIRECT = 0 <-> Z.of_nat (length data) <= NDIRECT;
  fb_indirect : NDIRECT < Z.of_nat (length data) -> forall k, NDIRECT <= k < MAXFILE ->
    get32 (V (addr din NDIRECT)) (4 * (k - NDIRECT)) = default 0 (data !! Z.to_nat k);
  fb_data : forall (k : nat) b, data !! k = Some b -> forall j : nat, Z.of_nat j < BSIZE ->
    V b !! j = Some (default 0 (c !! (k * Z.to_nat BSIZE + j)%nat));
}.

(** The blocks that belong to a file. *)
Definition held (din : dinode) (data : list Z) : list Z := data ++ (if addr din NDIRECT =? 0 then [] else [addr din NDIRECT]).

(** A file while bytes are added to it: its blocks are different, below [freeblock], and those above are untouched. *)
Record building (s : mkfs) (din : dinode) (c data : list Z) : Prop := {
  bd_img : image_ok s;
  bd_room : nmeta <= freeblock s <= FSSIZE;
  bd_fresh : forall b, freeblock s <= b < FSSIZE -> blocks_of s b = zeroes;
  bd_body : file_body (blocks_of s) din c data;
  bd_held : Forall (fun b => nmeta <= b < freeblock s) (held din data);
  bd_nodup : NoDup (held din data);
}.

(** What adding bytes leaves alone. *)
Record grows (s : mkfs) (din : dinode) (data : list Z) (s' : mkfs) (din' : dinode) (data' : list Z) : Prop := {
  gr_inode : freeinode s' = freeinode s;
  gr_block : freeblock s <= freeblock s';
  gr_rest : forall b, b < freeblock s -> b ∉ held din data -> blocks_of s' b = blocks_of s b;
  gr_new : forall b, b ∈ held din' data' -> b ∈ held din data \/ freeblock s <= b;
  gr_head : with_size 0 din' = Dinode (type din) (major din) (minor din) (nlink din) 0 (addrs din');
}.

Lemma appended_trans s din data s1 din1 data1 s2 din2 data2 :
  grows s din data s1 din1 data1 -> grows s1 din1 data1 s2 din2 data2 -> grows s din data s2 din2 data2.
Proof.
  intros [A1 A2 A3 A4 A5] [B1 B2 B3 B4 B5]. split.
  - congruence.
  - lia.
  - intros b Hb Hn. rewrite B3, A3; [done|done|done|lia|]. intros [?|?]%A4; [done|lia].
  - intros b [[?|?]%A4|?]%B4; [by left|by right|right; lia].
  - injection A5 as E1 E2 E3 E4. injection B5 as F1 F2 F3 F4. unfold with_size. congruence.
Qed.

Lemma appended_refl s din data : grows s din data s din data.
Proof. split; try done. intros b Hb. by left. Qed.

(** *** More blocks *)

Lemma addr_with k v d j : length (addrs d) = 13%nat -> 0 <= k < 13 -> 0 <= j -> addr (with_addr k v d) j = if decide (j = k) then v else addr d j.
Proof.
  intros Hl Hk Hj. unfold addr, with_addr. cbn [addrs]. destruct (decide (j = k)) as [->|Hne].
  - by rewrite list_lookup_insert_eq by lia.
  - by rewrite list_lookup_insert_ne by lia.
Qed.

(** The contents do not change when an empty block is added at the end. *)
Lemma data_snoc (V : Z -> list Z) (c data : list Z) b :
  Z.of_nat (length c) <= Z.of_nat (length data) * BSIZE -> V b = zeroes ->
  (forall (k : nat) b, data !! k = Some b -> forall j : nat, Z.of_nat j < BSIZE ->
    V b !! j = Some (default 0 (c !! (k * Z.to_nat BSIZE + j)%nat))) ->
  forall (k : nat) b', (data ++ [b]) !! k = Some b' -> forall j : nat, Z.of_nat j < BSIZE ->
    V b' !! j = Some (default 0 (c !! (k * Z.to_nat BSIZE + j)%nat)).
Proof.
  intros Hc Hz HV k b' Hk j Hj. apply lookup_app_Some in Hk as [Hk|[Hge Hk]]; [by apply HV|].
  apply list_lookup_singleton_Some in Hk as [Hk <-]. rewrite Hz. unfold zeroes. rewrite lookup_replicate_2 by lia.
  rewrite (lookup_ge_None_2 c); [done|]. unfold BSIZE in *. nia.
Qed.

Lemma lookup_snoc_default (l : list Z) x k : default 0 ((l ++ [x]) !! k) = if decide (k = length l) then x else default 0 (l !! k).
Proof.
  destruct (decide (k = length l)) as [->|Hne]; [by rewrite list_lookup_middle|].
  destruct (decide (k < length l)%nat); [by rewrite lookup_app_l|].
  rewrite !lookup_ge_None_2; [done|lia|rewrite length_app; cbn; lia].
Qed.

Lemma body_direct V din c data b :
  file_body V din c data -> Z.of_nat (length data) < NDIRECT -> V b = zeroes ->
  file_body V (with_addr (Z.of_nat (length data)) b din) c (data ++ [b]).
Proof.
  intros [[B1 B1'] B2 B3 B4 B5 B6] Hk Hz. split.
  - rewrite length_app. cbn [length]. flia.
  - cbn. by rewrite length_insert.
  - intros k Hkk. rewrite addr_with by flia. rewrite lookup_snoc_default, B3 by done.
    destruct (decide (k = Z.of_nat (length data))), (decide (Z.to_nat k = length data)); done || lia.
  - rewrite addr_with, decide_False, B4, length_app by flia. cbn [length]. flia.
  - rewrite length_app. cbn [length]. flia.
  - by apply data_snoc.
Qed.

(** A block whose number goes into the indirect block [ind]. *)
Lemma body_indirect V din din' c data b ind :
  file_body V din c data -> NDIRECT <= Z.of_nat (length data) < MAXFILE -> V b = zeroes -> 0 < b < 2 ^ 32 -> ind <> 0 ->
  length (addrs din') = 13%nat -> (forall k, 0 <= k < NDIRECT -> addr din' k = addr din k) -> addr din' NDIRECT = ind ->
  (forall k, NDIRECT <= k < MAXFILE -> get32 (V ind) (4 * (k - NDIRECT)) = default 0 (data !! Z.to_nat k)) ->
  ind ∉ data -> ind <> b -> length (V ind) = Z.to_nat BSIZE ->
  file_body (setv V ind (set32 (V ind) (4 * (Z.of_nat (length data) - NDIRECT)) b)) din' c (data ++ [b]).
Proof.
  intros [[B1 B1'] B2 B3 B4 B5 B6] Hk Hz Hb Hind Ha Hd Hi Hent Hnd Hnb Hl. split.
  - rewrite length_app. cbn [length]. flia.
  - done.
  - intros k Hkk. rewrite Hd, B3, lookup_snoc_default, decide_False by flia. done.
  - rewrite Hi, length_app. cbn [length]. flia.
  - intros _ k Hkk. rewrite Hi, setv_eq, lookup_snoc_default.
    destruct (decide (Z.to_nat k = length data)) as [E|Hne].
    + replace k with (Z.of_nat (length data)) by flia. rewrite get32_set32, u32_small by flia. done.
    + rewrite get32_set32_ne by flia. by apply Hent.
  - intros k b' Hk' j Hj. rewrite setv_ne; [by eapply data_snoc|].
    intros ->. apply list_elem_of_lookup_2, elem_of_app in Hk' as [?|?%list_elem_of_singleton]; done.
Qed.

(** Only the file's own blocks matter. *)
Lemma body_frame V V' din c data :
  file_body V din c data -> (forall b, b ∈ held din data -> V' b = V b) -> file_body V' din c data.
Proof.
  intros [B1 B2 B3 B4 B5 B6] E. split; try done.
  - intros Hk k Hkk. rewrite E; [by apply B5|]. apply elem_of_app. right.
    rewrite (proj2 (Z.eqb_neq _ _)); [by rewrite ?E; left|]. rewrite B4. lia.
  - intros k b Hk j Hj. rewrite E; [by apply B6|]. apply elem_of_app. left. by eapply list_elem_of_lookup_2.
Qed.

(** *** More bytes *)

Lemma lookup_patch l o bs (j : nat) : 0 <= o -> (Z.to_nat o + length bs <= length l)%nat ->
  patch l o bs !! j = if decide (Z.to_nat o <= j < Z.to_nat o + length bs)%nat then bs !! (j - Z.to_nat o)%nat else l !! j.
Proof.
  intros Ho Hl. unfold patch. destruct (decide (j < Z.to_nat o)%nat).
  - rewrite lookup_app_l, lookup_take_lt, decide_False by (rewrite ?length_take; lia). done.
  - rewrite lookup_app_r, length_take, Nat.min_l by (rewrite ?length_take; lia).
    destruct (decide (j - Z.to_nat o < length bs)%nat).
    + rewrite lookup_app_l, decide_True by lia. done.
    + rewrite lookup_app_r, lookup_drop, decide_False by lia. f_equal. lia.
Qed.

(** Bytes that fit into the block in which the file ends. *)
Lemma body_append V din c data b l :
  let off := Z.of_nat (length c) in
  file_body V din c data -> NoDup (held din data) -> data !! Z.to_nat (off / BSIZE) = Some b ->
  off mod BSIZE + Z.of_nat (length l) <= BSIZE -> length (V b) = Z.to_nat BSIZE ->
  file_body (setv V b (patch (V b) (off mod BSIZE) l)) din (c ++ l) data.
Proof.
  intros off [[B1 B1'] B2 B3 B4 B5 B6] Hnd Hk Hfit Hlb. pose proof (lookup_lt_Some _ _ _ Hk) as Hlt.
  pose proof (Z.mod_pos_bound off BSIZE ltac:(done)) as Hm. pose proof (Z.div_mod off BSIZE ltac:(done)) as Hd.
  assert (0 <= off / BSIZE) as Hq by (apply Z.div_pos; [lia|done]).
  unfold held in Hnd. apply NoDup_app in Hnd as (Hnd & Hdisj & _). split; try done.
  - rewrite length_app. split; [|done]. fold off in B1. flia.
  - intros Hi k Hkk. rewrite setv_ne; [by apply B5|]. intros E.
    apply (Hdisj b); [by eapply list_elem_of_lookup_2|]. rewrite (proj2 (Z.eqb_neq _ _)); [by rewrite ?E; left|]. rewrite B4. lia.
  - intros k' b' Hk' j Hj. destruct (decide (b' = b)) as [->|Hne].
    + assert (k' = Z.to_nat (off / BSIZE)) as -> by by eapply NoDup_lookup. rewrite setv_eq, lookup_patch by (rewrite ?Hlb; flia).
      rewrite (B6 _ _ Hk j Hj), lookup_app. set (x := (Z.to_nat (off / BSIZE) * Z.to_nat BSIZE + j)%nat).
      assert (Z.of_nat x = off / BSIZE * BSIZE + Z.of_nat j) as Ex by (unfold x; flia). clearbody x.
      destruct (c !! x) as [y|] eqn:E.
      * apply lookup_lt_Some in E. rewrite decide_False by flia. done.
      * apply lookup_ge_None in E. destruct (decide _) as [Hin|Hout].
        { replace (j - Z.to_nat (off mod BSIZE))%nat with (x - length c)%nat by flia.
          destruct (lookup_lt_is_Some_2 l (x - length c)%nat) as [y Ey]; [flia|]. by rewrite Ey. }
        rewrite (lookup_ge_None_2 l); [done|]. flia.
    + rewrite setv_ne, (B6 _ _ Hk' j Hj) by done. do 2 f_equal. assert (k' <> Z.to_nat (off / BSIZE)) as Hkne by congruence.
      destruct (decide (k' < Z.to_nat (off / BSIZE))%nat).
      * rewrite lookup_app_l; [done|]. flia.
      * rewrite !lookup_ge_None_2; [done| |]; rewrite ?length_app; flia.
Qed.

Section spec.
Context `{host}.
Hypothesis no_error : forall o, io_error o = false.

Lemma rsect_wp bn s (Q : list Z -> mkfs -> Prop) : image_ok s -> 0 <= bn < FSSIZE -> Q (blocks_of s bn) s -> wp (rsect bn) Q s.
Proof.
  intros Hs Hb HQ. unfold rsect. rewrite sector_small, no_error by done. apply wp_bind, wp_gets.
  rewrite (io_size _ Hs), (proj2 (Z.leb_gt _ _)) by lia. by apply wp_gets.
Qed.

Lemma wsect_wp bn d s (Q : unit -> mkfs -> Prop) : image_ok s -> 0 <= bn < FSSIZE -> Q tt (put bn d s) -> wp (wsect bn d) Q s.
Proof.
  intros Hs Hb HQ. unfold wsect. rewrite sector_small, no_error by done. apply wp_modify.
  rewrite (io_size _ Hs), Z.max_l by lia. exact HQ.
Qed.

(** *** Allocation *)

Lemma next_block_wp s (Q : Z -> mkfs -> Prop) :
  nmeta <= freeblock s < FSSIZE -> Q (freeblock s) (with_freeblock (freeblock s + 1) s) -> wp next_block Q s.
Proof.
  intros Hf HQ. unfold next_block. apply wp_bind, wp_gets, wp_bind, wp_modify, wp_ret.
  rewrite u32_small by (change nmeta with 46 in *; unfold FSSIZE in *; lia). exact HQ.
Qed.

Lemma held_range s din c data b : building s din c data -> b ∈ held din data -> nmeta <= b < freeblock s.
Proof. intros Hb Hin. pose proof (bd_held _ _ _ _ Hb) as Hh. rewrite Forall_forall in Hh. by apply Hh. Qed.

Lemma held_small s din c data b : building s din c data -> b ∈ held din data -> b <> 0 /\ 0 <= b < FSSIZE /\ xint b = b.
Proof.
  intros Hb Hin. pose proof (held_range _ _ _ _ _ Hb Hin) as Hr. pose proof (bd_room _ _ _ _ Hb). change nmeta with 46 in *.
  split; [lia|]. split; [lia|]. apply xint_small. unfold FSSIZE in *. lia.
Qed.

Lemma held_data din (data : list Z) (k : nat) b : data !! k = Some b -> b ∈ held din data.
Proof. intros Hk. apply elem_of_app. left. by eapply list_elem_of_lookup_2. Qed.

Lemma held_ind s din c data : building s din c data -> NDIRECT < Z.of_nat (length data) -> addr din NDIRECT ∈ held din data.
Proof.
  intros Hb Hk. apply elem_of_app. right. rewrite (proj2 (Z.eqb_neq _ _)); [by left|].
  rewrite (fb_ind _ _ _ _ (bd_body _ _ _ _ Hb)). lia.
Qed.

Lemma get32_zeroes k : 0 <= k -> get32 zeroes k = 0.
Proof.
  intros Hk. unfold get32, slice, zeroes. rewrite drop_replicate, take_replicate.
  generalize (Init.Nat.min (Z.to_nat 4) (Z.to_nat BSIZE - Z.to_nat k)). intros n. induction n as [|n IH]; [done|]. cbn [replicate le]. by rewrite IH.
Qed.

(** The block is there already. *)
Lemma block_of_old s din c data (k : nat) b :
  building s din c data -> data !! k = Some b -> block_of din (Z.of_nat k) s = Ok (din, b) s.
Proof.
  intros Hb Hk. pose proof (bd_body _ _ _ _ Hb) as HB. destruct (held_small _ _ _ _ _ Hb (held_data _ _ _ _ Hk)) as (Hn & _ & Hx).
  pose proof (lookup_lt_Some _ _ _ Hk) as Hlt. unfold block_of. destruct (Z.ltb_spec (Z.of_nat k) NDIRECT) as [Hd|Hd].
  - rewrite (fb_direct _ _ _ _ HB), Nat2Z.id, Hk by lia. cbn [default from_option id]. rewrite Hx, (proj2 (Z.eqb_neq _ _)) by done.
    rewrite bind_ret. unfold ret. rewrite (fb_direct _ _ _ _ HB), Nat2Z.id, Hk by lia. cbn [default from_option id]. by rewrite Hx.
  - pose proof (held_ind _ _ _ _ Hb ltac:(lia)) as Hi. destruct (held_small _ _ _ _ _ Hb Hi) as (Hin & Hir & Hix).
    rewrite Hix, (proj2 (Z.eqb_neq _ _)), bind_ret by done.
    assert (wp (rsect (xint (addr din NDIRECT))) (fun d s' => d = blocks_of s (addr din NDIRECT) /\ s' = s) s) as Hr.
    { rewrite Hix. apply rsect_wp; [apply Hb|done|done]. }
    apply wp_ok in Hr as (d & s' & Er & -> & ->). rewrite (bind_ok _ _ _ _ _ Er). cbv zeta.
    pose proof (fb_room _ _ _ _ HB). rewrite (fb_indirect _ _ _ _ HB), Nat2Z.id, Hk by lia. cbn [default from_option id].
    rewrite (proj2 (Z.eqb_neq b 0)), bind_ret by done. unfold ret.
    rewrite (fb_indirect _ _ _ _ HB), Nat2Z.id, Hk by lia. cbn [default from_option id]. by rewrite Hx.
Qed.

(** What is held after new blocks were taken. *)
Lemma held_grow s din c data s' din' data' new :
  building s din c data -> held din' data' ≡ₚ held din data ++ new -> NoDup new ->
  Forall (fun b => freeblock s <= b < freeblock s') new -> freeblock s <= freeblock s' ->
  Forall (fun b => nmeta <= b < freeblock s') (held din' data') /\ NoDup (held din' data') /\
  forall b, b ∈ held din' data' -> b ∈ held din data \/ freeblock s <= b.
Proof.
  intros Hb Hp Hnd Hnew Hle. pose proof (bd_held _ _ _ _ Hb) as Hh. pose proof (bd_room _ _ _ _ Hb).
  rewrite Forall_forall in Hh, Hnew. rewrite Hp. split_and!.
  - apply Forall_app. split; apply Forall_forall; intros b Hin; [pose proof (Hh b Hin)|pose proof (Hnew b Hin)]; lia.
  - apply NoDup_app. split; [apply Hb|]. split; [|done]. intros b Hb1 Hb2. pose proof (Hh b Hb1). pose proof (Hnew b Hb2). lia.
  - intros b. rewrite Hp, elem_of_app. intros [?|Hin]; [by left|right]. pose proof (Hnew b Hin). lia.
Qed.

Lemma with_freeblock_ok v s : image_ok s -> image_ok (with_freeblock v s).
Proof. by intros [? ? ?]. Qed.

Lemma block_of_new_direct s din c data :
  building s din c data -> Z.of_nat (length data) < NDIRECT -> freeblock s < FSSIZE ->
  let b := freeblock s in let k := Z.of_nat (length data) in
  wp (block_of din k) (fun r s' => r = (with_addr k b din, b) /\ freeblock s' = b + 1 /\
    building s' r.1 c (data ++ [b]) /\ grows s din data s' r.1 (data ++ [b])) s.
Proof.
  intros Hb Hk Hr b k. pose proof (bd_body _ _ _ _ Hb) as HB. pose proof (bd_room _ _ _ _ Hb) as Hroom.
  assert (xint b = b) as Hx by (apply xint_small; change nmeta with 46 in *; unfold FSSIZE in *; lia).
  assert (addr (with_addr k b din) k = b) as Ha by (rewrite addr_with, decide_True by (apply HB || unfold k; flia); done).
  unfold block_of. rewrite (proj2 (Z.ltb_lt k NDIRECT)) by done.
  rewrite (fb_direct _ _ _ _ HB) by lia. unfold k at 1. rewrite Nat2Z.id, lookup_ge_None_2 by lia. cbn [default from_option id].
  change (xint 0 =? 0) with true. apply wp_bind, wp_bind. apply next_block_wp; [lia|]. fold b. apply wp_ret. rewrite Hx.
  apply wp_ret. rewrite Ha, Hx. split; [done|]. split; [done|]. cbn [fst].
  assert (addr din NDIRECT = 0) as H0 by (apply (fb_ind _ _ _ _ HB); lia).
  assert (addr (with_addr k b din) NDIRECT = 0) as H0'.
  { rewrite addr_with, decide_False by (apply HB || unfold k; flia). done. }
  destruct (held_grow s din c data (with_freeblock (b + 1) s) (with_addr k b din) (data ++ [b]) [b]) as (G1 & G2 & G3); [done|..].
  { unfold held. by rewrite H0, H0', !app_nil_r. }
  { apply NoDup_singleton. }
  { apply Forall_singleton. cbn. unfold b. lia. }
  { cbn. unfold b. lia. }
  split.
  - split; [apply with_freeblock_ok, Hb|cbn; unfold b; lia| | |done|done].
    + intros b' Hb'. apply (bd_fresh _ _ _ _ Hb). cbn in Hb'. unfold b in Hb'. lia.
    + apply (body_direct (blocks_of s)); [done|done|]. apply (bd_fresh _ _ _ _ Hb). unfold b. lia.
  - split; try done. cbn. unfold b. lia.
Qed.

(** The rest of [block_of] once there is an indirect block without an entry for the new block. *)
Lemma new_entry_wp (din : dinode) ind k s :
  image_ok s -> addr din NDIRECT = ind -> 0 <= ind < FSSIZE -> 0 <= k -> k + 4 <= BSIZE -> get32 (blocks_of s ind) k = 0 ->
  nmeta <= freeblock s < FSSIZE -> let b := freeblock s in
  wp (indirect <- rsect (xint (addr din NDIRECT));;
      indirect <- (if get32 indirect k =? 0 then
                     b <- next_block;;
                     let indirect := set32 indirect k (xint b) in
                     wsect (xint (addr din NDIRECT)) indirect;;
                     ret indirect
                   else ret indirect);;
      ret (din, xint (get32 indirect k)))%M
    (fun r s' => r = (din, b) /\ s' = put ind (set32 (blocks_of s ind) k b) (with_freeblock (b + 1) s)) s.
Proof.
  intros Hs Ha Hi Hk Hk4 Hz Hr b. rewrite Ha, (xint_small ind) by (unfold FSSIZE in *; lia).
  assert (xint b = b) as Hx by (apply xint_small; change nmeta with 46 in *; unfold FSSIZE in *; lia).
  apply wp_bind, rsect_wp; [done|done|]. rewrite Hz. cbn [Z.eqb]. apply wp_bind, wp_bind, next_block_wp; [done|]. fold b. rewrite Hx.
  cbv zeta. apply wp_bind, wsect_wp; [by apply with_freeblock_ok|done|]. apply wp_ret, wp_ret. split; [|done].
  rewrite get32_set32 by (rewrite ?(io_len _ Hs); lia). rewrite <- xint_eq, !Hx. done.
Qed.

(** The entry made, as a file. *)
Lemma new_entry_building s din c data s1 din' ind :
  building s din c data -> NDIRECT <= Z.of_nat (length data) < MAXFILE ->
  let b := freeblock s1 in let k := 4 * (Z.of_nat (length data) - NDIRECT) in
  image_ok s1 -> blocks_of s1 = blocks_of s -> freeinode s1 = freeinode s -> freeblock s <= freeblock s1 < FSSIZE ->
  length (addrs din') = 13%nat -> (forall k, 0 <= k < NDIRECT -> addr din' k = addr din k) -> addr din' NDIRECT = ind ->
  with_size 0 din' = Dinode (type din) (major din) (minor din) (nlink din) 0 (addrs din') ->
  (forall k, NDIRECT <= k < MAXFILE -> get32 (blocks_of s ind) (4 * (k - NDIRECT)) = default 0 (data !! Z.to_nat k)) ->
  (exists new, held din' (data ++ [b]) ≡ₚ held din data ++ new /\ NoDup new /\ Forall (fun b => freeblock s <= b < freeblock s1 + 1) new) ->
  ind <> 0 -> (ind ∈ held din data \/ freeblock s <= ind) ->
  let s' := put ind (set32 (blocks_of s1 ind) k b) (with_freeblock (b + 1) s1) in
  building s' din' c (data ++ [b]) /\ grows s din data s' din' (data ++ [b]).
Proof.
  intros Hb Hk b k Hs1 Hblk Hino Hfb Hlen Hdir Hind Hhead Hent (new & Hperm & Hnd & Hnew) Hnz Hown s'.
  pose proof (bd_body _ _ _ _ Hb) as HB. pose proof (bd_room _ _ _ _ Hb) as Hroom.
  destruct (held_grow s din c data s' din' (data ++ [b]) new) as (G1 & G2 & G3); try done; [cbn; unfold b; lia|].
  assert (held din' (data ++ [b]) = (data ++ [b]) ++ [ind]) as Eh by (unfold held; by rewrite Hind, (proj2 (Z.eqb_neq _ _))).
  assert (ind ∈ held din' (data ++ [b])) as Hin by (rewrite Eh; apply elem_of_app; right; by left).
  assert (forall b', blocks_of s' b' = setv (blocks_of s) ind (set32 (blocks_of s ind) k b) b') as HV.
  { intros b'. unfold s'. rewrite blocks_put. change (blocks_of (with_freeblock _ s1)) with (blocks_of s1). by rewrite Hblk. }
  pose proof (proj1 (Forall_forall _ _) G1 _ Hin) as Hir. rewrite Eh in G2. apply NoDup_app in G2 as (G2 & Hdj & _).
  assert (length (blocks_of s ind) = Z.to_nat BSIZE) as Hil by (rewrite <- Hblk; apply Hs1).
  split; split.
  - apply put_ok; [by apply with_freeblock_ok|by rewrite set32_length; rewrite ?Hblk, ?Hil; unfold k; try flia|].
    apply patch_bytes; [apply Hs1|apply unle_bytes].
  - cbn. unfold b. lia.
  - intros b' Hb'. cbn in Hb', Hir. rewrite HV, setv_ne by lia. apply (bd_fresh _ _ _ _ Hb). unfold b in Hb'. lia.
  - eapply body_frame; [|intros b' _; apply HV]. apply (body_indirect _ din); try done.
    + apply (bd_fresh _ _ _ _ Hb). unfold b. lia.
    + change nmeta with 46 in *. unfold b, FSSIZE in *. lia.
    + intros Hx. apply (Hdj ind); [apply elem_of_app; by left|by left].
    + intros ->. apply (Hdj b); [apply elem_of_app; right; by left|by left].
  - done.
  - rewrite Eh. apply NoDup_app. split; [done|]. split; [done|apply NoDup_singleton].
  - done.
  - cbn. unfold b. lia.
  - intros b' Hlt Hnh. rewrite HV, setv_ne; [done|]. intros ->. destruct Hown as [?|?]; [done|lia].
  - done.
  - done.
Qed.

(** The block after the last one. *)
Lemma block_of_new s din c data :
  building s din c data -> Z.of_nat (length data) < MAXFILE ->
  let k := Z.of_nat (length data) in
  freeblock s + with_indirect (k + 1) - with_indirect k <= FSSIZE ->
  wp (block_of din k) (fun r s' => building s' r.1 c (data ++ [r.2]) /\ grows s din data s' r.1 (data ++ [r.2]) /\
    freeblock s' = freeblock s + with_indirect (k + 1) - with_indirect k) s.
Proof.
  intros Hb Hk k Hr. pose proof (bd_body _ _ _ _ Hb) as HB. pose proof (bd_room _ _ _ _ Hb) as Hroom. unfold with_indirect in *.
  destruct (Z.ltb_spec k NDIRECT) as [Hd|Hd].
  { rewrite (proj2 (Z.ltb_ge NDIRECT (k + 1))), (proj2 (Z.ltb_ge NDIRECT k)) in * by lia.
    eapply wp_mono; [apply block_of_new_direct; [done|done|lia]|]. intros r s' (-> & Hf & Hb' & Hg). cbn [fst snd] in *.
    split; [done|]. split; [done|lia]. }
  rewrite (proj2 (Z.ltb_lt NDIRECT (k + 1))) in * by lia.
  unfold block_of. rewrite (proj2 (Z.ltb_ge k NDIRECT)) by done. destruct (Z.ltb_spec NDIRECT k) as [Hd'|Hd'].
  - pose proof (held_ind _ _ _ _ Hb Hd') as Hi. destruct (held_small _ _ _ _ _ Hb Hi) as (Hin & Hir & Hix).
    rewrite Hix, (proj2 (Z.eqb_neq _ _)) by done. apply wp_bind, wp_ret. cbv zeta.
    eapply wp_mono; [apply (new_entry_wp din (addr din NDIRECT)); try done; try (unfold k; flia)|].
    { apply Hb. }
    { rewrite (fb_indirect _ _ _ _ HB) by lia. unfold k. by rewrite Nat2Z.id, lookup_ge_None_2. }
    intros r s' [-> ->]. cbn [fst snd]. destruct (new_entry_building s din c data s din (addr din NDIRECT)) as [N1 N2]; try done.
    + apply Hb.
    + lia.
    + apply HB.
    + by apply HB.
    + exists [freeblock s]. split; [|split; [apply NoDup_singleton|apply Forall_singleton; lia]].
      unfold held. rewrite (proj2 (Z.eqb_neq _ _)) by done. by rewrite <- !app_assoc, (Permutation_app_comm [freeblock s]).
    + by left.
    + split; [done|]. split; [done|]. cbn. lia.
  - assert (k = NDIRECT) as Ek by lia. assert (addr din NDIRECT = 0) as H0 by (apply (fb_ind _ _ _ _ HB); lia).
    rewrite H0. change (xint 0 =? 0) with true. apply wp_bind, wp_bind, next_block_wp; [lia|]. apply wp_ret.
    set (ind := freeblock s). rewrite (xint_small ind) by (change nmeta with 46 in *; unfold ind, FSSIZE in *; lia).
    set (s1 := with_freeblock (ind + 1) s). set (din1 := with_addr NDIRECT ind din).
    assert (blocks_of s ind = zeroes) as Hz by (apply (bd_fresh _ _ _ _ Hb); unfold ind; lia).
    assert (addr din1 NDIRECT = ind) as Hi by (unfold din1; rewrite addr_with, decide_True by (apply HB || flia); done).
    assert (ind <> 0) as Hnz by (change nmeta with 46 in *; unfold ind; lia). cbv zeta.
    assert (image_ok s1) as Hs1 by apply with_freeblock_ok, Hb.
    eapply wp_mono; [apply (new_entry_wp din1 ind); try done|].
    { change nmeta with 46 in *. unfold ind. lia. } { lia. } { rewrite Ek. done. }
    { change (blocks_of s1) with (blocks_of s). rewrite Hz. apply get32_zeroes. lia. } { cbn. unfold ind. lia. }
    intros r s' [-> ->]. cbn [fst snd].
    assert (freeblock s1 = ind + 1) as Ef by done.
    destruct (new_entry_building s din c data s1 din1 ind) as [N1 N2]; try done.
    + rewrite Ef. unfold ind. lia.
    + unfold din1. cbn. rewrite length_insert. apply HB.
    + intros j Hj. unfold din1. rewrite addr_with, decide_False by (apply HB || flia). done.
    + intros j Hj. rewrite Hz, get32_zeroes by lia. rewrite lookup_ge_None_2; [done|]. flia.
    + exists [ind + 1; ind]. split.
      * unfold held. rewrite H0, Hi, (proj2 (Z.eqb_neq _ _)), Ef by done. by rewrite Z.eqb_refl, app_nil_r, <- app_assoc.
      * split; [|repeat constructor; cbn; unfold ind; lia].
        apply NoDup_cons. split; [intros E%list_elem_of_singleton; lia|apply NoDup_singleton].
    + right. unfold ind. lia.
    + split; [done|]. split; [done|]. cbn. unfold ind. lia.
Qed.

(** *** Appending *)

Lemma nblk_in_block off n : 0 <= off -> 0 < n -> off mod BSIZE + n <= BSIZE -> nblk (off + n) = off / BSIZE + 1.
Proof.
  intros Ho Hn Hf. unfold nblk. pose proof (Z.div_mod off BSIZE ltac:(done)). pose proof (Z.mod_pos_bound off BSIZE ltac:(done)).
  symmetry. apply Z.div_unique with (off mod BSIZE + n - 1); unfold BSIZE in *; lia.
Qed.

Lemma nblk_mono a b : a <= b -> nblk a <= nblk b.
Proof. intros Hab. unfold nblk. apply Z.div_le_mono; [done|lia]. Qed.

Lemma with_indirect_mono a b : a <= b -> with_indirect a <= with_indirect b.
Proof. intros Hab. unfold with_indirect. destruct (Z.ltb_spec NDIRECT a), (Z.ltb_spec NDIRECT b); lia. Qed.

(** A file of [off] bytes ends in block [off / BSIZE], or just before it. *)
Lemma nblk_cases off : 0 <= off -> nblk off = off / BSIZE + (if off mod BSIZE =? 0 then 0 else 1).
Proof.
  intros Ho. pose proof (Z.div_mod off BSIZE ltac:(done)). pose proof (Z.mod_pos_bound off BSIZE ltac:(done)). unfold nblk. symmetry.
  destruct (Z.eqb_spec (off mod BSIZE) 0) as [E|E].
  - apply Z.div_unique with (BSIZE - 1); unfold BSIZE in *; lia.
  - apply Z.div_unique with (off mod BSIZE - 1); unfold BSIZE in *; lia.
Qed.

Lemma block_of_wp s din c data :
  let off := Z.of_nat (length c) in let k := off / BSIZE in
  building s din c data -> Z.of_nat (length data) = nblk off -> k < MAXFILE ->
  freeblock s + with_indirect (k + 1) - with_indirect (nblk off) <= FSSIZE ->
  wp (block_of din k) (fun r s' => exists data', building s' r.1 c data' /\ grows s din data s' r.1 data' /\
    data' !! Z.to_nat k = Some r.2 /\ Z.of_nat (length data') = k + 1 /\
    freeblock s' = freeblock s + with_indirect (k + 1) - with_indirect (nblk off)) s.
Proof.
  intros off k Hb Hlen Hk Hr. assert (0 <= k) as Hk0 by (apply Z.div_pos; [lia|done]).
  pose proof (nblk_cases off ltac:(lia)) as En. fold k in En. rewrite En in *. clear En. clearbody k.
  destruct (off mod BSIZE =? 0).
  - rewrite Z.add_0_r in *. rewrite <- Hlen in *.
    eapply wp_mono; [by apply block_of_new|]. intros r s' (Hb' & Hg & Hf). exists (data ++ [r.2]). split; [done|]. split; [done|].
    rewrite Nat2Z.id, list_lookup_middle, length_app by done. split; [done|]. cbn [length]. split; [lia|]. lia.
  - destruct (lookup_lt_is_Some_2 data (Z.to_nat k)) as [b Eb]; [lia|].
    pose proof (block_of_old s din c data _ b Hb Eb) as Eo. rewrite Z2Nat.id in Eo by done. eapply wp_eq; [exact Eo|].
    exists data. cbn [fst snd].
    split; [done|]. split; [apply appended_refl|]. split; [done|]. lia.
Qed.

Lemma building_append s din c data b l :
  let off := Z.of_nat (length c) in
  building s din c data -> data !! Z.to_nat (off / BSIZE) = Some b -> off mod BSIZE + Z.of_nat (length l) <= BSIZE -> Forall byte l ->
  let s' := put b (patch (blocks_of s b) (off mod BSIZE) l) s in
  building s' din (c ++ l) data /\ grows s din data s' din data.
Proof.
  intros off Hb Hk Hfit Hl s'. pose proof (held_data din _ _ _ Hk) as Hin. pose proof (held_range _ _ _ _ _ Hb Hin) as Hr.
  pose proof (Z.mod_pos_bound off BSIZE ltac:(done)) as Hm. pose proof (bd_img _ _ _ _ Hb) as Hs.
  assert (length (blocks_of s b) = Z.to_nat BSIZE) as Hlb by apply Hs.
  split; split; try (by apply Hb); try done.
  - apply put_ok; [done|rewrite patch_length; rewrite ?Hlb; done || flia|apply patch_bytes; [apply Hs|done]].
  - intros b' Hb'. unfold s'. rewrite blocks_put, setv_ne by (cbn in Hb'; lia). by apply (bd_fresh _ _ _ _ Hb).
  - eapply body_frame; [|intros b' _; apply blocks_put]. by apply body_append; [apply Hb|apply Hb|..].
  - intros b' _ Hn. unfold s'. rewrite blocks_put, setv_ne; [done|]. by intros ->.
  - intros b' Hb'. by left.
Qed.

Lemma iappend_loop_wp fuel : forall p s din c data, (length p < fuel)%nat ->
  let off := Z.of_nat (length c) in let n := Z.of_nat (length p) in
  building s din c data -> Z.of_nat (length data) = nblk off -> off + n <= MAXFILE * BSIZE ->
  freeblock s + with_indirect (nblk (off + n)) - with_indirect (nblk off) <= FSSIZE -> Forall byte p ->
  wp (iappend_loop fuel din off p) (fun r s' => r.2 = off + n /\ exists data', building s' r.1 (c ++ p) data' /\
    grows s din data s' r.1 data' /\ Z.of_nat (length data') = nblk (off + n) /\
    freeblock s' = freeblock s + with_indirect (nblk (off + n)) - with_indirect (nblk off)) s.
Proof.
  induction fuel as [|fuel IH]; intros p s din c data Hfu off n Hb Hlen Hmax Hr Hp; [lia|]. cbn [iappend_loop]. fold n.
  destruct (Z.eqb_spec n 0) as [En|En].
  { apply wp_ret. cbn [fst snd]. rewrite En, Z.add_0_r. split; [done|]. exists data.
    assert (p = []) as -> by (destruct p; [done|discriminate En]). rewrite app_nil_r. split; [done|]. split; [apply appended_refl|]. split; [done|lia]. }
  pose proof (Z.div_mod off BSIZE ltac:(done)) as Hd. pose proof (Z.mod_pos_bound off BSIZE ltac:(done)) as Hm.
  set (k := off / BSIZE) in *. set (n1 := Z.min n (BSIZE - off mod BSIZE)).
  assert (Z.min n (u32 ((k + 1) * BSIZE - off)) = n1) as ->.
  { replace ((k + 1) * BSIZE - off) with (BSIZE - off mod BSIZE) by flia. rewrite u32_small by flia. done. }
  assert (0 <= k < MAXFILE) as Hk by (split; [apply Z.div_pos|apply Z.div_lt_upper_bound]; flia).
  assert (nblk (off + n1) = k + 1) as Enb by (apply nblk_in_block; flia).
  assert (with_indirect (k + 1) <= with_indirect (nblk (off + n))) as Hmono.
  { rewrite <- Enb. apply with_indirect_mono, nblk_mono. lia. }
  unfold assert. rewrite (proj2 (Z.ltb_lt k MAXFILE)) by lia. apply wp_bind, wp_ret.
  apply wp_bind. eapply wp_mono; [apply (block_of_wp s din c data); [done|done|fold off k; lia|fold off k; lia]|].
  fold off k. intros [din1 b] s1 (data1 & Hb1 & Hg1 & Hk1 & Hl1 & Hf1). cbn [fst snd] in *.
  destruct (held_small _ _ _ _ _ Hb1 (held_data din1 _ _ _ Hk1)) as (_ & Hbr & _).
  apply wp_bind, rsect_wp; [apply Hb1|done|]. apply wp_bind, wsect_wp; [apply Hb1|done|].
  replace (off - k * BSIZE) with (off mod BSIZE) by flia. set (l := take (Z.to_nat n1) p).
  assert (Z.of_nat (length l) = n1) as Hll by (unfold l; rewrite length_take; lia).
  assert (p = l ++ drop (Z.to_nat n1) p) as Ep by (unfold l; by rewrite take_drop).
  destruct (building_append s1 din1 c data1 b l) as [Hb2 Hg2]; [done|done|fold off; flia|by apply Forall_take|]. fold off in Hb2, Hg2.
  set (s2 := put b _ s1) in *. set (p' := drop (Z.to_nat n1) p) in *.
  assert (Z.of_nat (length p') = n - n1) as Hlp by (unfold p'; rewrite length_drop; lia).
  assert (Z.of_nat (length (c ++ l)) = off + n1) as Hlc by (rewrite length_app; lia).
  rewrite u32_small by flia. specialize (IH p' s2 din1 (c ++ l) data1 ltac:(lia) Hb2). cbv zeta in IH. rewrite Hlc, Hlp, Enb in IH.
  replace (off + n1 + (n - n1)) with (off + n) in IH by lia. change (freeblock s2) with (freeblock s1) in IH.
  eapply wp_mono; [apply IH; [done|done|lia|by apply Forall_drop]|].
  intros r s3 (Er & data3 & Hb3 & Hg3 & Hl3 & Hf3). split; [done|]. exists data3. rewrite <- app_assoc, <- Ep in Hb3. split; [done|].
  split; [by eapply appended_trans; [exact Hg1|eapply appended_trans]|]. split; [done|lia].
Qed.

(** ** The inode table *)

Definition inode_at (s : mkfs) (inum : Z) : dinode := dinode_at (blocks_of s (IBLOCK inum sb)) (di_off inum).

(** The table has room for 208 inodes, in the blocks from 32 up to the bitmap. *)
Definition NSLOTS : Z := ninodeblocks * IPB.

Lemma IBLOCK_eq inum : 0 <= inum < NSLOTS -> IBLOCK inum sb = inum / IPB + 32 /\ 0 <= inum / IPB < 13.
Proof.
  change NSLOTS with 208. intros Hi. assert (0 <= inum / IPB < 13) as Hq.
  { change IPB with 16. split; [apply Z.div_pos; lia|apply Z.div_lt_upper_bound; lia]. }
  unfold IBLOCK. change (sb_inodestart sb) with 32. rewrite u32_small by lia. done.
Qed.

Lemma rinode_wp inum s (Q : dinode -> mkfs -> Prop) : image_ok s -> 0 <= inum < NSLOTS -> Q (inode_at s inum) s -> wp (rinode inum) Q s.
Proof.
  intros Hs Hi HQ. destruct (IBLOCK_eq inum Hi) as [E Hq]. unfold rinode. apply wp_bind, rsect_wp; [done|rewrite E; unfold FSSIZE; lia|].
  by apply wp_ret.
Qed.

Lemma winode_wp inum x s :
  image_ok s -> 0 <= inum < NSLOTS -> dinode_ok x ->
  wp (winode inum x) (fun _ s' => image_ok s' /\ freeinode s' = freeinode s /\ freeblock s' = freeblock s /\
    (forall b, b < 32 \/ 45 <= b -> blocks_of s' b = blocks_of s b) /\
    forall j, 0 <= j < NSLOTS -> inode_at s' j = if decide (j = inum) then x else inode_at s j) s.
Proof.
  intros Hs Hi Hx. destruct (IBLOCK_eq inum Hi) as [E Hq]. assert (0 <= IBLOCK inum sb < FSSIZE) as Hr by (rewrite E; unfold FSSIZE; lia).
  unfold winode. apply wp_bind, rsect_wp; [done|done|]. apply wsect_wp; [done|done|].
  set (d := patch _ _ _). pose proof (dinode_bytes_length x (proj1 (dk_addrs _ Hx))) as Hl.
  pose proof (Z.mod_pos_bound inum IPB ltac:(done)) as Hm. change IPB with 16 in Hm.
  split_and!; try done.
  - apply put_ok; [done| |].
    + unfold d. rewrite patch_length; [apply Hs|unfold di_off; change IPB with 16; lia|].
      rewrite (io_len _ Hs), Hl. unfold di_off, BSIZE. change IPB with 16. lia.
    + apply patch_bytes; [apply Hs|]. unfold dinode_bytes. rewrite !Forall_app. split_and!; try apply unle_bytes.
      apply Forall_concat, Forall_fmap, Forall_forall. intros a _. apply unle_bytes.
  - intros b Hb. rewrite blocks_put, setv_ne by lia. done.
  - intros j Hj. destruct (IBLOCK_eq j Hj) as [Ej Hqj]. unfold inode_at. rewrite blocks_put.
    destruct (decide (IBLOCK j sb = IBLOCK inum sb)) as [Eb|Nb].
    + rewrite Eb, setv_eq. unfold d. rewrite dinode_write by (done || apply Hs). rewrite E, Ej in Eb.
      pose proof (Z.div_mod inum IPB ltac:(done)). pose proof (Z.div_mod j IPB ltac:(done)).
      destruct (decide (j = inum)) as [->|Hne]; [by rewrite decide_True|]. rewrite decide_False; [done|]. intros Em. rewrite Em in *. lia.
    + rewrite setv_ne, decide_False by congruence. done.
Qed.

End spec.
