(* ===== verification/MkfsSpec.v ===== *)
(** * The image mkfs builds

    The image as a list of files, with their types and contents; [ialloc] adds an empty file, [iappend] adds bytes to
    one.  The definitions of kernel/fs.c find the same files in the finished image. *)

From S2P Require Import Prelude Riscv Memory CString Bytes State Spinlock Sched SchedSpec Sleeplock SleepSpec.
From S2P Require Import Kalloc Vm Uart Printf PrintfSpec Console Bio BioRing BioSpec Log LogDisk LogSpec LogTxn FsTxn Fs FsAlloc FsFile FsDir Mkfs MkfsFile.

(** ** The image as a list of files *)

(** The blocks before the inode table and the bitmap, as they are until the end. *)
Definition meta_block (b : Z) : list Z := if b =? 1 then patch zeroes 0 (superblock_bytes sb) else zeroes.

(** The number of a file's inode. *)
Definition inum_of (i : nat) : Z := Z.of_nat i + 1.

(** The blocks [data] hold file [i], of type [ty] and contents [c]. *)
Record stored_file (s : mkfs) (i : nat) (ty : Z) (c data : list Z) : Prop := {
  sf_ok : dinode_ok (inode_at s (inum_of i));
  sf_type : type (inode_at s (inum_of i)) = ty;
  sf_nlink : nlink (inode_at s (inum_of i)) = 1;
  sf_size : size (inode_at s (inum_of i)) = Z.of_nat (length c);
  sf_body : file_body (blocks_of s) (inode_at s (inum_of i)) c data;
  sf_nblk : Z.of_nat (length data) = nblk (Z.of_nat (length c));
  sf_nodup : NoDup (held (inode_at s (inum_of i)) data);
  sf_held : Forall (fun b => nmeta <= b < freeblock s) (held (inode_at s (inum_of i)) data);
}.

(** All the blocks of the files. *)
Definition need (c : list Z) : Z := with_indirect (nblk (Z.of_nat (length c))).
Definition total (F : list (Z * list Z)) : Z := foldr (fun f n => need f.2 + n) 0 F.

Record image_rep (F : list (Z * list Z)) (D : list (list Z)) (s : mkfs) : Prop := {
  ir_img : image_ok s;
  ir_inode : freeinode s = 1 + Z.of_nat (length F);
  ir_count : Z.of_nat (length F) < NSLOTS;
  ir_block : freeblock s = nmeta + total F /\ freeblock s <= FSSIZE;
  ir_fresh : forall b, freeblock s <= b < FSSIZE -> blocks_of s b = zeroes;
  ir_meta : forall b, 0 <= b < 32 \/ b = 45 -> blocks_of s b = meta_block b;
  ir_unused : forall j, 0 <= j < NSLOTS -> j = 0 \/ freeinode s <= j -> type (inode_at s j) = 0;
  ir_len : length D = length F;
  ir_file : forall i ty c data, F !! i = Some (ty, c) -> D !! i = Some data -> stored_file s i ty c data;
  ir_disj : forall i j di dj b, D !! i = Some di -> D !! j = Some dj -> i <> j ->
    b ∈ held (inode_at s (inum_of i)) di -> b ∉ held (inode_at s (inum_of j)) dj;
}.

(** A file is as it was if its inode and its blocks are. *)
Lemma stored_frame s s' i ty c data :
  stored_file s i ty c data -> inode_at s' (inum_of i) = inode_at s (inum_of i) -> freeblock s <= freeblock s' ->
  (forall b, b ∈ held (inode_at s (inum_of i)) data -> blocks_of s' b = blocks_of s b) -> stored_file s' i ty c data.
Proof.
  intros [S1 S2 S3 S4 S5 S6 S7 S8] E Hf HV. split; rewrite ?E; try done.
  - by eapply body_frame.
  - eapply Forall_impl; [exact S8|]. cbn. lia.
Qed.

Lemma inum_slot F D s i x : image_rep F D s -> F !! i = Some x -> 0 <= inum_of i < NSLOTS.
Proof. intros R Hi. apply lookup_lt_Some in Hi. pose proof (ir_count _ _ _ R). unfold inum_of. lia. Qed.

Section image.
Context `{host}.
Hypothesis no_error : forall o, io_error o = false.

(** ** Operations *)

Lemma total_app F G : total (F ++ G) = total F + total G.
Proof. induction F as [|f F IH]; cbn; [done|]. unfold total in *. rewrite IH. lia. Qed.

Lemma need_nonneg c : 0 <= need c.
Proof.
  unfold need, with_indirect. assert (0 <= nblk (Z.of_nat (length c))) by (apply Z.div_pos; [unfold BSIZE; lia|done]).
  destruct (NDIRECT <? _); lia.
Qed.

Lemma total_nonneg F : 0 <= total F.
Proof. induction F as [|f F IH]; cbn; [done|]. pose proof (need_nonneg f.2). unfold total in IH. lia. Qed.

Definition empty_inode (ty : Z) : dinode := Dinode ty 0 0 1 0 (replicate 13 0).

Lemma empty_body V ty : file_body V (empty_inode ty) [] [].
Proof.
  assert (forall k, addr (empty_inode ty) k = 0) as Ha.
  { intros k. unfold addr. cbn [addrs empty_inode]. destruct (replicate 13 0 !! Z.to_nat k) eqn:E; [|done]. by apply lookup_replicate in E as [-> _]. }
  by split.
Qed.

Lemma ialloc_wp F D s ty :
  image_rep F D s -> Z.of_nat (length F) + 1 < NSLOTS -> 0 <= ty < 2 ^ 15 ->
  wp (ialloc ty) (fun r s' => r = inum_of (length F) /\ image_rep (F ++ [(ty, [])]) (D ++ [[]]) s') s.
Proof.
  intros R Hc Hty. unfold ialloc. apply wp_bind, wp_gets. rewrite (ir_inode _ _ _ R). change NSLOTS with 208 in *.
  rewrite u32_small by lia. apply wp_bind, wp_modify. set (s1 := with_freeinode _ s).
  change (i16 (xshort 1)) with 1. change (xint 0) with 0. rewrite xshort_eq.
  assert (i16 (u16 ty) = ty) as -> by (apply i16_u16; lia). fold (empty_inode ty).
  apply wp_bind. eapply wp_mono; [apply (winode_wp no_error (1 + Z.of_nat (length F)) (empty_inode ty) s1)|].
  { by destruct (ir_img _ _ _ R). } { change NSLOTS with 208. lia. }
  { split; [cbn; lia|done|]. split; [done|]. by apply Forall_replicate. }
  intros [] s2 (W1 & W2 & W3 & W4 & W5). apply wp_ret. split; [unfold inum_of; lia|].
  assert (forall i x, F !! i = Some x -> inode_at s2 (inum_of i) = inode_at s (inum_of i)) as Hold.
  { intros i x Hi. pose proof (inum_slot _ _ _ _ _ R Hi). apply lookup_lt_Some in Hi.
    rewrite W5, decide_False by (done || (unfold inum_of; lia)). done. }
  assert (inode_at s2 (inum_of (length F)) = empty_inode ty) as Hnew.
  { rewrite W5, decide_True by (change NSLOTS with 208; unfold inum_of; lia). done. }
  assert (held (empty_inode ty) [] = []) as Hh by done.
  pose proof (ir_block _ _ _ R) as [Hb1 Hb2]. change nmeta with 46 in *. pose proof (ir_len _ _ _ R) as HlD.
  pose proof (total_nonneg F) as Ht.
  split; try done.
  - rewrite W2, length_app. cbn. lia.
  - rewrite length_app. cbn. change NSLOTS with 208. lia.
  - rewrite W3, total_app. change nmeta with 46. cbn. change (need []) with 0. lia.
  - intros b Hb. rewrite W3 in Hb. rewrite W4 by (cbn in Hb; lia). by apply R.
  - intros b Hb. rewrite W4 by lia. by apply R.
  - intros j Hj Hu. rewrite W2 in Hu. cbn in Hu. rewrite W5, decide_False by (done || lia).
    apply (ir_unused _ _ _ R); [done|]. rewrite (ir_inode _ _ _ R). lia.
  - rewrite !length_app, HlD. done.
  - intros i ty' c data Hi Hd. apply lookup_snoc_Some in Hi as [[Hlt Hi]|[-> [= <- <-]]].
    + rewrite lookup_app_l in Hd by lia. pose proof (ir_file _ _ _ R _ _ _ _ Hi Hd) as Hs.
      eapply stored_frame; [exact Hs|by eapply Hold|rewrite W3; done|].
      intros b Hb. pose proof (proj1 (Forall_forall _ _) (sf_held _ _ _ _ _ Hs) b Hb) as Hr. cbv beta in Hr. change nmeta with 46 in Hr.
      rewrite W4 by lia. done.
    + rewrite <- HlD, list_lookup_middle in Hd by done. injection Hd as <-. split; rewrite ?Hnew; try done.
      * split; [cbn; lia|done|]. split; [done|]. by apply Forall_replicate.
      * apply empty_body.
      * rewrite Hh. apply NoDup_nil_2.
  - intros i j di dj b Hi Hj Hne. apply lookup_snoc_Some in Hi, Hj.
    destruct Hi as [[Hli Hi]|[-> <-]], Hj as [[Hlj Hj]|[-> <-]]; try done.
    + destruct (lookup_lt_is_Some_2 F i) as [x Hx]; [lia|]. destruct (lookup_lt_is_Some_2 F j) as [y Hy]; [lia|].
      rewrite (Hold _ _ Hx), (Hold _ _ Hy). by eapply (ir_disj _ _ _ R).
    + rewrite HlD, Hnew, Hh. intros _. apply not_elem_of_nil.
    + rewrite HlD, Hnew, Hh. by intros ?%elem_of_nil.
Qed.

Lemma total_insert F i ty c c' : F !! i = Some (ty, c) -> total (<[i := (ty, c')]> F) = total F + need c' - need c.
Proof.
  revert i. induction F as [|f F IH]; intros [|i] Hi; try discriminate Hi.
  - injection Hi as ->. cbn. lia.
  - change (need f.2 + total (<[i := (ty, c')]> F) = need f.2 + total F + need c' - need c). rewrite (IH i Hi). lia.
Qed.

Lemma body_size V din c data v : file_body V din c data -> file_body V (with_size v din) c data.
Proof. by intros [? ? ? ? ? ?]. Qed.

(** The inode after bytes were added can be stored. *)
Lemma grown_inode s din data s' din' c' data' n :
  dinode_ok din -> building s' din' c' data' -> grows s din data s' din' data' -> 0 <= n < 2 ^ 32 -> dinode_ok (with_size n din').
Proof.
  intros [K1 K2 K3] Hb Hg Hn. pose proof (gr_head _ _ _ _ _ _ Hg) as Eh. injection Eh as E1 E2 E3 E4.
  pose proof (bd_body _ _ _ _ Hb) as HB. pose proof (fb_addrs _ _ _ _ HB) as Hl.
  split; cbn; [rewrite E1, E2, E3, E4; done|done|]. split; [done|]. apply Forall_lookup. intros k a Hk.
  assert (addr din' (Z.of_nat k) = a) as Ea by (unfold addr; by rewrite Nat2Z.id, Hk).
  assert (a = 0 \/ a ∈ held din' data') as [->|Hin]; [|done|].
  2:{ destruct (held_small _ _ _ _ _ Hb Hin) as (_ & Hr & _). unfold FSSIZE in Hr. lia. }
  pose proof (lookup_lt_Some _ _ _ Hk) as Hlt. destruct (decide (k = 12)%nat) as [->|Hne].
  - destruct (decide (a = 0)); [by left|right]. apply elem_of_app. right. change NDIRECT with (Z.of_nat 12). rewrite Ea.
    rewrite (proj2 (Z.eqb_neq _ _)) by done. by left.
  - rewrite (fb_direct _ _ _ _ HB), Nat2Z.id in Ea by flia. destruct (data' !! k) as [b|] eqn:E; cbn in Ea; subst; [|by left].
    right. by eapply held_data.
Qed.

(** The inode table is not touched by data. *)
Lemma grows_inodes s din c data s' din' data' j :
  building s din c data -> grows s din data s' din' data' -> 0 <= j < NSLOTS -> inode_at s' j = inode_at s j.
Proof.
  intros Hb Hg Hj. destruct (IBLOCK_eq j Hj) as [E Hq]. unfold inode_at. pose proof (bd_room _ _ _ _ Hb). change nmeta with 46 in *.
  rewrite (gr_rest _ _ _ _ _ _ Hg); [done|lia|]. intros Hin%(held_range _ _ _ _ _ Hb). change nmeta with 46 in *. lia.
Qed.

Lemma stored_building F D s i ty c data :
  image_rep F D s -> F !! i = Some (ty, c) -> D !! i = Some data -> building s (inode_at s (inum_of i)) c data.
Proof.
  intros R Hi Hd. destruct (ir_file _ _ _ R _ _ _ _ Hi Hd) as [S1 S2 S3 S4 S5 S6 S7 S8]. pose proof (ir_block _ _ _ R) as [Hb1 Hb2].
  pose proof (total_nonneg F). split; try done; [apply R|lia|apply R].
Qed.

(** ** One file has new contents *)

Section update.
Context (F : list (Z * list Z)) (D : list (list Z)) (s : mkfs) (i : nat) (ty : Z) (c c' data data' : list Z) (din' : dinode) (s1 s2 : mkfs).
Hypothesis R : image_rep F D s.
Hypothesis Hi : F !! i = Some (ty, c).
Hypothesis Hd : D !! i = Some data.
Hypothesis Hb1 : building s1 din' c' data'.
Hypothesis Hg : grows s (inode_at s (inum_of i)) data s1 din' data'.
Hypothesis W4 : forall b, b < 32 \/ 45 <= b -> blocks_of s2 b = blocks_of s1 b.
Hypothesis W5 : forall j, 0 <= j < NSLOTS -> inode_at s2 j =
  if decide (j = inum_of i) then with_size (Z.of_nat (length c')) din' else inode_at s1 j.

Lemma update_this : inode_at s2 (inum_of i) = with_size (Z.of_nat (length c')) din'.
Proof. rewrite W5, decide_True by (done || by eapply inum_slot). done. Qed.

Lemma rep_file j dj : D !! j = Some dj -> exists tj cj, F !! j = Some (tj, cj) /\ stored_file s j tj cj dj.
Proof.
  intros Hj. destruct (lookup_lt_is_Some_2 F j) as [[tj cj] Hf]; [rewrite <- (ir_len _ _ _ R); by eapply lookup_lt_Some|].
  exists tj, cj. split; [done|]. by apply (ir_file _ _ _ R).
Qed.

Lemma update_other_inode j dj : D !! j = Some dj -> j <> i -> inode_at s2 (inum_of j) = inode_at s (inum_of j).
Proof.
  intros Hj Hne. destruct (rep_file _ _ Hj) as (tj & cj & Hf & _). pose proof (inum_slot _ _ _ _ _ R Hf).
  rewrite W5, decide_False by (done || (unfold inum_of; lia)). eapply grows_inodes; [|done|done]. by eapply stored_building.
Qed.

(** The blocks of the other files are untouched and do not become part of this one. *)
Lemma update_other_block j dj b : D !! j = Some dj -> j <> i -> b ∈ held (inode_at s (inum_of j)) dj ->
  blocks_of s2 b = blocks_of s b /\ b ∉ held din' data'.
Proof.
  intros Hj Hne Hb. destruct (rep_file _ _ Hj) as (tj & cj & Hf & _).
  pose proof (held_range _ _ _ _ _ (stored_building _ _ _ _ _ _ _ R Hf Hj) Hb) as Hr. change nmeta with 46 in Hr.
  pose proof (ir_disj _ _ _ R j i dj data b Hj Hd Hne Hb) as Hn. split.
  - rewrite W4, (gr_rest _ _ _ _ _ _ Hg) by (done || lia). done.
  - intros [?|?]%(gr_new _ _ _ _ _ _ Hg); [done|lia].
Qed.

Lemma update_stored :
  Z.of_nat (length data') = nblk (Z.of_nat (length c')) -> dinode_ok (with_size (Z.of_nat (length c')) din') -> freeblock s2 = freeblock s1 ->
  stored_file s2 i ty c' data'.
Proof.
  intros Hl Hok W3. pose proof (ir_file _ _ _ R _ _ _ _ Hi Hd) as Hst. pose proof (gr_head _ _ _ _ _ _ Hg) as Eh. injection Eh as E1 E2 E3 E4.
  split; rewrite ?update_this, ?W3; try done; try apply Hb1.
  - cbn. rewrite E1. apply Hst.
  - cbn. rewrite E4. apply Hst.
  - apply body_size. eapply body_frame; [apply Hb1|]. intros b Hin. apply W4.
    pose proof (held_range _ _ _ _ _ Hb1 Hin) as Hr. change nmeta with 46 in Hr. lia.
Qed.

Lemma update_disjoint j k dj dk b :
  <[i := data']> D !! j = Some dj -> <[i := data']> D !! k = Some dk -> j <> k ->
  b ∈ held (inode_at s2 (inum_of j)) dj -> b ∉ held (inode_at s2 (inum_of k)) dk.
Proof.
  intros Hj Hk Hne. pose proof (lookup_lt_Some _ _ _ Hd) as Hlt. destruct (decide (j = i)) as [->|Hji], (decide (k = i)) as [->|Hki]; try done.
  - rewrite list_lookup_insert_eq in Hj by done. injection Hj as <-. rewrite list_lookup_insert_ne in Hk by done.
    rewrite update_this, (update_other_inode k dk) by done. intros Hb Hb'. by apply (update_other_block k dk b).
  - rewrite list_lookup_insert_eq in Hk by done. injection Hk as <-. rewrite list_lookup_insert_ne in Hj by done.
    rewrite update_this, (update_other_inode j dj) by done. intros Hb. by apply (update_other_block j dj b).
  - rewrite list_lookup_insert_ne in Hj by done. rewrite list_lookup_insert_ne in Hk by done.
    rewrite (update_other_inode j dj), (update_other_inode k dk) by done. by apply (ir_disj _ _ _ R).
Qed.

Lemma image_update :
  Z.of_nat (length data') = nblk (Z.of_nat (length c')) -> freeblock s1 = freeblock s + need c' - need c ->
  dinode_ok (with_size (Z.of_nat (length c')) din') -> image_ok s2 -> freeinode s2 = freeinode s1 -> freeblock s2 = freeblock s1 ->
  image_rep (<[i := (ty, c')]> F) (<[i := data']> D) s2.
Proof.
  intros Hl1 Hf1 Hok W1 W2 W3. pose proof (stored_building _ _ _ _ _ _ _ R Hi Hd) as Hb.
  pose proof (bd_room _ _ _ _ Hb) as Hr. pose proof (bd_room _ _ _ _ Hb1) as Hr1. change nmeta with 46 in Hr, Hr1.
  pose proof (ir_block _ _ _ R) as [Hfb _].
  split; rewrite ?length_insert, ?W2, ?W3; try done.
  - rewrite (gr_inode _ _ _ _ _ _ Hg). apply R.
  - apply R.
  - rewrite (total_insert _ _ _ c) by done. lia.
  - intros b Hb'. rewrite W4 by lia. by apply (bd_fresh _ _ _ _ Hb1).
  - intros b Hb'. rewrite W4, (gr_rest _ _ _ _ _ _ Hg); [by apply R|lia| |lia].
    intros Hin%(held_range _ _ _ _ _ Hb). change nmeta with 46 in Hin. lia.
  - intros j Hj Hu. pose proof (lookup_lt_Some _ _ _ Hi). rewrite (gr_inode _ _ _ _ _ _ Hg) in Hu.
    rewrite W5, decide_False by (done || (rewrite (ir_inode _ _ _ R) in Hu; unfold inum_of; lia)).
    rewrite (grows_inodes _ _ _ _ _ _ _ _ Hb Hg) by done. by apply (ir_unused _ _ _ R).
  - apply R.
  - intros j tj cj dj Hj Hdj. pose proof (lookup_lt_Some _ _ _ Hi) as Hlt. destruct (decide (j = i)) as [->|Hne].
    + rewrite list_lookup_insert_eq in Hj by done. rewrite list_lookup_insert_eq in Hdj by by rewrite (ir_len _ _ _ R).
      injection Hj as <- <-. injection Hdj as <-. by apply update_stored.
    + rewrite list_lookup_insert_ne in Hj by done. rewrite list_lookup_insert_ne in Hdj by done.
      eapply stored_frame; [by apply R|by eapply update_other_inode|rewrite W3; apply Hg|].
      intros b Hin. by eapply update_other_block.
  - apply update_disjoint.
Qed.

End update.

Lemma iappend_wp F D s i ty c p :
  image_rep F D s -> F !! i = Some (ty, c) -> Forall byte p -> Z.of_nat (length (c ++ p)) <= MAXFILE * BSIZE ->
  nmeta + total (<[i := (ty, c ++ p)]> F) <= FSSIZE ->
  wp (iappend (inum_of i) p) (fun _ s' => exists D', image_rep (<[i := (ty, c ++ p)]> F) D' s') s.
Proof.
  intros R Hi Hp Hmax Hroom. pose proof (ir_img _ _ _ R) as Hs. pose proof (inum_slot _ _ _ _ _ R Hi) as Hslot.
  destruct (lookup_lt_is_Some_2 D i) as [data Hd]; [rewrite (ir_len _ _ _ R); by eapply lookup_lt_Some|].
  pose proof (stored_building _ _ _ _ _ _ _ R Hi Hd) as Hb. pose proof (ir_file _ _ _ R _ _ _ _ Hi Hd) as Hst.
  rewrite (total_insert _ _ _ c) in Hroom by done. unfold need in Hroom. rewrite length_app, Nat2Z.inj_add in *.
  unfold iappend. apply wp_bind, rinode_wp; [done|done|done|]. set (din := inode_at s (inum_of i)) in *.
  assert (size din = Z.of_nat (length c)) as -> by apply Hst. rewrite xint_small by flia.
  apply wp_bind. eapply wp_mono; [apply (iappend_loop_wp no_error _ p s din c data); try done; [lia|apply Hst|]|].
  { pose proof (ir_block _ _ _ R). lia. }
  intros [din1 n] s1 (En & data1 & Hb1 & Hg & Hl1 & Hf1). cbn [fst snd] in *. subst n. rewrite xint_small by flia.
  eapply wp_mono; [apply (winode_wp no_error); [apply Hb1|done|]|].
  { eapply grown_inode; [apply Hst|done|done|flia]. }
  intros [] s2 (W1 & W2 & W3 & W4 & W5). exists (<[i := data1]> D).
  eapply (image_update F D s i ty c (c ++ p) data data1 din1 s1 s2); try done; rewrite ?length_app, ?Nat2Z.inj_add; try done.
  - unfold need. by rewrite length_app, Nat2Z.inj_add.
  - eapply grown_inode; [apply Hst|done|done|flia].
Qed.

(** ** Files from the host *)

(** What the calls of [read] give, up to the end of the file. *)
Fixpoint data_of (reads : list (list Z)) : list Z :=
  match reads with
  | [] => []
  | buf :: reads => if Z.of_nat (length buf) =? 0 then [] else buf ++ data_of reads
  end.

Lemma need_mono c d : (length c <= length d)%nat -> need c <= need d.
Proof. intros Hl. unfold need. apply with_indirect_mono, nblk_mono. lia. Qed.

Lemma append_all_wp reads : forall F D s i ty c,
  image_rep F D s -> F !! i = Some (ty, c) -> Forall (Forall byte) reads ->
  Z.of_nat (length (c ++ data_of reads)) <= MAXFILE * BSIZE -> nmeta + total (<[i := (ty, c ++ data_of reads)]> F) <= FSSIZE ->
  wp (append_all (inum_of i) reads) (fun _ s' => exists D', image_rep (<[i := (ty, c ++ data_of reads)]> F) D' s') s.
Proof.
  induction reads as [|buf reads IH]; intros F D s i ty c R Hi Hb Hmax Hroom; cbn [append_all data_of] in *.
  { apply wp_ret. exists D. rewrite app_nil_r, list_insert_id by done. done. }
  apply Forall_cons in Hb as [Hb1 Hb2]. destruct (Z.eqb_spec (Z.of_nat (length buf)) 0) as [E|E].
  { apply wp_ret. exists D. rewrite app_nil_r, list_insert_id by done. done. }
  assert (need (c ++ buf) <= need (c ++ buf ++ data_of reads)) as Hm by (apply need_mono; rewrite !length_app; lia).
  rewrite (total_insert _ _ _ c) in Hroom by done. rewrite app_assoc in *.
  apply wp_bind. eapply wp_mono; [apply (iappend_wp F D s i ty c buf); try done|].
  { rewrite length_app in Hmax. lia. }
  { rewrite (total_insert _ _ _ c) by done. lia. }
  intros [] s1 [D1 R1]. eapply wp_mono; [apply (IH (<[i := (ty, c ++ buf)]> F) D1 s1 i ty (c ++ buf)); try done|].
  { apply list_lookup_insert_eq. by eapply lookup_lt_Some. }
  { rewrite list_insert_insert_eq, (total_insert _ _ _ c) by done. lia. }
  intros [] s2 [D2 R2]. exists D2. by rewrite list_insert_insert_eq in R2.
Qed.

(** ** The root directory *)

(** The name a path gets, and a directory entry. *)
Definition entry_name (path : list Z) : list Z :=
  let n := shorten path in if hd 0 n =? UNDERSCORE then drop 1 n else n.
Definition entry (inum : Z) (name : list Z) : list Z :=
  unle 2 inum ++ take (Z.to_nat DIRSIZ) (name ++ replicate (Z.to_nat DIRSIZ) 0).

(** What a path stands for on the host. *)
Definition content (path : list Z) : list Z := data_of (default [] (files path)).

Definition root_entries (paths : list (list Z)) : list (list Z) :=
  entry 1 (chars ".") :: entry 1 (chars "..") :: imap (fun i p => entry (Z.of_nat i + 2) (entry_name p)) paths.
Definition image_files (paths : list (list Z)) : list (Z * list Z) :=
  (T_DIR, concat (root_entries paths)) :: map (fun p => (T_FILE, content p)) paths.

(** A path the program can add: a C string whose last part has no slash, of a file that can be opened and is not too big. *)
Record path_ok (path : list Z) : Prop := {
  po_string : Forall (fun c => 0 < c < 256) path;
  po_slash : SLASH ∉ shorten path;
  po_file : exists reads, files path = Some reads /\ Forall (Forall byte) reads;
  po_size : Z.of_nat (length (content path)) <= MAXFILE * BSIZE;
}.

Lemma root_snoc paths p : concat (root_entries (paths ++ [p])) =
  concat (root_entries paths) ++ entry (Z.of_nat (length paths) + 2) (entry_name p).
Proof.
  unfold root_entries. rewrite imap_app. cbn [concat]. rewrite concat_app. cbn [imap concat]. rewrite app_nil_r, Nat.add_0_r.
  by rewrite !app_assoc.
Qed.

Lemma entry_length inum name : length (entry inum name) = 16%nat.
Proof. unfold entry. rewrite length_app, unle_length, length_take, length_app, length_replicate. change (Z.to_nat DIRSIZ) with 14%nat. lia. Qed.

Lemma root_length paths : length (concat (root_entries paths)) = (16 * (length paths + 2))%nat.
Proof.
  induction paths as [|p paths IH] using rev_ind; [by vm_compute|]. rewrite root_snoc, length_app, IH, entry_length, length_app. cbn. lia.
Qed.

Lemma image_files_mono pre post : total (image_files pre) <= total (image_files (pre ++ post)).
Proof.
  unfold image_files. cbn [total foldr snd]. fold (total (map (fun p => (T_FILE, content p)) pre)).
  fold (total (map (fun p => (T_FILE, content p)) (pre ++ post))). rewrite map_app, total_app.
  pose proof (total_nonneg (map (fun p => (T_FILE, content p)) post)).
  assert (need (concat (root_entries pre)) <= need (concat (root_entries (pre ++ post)))); [|lia].
  apply need_mono. rewrite !root_length, length_app. lia.
Qed.

Lemma entry_name_bytes path : Forall (fun c => 0 < c < 256) path -> Forall (fun c => 0 < c < 256) (entry_name path).
Proof.
  intros Hp. unfold entry_name, shorten. destruct (bool_decide _); destruct (hd 0 _ =? _); by repeat apply Forall_drop.
Qed.

Lemma byte_pad name : Forall (fun c => 0 < c < 256) name -> Forall byte (name ++ replicate (Z.to_nat DIRSIZ) 0).
Proof.
  intros Hn. apply Forall_app. split; [|by apply Forall_replicate]. eapply Forall_impl; [exact Hn|]. unfold byte. cbn. lia.
Qed.

Lemma entry_bytes inum name : Forall (fun c => 0 < c < 256) name -> Forall byte (entry inum name).
Proof. intros Hn. apply Forall_app. split; [apply unle_bytes|]. by apply Forall_take, byte_pad. Qed.

(** The entry the program writes. *)
Lemma dirent_entry inum name :
  Forall (fun c => 0 < c < 256) name -> 0 <= inum < 2 ^ 16 ->
  dirent_bytes (xshort inum) (strncpy_arr (replicate (Z.to_nat DIRSIZ) 0) (name ++ [0]) DIRSIZ) = entry inum name.
Proof.
  intros Hn Hi. unfold dirent_bytes, entry. rewrite xshort_eq, (Z.mod_small inum (2 ^ 16) Hi : u16 inum = inum). f_equal.
  apply strncpy_arr_spec; [by exists []|done|done|done].
Qed.

Lemma add_file_wp pre path D s :
  image_rep (image_files pre) D s -> path_ok path -> Z.of_nat (length pre) + 3 <= NINODES ->
  nmeta + total (image_files (pre ++ [path])) <= FSSIZE ->
  wp (add_file ROOTINO path) (fun _ s' => exists D', image_rep (image_files (pre ++ [path])) D' s') s.
Proof.
  intros R Hp Hn Hroom. destruct (po_file _ Hp) as (reads & Er & Hrb). change NINODES with 200 in Hn.
  assert (length (image_files pre) = S (length pre)) as Hlen by (cbn; by rewrite length_map).
  unfold add_file. unfold assert. rewrite bool_decide_eq_true_2 by apply Hp. apply wp_bind, wp_ret. rewrite Er.
  apply wp_bind. eapply wp_mono; [apply (ialloc_wp (image_files pre) D s T_FILE); [done|rewrite Hlen; change NSLOTS with 208; lia|done]|].
  intros inum s1 [-> R1]. rewrite Hlen in *. fold (entry_name path).
  rewrite dirent_entry by (apply entry_name_bytes, Hp || (unfold inum_of; lia)).
  replace (inum_of (S (length pre))) with (Z.of_nat (length pre) + 2) at 1 by (unfold inum_of; lia).
  set (F1 := image_files pre ++ [(T_FILE, [])]) in *. set (de := entry _ _).
  assert (total (image_files (pre ++ [path])) = total F1 + need (concat (root_entries pre) ++ de) - need (concat (root_entries pre)) + need (content path)) as Et.
  { unfold F1, image_files. rewrite root_snoc, map_app. fold de. cbn [app total foldr snd map].
    fold (total (map (fun p => (T_FILE, content p)) pre ++ [(T_FILE, content path)])).
    fold (total (map (fun p => (T_FILE, content p)) pre ++ [(T_FILE, [])])). rewrite !total_app. cbn. change (need []) with 0. lia. }
  pose proof (need_nonneg (content path)) as Hc0. rewrite Et in Hroom.
  apply wp_bind. eapply wp_mono; [apply (iappend_wp F1 (D ++ [[]]) s1 0 T_DIR (concat (root_entries pre)) de); [exact R1|done|apply entry_bytes, entry_name_bytes, Hp| |]|].
  { rewrite length_app, root_length. unfold de. rewrite entry_length. flia. }
  { rewrite (total_insert _ _ _ (concat (root_entries pre))) by done. lia. }
  intros [] s2 [D2 R2]. set (F2 := <[0%nat := _]> F1) in *.
  assert (F2 !! S (length pre) = Some (T_FILE, [])) as HF2.
  { unfold F2, F1. rewrite list_lookup_insert_ne by done. rewrite <- Hlen. by rewrite list_lookup_middle. }
  assert (data_of reads = content path) as Hc by (unfold content; by rewrite Er).
  eapply wp_mono; [apply (append_all_wp reads F2 D2 s2 (S (length pre)) T_FILE []); try done; cbn [app]; rewrite Hc; [apply Hp|]|].
  { rewrite (total_insert _ _ _ []) by done. unfold F2. rewrite (total_insert _ _ _ (concat (root_entries pre))) by done.
    change (need []) with 0. lia. }
  intros [] s3 [D3 R3]. exists D3. cbn [app] in R3. rewrite Hc in R3.
  assert (image_files (pre ++ [path]) = <[S (length pre) := (T_FILE, content path)]> F2) as ->; [|done].
  unfold F2, F1, image_files. rewrite root_snoc, map_app. fold de.
  change (<[S (length pre) := ?x]> (<[0%nat := ?y]> ((?z :: ?l) ++ ?m))) with (y :: <[length pre := x]> (l ++ m)). f_equal. symmetry.
  rewrite insert_app_r_alt by by rewrite length_map. by rewrite length_map, Nat.sub_diag.
Qed.

(** ** The program *)

(** The empty image. *)
Lemma clear_wp s : isize s = 0 -> (forall b, blocks_of s b = zeroes) ->
  wp (forM (map Z.of_nat (seq 0 (Z.to_nat FSSIZE))) (fun i => wsect i zeroes)) (fun _ s' =>
    isize s' = FSSIZE /\ (forall b, blocks_of s' b = zeroes) /\ freeinode s' = freeinode s /\ freeblock s' = freeblock s) s.
Proof.
  intros Hs Hz. eapply wp_mono; [apply (wp_forM _ _ (fun pre s' => isize s' = Z.of_nat (length pre) /\ (forall b, blocks_of s' b = zeroes) /\
    freeinode s' = freeinode s /\ freeblock s' = freeblock s))|].
  - done.
  - intros pre i post s1 El (H1 & H2 & H3 & H4).
    assert (map Z.of_nat (seq 0 (Z.to_nat FSSIZE)) !! length pre = Some i) as Ei by (rewrite El; by apply list_lookup_middle).
    apply list_lookup_fmap_Some in Ei as (k & -> & Ek). apply lookup_seq in Ek as [-> Hk]. cbn [Nat.add] in *.
    unfold wsect. rewrite sector_small, no_error by lia. apply wp_modify. cbn [isize img with_img freeinode freeblock].
    rewrite H1, length_app. split; [cbn; lia|]. split; [|done]. intros b. unfold blocks_of, dblock. cbn [img with_img].
    destruct (decide (b = Z.of_nat (length pre))) as [->|Hne]; [by rewrite lookup_insert_eq|].
    rewrite lookup_insert_ne by done. exact (H2 b).
  - intros [] s' (H1 & H2 & H3 & H4). split; [|done]. rewrite H1, length_map, length_seq. done.
Qed.

Lemma format_wp :
  wp (modify (with_freeblock nmeta);;
      forM (map Z.of_nat (seq 0 (Z.to_nat FSSIZE))) (fun i => wsect i zeroes);;
      wsect 1 (patch zeroes 0 (superblock_bytes sb)))%M (fun _ s' => image_rep [] [] s') mkfs0.
Proof.
  apply wp_bind, wp_modify, wp_bind. eapply wp_mono; [apply clear_wp; [done|by intros b]|].
  intros [] s1 (H1 & H2 & H3 & H4).
  assert (image_ok s1) as Hs1.
  { split; [done|intros b; rewrite H2; apply length_replicate|intros b; rewrite H2; by apply Forall_replicate]. }
  apply wsect_wp; [done|done|done|]. set (d := patch _ _ _).
  assert (forall b, blocks_of (put 1 d s1) b = if b =? 1 then d else zeroes) as Hb.
  { intros b. rewrite blocks_put. destruct (Z.eqb_spec b 1) as [->|Hne]; [apply setv_eq|]. rewrite setv_ne by done. apply H2. }
  split; try done.
  - apply put_ok; [done|by vm_compute|]. apply (bool_decide_unpack _). by vm_compute.
  - cbn. rewrite H4. done.
  - intros b Hr. rewrite Hb. cbn in Hr. rewrite H4 in Hr. change (freeblock (with_freeblock nmeta mkfs0)) with 46 in Hr.
    rewrite (proj2 (Z.eqb_neq _ _)) by lia. done.
  - intros j Hj _. destruct (IBLOCK_eq j Hj) as [E Hq]. unfold inode_at. rewrite Hb, (proj2 (Z.eqb_neq _ _)) by lia.
    cbn [type dinode_at]. unfold get16, slice, zeroes. rewrite drop_replicate, take_replicate.
    change (Z.to_nat 2) with 2%nat. by destruct (Z.to_nat BSIZE - Z.to_nat (di_off j))%nat as [|[|?]].
Qed.

(** The paths that can be put on one image. *)
Record fits (paths : list (list Z)) : Prop := {
  ft_paths : Forall path_ok paths;
  ft_inodes : Z.of_nat (length paths) + 2 <= NINODES;
  ft_blocks : total (image_files paths) <= nblocks;
}.

(** The files are copied. *)
Lemma copy_wp paths D s :
  fits paths -> image_rep [] D s ->
  wp (rootino <- ialloc T_DIR;;
      assert (rootino =? ROOTINO);;
      iappend rootino (dirent_bytes (xshort rootino) (strcpy_name (chars ".")));;
      iappend rootino (dirent_bytes (xshort rootino) (strcpy_name (chars "..")));;
      forM paths (add_file rootino);; ret rootino)%M
    (fun r s' => r = ROOTINO /\ exists D', image_rep (image_files paths) D' s') s.
Proof.
  intros [Hp Hn Ht] R. change nblocks with 1954 in Ht. change NINODES with 200 in Hn.
  apply wp_bind. eapply wp_mono; [apply (ialloc_wp [] D s T_DIR); [done|done|done]|]. intros r s1 [-> R1].
  change (inum_of (length [])) with ROOTINO. apply wp_bind. unfold assert. rewrite Z.eqb_refl. apply wp_ret.
  change (dirent_bytes (xshort ROOTINO) (strcpy_name (chars "."))) with (entry 1 (chars ".")).
  change (dirent_bytes (xshort ROOTINO) (strcpy_name (chars ".."))) with (entry 1 (chars "..")).
  apply wp_bind. eapply wp_mono; [apply (iappend_wp [(T_DIR, [])] (D ++ [[]]) s1 0 T_DIR [] (entry 1 (chars "."))); [done|done|..]|].
  { apply entry_bytes, (bool_decide_unpack _). by vm_compute. } { by vm_compute. } { by vm_compute. }
  intros [] s2 [D2 R2]. change (<[0%nat := _]> _) with [(T_DIR, entry 1 (chars "."))] in R2.
  apply wp_bind. eapply wp_mono; [apply (iappend_wp [(T_DIR, entry 1 (chars "."))] D2 s2 0 T_DIR (entry 1 (chars ".")) (entry 1 (chars ".."))); [exact R2|done|..]|].
  { apply entry_bytes, (bool_decide_unpack _). by vm_compute. } { by vm_compute. } { by vm_compute. }
  intros [] s3 [D3 R3]. change (<[0%nat := _]> _) with (image_files []) in R3.
  apply wp_bind. eapply wp_mono; [apply (wp_forM paths _ (fun pre s' => exists D', image_rep (image_files pre) D' s'))|].
  - by exists D3.
  - intros pre path post s4 El [D4 R4]. pose proof Hp as Hp'. rewrite El, Forall_app, Forall_cons in Hp'. destruct Hp' as (_ & Hpath & _).
    apply (add_file_wp pre path D4); [done|done| |].
    + rewrite El, length_app in Hn. cbn in Hn. change NINODES with 200. lia.
    + pose proof (image_files_mono (pre ++ [path]) post) as Hm. rewrite <- app_assoc in Hm. cbn [app] in Hm. rewrite <- El in Hm.
      change nmeta with 46. unfold FSSIZE. lia.
  - intros [] s4 [D4 R4]. apply wp_ret. split; [done|]. by exists D4.
Qed.

(** The bitmap: the first [n] bits are set. *)
Definition first_bits (n : nat) : list Z :=
  fold_left (fun buf i => set8 buf (i / 8) (Z.lor (get8 buf (i / 8)) (Z.shiftl 1 (i mod 8)))) (map Z.of_nat (seq 0 n)) zeroes.

Lemma first_bits_S n : first_bits (S n) = put_bit (Z.of_nat n) true (first_bits n).
Proof. unfold first_bits. rewrite seq_S, map_app, fold_left_app. done. Qed.

Lemma first_bits_spec n : Z.of_nat n <= BPB ->
  length (first_bits n) = Z.to_nat BSIZE /\ Forall byte (first_bits n) /\
  forall j, 0 <= j < BPB -> bit_is_free (first_bits n) j = negb (j <? Z.of_nat n).
Proof.
  induction n as [|n IH]; intros Hn.
  - split; [apply length_replicate|]. split; [by apply Forall_replicate|]. intros j Hj.
    rewrite (proj2 (Z.ltb_ge j _)) by lia. change (first_bits 0) with zeroes. unfold bit_is_free, get8, slice, zeroes.
    rewrite drop_replicate, take_replicate. destruct (Init.Nat.min _ _) as [|[|m]] eqn:E; [done|done|].
    change (Z.to_nat 1) with 1%nat in E. lia.
  - destruct (IH ltac:(lia)) as (I1 & I2 & I3). rewrite first_bits_S. split; [apply put_bit_length; [lia|done]|]. split.
    + apply patch_bytes; [done|apply unle_bytes].
    + intros j Hj. rewrite put_bit_spec by (done || lia). destruct (decide (j = Z.of_nat n)) as [->|Hne].
      * rewrite (proj2 (Z.ltb_lt _ _)) by lia. done.
      * rewrite I3 by done. f_equal. destruct (Z.ltb_spec j (Z.of_nat n)), (Z.ltb_spec j (Z.of_nat (S n))); done || lia.
Qed.

(** How the finished image differs from the files [image_rep] stands for: the size of the root directory and the bitmap. *)
Record finished (s s' : mkfs) : Prop := {
  fi_ok : image_ok s';
  fi_free : freeblock s' = freeblock s;
  fi_root : inode_at s' ROOTINO = with_size ((size (inode_at s ROOTINO) / BSIZE + 1) * BSIZE) (inode_at s ROOTINO);
  fi_inode : forall j, 0 <= j < NSLOTS -> j <> ROOTINO -> inode_at s' j = inode_at s j;
  fi_block : forall b, b < 32 \/ 46 <= b -> blocks_of s' b = blocks_of s b;
  fi_bitmap : blocks_of s' 45 = first_bits (Z.to_nat (freeblock s));
}.

Lemma finish_wp paths D s :
  image_rep (image_files paths) D s -> Z.of_nat (length paths) + 2 <= NINODES ->
  wp (fix_size ROOTINO;; used <- gets freeblock;; balloc (i32 used))%M (fun _ s' => finished s s') s.
Proof.
  intros R Hn. pose proof (ir_img _ _ _ R) as Hs. pose proof (ir_block _ _ _ R) as [Hb1 Hb2]. change NINODES with 200 in Hn.
  pose proof (total_nonneg (image_files paths)) as Ht. change nmeta with 46 in Hb1.
  destruct (lookup_lt_is_Some_2 D 0) as [data Hd]; [rewrite (ir_len _ _ _ R); cbn; lia|].
  pose proof (ir_file _ _ _ R 0%nat _ _ _ eq_refl Hd) as Hst. change (inum_of 0) with ROOTINO in Hst.
  pose proof (sf_size _ _ _ _ _ Hst : size (inode_at s ROOTINO) = _) as Hsz. rewrite root_length in Hsz.
  assert (0 <= (size (inode_at s ROOTINO) / BSIZE + 1) * BSIZE < 2 ^ 32) as Hr.
  { assert (0 <= size (inode_at s ROOTINO) / BSIZE <= 4); [|unfold BSIZE in *; lia].
    split; [apply Z.div_pos; [lia|done]|]. apply Z.lt_succ_r, Z.div_lt_upper_bound; [done|]. unfold BSIZE. lia. }
  apply wp_bind. unfold fix_size. apply wp_bind, rinode_wp; [done|done|done|]. rewrite (xint_small (size _)) by lia.
  rewrite u32_small, xint_small by done. eapply wp_mono; [apply (winode_wp no_error); [done|done|]|].
  { destruct (sf_ok _ _ _ _ _ Hst) as [K1 K2 K3]. by split. }
  intros [] s1 (W1 & W2 & W3 & W4 & W5). apply wp_bind, wp_gets. rewrite W3, i32_small by (unfold FSSIZE in *; lia).
  unfold balloc, assert. rewrite (proj2 (Z.ltb_lt _ _)) by (unfold FSSIZE, BSIZE in *; lia). apply wp_bind, wp_ret.
  change (sb_bmapstart sb) with 45. apply wsect_wp; [done|done|done|]. fold (first_bits (Z.to_nat (freeblock s))).
  destruct (first_bits_spec (Z.to_nat (freeblock s))) as (F1 & F2 & _); [unfold BPB, FSSIZE, BSIZE in *; lia|].
  assert (forall j, 0 <= j < NSLOTS -> inode_at (put 45 (first_bits (Z.to_nat (freeblock s))) s1) j = inode_at s1 j) as Hi.
  { intros j Hj. destruct (IBLOCK_eq j Hj) as [E Hq]. unfold inode_at. rewrite blocks_put, setv_ne by lia. done. }
  split; [by apply put_ok|done|by rewrite Hi, W5, decide_True| | |].
  - intros j Hj Hne. by rewrite Hi, W5, decide_False.
  - intros b Hb. rewrite blocks_put, setv_ne, W4 by lia. done.
  - rewrite blocks_put. apply setv_eq.
Qed.

(** ** The program as a whole *)

Lemma wp_then3 {S A} (m1 m2 m3 : M S unit) (k : M S A) Q s : wp (m1;; m2;; m3)%M (fun _ s' => wp k Q s') s -> wp (m1;; m2;; m3;; k)%M Q s.
Proof. unfold wp, bind. destruct (m1 s) as [? s1| | | |]; try done. destruct (m2 s1) as [? s2| | | |]; try done. by destruct (m3 s2). Qed.

Lemma wp_then5 {S A B} (a : M S A) (m1 m2 m3 m4 : A -> M S unit) (k : A -> M S B) Q s :
  wp (r <- a;; m1 r;; m2 r;; m3 r;; m4 r;; ret r)%M (fun r s' => wp (k r) Q s') s -> wp (r <- a;; m1 r;; m2 r;; m3 r;; m4 r;; k r)%M Q s.
Proof.
  unfold wp, bind. destruct (a s) as [r s0| | | |]; try done. destruct (m1 r s0) as [? s1| | | |]; try done.
  destruct (m2 r s1) as [? s2| | | |]; try done. destruct (m3 r s2) as [? s3| | | |]; try done. by destruct (m4 r s3).
Qed.

Lemma main_wp prog image paths :
  can_create image = true -> fits paths ->
  wp (main (prog :: image :: paths)) (fun _ s' => exists D s, image_rep (image_files paths) D s /\ finished s s') mkfs0.
Proof.
  intros Hc Hf. unfold main. rewrite Hc. cbn [negb]. apply wp_then3. eapply wp_mono; [apply format_wp|].
  intros [] s1 R1. apply wp_then5. eapply wp_mono; [by apply (copy_wp paths [])|]. intros r s2 [-> [D R2]].
  eapply wp_mono; [apply (finish_wp paths D); [done|apply Hf]|]. intros [] s3 Hfin. by exists D, s2.
Qed.

End image.
