(* ===== verification/MkfsKernel.v ===== *)
(** * What the kernel finds in an image of mkfs

    The superblock, the bitmap, the inodes, the contents of files and the entries of the root directory that
    kernel/fs.c reads from the finished image are those of the files mkfs was given. *)

From S2P Require Import Prelude Riscv Memory CString Bytes State Spinlock Sched SchedSpec Sleeplock SleepSpec.
From S2P Require Import Kalloc Vm Uart Printf PrintfSpec Console Bio BioRing BioSpec Log LogDisk LogSpec LogTxn FsTxn Fs FsAlloc FsFile FsDir Mkfs MkfsFile MkfsSpec.

(** The inode [ilock] makes of the table entry of [iget]. *)
Definition disk_inode (dv : Z) (V : Z -> list Z) (inum : Z) : inode :=
  inode_of (V (IBLOCK inum sb)) (di_off inum) (Inode dv inum 1 0 0 0 0 0 0 []).

(** ** Contents *)

Section contents.
Context (V : Z -> list Z) (din : dinode) (c data : list Z) (ip : inode).
Hypothesis Hbody : file_body V din c data.
Hypothesis Haddrs : i_addrs ip = addrs din.

Lemma fblock_data k : 0 <= k < MAXFILE -> fblock V ip k = default 0 (data !! Z.to_nat k).
Proof.
  intros Hk. unfold fblock, addr_of. rewrite Haddrs. fold (addr din k) (addr din NDIRECT). destruct (Z.ltb_spec k NDIRECT) as [Hd|Hd].
  - apply (fb_direct _ _ _ _ Hbody). lia.
  - destruct (Z.eqb_spec (addr din NDIRECT) 0) as [E|E].
    + rewrite (fb_ind _ _ _ _ Hbody) in E. rewrite lookup_ge_None_2; [done|]. flia.
    + rewrite (fb_ind _ _ _ _ Hbody) in E. apply (fb_indirect _ _ _ _ Hbody); lia.
Qed.

(** Beyond the blocks of the file lies block 0, which mkfs leaves empty. *)
Lemma fbyte_data x : V 0 = zeroes -> 0 <= x < MAXFILE * BSIZE -> fbyte V ip x = default 0 (c !! Z.to_nat x).
Proof.
  intros H0 Hx. pose proof (Z.div_mod x BSIZE ltac:(done)) as Hd. pose proof (Z.mod_pos_bound x BSIZE ltac:(done)) as Hm.
  assert (0 <= x / BSIZE < MAXFILE) as Hk by (split; [apply Z.div_pos|apply Z.div_lt_upper_bound]; flia).
  unfold fbyte. rewrite fblock_data by done. destruct (data !! Z.to_nat (x / BSIZE)) as [b|] eqn:E; cbn [default from_option id].
  - rewrite (fb_data _ _ _ _ Hbody _ _ E) by lia. cbn [default from_option id]. do 2 f_equal. flia.
  - rewrite H0. unfold zeroes. rewrite lookup_replicate_2 by flia. cbn [default from_option id].
    apply lookup_ge_None in E. pose proof (fb_room _ _ _ _ Hbody). rewrite lookup_ge_None_2; [done|]. flia.
Qed.

(** The contents, followed by zeros. *)
Lemma fdata_data n : V 0 = zeroes -> Z.of_nat (length c) <= n <= MAXFILE * BSIZE ->
  fdata V ip 0 n = c ++ replicate (Z.to_nat n - length c) 0.
Proof.
  intros H0 Hn. apply list_eq_same_length with (Z.to_nat n).
  - rewrite length_app, length_replicate. lia.
  - apply fdata_length.
  - intros i x y Hi Hx Hy. unfold fdata in Hx. rewrite list_lookup_fmap, lookup_seqZ_lt in Hx by lia. injection Hx as <-.
    rewrite fbyte_data, Z.add_0_l, Nat2Z.id by (done || lia). destruct (decide (i < length c)%nat).
    + rewrite lookup_app_l in Hy by done. by rewrite Hy.
    + rewrite lookup_app_r in Hy by lia. apply lookup_replicate in Hy as [-> _]. by rewrite lookup_ge_None_2 by lia.
Qed.

Lemma fdata_exact : V 0 = zeroes -> Z.of_nat (length c) <= MAXFILE * BSIZE -> fdata V ip 0 (Z.of_nat (length c)) = c.
Proof. intros H0 Hn. rewrite fdata_data by (done || lia). by rewrite Nat2Z.id, Nat.sub_diag, app_nil_r. Qed.

Lemma file_ok_data dv :
  i_dev ip = dv -> 0 <= i_size ip <= Z.of_nat (length data) * BSIZE -> Forall (fun b => nmeta <= b < FSSIZE) (held din data) ->
  file_ok dv V ip.
Proof.
  intros Hdv Hsz Hh. rewrite Forall_forall in Hh. pose proof (fb_room _ _ _ _ Hbody) as [_ Hr].
  assert (forall b, nmeta <= b < FSSIZE -> b <> 0 /\ block_ok b) as Hok.
  { intros b. change nmeta with 46. unfold FSSIZE, block_ok. lia. }
  split; [done|flia| |].
  - unfold addr_of. rewrite Haddrs. fold (addr din NDIRECT). destruct (Z.eqb_spec (addr din NDIRECT) 0) as [E|E]; [by left|right].
    apply Hok, Hh, elem_of_app. right. rewrite (proj2 (Z.eqb_neq _ _)) by done. by left.
  - intros k Hk Hlt. rewrite fblock_data by flia. destruct (lookup_lt_is_Some_2 data (Z.to_nat k)) as [b E]; [flia|]. rewrite E.
    apply Hok, Hh. by eapply held_data.
Qed.

End contents.

(** ** The finished image *)

Lemma sb_fields : sb_size sb = FSSIZE /\ sb_bmapstart sb = 45 /\ sb_logstart sb = 2 /\ sb_nlog sb = LOGSIZE /\ sb_ninodes sb = NINODES.
Proof. by vm_compute. Qed.

Lemma BBLOCK_sb b : 0 <= b < FSSIZE -> BBLOCK b sb = 45.
Proof.
  intros Hb. unfold BBLOCK. rewrite (proj1 (proj2 sb_fields)), Z.div_small, u32_small by (unfold BPB, BSIZE, FSSIZE in *; lia). done.
Qed.

Lemma image_geometry : geometry sb (sb_logstart sb).
Proof.
  destruct sb_fields as (E1 & E2 & E3 & _). split; rewrite ?E1, ?E2, ?E3.
  - done.
  - by vm_compute.
  - intros b Hb. rewrite BBLOCK_sb by done. unfold in_log, LOGSIZE, MAXOPBLOCKS. lia.
Qed.

(** ** Directory entries *)

Lemma concat_lookup16 (l : list (list Z)) (k j : nat) e :
  Forall (fun e => length e = 16%nat) l -> l !! k = Some e -> (j < 16)%nat -> concat l !! (16 * k + j)%nat = e !! j.
Proof.
  intros Hl. revert k. induction Hl as [|x l Hx _ IH]; intros [|k] Hk Hj; try discriminate Hk; cbn [concat].
  - injection Hk as ->. by rewrite lookup_app_l by lia.
  - rewrite lookup_app_r by lia. rewrite <- (IH k) by done. f_equal. lia.
Qed.

(** A search over offsets as a search in a list of entries. *)
Lemma find_offsets (P : Z -> bool) (Q : list Z -> bool) (l : list (list Z)) : forall a n,
  (length l <= n)%nat -> (forall k e, l !! k = Some e -> P (Z.of_nat (a + k) * DE_SIZE) = Q e) ->
  (forall k, (length l <= k < n)%nat -> P (Z.of_nat (a + k) * DE_SIZE) = false) ->
  find P (map (fun k => Z.of_nat k * DE_SIZE) (seq a n)) = (fun x => Z.of_nat (a + x.1) * DE_SIZE) <$> list_find (fun e => Q e = true) l.
Proof.
  induction l as [|e l IH]; intros a n Hn Hin Hout.
  - cbn. apply find_none_forall, Forall_fmap, Forall_forall. intros k Hk%elem_of_seq. cbn.
    replace k with (a + (k - a))%nat by lia. apply Hout. cbn. lia.
  - destruct n as [|n]; [cbn in Hn; lia|]. cbn [seq map find list_find length] in *.
    pose proof (Hin 0%nat e eq_refl) as He. rewrite Nat.add_0_r in He. rewrite He. destruct (Q e) eqn:EQ.
    + rewrite decide_True by done. cbn. by rewrite Nat.add_0_r.
    + rewrite decide_False by done. rewrite (IH (S a) n); [|lia| |].
      * destruct (list_find _ l) as [[k x]|]; [|done]. cbn. do 2 f_equal. lia.
      * intros k x Hk. rewrite <- (Hin (S k) x Hk). do 2 f_equal. lia.
      * intros k Hk. rewrite <- (Hout (S k)) by lia. do 2 f_equal. lia.
Qed.

Section image.
Context `{host} (paths : list (list Z)) (D : list (list Z)) (s s' : mkfs) (dv : Z).
Hypothesis R : image_rep (image_files paths) D s.
Hypothesis Hfin : finished s s'.
Hypothesis Hn : Z.of_nat (length paths) + 2 <= NINODES.

Let V : Z -> list Z := blocks_of s'.

Lemma image_meta b : 0 <= b < 32 -> V b = meta_block b.
Proof. intros Hb. unfold V. rewrite (fi_block _ _ Hfin) by lia. apply (ir_meta _ _ _ R). lia. Qed.

Lemma image_zero : V 0 = zeroes.
Proof. by rewrite image_meta. Qed.

Lemma image_free : nmeta <= freeblock s' <= FSSIZE.
Proof.
  rewrite (fi_free _ _ Hfin). pose proof (ir_block _ _ _ R). pose proof (total_nonneg (image_files paths)). lia.
Qed.

(** The bitmap has the blocks that were allocated. *)
Lemma image_in_use b : 0 <= b < FSSIZE -> in_use sb V b = (b <? freeblock s').
Proof.
  intros Hb. pose proof image_free as Hf. change nmeta with 46 in Hf. unfold in_use, V. rewrite BBLOCK_sb, (fi_bitmap _ _ Hfin) by done.
  rewrite Z.mod_small by (unfold BPB, BSIZE, FSSIZE in *; lia). rewrite (fi_free _ _ Hfin) in *.
  destruct (first_bits_spec (Z.to_nat (freeblock s))) as (_ & _ & E); [unfold BPB, BSIZE, FSSIZE in *; lia|].
  rewrite E by (unfold BPB, BSIZE, FSSIZE in *; lia). rewrite negb_involutive, Z2Nat.id by lia. done.
Qed.

Lemma image_free_ok : free_ok sb (sb_logstart sb) V.
Proof.
  destruct sb_fields as (E1 & E2 & E3 & _). intros b. rewrite E1. intros Hb Hu. rewrite image_in_use in Hu by done.
  apply Z.ltb_ge in Hu. pose proof image_free as Hf. change nmeta with 46 in Hf. unfold data_block. rewrite E1, E3.
  split; [lia|]. split; [unfold in_log, LOGSIZE, MAXOPBLOCKS; lia|]. intros j Hj. rewrite BBLOCK_sb by done. lia.
Qed.

(** A file of the image, as the kernel sees it. *)
Lemma image_file i ty c : image_files paths !! i = Some (ty, c) ->
  let ip := disk_inode dv V (inum_of i) in
  exists data, D !! i = Some data /\ file_body V (inode_at s' (inum_of i)) c data /\ i_addrs ip = addrs (inode_at s' (inum_of i)) /\
    i_type ip = ty /\ i_nlink ip = 1 /\ i_dev ip = dv /\ Z.of_nat (length data) = nblk (Z.of_nat (length c)) /\
    held (inode_at s' (inum_of i)) data = held (inode_at s (inum_of i)) data /\
    Forall (fun b => nmeta <= b < freeblock s') (held (inode_at s' (inum_of i)) data) /\ NoDup (held (inode_at s' (inum_of i)) data) /\
    i_size ip = if decide (i = 0%nat) then (Z.of_nat (length c) / BSIZE + 1) * BSIZE else Z.of_nat (length c).
Proof.
  intros Hi ip. pose proof (inum_slot _ _ _ _ _ R Hi) as Hslot.
  destruct (lookup_lt_is_Some_2 D i) as [data Hd]; [rewrite (ir_len _ _ _ R); by eapply lookup_lt_Some|].
  destruct (ir_file _ _ _ R _ _ _ _ Hi Hd) as [S1 S2 S3 S4 S5 S6 S7 S8].
  set (sz := if decide (i = 0%nat) then (Z.of_nat (length c) / BSIZE + 1) * BSIZE else Z.of_nat (length c)).
  assert (inode_at s' (inum_of i) = with_size sz (inode_at s (inum_of i))) as Ei.
  { unfold sz. destruct (decide (i = 0%nat)) as [->|Hne].
    - change (inum_of 0) with ROOTINO in *. rewrite (fi_root _ _ Hfin). by rewrite S4.
    - rewrite (fi_inode _ _ Hfin) by (done || (unfold inum_of, ROOTINO; lia)). rewrite <- S4. by destruct (inode_at s (inum_of i)). }
  assert (forall b, b ∈ held (inode_at s (inum_of i)) data -> V b = blocks_of s b) as HV.
  { intros b Hb. pose proof (proj1 (Forall_forall _ _) S8 b Hb) as Hr. cbv beta in Hr. change nmeta with 46 in Hr.
    unfold V. rewrite (fi_block _ _ Hfin) by lia. done. }
  exists data. split; [done|]. rewrite Ei, (fi_free _ _ Hfin).
  split; [by apply body_size; eapply body_frame|]. split; [exact (f_equal addrs Ei)|].
  split; [by rewrite (f_equal type Ei : i_type ip = _)|]. split; [by rewrite (f_equal nlink Ei : i_nlink ip = _)|].
  do 5 (split; [done|]). exact (f_equal size Ei).
Qed.

(** Block [k] of a file is one of its blocks, or there is none. *)
Lemma image_fblock i ty c data k :
  image_files paths !! i = Some (ty, c) -> D !! i = Some data -> 0 <= k < MAXFILE ->
  let b := fblock V (disk_inode dv V (inum_of i)) k in b <> 0 -> data !! Z.to_nat k = Some b /\ nmeta <= b < freeblock s'.
Proof.
  intros Hi Hd Hk b Hb. destruct (image_file _ _ _ Hi) as (data' & Hd' & HB & Ha & _ & _ & _ & _ & _ & Hr & _).
  rewrite Hd in Hd'. injection Hd' as <-. pose proof (fblock_data _ _ _ _ _ HB Ha k Hk) as E. fold b in E.
  destruct (data !! Z.to_nat k) as [b'|] eqn:El; cbn in E; [|done]. subst b'. split; [done|].
  rewrite Forall_forall in Hr. apply Hr. by eapply held_data.
Qed.

(** No block belongs to two places. *)
Lemma image_disjoint i j ti ci tj cj k l :
  image_files paths !! i = Some (ti, ci) -> image_files paths !! j = Some (tj, cj) -> 0 <= k < MAXFILE -> 0 <= l < MAXFILE ->
  fblock V (disk_inode dv V (inum_of i)) k <> 0 ->
  fblock V (disk_inode dv V (inum_of i)) k = fblock V (disk_inode dv V (inum_of j)) l -> i = j /\ k = l.
Proof.
  intros Hi Hj Hk Hl Hnz E.
  destruct (image_file _ _ _ Hi) as (di & Hdi & _ & _ & _ & _ & _ & _ & Ei & _ & Hnd & _).
  destruct (image_file _ _ _ Hj) as (dj & Hdj & _ & _ & _ & _ & _ & _ & Ej & _ & _ & _).
  destruct (image_fblock _ _ _ _ _ Hi Hdi Hk Hnz) as [Li _]. rewrite E in Hnz. destruct (image_fblock _ _ _ _ _ Hj Hdj Hl Hnz) as [Lj _].
  rewrite <- E in Lj. destruct (decide (i = j)) as [->|Hne].
  - split; [done|]. rewrite Hdi in Hdj. injection Hdj as <-. unfold held in Hnd. apply NoDup_app in Hnd as [Hnd _].
    pose proof (NoDup_lookup _ _ _ _ Hnd Li Lj). lia.
  - destruct (ir_disj _ _ _ R i j di dj _ Hdi Hdj Hne (held_data _ _ _ _ Li) (held_data _ _ _ _ Lj)).
Qed.

(** The types of the inodes. *)
Lemma image_type inum : 0 <= inum < NINODES ->
  i_type (disk_inode dv V inum) =
    if decide (inum = ROOTINO) then T_DIR else if decide (1 < inum < Z.of_nat (length paths) + 2) then T_FILE else 0.
Proof.
  intros Hi. change NINODES with 200 in *. assert (0 <= inum < NSLOTS) as Hslot by (change NSLOTS with 208; lia).
  assert (forall i ty c, image_files paths !! i = Some (ty, c) -> inum_of i = inum -> i_type (disk_inode dv V inum) = ty) as Hty.
  { intros i ty c Hf <-. destruct (image_file _ _ _ Hf) as (? & _ & _ & _ & Ht & _). done. }
  destruct (decide (inum = ROOTINO)) as [->|Hne]; [by eapply (Hty 0%nat)|]. destruct (decide _) as [Hr|Hr].
  - destruct (lookup_lt_is_Some_2 paths (Z.to_nat inum - 2)) as [p Hp]; [lia|].
    eapply (Hty (S (Z.to_nat inum - 2)) T_FILE (content p)); [|unfold inum_of; lia].
    change (image_files paths !! S ?x) with (map (fun p => (T_FILE, content p)) paths !! x). by rewrite list_lookup_fmap, Hp.
  - change (type (inode_at s' inum) = 0). rewrite (fi_inode _ _ Hfin) by done. apply (ir_unused _ _ _ R); [done|].
    rewrite (ir_inode _ _ _ R). cbn [length image_files]. rewrite length_map. unfold ROOTINO in Hne. lia.
Qed.

(** The root directory. *)
Let root : inode := disk_inode dv V ROOTINO.

Lemma root_entries_length : Forall (fun e => length e = 16%nat) (root_entries paths).
Proof.
  unfold root_entries. repeat constructor. apply Forall_lookup. intros i e He. rewrite list_lookup_imap in He.
  destruct (paths !! i); [|done]. injection He as <-. apply entry_length.
Qed.

Lemma root_count : length (root_entries paths) = (length paths + 2)%nat.
Proof. unfold root_entries. cbn [length]. rewrite length_imap. lia. Qed.

Lemma root_size : i_size root = (16 * (Z.of_nat (length paths) + 2) / BSIZE + 1) * BSIZE /\ 16 * (Z.of_nat (length paths) + 2) < i_size root <= 5 * BSIZE.
Proof.
  destruct (image_file 0 _ _ eq_refl) as (data & _ & _ & _ & _ & _ & _ & _ & _ & _ & _ & Hs). rewrite decide_True, root_length in Hs by done.
  change (inum_of 0) with ROOTINO in Hs. fold root in Hs. replace (Z.of_nat (16 * (length paths + 2))) with (16 * (Z.of_nat (length paths) + 2)) in Hs by lia.
  split; [done|]. rewrite Hs. set (x := 16 * (Z.of_nat (length paths) + 2)). change NINODES with 200 in Hn.
  pose proof (Z.div_mod x BSIZE ltac:(done)). pose proof (Z.mod_pos_bound x BSIZE ltac:(done)).
  assert (x / BSIZE < 4) by (apply Z.div_lt_upper_bound; unfold BSIZE, x in *; lia). unfold BSIZE in *. lia.
Qed.

Lemma root_byte x : 0 <= x < MAXFILE * BSIZE -> fbyte V root x = default 0 (concat (root_entries paths) !! Z.to_nat x).
Proof.
  intros Hx. destruct (image_file 0 _ _ eq_refl) as (data & _ & HB & Ha & _). by eapply (fbyte_data _ _ _ _ _ HB Ha); [apply image_zero|].
Qed.

Lemma root_dent (k : nat) e : root_entries paths !! k = Some e -> dent V root (Z.of_nat k * DE_SIZE) = e.
Proof.
  intros Hk. pose proof (proj1 (Forall_lookup _ _) root_entries_length _ _ Hk) as He. cbv beta in He.
  pose proof (lookup_lt_Some _ _ _ Hk) as Hlt. rewrite root_count in Hlt. change NINODES with 200 in Hn.
  apply list_eq_same_length with 16%nat; [done|apply fdata_length|]. intros j x y Hj Hx Hy. unfold dent, fdata in Hx. unfold DE_SIZE in Hx.
  rewrite list_lookup_fmap, lookup_seqZ_lt in Hx by lia. injection Hx as <-. rewrite root_byte by flia.
  replace (Z.to_nat (Z.of_nat k * 16 + Z.of_nat j)) with (16 * k + j)%nat by lia.
  by rewrite (concat_lookup16 _ _ _ e), Hy by (done || apply root_entries_length).
Qed.

Lemma root_dent_end (k : nat) : (length paths + 2 <= k)%nat -> Z.of_nat k * DE_SIZE + DE_SIZE <= i_size root -> de_inum (dent V root (Z.of_nat k * DE_SIZE)) = 0.
Proof.
  intros Hk Hs. pose proof root_size as [_ Hr]. unfold DE_SIZE in *.
  assert (forall j, 0 <= j < 16 -> fbyte V root (Z.of_nat k * 16 + j) = 0) as Hz.
  { intros j Hj. rewrite root_byte by flia. rewrite lookup_ge_None_2; [done|]. rewrite root_length. lia. }
  unfold de_inum, get16, dent, fdata. change (seqZ (Z.of_nat k * 16) DE_SIZE) with
    (seqZ (Z.of_nat k * 16) 16). rewrite (seqZ_cons _ 16), (seqZ_cons _ (Z.pred 16)) by lia. cbn [fmap list_fmap]. unfold slice.
  cbn [Z.to_nat Pos.to_nat Pos.iter_op Nat.add drop take le].
  rewrite <- (Z.add_0_r (Z.of_nat k * 16)) at 1. rewrite Hz by lia.
  replace (Z.succ (Z.of_nat k * 16)) with (Z.of_nat k * 16 + 1) by lia. rewrite Hz by lia. done.
Qed.

Lemma root_find name :
  dir_find V root name = (fun x => Z.of_nat x.1 * DE_SIZE) <$> list_find (fun e => is_entry name e = true) (root_entries paths).
Proof.
  pose proof root_size as [Hs Hr]. unfold dir_find, de_offsets.
  assert (i_size root mod 16 = 0 /\ (i_size root + DE_SIZE - 1) / DE_SIZE = i_size root / 16) as [Hm Hq].
  { rewrite Hs. unfold BSIZE, DE_SIZE. set (y := _ / _ + 1). replace (y * 1024) with (y * 64 * 16) by lia. rewrite Z.mod_mul by done. split; [done|].
    replace (y * 64 * 16 + 16 - 1) with (15 + y * 64 * 16) by lia. by rewrite Z.div_add, Z.div_mul by done. }
  rewrite Hq. pose proof (Z.div_mod (i_size root) 16 ltac:(done)) as Hd.
  rewrite (find_offsets _ (is_entry name) (root_entries paths)); [done|rewrite root_count; lia| |].
  - intros k e Hk. cbn [Nat.add]. by rewrite (root_dent _ _ Hk).
  - intros k Hk. cbn [Nat.add]. rewrite root_count in Hk. unfold is_entry. rewrite root_dent_end; [done|lia|unfold DE_SIZE; lia].
Qed.

(** The directory is complete unless its entries fill their blocks exactly; then the size, which mkfs rounds up by a
    whole block, goes beyond the last block. *)
Lemma root_nblk : nblk (16 * (Z.of_nat (length paths) + 2)) =
  i_size root / BSIZE - (if (Z.of_nat (length paths) + 2) mod 64 =? 0 then 1 else 0).
Proof.
  destruct root_size as [-> _]. rewrite Z.div_mul by done. rewrite nblk_cases by lia. set (x := Z.of_nat (length paths) + 2).
  assert ((16 * x) mod BSIZE = 16 * (x mod 64)) as -> by (change BSIZE with (16 * 64); by rewrite Z.mul_mod_distr_l).
  destruct (Z.eqb_spec (x mod 64) 0) as [->|Hne]; [rewrite Z.mul_0_r; cbn [Z.eqb]; lia|].
  rewrite (proj2 (Z.eqb_neq _ _)) by lia. lia.
Qed.

Lemma root_dir_ok : (Z.of_nat (length paths) + 2) mod 64 <> 0 -> dir_ok dv V root.
Proof.
  intros Hm. destruct (image_file 0 _ _ eq_refl) as (data & Hd & HB & Ha & Ht & _ & Hdv & Hl & _ & Hr & _).
  pose proof root_nblk as Hnb. rewrite (proj2 (Z.eqb_neq _ _)), Z.sub_0_r in Hnb by done.
  rewrite root_length in Hl. replace (Z.of_nat (16 * (length paths + 2))) with (16 * (Z.of_nat (length paths) + 2)) in Hl by lia.
  rewrite Hnb in Hl. pose proof root_size as [Hs Hsr].
  split; [|exact Ht| |intros b; apply Hfin].
  - eapply (file_ok_data _ _ _ _ _ HB Ha); [done| |].
    + change (disk_inode dv V (inum_of 0)) with root. rewrite Hl, Hs, Z.div_mul by done. unfold BSIZE in *. lia.
    + eapply Forall_impl; [exact Hr|]. intros b. pose proof image_free. cbn. lia.
  - rewrite Hs. unfold BSIZE, DE_SIZE. set (y := _ / _ + 1). replace (y * 1024) with (y * 64 * 16) by lia. by apply Z.mod_mul.
Qed.

Lemma root_hole : (Z.of_nat (length paths) + 2) mod 64 = 0 -> fblock V root (i_size root / BSIZE - 1) = 0.
Proof.
  intros Hm. destruct (image_file 0 _ _ eq_refl) as (data & Hd & HB & Ha & Ht & _ & Hdv & Hl & _ & Hr & _).
  pose proof root_nblk as Hnb. rewrite Hm in Hnb. cbn [Z.eqb] in Hnb. rewrite root_length in Hl.
  replace (Z.of_nat (16 * (length paths + 2))) with (16 * (Z.of_nat (length paths) + 2)) in Hl by lia.
  pose proof root_size as [Hs Hsr].
  assert (0 <= i_size root / BSIZE - 1 < MAXFILE) as Hk.
  { rewrite <- Hnb. split; [lia|]. pose proof (fb_room _ _ _ _ HB). assert (i_size root / BSIZE <= 5) by (apply Z.div_le_upper_bound; [done|lia]). flia. }
  change root with (disk_inode dv V (inum_of 0)) at 1. rewrite (fblock_data _ _ _ _ _ HB Ha) by done.
  rewrite lookup_ge_None_2; [done|]. rewrite <- Hnb. lia.
Qed.

(** A copied file. *)
Lemma image_content i p : paths !! i = Some p -> Z.of_nat (length (content p)) <= MAXFILE * BSIZE ->
  let ip := disk_inode dv V (Z.of_nat i + 2) in
  i_nlink ip = 1 /\ i_size ip = Z.of_nat (length (content p)) /\ file_ok dv V ip /\ fdata V ip 0 (i_size ip) = content p.
Proof.
  intros Hp Hmax. assert (image_files paths !! S i = Some (T_FILE, content p)) as Hi.
  { change (image_files paths !! S i) with (map (fun p => (T_FILE, content p)) paths !! i). by rewrite list_lookup_fmap, Hp. }
  replace (Z.of_nat i + 2) with (inum_of (S i)) by (unfold inum_of; lia).
  destruct (image_file _ _ _ Hi) as (data & Hd & HB & Ha & _ & Hln & Hdv & Hl & _ & Hr & _ & Hs). rewrite decide_False in Hs by done.
  cbv zeta. split; [done|]. split; [done|]. rewrite Hs. split.
  - eapply (file_ok_data _ _ _ _ _ HB Ha); [done| |].
    + rewrite Hs. pose proof (fb_room _ _ _ _ HB). lia.
    + eapply Forall_impl; [exact Hr|]. intros b. pose proof image_free. cbn. lia.
  - apply (fdata_exact _ _ _ _ _ HB Ha); [apply image_zero|done].
Qed.

End image.

Section theorems.
Context `{host}.
Hypothesis no_error : forall o, io_error o = false.

(** C12: mkfs makes a well-formed file system.  Given files that fit, it ends without an error, and on the image it
    leaves: the kernel reads the superblock that was meant, which describes a disk whose log, inode table and
    bitmap do not overlap with the free blocks; the log is empty; exactly the blocks below [freeblock] are marked in
    use; inode 1 is a directory, the next ones are files, the others are free; and every block of a file lies
    in the data area, is in use, and belongs to no other file and to no other place of the same file. *)
Theorem mkfs_image_wf dv prog image paths :
  can_create image = true -> fits paths ->
  exists s, main (prog :: image :: paths) mkfs0 = Ok tt s /\ let V := blocks_of s in
    (forall b, length (V b) = Z.to_nat BSIZE /\ Forall byte (V b)) /\
    superblock_of (V 1) = sb /\ geometry sb (sb_logstart sb) /\
    (forall b, sb_logstart sb <= b < sb_logstart sb + sb_nlog sb -> V b = zeroes) /\
    freeblock s = nmeta + total (image_files paths) /\
    (forall b, 0 <= b < sb_size sb -> in_use sb V b = (b <? freeblock s)) /\ free_ok sb (sb_logstart sb) V /\
    (forall inum, 0 <= inum < sb_ninodes sb -> i_type (disk_inode dv V inum) =
       if decide (inum = ROOTINO) then T_DIR else if decide (1 < inum < Z.of_nat (length paths) + 2) then T_FILE else 0) /\
    (forall i k, 1 <= i < Z.of_nat (length paths) + 2 -> 0 <= k < MAXFILE -> fblock V (disk_inode dv V i) k <> 0 ->
       nmeta <= fblock V (disk_inode dv V i) k < freeblock s /\
       forall j l, 1 <= j < Z.of_nat (length paths) + 2 -> 0 <= l < MAXFILE ->
         fblock V (disk_inode dv V i) k = fblock V (disk_inode dv V j) l -> i = j /\ k = l).
Proof.
  intros Hc Hf. pose proof (main_wp no_error prog image paths Hc Hf) as Hm. apply wp_ok in Hm as ([] & s' & E & D & s & R & Hfin).
  pose proof (ft_inodes _ Hf) as Hn. destruct sb_fields as (E1 & _ & E3 & E4 & E5).
  assert (forall i, 1 <= i < Z.of_nat (length paths) + 2 -> exists j ty c, i = inum_of j /\ image_files paths !! j = Some (ty, c)) as Hinum.
  { intros i Hi. destruct (lookup_lt_is_Some_2 (image_files paths) (Z.to_nat (i - 1))) as [[ty c] Hj];
      [cbn [length image_files]; rewrite length_map; lia|]. exists (Z.to_nat (i - 1)), ty, c. split; [unfold inum_of; lia|done]. }
  exists s'. split; [done|]. cbv zeta. split; [intros b; split; apply Hfin|].
  split; [rewrite (image_meta _ _ _ _ R Hfin) by done; by vm_compute|]. split; [apply image_geometry|].
  split; [intros b Hb; rewrite E3, E4 in Hb; unfold LOGSIZE, MAXOPBLOCKS in Hb; rewrite (image_meta _ _ _ _ R Hfin) by lia;
    unfold meta_block; by rewrite (proj2 (Z.eqb_neq b 1)) by lia|].
  split; [rewrite (fi_free _ _ Hfin); apply R|]. split; [rewrite E1; by apply (image_in_use paths D s)|].
  split; [by apply (image_free_ok paths D s)|]. split; [rewrite E5; by apply (image_type paths D s)|].
  intros i k Hi Hk Hnz. destruct (Hinum i Hi) as (i' & ti & ci & -> & Hfi).
  destruct (lookup_lt_is_Some_2 D i') as [data Hd]; [rewrite (ir_len _ _ _ R); by eapply lookup_lt_Some|].
  split; [by eapply (image_fblock paths D s)|]. intros j l Hj Hl Ebl. destruct (Hinum j Hj) as (j' & tj & cj & -> & Hfj).
  destruct (image_disjoint paths D s s' dv R Hfin i' j' ti ci tj cj k l) as [-> ->]; done.
Qed.

(** C11: what mkfs is given is what the kernel finds.  In the image of [main] the root directory has the entries
    "." and ".." and one entry for each file, in order, whose name is the file's path without the leading "user/" and
    without one leading underscore, cut at 14 characters: a search for a name finds the first of these entries that has it.
    The inode of the i-th entry is complete, has the file's size, and the bytes the kernel reads through its direct and
    indirect blocks are the contents of the file on the host.  The directory itself is complete unless the entries
    fill their blocks exactly: then the size that mkfs rounds up covers a block that does not exist. *)
Theorem mkfs_contents dv prog image paths :
  can_create image = true -> fits paths ->
  exists s, main (prog :: image :: paths) mkfs0 = Ok tt s /\ let V := blocks_of s in let root := disk_inode dv V ROOTINO in
    i_nlink root = 1 /\ i_size root = (16 * (Z.of_nat (length paths) + 2) / BSIZE + 1) * BSIZE /\
    (forall (k : nat) e, root_entries paths !! k = Some e -> dent V root (Z.of_nat k * DE_SIZE) = e) /\
    (forall name, dir_find V root name =
       (fun x => Z.of_nat x.1 * DE_SIZE) <$> list_find (fun e => is_entry name e = true) (root_entries paths)) /\
    (if (Z.of_nat (length paths) + 2) mod 64 =? 0 then fblock V root (i_size root / BSIZE - 1) = 0 else dir_ok dv V root) /\
    forall i p, paths !! i = Some p -> let ip := disk_inode dv V (Z.of_nat i + 2) in
      i_nlink ip = 1 /\ i_size ip = Z.of_nat (length (content p)) /\ file_ok dv V ip /\ fdata V ip 0 (i_size ip) = content p.
Proof.
  intros Hc Hf. pose proof (main_wp no_error prog image paths Hc Hf) as Hm. apply wp_ok in Hm as ([] & s' & E & D & s & R & Hfin).
  pose proof (ft_inodes _ Hf) as Hn. exists s'. split; [done|]. cbv zeta.
  destruct (image_file paths D s s' dv R Hfin 0 _ _ eq_refl) as (_ & _ & _ & _ & _ & Hln & _). split; [exact Hln|].
  split; [by apply (root_size paths D s)|]. split; [by apply (root_dent paths D s)|]. split; [by apply (root_find paths D s)|].
  split; [destruct (Z.eqb_spec ((Z.of_nat (length paths) + 2) mod 64) 0); [by apply (root_hole paths D s)|by apply (root_dir_ok paths D s)]|].
  intros i p Hp. apply (image_content paths D s s' dv R Hfin i p Hp).
  pose proof (proj1 (Forall_lookup _ _) (ft_paths _ Hf) _ _ Hp) as Hpath. apply Hpath.
Qed.

End theorems.
