(* ===== verification/FsExamples.v ===== *)
(** * The file system theorems on a concrete machine

    The machine of the storage examples, with the disk that mkfs makes of one file: the kernel finds the file's
    name in the root directory, reads its contents, and allocates the first block mkfs left free. *)

From S2P Require Import Prelude Riscv Memory CString Bytes State Spinlock Sched SchedSpec Sleeplock Virtio SleepSpec Kalloc Vm VmExamples.
From S2P Require Import Uart Printf PrintfSpec Console Bio BioRing BioSpec VirtioSpec BioInit Log LogDisk LogSpec LogTxn LogExamples.
From S2P Require Import FsTxn Fs FsAlloc FsFile FsDir Mkfs MkfsFile MkfsSpec MkfsKernel.

#[local] Existing Instances demo_image demo_device demo_device_laws one_hart virtio_driver two_rounds demo_laws.

(** ** An image *)

Definition cat_path : list Z := chars "user/_cat".
#[local] Instance demo_host : host := {|
  files := fun path => if bool_decide (path = cat_path) then Some [chars "hi"] else None;
  can_create := fun _ => true;
  io_error := fun _ => false;
|}.

Lemma demo_no_error o : io_error o = false.
Proof. done. Qed.

Lemma cat_content : content cat_path = chars "hi".
Proof. unfold content. cbn [files demo_host]. by rewrite bool_decide_eq_true_2. Qed.

Lemma demo_fits : fits [cat_path].
Proof.
  split.
  - apply Forall_singleton. split.
    + apply (bool_decide_unpack _). by vm_compute.
    + apply (bool_decide_unpack _). by vm_compute.
    + exists [chars "hi"]. split; [cbn [files demo_host]; by rewrite bool_decide_eq_true_2|].
      apply Forall_singleton, (bool_decide_unpack _). by vm_compute.
    + rewrite cat_content. by vm_compute.
  - by vm_compute.
  - unfold image_files. cbn [map]. rewrite cat_content. by vm_compute.
Qed.

#[local] Opaque main.

Lemma mkfs_image_wf_witness :
  exists s, main [chars "mkfs"; chars "fs.img"; cat_path] mkfs0 = Ok tt s /\ freeblock s = 48 /\ in_use sb (blocks_of s) 47 = true /\
    in_use sb (blocks_of s) 48 = false /\ i_type (disk_inode 1 (blocks_of s) 2) = T_FILE.
Proof.
  destruct (mkfs_image_wf demo_no_error 1 (chars "mkfs") (chars "fs.img") [cat_path] eq_refl demo_fits)
    as (s & E & _ & _ & _ & _ & Hf & Hu & _ & Ht & _).
  assert (freeblock s = 48) as Ef.
  { rewrite Hf. unfold image_files. cbn [map]. rewrite cat_content. by vm_compute. }
  exists s. split; [exact E|]. split; [exact Ef|]. destruct sb_fields as (E1 & _ & _ & _ & E5).
  rewrite (Hu 47), (Hu 48), Ef, (Ht 2) by (rewrite ?E1, ?E5; unfold FSSIZE, NINODES; lia). split; [done|]. by split.
Defined.

Lemma mkfs_contents_witness :
  exists s, main [chars "mkfs"; chars "fs.img"; cat_path] mkfs0 = Ok tt s /\
    dir_find (blocks_of s) (disk_inode 1 (blocks_of s) ROOTINO) (chars "cat") = Some 32 /\
    fdata (blocks_of s) (disk_inode 1 (blocks_of s) 2) 0 2 = chars "hi".
Proof.
  destruct (mkfs_contents demo_no_error 1 (chars "mkfs") (chars "fs.img") [cat_path] eq_refl demo_fits)
    as (s & E & _ & _ & _ & Hd & _ & Hc).
  exists s. split; [exact E|]. split; [rewrite Hd; by vm_compute|].
  destruct (Hc 0%nat cat_path eq_refl) as (_ & Hs & _ & Hx). rewrite cat_content in Hs, Hx. by rewrite Hs in Hx.
Defined.

(** ** The kernel on that image *)

(** The image as a disk; mkfs ends, so it is there. *)
Lemma demo_made : exists s, main [chars "mkfs"; chars "fs.img"; cat_path] mkfs0 = Ok tt s /\ exists D s0,
  image_rep (image_files [cat_path]) D s0 /\ finished s0 s.
Proof.
  pose proof (main_wp demo_no_error (chars "mkfs") (chars "fs.img") [cat_path] eq_refl demo_fits) as Hm.
  destruct (proj1 (wp_ok _ _ _) Hm) as ([] & s & E & Hs). exists s. exact (conj E Hs).
Qed.

(** A kernel in an operation of the file system: the superblock is read, and the table has the root directory and the
    file as [ilock] leaves them. *)
Definition demo_inodes (V : Z -> list Z) : list inode :=
  disk_inode 1 V ROOTINO :: disk_inode 1 V 2 :: replicate (NINODE - 2) inode0.
Definition in_operation (V : Z -> list Z) (s : kst) : kst :=
  with_sb sb (with_panicked 0 (with_pr_locking 1 (with_uart_st (uart_st kst0) (with_inodes (demo_inodes V)
    (with_lg (with_l_outstanding 1 demo_log) s))))).

Lemma in_operation_txn V s :
  store 1 0 demo_pr V ∅ ∅ s -> (forall bn, V bn = dblock (disk s) bn) -> txn 1 0 demo_pr 2 10 V [] [] (in_operation V s).
Proof.
  intros [Hi Hr Hb] Hd. split; try done; [|apply NoDup_nil_2|apply NoDup_nil_2|apply demo_log_ok].
  split; [by eapply idle_frame; [..|exact Hi]|exact Hr|exact Hb].
Qed.

Definition demo_fs (d : gmap Z (list Z)) : kst := in_operation (dblock d) (demo_boot d).

#[local] Opaque demo_boot.

Lemma demo_fs_txn d : disk_sized d -> txn 1 0 demo_pr 2 10 (dblock d) [] [] (demo_fs d).
Proof.
  intros Hd. destruct (demo_booted d Hd) as (Hb & Ed & _). red in Hb. rewrite Ed in Hb.
  apply in_operation_txn; [exact Hb|]. intros bn. by rewrite Ed.
Qed.

Lemma image_sized s0 s : finished s0 s -> disk_sized (img s).
Proof. intros Hf bn. apply (io_len _ (fi_ok _ _ Hf) bn). Qed.

Lemma demo_ranges : 0 <= 0 < 2 ^ 32 /\ 0 <= 100 < 2 ^ 32 /\ 0 <= KSTACK 0 /\ KSTACK 0 + 100 < 2 ^ 64.
Proof. by vm_compute. Qed.

Lemma demo_blocks : (@length Z [] < NBUF)%nat /\ (@length Z [] + 2 <= 10)%nat /\ (@length Z [] + 1 < NBUF)%nat.
Proof. split_and!; apply Nat.leb_le; reflexivity. Qed.

Lemma demo_name : Forall byte (chars "cat") /\ Z.of_nat (length (chars "cat")) < src_base.
Proof. split; [|by vm_compute]. repeat constructor; by vm_compute. Qed.

Lemma demo_device_number : 0 <= 1 < 2 ^ 32.
Proof. lia. Qed.

#[local] Opaque readi dirlookup Fs.balloc bfree.

(** Reading the file gives what it had on the host. *)
Lemma readi_correct_witness :
  exists s, main [chars "mkfs"; chars "fs.img"; cat_path] mkfs0 = Ok tt s /\
  exists s', readi 1 false (KSTACK 0) 0 100 (demo_fs (img s)) = Ok 2 s' /\
    mem s' = wr_bytes (mem (demo_fs (img s))) (KSTACK 0) (chars "hi").
Proof.
  destruct demo_made as (s & E & D & s0 & R & Hf). exists s. split; [exact E|].
  destruct (image_content [cat_path] D s0 s 1 R Hf 0%nat cat_path eq_refl) as (_ & Hs & Hok & Hx).
  { rewrite cat_content. by vm_compute. }
  change (Z.of_nat 0 + 2) with 2 in Hs, Hok, Hx. rewrite cat_content in Hs, Hx. rewrite Hs in Hx.
  destruct (readi_correct demo_wakeups 1 0 demo_pr 2 10 (dblock (img s)) [] 1 (disk_inode 1 (blocks_of s) 2) (KSTACK 0) 0 100 (demo_fs (img s)))
    as (s' & E' & _ & Er).
  - apply demo_fs_txn. by eapply image_sized.
  - reflexivity.
  - exact Hok.
  - apply demo_blocks.
  - apply demo_ranges.
  - apply demo_ranges.
  - apply demo_ranges.
  - apply demo_ranges.
  - rewrite Hs in E', Er. exists s'. split; [exact E'|]. rewrite (rest_mem_mem_eq _ _ _ Er). by rewrite <- Hx.
Defined.

Lemma in_operation_reads V s : inodes (in_operation V s) = demo_inodes V /\ Mkfs.sb = State.sb (in_operation V s) /\ can_print (in_operation V s).
Proof. split; [reflexivity|]. split; [reflexivity|]. split; [reflexivity|]. split; [reflexivity|discriminate]. Qed.

Lemma demo_pick V : iget_pick (demo_inodes V) 1 2 = Some (1%nat, fun ip => with_i_ref (i_ref ip + 1) ip).
Proof. reflexivity. Qed.

Lemma demo_entry : list_find (fun e => is_entry (chars "cat") e = true) (root_entries [cat_path]) = Some (2%nat, entry 2 (chars "cat")) /\
  root_entries [cat_path] !! 2%nat = Some (entry 2 (chars "cat")) /\ de_inum (entry 2 (chars "cat")) = 2.
Proof. by vm_compute. Qed.

(** The name is the third entry of the root directory. *)
Lemma dirlookup_correct_witness :
  exists s, main [chars "mkfs"; chars "fs.img"; cat_path] mkfs0 = Ok tt s /\
  exists s' m, dirlookup 0 (chars "cat") (demo_fs (img s)) = Ok (Some (1%nat, 32)) s' /\ same_mem (mem (demo_fs (img s))) m /\
    rest s' = rest (upd_inode 1 (fun ip => with_i_ref (i_ref ip + 1) ip) (with_mem m (demo_fs (img s)))).
Proof.
  destruct demo_made as (s & E & D & s0 & R & Hf). exists s. split; [exact E|].
  pose proof (ft_inodes _ demo_fits) as Hn. destruct demo_entry as (He & H2 & Hnum).
  pose proof (root_find [cat_path] D s0 s 1 R Hf Hn (chars "cat")) as Hfind. rewrite He in Hfind. cbn [fmap option_fmap option_map fst] in Hfind.
  pose proof (root_dent [cat_path] D s0 s 1 R Hf Hn 2 _ H2) as Hde.
  destruct (in_operation_reads (dblock (img s)) (demo_boot (img s))) as (Ein & _). fold (demo_fs (img s)) in Ein.
  destruct (dirlookup_correct demo_wakeups 1 0 demo_pr 2 10 (dblock (img s)) [] 0 (disk_inode 1 (blocks_of s) ROOTINO) (chars "cat") (demo_fs (img s)))
    as (r & s' & m & E' & _ & Hm & Hs).
  - apply demo_fs_txn. by eapply image_sized.
  - rewrite Ein. reflexivity.
  - apply (root_dir_ok [cat_path] D s0 s 1 R Hf Hn). discriminate.
  - apply demo_blocks.
  - rewrite Ein. reflexivity.
  - apply demo_name.
  - apply demo_name.
  - fold (blocks_of s). rewrite Hfind. intros off [= <-]. rewrite Hde, Hnum, Ein, demo_pick. by eexists.
  - fold (blocks_of s) in Hs. rewrite Hfind in Hs. rewrite Hde, Hnum, Ein, demo_pick in Hs. destruct Hs as (i & f & [= <- <-] & -> & Hs).
    exists s', m. split; [exact E'|]. split; [exact Hm|exact Hs].
Defined.

Lemma demo_used s0 s D : image_rep (image_files [cat_path]) D s0 -> finished s0 s -> freeblock s = 48.
Proof. intros R Hf. rewrite (fi_free _ _ Hf), (proj1 (ir_block _ _ _ R)). by vm_compute. Qed.

(** The first block mkfs left free is the one that is allocated; before that it cannot be freed, and the one
    below it can. *)
Lemma balloc_bfree_correct_witness :
  exists s, main [chars "mkfs"; chars "fs.img"; cat_path] mkfs0 = Ok tt s /\
  (exists s', Fs.balloc 1 (demo_fs (img s)) = Ok 48 s') /\ (exists s', bfree 1 48 (demo_fs (img s)) = Panic "freeing free block" s') /\
  exists s', bfree 1 47 (demo_fs (img s)) = Ok tt s'.
Proof.
  destruct demo_made as (s & E & D & s0 & R & Hf). exists s. split; [exact E|].
  pose proof (demo_used _ _ _ R Hf) as H48. destruct sb_fields as (Esz & _ & Est & _).
  pose proof (image_in_use [cat_path] D s0 s R Hf) as Hu. rewrite H48 in Hu. unfold blocks_of in Hu.
  pose proof (image_free_ok [cat_path] D s0 s R Hf) as Hfree. pose proof image_geometry as Hg. rewrite Est in Hfree, Hg.
  destruct (in_operation_reads (dblock (img s)) (demo_boot (img s))) as (_ & Esb & Hp). fold (demo_fs (img s)) in Esb, Hp.
  destruct (balloc_bfree_correct demo_wakeups 1 0 demo_pr 2 10 Mkfs.sb demo_device_number Hg (dblock (img s)) [] (demo_fs (img s)))
    as [Hal Hfr].
  - apply demo_fs_txn. by eapply image_sized.
  - exact (eq_sym Esb).
  - exact Hp.
  - exact Hfree.
  - apply demo_blocks.
  - apply demo_blocks.
  - rewrite Esz in Hal, Hfr. change (i32 1) with 1 in Hfr. split; [|split].
    + destruct Hal as [[Hall _]|(r & s' & V' & blks' & Er & _ & _ & Hr & Hr0 & Hlow & _)].
      * specialize (Hall 48). rewrite Hu in Hall by (unfold FSSIZE; lia). discriminate Hall. unfold FSSIZE. lia.
      * exists s'. rewrite Er. f_equal. rewrite Hu in Hr0 by lia. apply Z.ltb_ge in Hr0.
        destruct (Z.eq_dec r 48) as [->|Hne]; [reflexivity|].
        specialize (Hlow 48). rewrite Hu in Hlow by (unfold FSSIZE; lia). discriminate Hlow. lia.
    + specialize (Hfr 48). rewrite Hu in Hfr by (unfold FSSIZE; lia). apply Hfr. unfold FSSIZE. lia.
    + specialize (Hfr 47). rewrite Hu in Hfr by (unfold FSSIZE; lia). destruct Hfr as (s' & _ & _ & Ef & _); [unfold FSSIZE; lia|].
      exists s'. exact Ef.
Defined.
