(* ===== verification/Pipe.v ===== *)
(** * Pipes: kernel/pipe.c

    A pipe is named by the address of the page it was allocated in.  [pipealloc] is in
    [File], with the file table it fills. *)

From S2P Require Import Prelude Riscv Memory State Spinlock Sched Sleeplock Kalloc Vm.

Definition PIPESIZE : Z := 512.

(** What [pipealloc] leaves in a fresh page: [kalloc] has filled it with 5. *)
Definition new_pipe : pipe := Pipe (replicate (Z.to_nat PIPESIZE) 5) 0 0 1 1.

Section pipe.
Context `{image} `{environment} `{patience}.

Definition pipeclose (pi : Z) (writable : Z) : K unit :=
  acquire (L_pipe pi);;
  (if negb (writable =? 0) then
     piset pi (with_pi_writeopen 0);;
     wakeup (Ch_nread pi)
   else
     piset pi (with_pi_readopen 0);;
     wakeup (Ch_nwrite pi));;
  p <- piget pi;;
  if (pi_readopen p =? 0) && (pi_writeopen p =? 0) then
    release (L_pipe pi);;
    kfree pi
  else release (L_pipe pi).

(** [pi->data[pi->nwrite++ % PIPESIZE] = ch]. *)
Definition pipe_put (ch : Z) (p : pipe) : pipe :=
  with_pi_nwrite (u32 (pi_nwrite p + 1))
    (with_pi_data (<[Z.to_nat (pi_nwrite p mod PIPESIZE) := ch]> (pi_data p)) p).

(** [ch = pi->data[pi->nread++ % PIPESIZE]]. *)
Definition pipe_head (p : pipe) : Z :=
  default 0 (pi_data p !! Z.to_nat (pi_nread p mod PIPESIZE)).
Definition pipe_get (p : pipe) : pipe := with_pi_nread (u32 (pi_nread p + 1)) p.

Definition pipe_full (p : pipe) : bool := pi_nwrite p =? u32 (pi_nread p + PIPESIZE).
Definition pipe_empty (p : pipe) : bool := pi_nread p =? pi_nwrite p.

(** One round of [pipewrite]'s loop with [i] bytes written: [inr None] when the reader is
    gone or the process was killed (the lock is then released), [inr (Some i)] when the
    loop ends. *)
Definition pipewrite_round (pr : nat) (pi addr n i : Z) : K (Z + option Z) :=
  if negb (i <? n) then ret (inr (Some i)) else
  p <- piget pi;;
  dead <- (if pi_readopen p =? 0 then ret true
           else k <- killed pr;; ret (negb (k =? 0)));;
  if dead then release (L_pipe pi);; ret (inr None) else
  p <- piget pi;;
  if pipe_full p then
    wakeup (Ch_nread pi);;
    sleep (Ch_nwrite pi) (L_pipe pi);;
    ret (inl i)
  else
    prc <- pget pr;;
    r <- copyin (p_pagetable prc) (addr +u i) 1;;
    if r.1 =? -1 then ret (inr (Some i)) else
    piset pi (pipe_put (hd 0 r.2));;
    ret (inl (i + 1)).

Definition pipewrite (pi addr n : Z) : K Z :=
  pr <- curproc;;
  acquire (L_pipe pi);;
  r <- loopM (S (Z.to_nat n + wakeups)) (pipewrite_round pr pi addr n) 0;;
  match r with
  | None => ret (-1)
  | Some i =>
      wakeup (Ch_nread pi);;
      release (L_pipe pi);;
      ret i
  end.

(** [while(pi->nread == pi->nwrite && pi->writeopen)]: false when the process was killed
    (the lock is then released). *)
Definition piperead_wait (pr : nat) (pi : Z) : K bool :=
  loopM wakeups (fun _ =>
    p <- piget pi;;
    if pipe_empty p && negb (pi_writeopen p =? 0) then
      k <- killed pr;;
      if negb (k =? 0) then release (L_pipe pi);; ret (inr false)
      else sleep (Ch_nread pi) (L_pipe pi);; ret (inl tt)
    else ret (inr true)) tt.

(** The copy loop: at most [n] bytes. *)
Fixpoint piperead_loop (fuel : nat) (pr : nat) (pi addr n i : Z) : K Z :=
  match fuel with
  | O => ret i
  | S f =>
      if negb (i <? n) then ret i else
      p <- piget pi;;
      if pipe_empty p then ret i else
      piset pi pipe_get;;
      prc <- pget pr;;
      r <- copyout (p_pagetable prc) (addr +u i) [pipe_head p] 1;;
      if r =? -1 then ret i else piperead_loop f pr pi addr n (i + 1)
  end.

Definition piperead (pi addr n : Z) : K Z :=
  pr <- curproc;;
  acquire (L_pipe pi);;
  alive <- piperead_wait pr pi;;
  if negb alive then ret (-1) else
  i <- piperead_loop (Z.to_nat n) pr pi addr n 0;;
  wakeup (Ch_nwrite pi);;
  release (L_pipe pi);;
  ret i.

End pipe.
