(* ===== verification/File.v ===== *)
(** * Open files: kernel/file.c, and pipealloc of kernel/pipe.c *)

From S2P Require Import Prelude Riscv Memory Bytes State Spinlock Sched Sleeplock Kalloc Vm.
From S2P Require Import Uart Printf Console Bio Log Fs Pipe.

Definition fileinit : K unit := initlock L_ftable "ftable".

(** [None] for a null pointer. *)
Definition filealloc : K (option nat) :=
  acquire L_ftable;;
  r <- searchM (seq 0 NFILE) (fun i =>
    f <- fget i;;
    if f_ref f =? 0 then fset i (with_f_ref 1);; ret (Some i) else ret None);;
  release L_ftable;;
  ret r.

Definition filedup (i : nat) : K nat :=
  acquire L_ftable;;
  f <- fget i;;
  if f_ref f <? 1 then panic "filedup" else
  fset i (with_f_ref (f_ref f + 1));;
  release L_ftable;;
  ret i.

(** [struct stat] as bytes: 4 bytes of padding follow [nlink]. *)
Definition STAT_SIZE : Z := 24.
Definition stat_bytes (st : stat) (d : list Z) : list Z :=
  let d := set32 d 0 (st_dev st) in
  let d := set32 d 4 (st_ino st) in
  let d := set16 d 8 (st_type st) in
  let d := set16 d 10 (st_nlink st) in
  patch d 16 (unle 8 (st_size st)).
Definition local_st : Z := KSTACK 0 + 256.

Section file.
Context `{image} `{environment} `{patience} `{disk_driver}.

Definition fileclose (i : nat) : K unit :=
  acquire L_ftable;;
  f <- fget i;;
  if f_ref f <? 1 then panic "fileclose" else
  fset i (with_f_ref (f_ref f - 1));;
  if f_ref f - 1 >? 0 then release L_ftable else
  ff <- fget i;;
  fset i (with_f_ref 0);;
  fset i (with_f_type FD_NONE);;
  release L_ftable;;
  if decide (f_type ff = FD_PIPE) then pipeclose (f_pipe ff) (f_writable ff)
  else if decide (f_type ff = FD_INODE \/ f_type ff = FD_DEVICE) then
    begin_op;;
    ip <- deref (f_ip ff);;
    iput ip;;
    end_op
  else ret tt.

Definition filestat (i : nat) (addr : Z) : K Z :=
  p <- curproc;;
  f <- fget i;;
  if decide (f_type f = FD_INODE \/ f_type f = FD_DEVICE) then
    ip <- deref (f_ip f);;
    ilock ip;;
    st <- stati ip;;
    d <- load_bytes local_st (Z.to_nat STAT_SIZE);;
    iunlock ip;;
    pr <- pget p;;
    r <- copyout (p_pagetable pr) addr (stat_bytes st d) STAT_SIZE;;
    if r <? 0 then ret (-1) else ret 0
  else ret (-1).

(** [devsw[major]]: [None] when the major number is out of range or the entry is empty. *)
Definition dev_entry (major : Z) : K (option device) :=
  if (major <? 0) || (major >=? NDEV) then ret None
  else gets (fun s => default None (devsw s !! Z.to_nat major)).

Definition fileread (i : nat) (addr n : Z) : K Z :=
  f <- fget i;;
  if f_readable f =? 0 then ret (-1) else
  match f_type f with
  | FD_PIPE => piperead (f_pipe f) addr n
  | FD_DEVICE =>
      d <- dev_entry (f_major f);;
      match d with
      | None => ret (-1)
      | Some D_console => consoleread true addr n
      end
  | FD_INODE =>
      ip <- deref (f_ip f);;
      ilock ip;;
      f <- fget i;;
      r <- readi ip true addr (f_off f) (u32 n);;
      (if r >? 0 then fset i (fun f => with_f_off (u32 (f_off f + r)) f) else ret tt);;
      iunlock ip;;
      ret r
  | FD_NONE => panic "fileread"
  end.

(** How much [filewrite] writes in one transaction. *)
Definition write_max : Z := ((MAXOPBLOCKS - 1 - 1 - 2) / 2) * BSIZE.

(** One transaction of [filewrite]: what [writei] returned. *)
Definition write_chunk (i ip : nat) (addr n1 : Z) : K Z :=
  begin_op;;
  ilock ip;;
  f <- fget i;;
  r <- writei ip true addr (f_off f) (u32 n1);;
  (if r >? 0 then fset i (fun f => with_f_off (u32 (f_off f + r)) f) else ret tt);;
  iunlock ip;;
  end_op;;
  ret r.

Fixpoint filewrite_loop (fuel : nat) (i ip : nat) (addr n k : Z) : K Z :=
  match fuel with
  | O => fun _ => NoFuel
  | S fu =>
      if negb (k <? n) then ret k else
      let n1 := Z.min (n - k) write_max in
      r <- write_chunk i ip (addr +u k) n1;;
      if negb (r =? n1) then ret k else filewrite_loop fu i ip addr n (k + r)
  end.

Definition filewrite (i : nat) (addr n : Z) : K Z :=
  f <- fget i;;
  if f_writable f =? 0 then ret (-1) else
  match f_type f with
  | FD_PIPE => pipewrite (f_pipe f) addr n
  | FD_DEVICE =>
      d <- dev_entry (f_major f);;
      match d with
      | None => ret (-1)
      | Some D_console => consolewrite true addr n
      end
  | FD_INODE =>
      ip <- deref (f_ip f);;
      k <- filewrite_loop (Z.to_nat (n / write_max + 2)) i ip addr n 0;;
      ret (if k =? n then n else -1)
  | FD_NONE => panic "filewrite"
  end.

(** The [bad:] label of [pipealloc]. *)
Definition pipealloc_bad (f0 f1 : option nat) : K (option (nat * nat)) :=
  (match f0 with Some i => fileclose i | None => ret tt end);;
  (match f1 with Some i => fileclose i | None => ret tt end);;
  ret None.

Definition pipe_end (i : nat) (readable writable pi : Z) : K unit :=
  fset i (with_f_type FD_PIPE);;
  fset i (with_f_readable readable);;
  fset i (with_f_writable writable);;
  fset i (with_f_pipe pi).

(** The two files, or [None] for -1. *)
Definition pipealloc : K (option (nat * nat)) :=
  f0 <- filealloc;;
  match f0 with
  | None => pipealloc_bad None None
  | Some r0 =>
      f1 <- filealloc;;
      match f1 with
      | None => pipealloc_bad (Some r0) None
      | Some r1 =>
          pi <- kalloc;;
          if pi =? 0 then pipealloc_bad (Some r0) (Some r1) else
          piset pi (fun _ => new_pipe);;
          initlock (L_pipe pi) "pipe";;
          pipe_end r0 1 0 pi;;
          pipe_end r1 0 1 pi;;
          ret (Some (r0, r1))
      end
  end.

End file.
