(* ===== verification/Proc.v ===== *)
(** * Processes: kernel/proc.c, second part

    Creation, exit and reaping of processes.  The trapframe of a process is the page at
    [p_trapframe]; its fields are 64-bit words of memory. *)

From S2P Require Import Prelude Riscv Memory CString Bytes State Spinlock Sched Sleeplock.
From S2P Require Import Kalloc Vm Uart Printf Console Bio Log Fs Pipe File.

(** ** struct trapframe (kernel/proc.h): the offsets of its fields *)

Definition TF_kernel_satp : Z := 0.
Definition TF_kernel_sp : Z := 8.
Definition TF_kernel_trap : Z := 16.
Definition TF_epc : Z := 24.
Definition TF_kernel_hartid : Z := 32.
Definition TF_sp : Z := 48.
Definition TF_a0 : Z := 112.
Definition TF_a1 : Z := 120.
Definition TF_a7 : Z := 168.
Definition TF_SIZE : Z := 288.

(** [p->trapframe->field] and its assignment. *)
Definition tf_get (p : nat) (off : Z) : K Z :=
  pr <- pget p;; load64 (p_trapframe pr + off).
Definition tf_set (p : nat) (off v : Z) : K unit :=
  pr <- pget p;; store64 (p_trapframe pr + off) v.

Section proc.
Context `{image} `{environment} `{patience} `{disk_driver}.

Definition proc_mapstacks (kpgtbl : Z) : K unit :=
  forM plist (fun i =>
    pa <- kalloc;;
    if pa =? 0 then panic "kalloc" else
    let va := KSTACK (Z.of_nat i) in
    kvmmap kpgtbl va pa PGSIZE (Z.lor PTE_R PTE_W)).

Definition procinit : K unit :=
  initlock L_pid "nextpid";;
  initlock L_wait "wait_lock";;
  forM plist (fun i =>
    initlock (L_proc i) "proc";;
    pset i (with_p_state UNUSED);;
    pset i (with_p_kstack (KSTACK (Z.of_nat i)))).

Definition allocpid : K Z :=
  acquire L_pid;;
  pid <- gets nextpid;;
  modify (with_nextpid (i32 (pid + 1)));;
  release L_pid;;
  ret pid.

Definition proc_pagetable (p : nat) : K Z :=
  pagetable <- uvmcreate;;
  if pagetable =? 0 then ret 0 else
  r <- mappages pagetable TRAMPOLINE PGSIZE trampoline (Z.lor PTE_R PTE_X);;
  if r <? 0 then uvmfree pagetable 0;; ret 0 else
  pr <- pget p;;
  r <- mappages pagetable TRAPFRAME PGSIZE (p_trapframe pr) (Z.lor PTE_R PTE_W);;
  if r <? 0 then
    uvmunmap pagetable TRAMPOLINE 1 false;;
    uvmfree pagetable 0;;
    ret 0
  else ret pagetable.

Definition proc_freepagetable (pagetable sz : Z) : K unit :=
  uvmunmap pagetable TRAMPOLINE 1 false;;
  uvmunmap pagetable TRAPFRAME 1 false;;
  uvmfree pagetable sz.

Definition freeproc (p : nat) : K unit :=
  pr <- pget p;;
  (if negb (p_trapframe pr =? 0) then kfree (p_trapframe pr) else ret tt);;
  pset p (with_p_trapframe 0);;
  pr <- pget p;;
  (if negb (p_pagetable pr =? 0) then proc_freepagetable (p_pagetable pr) (p_sz pr) else ret tt);;
  pset p (with_p_pagetable 0);;
  pset p (with_p_sz 0);;
  pset p (with_p_pid 0);;
  pset p (with_p_parent None);;
  pset p (fun pr => with_p_name (<[0%nat := 0]> (p_name pr)) pr);;
  pset p (with_p_chan Ch_null);;
  pset p (with_p_killed 0);;
  pset p (with_p_xstate 0);;
  pset p (with_p_state UNUSED).

(** The search of [allocproc]: the first [UNUSED] process, with its lock held. *)
Definition find_unused : K (option nat) :=
  searchM plist (fun i =>
    acquire (L_proc i);;
    pr <- pget i;;
    if decide (p_state pr = UNUSED) then ret (Some i)
    else release (L_proc i);; ret None).

Definition allocproc : K (option nat) :=
  r <- find_unused;;
  match r with
  | None => ret None
  | Some p =>
      pid <- allocpid;;
      pset p (with_p_pid pid);;
      pset p (with_p_state USED);;
      tf <- kalloc;;
      pset p (with_p_trapframe tf);;
      if tf =? 0 then freeproc p;; release (L_proc p);; ret None else
      pt <- proc_pagetable p;;
      pset p (with_p_pagetable pt);;
      if pt =? 0 then freeproc p;; release (L_proc p);; ret None else
      pset p (fun pr => with_p_context
        (Context forkret_pc (p_kstack pr +u PGSIZE) (replicate 12 0)) pr);;
      ret (Some p)
  end.

(** user/initcode.S, assembled. *)
Definition initcode : list Z :=
  [0x17; 0x05; 0x00; 0x00; 0x13; 0x05; 0x45; 0x02;
   0x97; 0x05; 0x00; 0x00; 0x93; 0x85; 0x35; 0x02;
   0x93; 0x08; 0x70; 0x00; 0x73; 0x00; 0x00; 0x00;
   0x93; 0x08; 0x20; 0x00; 0x73; 0x00; 0x00; 0x00;
   0xef; 0xf0; 0x9f; 0xff; 0x2f; 0x69; 0x6e; 0x69;
   0x74; 0x00; 0x00; 0x24; 0x00; 0x00; 0x00; 0x00;
   0x00; 0x00; 0x00; 0x00].

Definition userinit : K unit :=
  r <- allocproc;;
  modify (with_initproc r);;
  p <- deref r;;
  pr <- pget p;;
  uvmfirst (p_pagetable pr) initcode (Z.of_nat (length initcode));;
  pset p (with_p_sz PGSIZE);;
  tf_set p TF_epc 0;;
  tf_set p TF_sp PGSIZE;;
  pset p (fun pr => with_p_name (safestrcpy_arr (p_name pr) (literal "initcode") 16) pr);;
  c <- namei (chars "/");;
  pset p (with_p_cwd c);;
  pset p (with_p_state RUNNABLE);;
  release (L_proc p).

Definition growproc (n : Z) : K Z :=
  p <- curproc;;
  pr <- pget p;;
  let sz := p_sz pr in
  if n >? 0 then
    sz <- uvmalloc (p_pagetable pr) sz (sz +u n) PTE_W;;
    if sz =? 0 then ret (-1) else pset p (with_p_sz sz);; ret 0
  else if n <? 0 then
    sz <- uvmdealloc (p_pagetable pr) sz (sz +u n);;
    pset p (with_p_sz sz);; ret 0
  else pset p (with_p_sz sz);; ret 0.

(** [for(i = 0; i < NOFILE; i++) if(p->ofile[i]) np->ofile[i] = filedup(p->ofile[i])]. *)
Definition fork_files (p np : nat) : K unit :=
  forM (seq 0 NOFILE) (fun i =>
    pr <- pget p;;
    match p_ofile pr !! i with
    | Some (Some f) =>
        f <- filedup f;;
        pset np (fun pr => with_p_ofile (<[i := Some f]> (p_ofile pr)) pr)
    | _ => ret tt
    end).

Definition fork : K Z :=
  p <- curproc;;
  r <- allocproc;;
  match r with
  | None => ret (-1)
  | Some np =>
      pr <- pget p;;
      npr <- pget np;;
      c <- uvmcopy (p_pagetable pr) (p_pagetable npr) (p_sz pr);;
      if c <? 0 then freeproc np;; release (L_proc np);; ret (-1) else
      pset np (with_p_sz (p_sz pr));;
      mem_memmove (p_trapframe npr) (p_trapframe pr) TF_SIZE;;
      tf_set np TF_a0 0;;
      fork_files p np;;
      pr <- pget p;;
      cwd <- deref (p_cwd pr);;
      cwd <- idup cwd;;
      pset np (with_p_cwd (Some cwd));;
      pset np (fun npr => with_p_name (safestrcpy_arr (p_name npr) (p_name pr) 16) npr);;
      npr <- pget np;;
      let pid := p_pid npr in
      release (L_proc np);;
      acquire L_wait;;
      pset np (with_p_parent (Some p));;
      release L_wait;;
      acquire (L_proc np);;
      pset np (with_p_state RUNNABLE);;
      release (L_proc np);;
      ret pid
  end.

(** A [struct proc *] used as a channel. *)
Definition proc_chan (p : option nat) : chan :=
  match p with Some i => Ch_proc i | None => Ch_null end.

Definition reparent (p : nat) : K unit :=
  forM plist (fun pp =>
    pr <- pget pp;;
    if decide (p_parent pr = Some p) then
      init <- gets initproc;;
      pset pp (with_p_parent init);;
      wakeup (proc_chan init)
    else ret tt).

(** [exit] closes the files... *)
Definition exit_files (p : nat) : K unit :=
  forM (seq 0 NOFILE) (fun fd =>
    pr <- pget p;;
    match p_ofile pr !! fd with
    | Some (Some f) =>
        fileclose f;;
        pset p (fun pr => with_p_ofile (<[fd := None]> (p_ofile pr)) pr)
    | _ => ret tt
    end).

(** ... and does not return: [sched] leaves this thread for good, or panics. *)
Definition exit {A} (status : Z) : K A :=
  p <- curproc;;
  init <- gets initproc;;
  if decide (Some p = init) then panic "init exiting" else
  exit_files p;;
  begin_op;;
  pr <- pget p;;
  cwd <- deref (p_cwd pr);;
  iput cwd;;
  end_op;;
  pset p (with_p_cwd None);;
  acquire L_wait;;
  reparent p;;
  pr <- pget p;;
  wakeup (proc_chan (p_parent pr));;
  acquire (L_proc p);;
  pset p (with_p_xstate status);;
  pset p (with_p_state ZOMBIE);;
  release L_wait;;
  sched;;
  panic "zombie exit".

(** One scan of [wait] over the table: [inl r] when [wait] returns [r] (the locks are then
    released), [inr havekids] at the end of the table. *)
Fixpoint wait_scan (l : list nat) (p : nat) (addr : Z) (havekids : bool) : K (Z + bool) :=
  match l with
  | [] => ret (inr havekids)
  | pp :: l =>
      pr <- pget pp;;
      if decide (p_parent pr = Some p) then
        acquire (L_proc pp);;
        pr <- pget pp;;
        if decide (p_state pr = ZOMBIE) then
          let pid := p_pid pr in
          me <- pget p;;
          r <- (if addr =? 0 then ret 0
                else copyout (p_pagetable me) addr (unle 4 (p_xstate pr)) 4);;
          if r <? 0 then
            release (L_proc pp);;
            release L_wait;;
            ret (inl (-1))
          else
            freeproc pp;;
            release (L_proc pp);;
            release L_wait;;
            ret (inl pid)
        else
          release (L_proc pp);;
          wait_scan l p addr true
      else wait_scan l p addr havekids
  end.

Definition wait (addr : Z) : K Z :=
  p <- curproc;;
  acquire L_wait;;
  loopM wakeups (fun _ =>
    r <- wait_scan plist p addr false;;
    match r with
    | inl r => ret (inr r)
    | inr havekids =>
        k <- (if havekids then killed p else ret 0);;
        if negb havekids || negb (k =? 0) then
          release L_wait;;
          ret (inr (-1))
        else
          sleep (Ch_proc p) L_wait;;
          ret (inl tt)
    end) tt.

End proc.
