(* ===== verification/ProcSpec.v ===== *)
(** * Address spaces of processes

    [proc_pagetable], [proc_freepagetable], [allocproc] and [freeproc] of kernel/proc.c: a process
    is made of pages of the free list and gives all of them back. *)

From S2P Require Import Prelude Riscv Memory CString Bytes State Spinlock Sched SchedSpec Sleeplock Kalloc Vm.
From S2P Require Import PageTable VmSpec Uvm UserCopy UvmFork Uart Printf Console Bio Log Fs Pipe File Proc.

(** ** States that differ in memory and tables only *)

(** The state [s] with memory, free list, next pid, processes, files and inodes of [t]. *)
Definition fx (t s : kst) : kst :=
  with_mem (mem t) (with_freelist (freelist t) (with_nextpid (nextpid t) (with_procs (procs t)
    (with_files (files t) (with_inodes (inodes t) s))))).

Definition near (s s' : kst) : Prop := s' = fx s' s.

(** The tables. *)
Definition tables (s : kst) : list proc * Z * list file * list inode := (procs s, nextpid s, files s, inodes s).

Lemma fx_framed t : framed (fx t).
Proof. unfold fx. solve_framed. Qed.

Lemma near_refl s : near s s.
Proof. by destruct s. Qed.

Lemma near_fx t s : near s (fx t s).
Proof. unfold near, fx. kst_cbv. reflexivity. Qed.

Lemma near_trans s1 s2 s3 : near s1 s2 -> near s2 s3 -> near s1 s3.
Proof. unfold near. intros E1 ->. rewrite E1. unfold fx. kst_cbv. reflexivity. Qed.

Lemma near_rcl s s' : near s s' -> regs s' = regs s /\ cpus s' = cpus s /\ locks s' = locks s.
Proof. intros ->. exact (framed_fields (fx s') s (fx_framed s')). Qed.

Lemma near_hart s s' : near s s' -> hart_ok s -> hart_ok s'.
Proof. intros ->. apply framed_hart, fx_framed. Qed.

Lemma near_free l s s' : near s s' -> lock_free l s -> lock_free l s'.
Proof. intros ->. apply framed_free, fx_framed. Qed.

Lemma near_held l s s' : near s s' -> held_ok l s -> held_ok l s'.
Proof. intros (Er & Ec & El)%near_rcl. unfold held_ok, lock_held, me, sie. by rewrite Er, Ec, El. Qed.

Lemma near_upd p f s : near s (upd p f s).
Proof. unfold near, fx, upd. kst_cbv. by destruct s. Qed.

Lemma near_nextpid n s : near s (with_nextpid n s).
Proof. unfold near, fx. kst_cbv. by destruct s. Qed.

Lemma near_mem m f s : near s (with_mem m (with_freelist f s)).
Proof. unfold near, fx. kst_cbv. by destruct s. Qed.

Lemma near_initproc s s' : near s s' -> initproc s' = initproc s.
Proof. by intros ->. Qed.

Lemma near_quiet s s' : near s s' -> tables s' = tables s -> quiet s' = quiet s.
Proof.
  intros Hn [= E1 E2 E3 E4]. rewrite Hn. unfold fx. rewrite E1, E2, E3, E4. rewrite quiet_mem, quiet_freelist. by destruct s.
Qed.

(** Under a lock, virtual-memory code changes memory and the free list only. *)
Lemma quiet_near l s s' : held_ok l s -> quiet s' = quiet s -> near s s' /\ tables s' = tables s.
Proof.
  intros Hh E.
  assert (regs s' = regs s) as Er by exact (f_equal regs E).
  assert (cpus (touch s') = cpus s) as Ec.
  { pose proof (f_equal cpus E : cpus (touch s') = cpus (touch s)) as Ec. by rewrite (touch_held l s Hh) in Ec. }
  assert (touch s' = s') as Et.
  { destruct Hh as [_ (c & Ec1 & Hn & _)]. unfold touch in Ec. cbn [cpus with_cpus] in Ec.
    assert (me s' = me s) as Em by (unfold me; by rewrite Er). rewrite <- Ec, Em, list_lookup_alter_eq in Ec1.
    destruct (cpus s' !! me s) as [c'|] eqn:Ec'; [|done]. injection Ec1 as Ec1.
    eapply (touch_id s' c'); [by rewrite Em|]. revert Hn. rewrite <- Ec1. unfold touch_cpu. destruct (noff c' =? 0); cbn; lia. }
  assert (tables s' = tables s) as Ht by exact (f_equal tables E). split; [|exact Ht].
  unfold quiet in E. rewrite Et, (touch_held l s Hh) in E. unfold near, fx. injection Ht as Ep En Ef Ei. rewrite Ep, En, Ef, Ei.
  pose proof (f_equal (fun t => with_mem (mem s') (with_freelist (freelist s') t)) E) as E'. cbv beta in E'.
  transitivity (with_mem (mem s') (with_freelist (freelist s') (with_mem ∅ (with_freelist 0 s')))); [by destruct s'|].
  rewrite E'. by destruct s.
Qed.

Section procspec.
Context `{image} (Himg : image_ok).

Lemma vm_ok_near l s s' : near s s' -> mem s' = mem s -> freelist s' = freelist s -> vm_ok l s -> vm_ok l s'.
Proof.
  intros Hn Em Ef [[Hh Hl] Hk]. split; [split; [by eapply near_hart|by eapply near_free]|]. unfold kmem_inv. by rewrite Em, Ef.
Qed.

Lemma uspace_near root T U l s s' :
  near s s' -> mem s' = mem s -> freelist s' = freelist s -> uspace root T U l s -> uspace root T U l s'.
Proof. intros Hn Em Ef [R Hv Ha Hp Hi]. split; [by rewrite Em|by eapply vm_ok_near|done..]. Qed.

Lemma vm_ok_take k l s : k <> L_kmem -> vm_ok l s -> vm_ok l (take_lock k s).
Proof. intros Hk [[Hh Hl] Hi]. split; [split; [by apply take_lock_hart_ok|by apply take_lock_other]|exact Hi]. Qed.

(** ** Page tables of processes *)

Lemma upage_high U a e q : TRAPFRAME <= a -> upage (<[a := e]> U) q <-> upage U q.
Proof.
  intros Ha. split; intros (va & fl & Hva & E); exists va, fl; (split; [done|]); rewrite lookup_insert_ne in * by lia; done.
Qed.

Lemma upage_delete_high U a q : TRAPFRAME <= a -> upage (delete a U) q <-> upage U q.
Proof.
  intros Ha. split; intros (va & fl & Hva & E); exists va, fl; (split; [done|]); rewrite lookup_delete_ne in * by lia; done.
Qed.

Lemma uspace_map_high root T U l s T' l' s' a e :
  uspace root T U l s -> TRAPFRAME <= a -> grows root (<[a := e]> U) T l s T' l' s' ->
  uspace root T' (<[a := e]> U) l' s' /\ (forall x, owned l' T' (<[a := e]> U) x <-> owned l T U x).
Proof.
  intros [R Hv Hap Hpg Hinj] Ha G. split; [split; try apply G|].
  - intros va pa f Hva E. rewrite lookup_insert_ne in E by lia. destruct (Hpg va pa f Hva E) as (? & ? & ? & ?).
    pose proof (grows_owned _ _ _ _ _ _ _ _ pa G) as HG. tauto.
  - intros va vb pa f f' Hva Hvb E E'. rewrite lookup_insert_ne in E, E' by lia. eauto.
  - intros x. unfold owned. rewrite upage_high by done. pose proof (grows_owned _ _ _ _ _ _ _ _ x G) as HG. tauto.
Qed.

(** [uvmcreate] makes an empty page table of the first free page. *)
Lemma uvmcreate_spec l s : vm_ok l s ->
  match l with
  | [] => uvmcreate s = Ok 0 (touch s)
  | q :: l' => exists s', uvmcreate s = Ok q s' /\ q <> 0 /\ uspace q {[ [] := q ]} ∅ l' s' /\ vmstep {[q]} s s'
  end.
Proof.
  intros Hv. pose proof (kalloc_vm l s Himg Hv) as Hk. destruct l as [|q l].
  { destruct Hk as [E _]. unfold uvmcreate. by rewrite (bind_ok _ _ _ _ _ E). }
  destruct Hk as (E & Hv' & Hq & _ & Hpos & Hql & Hs). unfold uvmcreate. rewrite (bind_ok _ _ _ _ _ E).
  rewrite (proj2 (Z.eqb_neq q 0)) by lia. unfold mem_memset. rewrite bind_modify. eexists. split; [reflexivity|]. split; [lia|].
  set (m := memset _ _ _ _). assert (same_outside {[q]} (mem (kalloc_state s)) m) as Hm by apply same_only_page, only_page_memset.
  split; [split|].
  - apply empty_rep; [done|]. intros j Hj. apply zeroed_page; [apply Hq|done].
  - apply (vm_ok_mem {[q]}); [done|exact Hm|by intros ? ->%elem_of_singleton; apply Hq|by intros ? ->%elem_of_singleton].
  - intros t [p [_ <-]%lookup_singleton_Some]%elem_of_tpages. done.
  - intros va pa fl _ E'. by rewrite lookup_empty in E'.
  - intros va vb pa fl fl' _ _ E'. by rewrite lookup_empty in E'.
  - split; [by eapply same_trans|]. by rewrite quiet_mem, kalloc_state_quiet.
Qed.

(** Unmapping a page above user memory without freeing it. *)
Lemma uvmunmap_keep root a T U l s pa fl :
  U !! a = Some (pa, fl) -> fl <> PTE_V -> TRAPFRAME <= a -> uspace root T U l s ->
  exists s', uvmunmap root a 1 false s = Ok tt s' /\ uspace root T (delete a U) l s' /\
    (forall x, owned l T (delete a U) x <-> owned l T U x) /\ vmstep (tpages T) s s'.
Proof.
  intros EU Hfl Ha Hu. pose proof Hu as [R Hv Hap Hpg Hinj]. destruct (pt_dom _ _ _ _ R _ _ EU) as [Hva [t Ht]].
  pose proof Hva as [Hr Hal]. unfold uvmunmap. unfold page_aligned in Hal. rewrite Hal. cbn [negb Z.eqb].
  change (u64 (1 * PGSIZE)) with PGSIZE. rewrite u64_small by (pgconst; lia). change (S (Z.to_nat 1)) with 2%nat. cbn [uvmunmap_loop].
  rewrite (proj2 (Z.ltb_lt a (a + PGSIZE))) by (unfold PGSIZE; lia). cbn [negb].
  destruct (walk_mapped Himg root T U a t s R Hr Ht) as [E Hne]. rewrite (bind_ok _ _ _ _ _ E), (proj2 (Z.eqb_neq _ 0)) by done.
  unfold load64, store64. rewrite bind_gets. pose proof (pt_leaf _ _ _ _ R a t Hva Ht) as L. rewrite EU in L. destruct L as (-> & Hpa & Hf & HV).
  rewrite pte_valid by done. rewrite (proj2 (Z.eqb_neq _ 0)) by done. rewrite PTE_FLAGS_PA2PTE, (proj2 (Z.eqb_neq _ _)) by done.
  rewrite bind_ret, bind_modify. rewrite u64_small by (pgconst; lia). rewrite Z.ltb_irrefl. cbn [negb].
  destruct (grows_leaf root T U l s a t 0 None R Hv Hap Hva Ht) as [G1 G2 _ _ _ G3 G4]; [done|lia|].
  eexists. split; [reflexivity|]. split; [split; [exact G1|exact G2|done| |]|split].
  - intros va q f Hlt [_ E1]%lookup_delete_Some. by apply (Hpg va).
  - intros va vb q f f' H1 H2 [_ E1]%lookup_delete_Some [_ E2]%lookup_delete_Some. eauto.
  - intros x. unfold owned. by rewrite upage_delete_high.
  - by split.
Qed.

(** Only pages of the tree are owned by an empty address space. *)
Lemma owned_none l T U q : (forall va e, U !! va = Some e -> TRAPFRAME <= va) -> owned l T U q <-> q ∈ l \/ q ∈ tpages T.
Proof.
  intros HU. unfold owned. split; [|tauto]. intros [?|[?|(va & fl & Hva & E)]]; [tauto..|]. apply HU in E. lia.
Qed.

Lemma sized_none_all U : (forall va e, U !! va = Some e -> TRAPFRAME <= va) -> sized U (PGROUNDUP 0).
Proof. intros HU va Hva _. change (PGROUNDUP 0) with 0. split; [intros [e E%HU]; lia|lia]. Qed.

(** Freeing a tree that maps nothing. *)
Lemma uvmfree_tree root T l s : uspace root T ∅ l s ->
  exists s' l', uvmfree root 0 s = Ok tt s' /\ vm_ok l' s' /\ (forall x, x ∈ l' <-> x ∈ l \/ x ∈ tpages T) /\
    samep (fun x => x ∈ l \/ x ∈ tpages T) (mem s) (mem s') /\ quiet s' = quiet s.
Proof.
  intros Hu. assert (forall va (e : Z * Z), (∅ : gmap Z (Z * Z)) !! va = Some e -> False) as Hno
    by (intros va e E; by rewrite lookup_empty in E).
  destruct (uvmfree_correct Himg root 0 T ∅ l s) as (s' & l' & E & Hv & _ & Hl & Hs & Hq);
    [done|apply sized_none_all; by intros va e []%Hno|by intros va e []%Hno|done|].
  assert (forall x, owned l T ∅ x <-> x ∈ l \/ x ∈ tpages T) as Ho by (intros x; apply owned_none; by intros va e []%Hno).
  exists s', l'. split; [exact E|]. split; [done|]. split; [intros x; by rewrite Hl, Ho|]. split; [|done].
  eapply samep_mono; [exact Hs|]. intros y. apply Ho.
Qed.

Lemma grows_samep root U T l s T' l' s' :
  grows root U T l s T' l' s' -> samep (fun x => x ∈ l \/ x ∈ tpages T) (mem s) (mem s').
Proof.
  intros G. eapply vmstep_samep; [exact (grows_vmstep _ _ _ _ _ _ _ _ G)|]. intros q Hq. split.
  - apply elem_of_tpages in Hq as [p Hp]. by eapply pt_aligned; [apply G|].
  - apply (grows_owned _ _ _ _ _ _ _ _ q G). by right.
Qed.

Context (Htr : pa_ok trampoline).

Definition tramp_flags : Z := Z.lor (Z.lor PTE_R PTE_X) PTE_V.
Definition frame_flags : Z := Z.lor (Z.lor PTE_R PTE_W) PTE_V.

(** What a process without user memory maps. *)
Definition proc_map (tf : Z) : gmap Z (Z * Z) :=
  <[TRAPFRAME := (tf, frame_flags)]> {[ TRAMPOLINE := (trampoline, tramp_flags) ]}.

Lemma proc_map_high tf va e : proc_map tf !! va = Some e -> TRAPFRAME <= va.
Proof. unfold proc_map. intros [[<- _]|[_ [<- _]%lookup_singleton_Some]]%lookup_insert_Some; [lia|]. pgconst. lia. Qed.

Lemma va_ok_high : va_ok TRAMPOLINE /\ va_ok TRAPFRAME /\ TRAPFRAME <= TRAMPOLINE /\ TRAPFRAME <> TRAMPOLINE.
Proof. by vm_compute. Qed.

(** Mapping the trampoline or the trapframe. *)
Lemma map_high root a pa perm T U l s :
  va_ok a -> TRAPFRAME <= a -> pa_ok pa -> 0 <= perm < 2 ^ 10 -> U !! a = None -> uspace root T U l s ->
  exists T' l' s', quiet s' = quiet s /\ samep (fun x => x ∈ l \/ x ∈ tpages T) (mem s) (mem s') /\
    (forall x, x ∈ l \/ x ∈ tpages T <-> x ∈ l' \/ x ∈ tpages T') /\
    ((mappages root a PGSIZE pa perm s = Ok (-1) s' /\ uspace root T' U l' s' /\ (length l <= 2)%nat) \/
     (mappages root a PGSIZE pa perm s = Ok 0 s' /\ uspace root T' (<[a := (pa, Z.lor perm PTE_V)]> U) l' s' /\
        (length l <= length l' + 2)%nat)).
Proof.
  intros Hva Ha Hpa Hperm HU Hu. pose proof Hu as [R Hv Hap _ _].
  destruct (map_one Himg root a pa perm T U l s Hva Hpa Hperm HU R Hv Hap) as (T' & l' & s' & [(E & G & _ & Hl)|(E & G & Hl)]);
    exists T', l', s'; (split; [apply G|]); (split; [by eapply grows_samep|]);
    (split; [intros x; by apply (grows_owned _ _ _ _ _ _ _ _ x G)|]).
  - left. split; [exact E|]. split; [|done]. by eapply uspace_grows.
  - right. split; [exact E|]. split; [|done]. by eapply uspace_map_high.
Qed.

(** The outcome of making a process's page table. *)
Definition table_made (tf : Z) (l : list Z) (r : Z) (s s' : kst) : Prop :=
  quiet s' = quiet s /\ samep (fun x => x ∈ l) (mem s) (mem s') /\
  ((r = 0 /\ (length l <= 5)%nat /\ exists l', vm_ok l' s' /\ forall x, x ∈ l' <-> x ∈ l) \/
   (r <> 0 /\ exists T l', uspace r T (proc_map tf) l' s' /\ (forall x, x ∈ l' \/ x ∈ tpages T <-> x ∈ l) /\
      (length l <= length l' + 5)%nat)).

(** The second half of [proc_pagetable]: the trapframe is mapped, or everything is given back. *)
Lemma map_trapframe q tf T l s :
  uspace q T (<[TRAMPOLINE := (trampoline, tramp_flags)]> ∅) l s -> pa_ok tf -> q <> 0 ->
  let P := fun x => x ∈ l \/ x ∈ tpages T in
  exists r s', (r <- mappages q TRAPFRAME PGSIZE tf (Z.lor PTE_R PTE_W);;
      if r <? 0 then uvmunmap q TRAMPOLINE 1 false;; uvmfree q 0;; ret 0 else ret q)%M s = Ok r s' /\
    quiet s' = quiet s /\ samep P (mem s) (mem s') /\
    ((r = 0 /\ (length l <= 2)%nat /\ exists l', vm_ok l' s' /\ forall x, x ∈ l' <-> P x) \/
     (r = q /\ exists T' l', uspace r T' (proc_map tf) l' s' /\ (forall x, x ∈ l' \/ x ∈ tpages T' <-> P x) /\
        (length l <= length l' + 2)%nat)).
Proof.
  intros Hu Htf Hq0 P. destruct va_ok_high as (Hva1 & Hva2 & Hle & Hne). set (U := <[TRAMPOLINE := _]> ∅) in *.
  destruct (map_high q TRAPFRAME tf (Z.lor PTE_R PTE_W) T U l s Hva2 ltac:(lia) Htf ltac:(done)) as
    (T3 & l3 & s3 & Hq3 & Hs3 & Ho3 & Hr); [by unfold U; rewrite lookup_insert_ne|done|].
  destruct Hr as [(E3 & Hu3 & Hl3)|(E3 & Hu3 & Hl3)]; rewrite (bind_ok _ _ _ _ _ E3); cbn [Z.ltb Z.compare].
  - destruct (uvmunmap_keep q TRAMPOLINE T3 U l3 s3 trampoline tramp_flags) as (s4 & E4 & Hu4 & Ho4 & Hst4);
      [apply lookup_insert_eq|done|lia|done|]. rewrite (bind_ok _ _ _ _ _ E4).
    assert (delete TRAMPOLINE U = ∅) as EU by (unfold U; by rewrite delete_insert_id). rewrite EU in Hu4.
    destruct (uvmfree_tree q T3 l3 s4 Hu4) as (s5 & l5 & E5 & Hv5 & Hl5 & Hs5 & Hq5). rewrite (bind_ok _ _ _ _ _ E5).
    exists 0, s5. split; [done|]. split; [rewrite Hq5, <- Hq3; apply Hst4|]. split.
    + eapply samep_trans; [exact Hs3| |intros y Hy; exact Hy|intros y; apply Ho3].
      eapply samep_trans; [eapply vmstep_samep; [exact Hst4|]|exact Hs5|intros y Hy; exact Hy|done].
      intros x Hx. split; [|by right]. apply elem_of_tpages in Hx as [k Hk]. by eapply pt_aligned; [apply Hu3|].
    + left. split; [done|]. split; [done|]. exists l5. split; [done|]. intros x. by rewrite Hl5, <- Ho3.
  - exists q, s3. split; [done|]. split; [done|]. split; [done|]. right. split; [done|]. exists T3, l3.
    split; [exact Hu3|]. split; [|done]. intros x. by rewrite <- Ho3.
Qed.

Lemma proc_pagetable_spec p pr l s :
  procs s !! p = Some pr -> pa_ok (p_trapframe pr) -> vm_ok l s ->
  exists r s', proc_pagetable p s = Ok r s' /\ table_made (p_trapframe pr) l r s s'.
Proof.
  intros Ep Htf Hv. destruct va_ok_high as (Hva1 & Hva2 & Hle & Hne). unfold proc_pagetable.
  pose proof (uvmcreate_spec l s Hv) as Hc. destruct l as [|q l].
  { exists 0, (touch s). rewrite (bind_ok _ _ _ _ _ Hc). split; [done|]. split; [apply quiet_touch|]. split; [by intros ?|].
    left. split; [done|]. split; [cbn; lia|]. exists []. split; [|done]. by apply (kalloc_vm []). }
  destruct Hc as (s1 & E1 & Hq0 & Hu1 & Hst1). rewrite (bind_ok _ _ _ _ _ E1), (proj2 (Z.eqb_neq q 0)) by done.
  assert (page_aligned q) as Hqa by (eapply pt_aligned; [apply Hu1|apply lookup_singleton_eq]).
  assert (forall x, x ∈ l \/ x ∈ tpages {[ [] := q ]} <-> x ∈ q :: l) as Ho1.
  { intros x. unfold tpages. rewrite map_img_singleton_L, elem_of_singleton, elem_of_cons. tauto. }
  assert (samep (fun x => x ∈ q :: l) (mem s) (mem s1)) as Hs1.
  { eapply vmstep_samep; [exact Hst1|]. intros x ->%elem_of_singleton. split; [done|by left]. }
  destruct (map_high q TRAMPOLINE trampoline (Z.lor PTE_R PTE_X) _ ∅ l s1 Hva1 Hle Htr ltac:(done) (lookup_empty _) Hu1)
    as (T2 & l2 & s2 & Hq2 & Hs2 & Ho2 & [(E2 & Hu2 & Hl2)|(E2 & Hu2 & Hl2)]); rewrite (bind_ok _ _ _ _ _ E2); cbn [Z.ltb Z.compare].
  { destruct (uvmfree_tree q T2 l2 s2 Hu2) as (s3 & l3 & E3 & Hv3 & Hl3 & Hs3 & Hq3). exists 0, s3.
    rewrite (bind_ok _ _ _ _ _ E3). split; [done|]. split; [rewrite Hq3, Hq2; apply Hst1|]. split.
    - eapply samep_trans; [exact Hs1| |done|intros y Hy; exact Hy]. eapply samep_trans; [exact Hs2|exact Hs3|intros y; apply Ho1|].
      intros y Hy. by apply Ho1, Ho2.
    - left. split; [done|]. split; [cbn; lia|]. exists l3. split; [done|]. intros x. by rewrite Hl3, <- Ho2, Ho1. }
  unfold pget. rewrite bind_gets. assert (procs s2 = procs s) as Eps.
  { transitivity (procs s1); [exact (f_equal procs Hq2)|exact (f_equal procs (vs_quiet _ _ _ Hst1))]. }
  rewrite Eps, Ep. cbn [default from_option id].
  destruct (map_trapframe q (p_trapframe pr) T2 l2 s2 Hu2 Htf Hq0) as (r & s3 & E3 & Hq3 & Hs3 & HD). exists r, s3.
  split; [exact E3|]. split; [rewrite Hq3, Hq2; apply Hst1|]. split.
  { eapply samep_trans; [exact Hs1| |done|intros y Hy; exact Hy]. eapply samep_trans; [exact Hs2|exact Hs3|intros y; apply Ho1|].
    intros y Hy. by apply Ho1, Ho2. }
  destruct HD as [(-> & Hl3 & l3 & Hv3 & Ho3)|(-> & T3 & l3 & Hu3 & Ho3 & Hl3)]; [left|right; split; [done|]; exists T3, l3].
  - split; [done|]. split; [cbn; lia|]. exists l3. split; [done|]. intros x. by rewrite Ho3, <- Ho2, Ho1.
  - split; [done|]. split; [|cbn; lia]. intros x. by rewrite Ho3, <- Ho2, Ho1.
Qed.

(** ** Freeing a process *)

(** The memory of a process: its page table maps the trampoline, the trapframe and the pages below its size. *)
Record pspace (pr : proc) (T : gmap (list Z) Z) (U : gmap Z (Z * Z)) (l : list Z) (s : kst) : Prop := {
  sp_space : uspace (p_pagetable pr) T U l s;
  sp_tramp : U !! TRAMPOLINE = Some (trampoline, tramp_flags);
  sp_frame : U !! TRAPFRAME = Some (p_trapframe pr, frame_flags);
  sp_low : forall va e, U !! va = Some e -> va < TRAPFRAME \/ va = TRAMPOLINE \/ va = TRAPFRAME;
  sp_sized : sized U (PGROUNDUP (p_sz pr));
  sp_sz : 0 <= p_sz pr <= TRAPFRAME;
  sp_tf : fresh l T U (p_trapframe pr)
}.

(** Its pages. *)
Definition pages (pr : proc) (l : list Z) (T : gmap (list Z) Z) (U : gmap Z (Z * Z)) (q : Z) : Prop :=
  owned l T U q \/ q = p_trapframe pr.

(** A slot after [freeproc]: the counters are not among the fields it resets. *)
Definition clearing (pr : proc) : proc :=
  with_p_state UNUSED (with_p_xstate 0 (with_p_killed 0 (with_p_chan Ch_null (with_p_name (<[0%nat := 0]> (p_name pr))
    (with_p_parent None (with_p_pid 0 (with_p_sz 0 (with_p_pagetable 0 pr)))))))).
Definition cleared (pr : proc) : proc := clearing (with_p_trapframe 0 pr).

Lemma quiet_upd p f s : quiet (upd p f s) = upd p f (quiet s).
Proof. unfold quiet. rewrite <- (framed_touch (upd p f)) by apply upd_framed. unfold upd. kst_cbv. reflexivity. Qed.

Lemma page_ne0 q : page_ok q -> q <> 0.
Proof. intros Hq. pose proof (page_ok_pos Himg q Hq). lia. Qed.

Lemma proc_freepagetable_spec root sz T U l s :
  uspace root T U l s -> U !! TRAMPOLINE = Some (trampoline, tramp_flags) -> (exists tf, U !! TRAPFRAME = Some (tf, frame_flags)) ->
  (forall va e, U !! va = Some e -> va < TRAPFRAME \/ va = TRAMPOLINE \/ va = TRAPFRAME) ->
  sized U (PGROUNDUP sz) -> 0 <= sz <= TRAPFRAME ->
  exists s' l', proc_freepagetable root sz s = Ok tt s' /\ vm_ok l' s' /\ (forall x, x ∈ l' <-> owned l T U x) /\
    samep (owned l T U) (mem s) (mem s') /\ quiet s' = quiet s.
Proof.
  intros Hu Et [tf Ef] Hlow Hsz Hr. destruct va_ok_high as (_ & _ & Hle & Hne). unfold proc_freepagetable.
  destruct (uvmunmap_keep root TRAMPOLINE T U l s _ _ Et ltac:(done) Hle Hu) as (s1 & E1 & Hu1 & Ho1 & Hst1).
  rewrite (bind_ok _ _ _ _ _ E1).
  destruct (uvmunmap_keep root TRAPFRAME T (delete TRAMPOLINE U) l s1 tf frame_flags) as (s2 & E2 & Hu2 & Ho2 & Hst2);
    [by rewrite lookup_delete_ne|done|lia|done|]. rewrite (bind_ok _ _ _ _ _ E2).
  set (U2 := delete TRAPFRAME (delete TRAMPOLINE U)) in *.
  assert (forall va, va < TRAPFRAME -> U2 !! va = U !! va) as E by (intros va Hva; unfold U2; by rewrite !lookup_delete_ne by lia).
  destruct (uvmfree_correct Himg root sz T U2 l s2) as (s3 & l3 & E3 & Hv3 & _ & Hl3 & Hs3 & Hq3);
    [done|intros va Hva Ha; rewrite E by lia; by apply Hsz| |done|].
  { intros va e. unfold U2. intros [Hn2 [Hn1 EU]%lookup_delete_Some]%lookup_delete_Some. destruct (Hlow _ _ EU) as [?|[?|?]]; congruence. }
  exists s3, l3. split; [exact E3|]. split; [done|]. split; [intros x; by rewrite Hl3, Ho2, Ho1|]. split; [|by rewrite Hq3, (vs_quiet _ _ _ Hst2), (vs_quiet _ _ _ Hst1)].
  assert (forall x, x ∈ tpages T -> page_aligned x /\ owned l T U x) as Hal.
  { intros x Hx. split; [apply elem_of_tpages in Hx as [k Hk]; by eapply pt_aligned; [apply Hu|]|by right; left]. }
  eapply samep_trans; [eapply vmstep_samep; [exact Hst1|exact Hal]| |intros y Hy; exact Hy|intros y Hy; exact Hy].
  eapply samep_trans; [eapply vmstep_samep; [exact Hst2|exact Hal]|exact Hs3|done|]. intros y. by rewrite Ho2, Ho1.
Qed.

(** What is left to do once the pages are gone. *)
Definition clear_slot (p : nat) : K unit :=
  (pset p (with_p_pagetable 0);; pset p (with_p_sz 0);; pset p (with_p_pid 0);; pset p (with_p_parent None);;
   pset p (fun pr => with_p_name (<[0%nat := 0]> (p_name pr)) pr);; pset p (with_p_chan Ch_null);;
   pset p (with_p_killed 0);; pset p (with_p_xstate 0);; pset p (with_p_state UNUSED))%M.

Lemma clear_slot_eq p s : clear_slot p s = Ok tt (upd p clearing s).
Proof. unfold clear_slot. rewrite !pset_eq, !bind_modify, !upd_upd. unfold modify. by rewrite upd_upd. Qed.

(** A process with all its memory. *)
Lemma freeproc_spec p pr T U l s :
  procs s !! p = Some pr -> pspace pr T U l s ->
  exists s' l', freeproc p s = Ok tt s' /\ vm_ok l' s' /\ (forall x, x ∈ l' <-> pages pr l T U x) /\
    samep (pages pr l T U) (mem s) (mem s') /\ quiet s' = quiet (upd p cleared s).
Proof.
  intros Ep [Hu Htr' Hfr Hlow Hsz Hr Htf]. unfold freeproc, pget. rewrite bind_gets, Ep. cbn [default from_option id].
  destruct (uspace_free Himg _ T U l s (p_trapframe pr) Hu Htf) as (E1 & Hu1 & Hst1 & Ho1).
  rewrite (proj2 (Z.eqb_neq (p_trapframe pr) 0)) by (apply page_ne0, Htf). cbn [negb]. rewrite (bind_ok _ _ _ _ _ E1).
  set (s1 := kfree_state _ s) in *. rewrite pset_eq, bind_modify, bind_gets.
  assert (procs s1 = procs s) as Eps by reflexivity.
  rewrite (upd_lookup p _ s1 pr) by (by rewrite Eps). cbn [default from_option id p_pagetable p_sz with_p_trapframe].
  assert (page_ok (p_pagetable pr)) as Hroot by (eapply (pt_page _ _ _ _ (us_rep _ _ _ _ _ Hu)), Hu).
  rewrite (proj2 (Z.eqb_neq (p_pagetable pr) 0)) by (by apply page_ne0). cbn [negb].
  destruct (proc_freepagetable_spec (p_pagetable pr) (p_sz pr) T U (p_trapframe pr :: l) (upd p (with_p_trapframe 0) s1))
    as (s2 & l2 & E2 & Hv2 & Hl2 & Hs2 & Hq2); [|done|by eexists|done|done|done|].
  { eapply uspace_near; [apply near_upd|done|done|done]. }
  rewrite (bind_ok _ _ _ _ _ E2). fold (clear_slot p).
  exists (upd p clearing s2), l2. split; [apply clear_slot_eq|]. split; [eapply vm_ok_near; [apply near_upd|done|done|done]|].
  assert (forall x, owned (p_trapframe pr :: l) T U x <-> pages pr l T U x) as Ho by (intros x; rewrite Ho1; unfold pages; tauto).
  split; [intros x; by rewrite Hl2, Ho|]. split.
  - eapply samep_trans; [eapply (vmstep_samep _ (fun x => x = p_trapframe pr)); [exact Hst1|]|exact Hs2|by right|intros y; apply Ho].
    intros q ->%elem_of_singleton. split; [apply Htf|done].
  - rewrite quiet_upd, Hq2, <- quiet_upd, upd_upd. rewrite !quiet_upd, (vs_quiet _ _ _ Hst1). reflexivity.
Qed.

(** A process without a page table, with or without a trapframe. *)
Lemma freeproc_bare p pr l s :
  procs s !! p = Some pr -> p_pagetable pr = 0 -> vm_ok l s -> (p_trapframe pr = 0 \/ page_ok (p_trapframe pr) /\ p_trapframe pr ∉ l) ->
  exists s' l', freeproc p s = Ok tt s' /\ vm_ok l' s' /\ (forall x, x ∈ l' <-> x ∈ l \/ x = p_trapframe pr /\ x <> 0) /\
    samep (fun x => x = p_trapframe pr /\ x <> 0) (mem s) (mem s') /\ quiet s' = quiet (upd p cleared s).
Proof.
  intros Ep Ept Hv Htf. unfold freeproc, pget. rewrite bind_gets, Ep. cbn [default from_option id].
  assert (exists s1 l1, (if negb (p_trapframe pr =? 0) then kfree (p_trapframe pr) else ret tt) s = Ok tt s1 /\ vm_ok l1 s1 /\
    (forall x, x ∈ l1 <-> x ∈ l \/ x = p_trapframe pr /\ x <> 0) /\ samep (fun x => x = p_trapframe pr /\ x <> 0) (mem s) (mem s1) /\
    procs s1 = procs s /\ quiet s1 = quiet s) as (s1 & l1 & E1 & Hv1 & Hl1 & Hs1 & Ep1 & Hq1).
  { destruct Htf as [->|[Hok Hni]]; [exists s, l; split_and!; try done; intros x; naive_solver|].
    pose proof (page_ne0 _ Hok) as Hne. rewrite (proj2 (Z.eqb_neq _ 0)) by done. cbn [negb].
    destruct (kfree_vm Himg _ l s Hv Hok Hni) as (E & Hv' & Hst). eexists _, (p_trapframe pr :: l). split; [exact E|].
    split; [done|]. split; [intros x; rewrite elem_of_cons; naive_solver|]. split; [|split; [reflexivity|apply Hst]].
    eapply vmstep_samep; [exact Hst|]. intros q ->%elem_of_singleton. split; [apply Hok|done]. }
  rewrite (bind_ok _ _ _ _ _ E1), pset_eq, bind_modify, bind_gets, (upd_lookup p _ s1 pr) by (by rewrite Ep1).
  cbn [default from_option id p_pagetable with_p_trapframe]. rewrite Ept. cbn [Z.eqb negb]. rewrite bind_ret. fold (clear_slot p).
  rewrite clear_slot_eq, upd_upd. eexists _, l1. split; [reflexivity|]. split; [eapply vm_ok_near; [apply near_upd|done|done|done]|].
  split; [done|]. split; [done|]. rewrite !quiet_upd, Hq1. reflexivity.
Qed.

(** ** Finding a slot *)

Definition is_unused (pr : proc) : Prop := p_state pr = UNUSED.
#[export] Instance is_unused_dec pr : Decision (is_unused pr) := decide (p_state pr = UNUSED).

Definition unused_slot (i : nat) : K (option nat) :=
  (acquire (L_proc i);; pr <- pget i;;
   if decide (p_state pr = UNUSED) then ret (Some i) else release (L_proc i);; ret None)%M.

Lemma unused_slot_eq i pr s : hart_ok s -> touch s = s -> procs s !! i = Some pr -> lock_free (L_proc i) s ->
  unused_slot i s = if decide (is_unused pr) then Ok (Some i) (take_lock (L_proc i) s) else Ok None s.
Proof.
  intros Hh Ht Ep Hf. unfold unused_slot. rewrite (bind_ok _ _ _ _ _ (acquire_eq _ s Hh Hf)). unfold pget. rewrite bind_gets.
  change (procs (take_lock (L_proc i) s)) with (procs s). rewrite Ep. cbn [default from_option id].
  change (decide (is_unused pr)) with (decide (p_state pr = UNUSED)). destruct (decide (p_state pr = UNUSED)); [done|].
  rewrite (bind_ok _ _ _ _ _ (release_take _ s Hh Hf)). by rewrite Ht.
Qed.

Lemma find_unused_loop ps s : forall k n,
  hart_ok s -> touch s = s -> drop k (procs s) = ps -> length ps = n -> (forall i, (i < k + n)%nat -> lock_free (L_proc i) s) ->
  searchM (seq k n) unused_slot s =
    match list_find is_unused ps with
    | Some (i, _) => Ok (Some (k + i)%nat) (take_lock (L_proc (k + i)) s)
    | None => Ok None s
    end.
Proof.
  induction ps as [|pr ps IH]; intros k n Hh Ht Hd Hn Hf; cbn [length] in Hn; subst n; [done|]. cbn [seq searchM list_find].
  assert (procs s !! k = Some pr) as Ep by (rewrite <- (Nat.add_0_r k), <- lookup_drop, Hd; reflexivity).
  pose proof (unused_slot_eq k pr s Hh Ht Ep (Hf k ltac:(lia))) as E. destruct (decide (is_unused pr)); rewrite (bind_ok _ _ _ _ _ E).
  { by rewrite Nat.add_0_r. }
  rewrite (IH (S k) (length ps) Hh Ht); [|by rewrite <- Nat.add_1_r, <- drop_drop, Hd|done|intros i Hi; apply Hf; lia].
  destruct (list_find is_unused ps) as [[i x]|]; cbn [fmap option_fmap option_map prod_map]; [|done].
  by rewrite Nat.add_succ_comm.
Qed.

Lemma find_unused_eq s :
  hart_ok s -> touch s = s -> length (procs s) = NPROC -> (forall i, (i < NPROC)%nat -> lock_free (L_proc i) s) ->
  find_unused s = match list_find is_unused (procs s) with
                  | Some (i, _) => Ok (Some i) (take_lock (L_proc i) s)
                  | None => Ok None s
                  end.
Proof. intros Hh Ht Hl Hf. exact (find_unused_loop (procs s) s 0 NPROC Hh Ht eq_refl Hl Hf). Qed.

Lemma allocpid_eq s : hart_ok s -> lock_free L_pid s ->
  allocpid s = Ok (nextpid s) (with_nextpid (i32 (nextpid s + 1)) (touch s)).
Proof.
  intros Hh Hf. unfold allocpid. rewrite (bind_ok _ _ _ _ _ (acquire_eq _ s Hh Hf)), bind_gets, bind_modify.
  change (nextpid (take_lock L_pid s)) with (nextpid s).
  rewrite (bind_ok _ _ _ _ _ (release_framed (with_nextpid (i32 (nextpid s + 1))) _ s ltac:(solve_framed) Hh Hf)). done.
Qed.

(** The end of a critical section that changed memory and tables. *)
Lemma release_near k s s' : hart_ok s -> lock_free k s -> near (take_lock k s) s' -> release k s' = Ok tt (fx s' (touch s)).
Proof. intros Hh Hf ->. rewrite (release_framed (fx s') _ s (fx_framed s') Hh Hf). unfold fx. kst_cbv. reflexivity. Qed.

Lemma vm_ok_fx l t s : hart_ok s -> lock_free L_kmem s -> vm_ok l t -> vm_ok l (fx t s).
Proof.
  intros Hh Hf [_ Hk]. split; [split; [by apply (framed_hart (fx t) _ (fx_framed t))|by apply (framed_free (fx t) _ _ (fx_framed t))]|exact Hk].
Qed.

(** Giving a slot back. *)
Lemma free_release {A} np (a : A) s t t' :
  hart_ok s -> touch s = s -> lock_free (L_proc np) s -> near (take_lock (L_proc np) s) t ->
  freeproc np t = Ok tt t' -> quiet t' = quiet (upd np cleared t) ->
  (freeproc np;; release (L_proc np);; ret a)%M t = Ok a (fx t' s) /\ near s (fx t' s) /\
  tables (fx t' s) = (alter cleared np (procs t), nextpid t, files t, inodes t).
Proof.
  intros Hh Ht Hf Hn E Hq. rewrite (bind_ok _ _ _ _ _ E).
  assert (held_ok (L_proc np) (upd np cleared t)) as Hheld.
  { eapply near_held; [eapply near_trans; [exact Hn|apply near_upd]|by apply held_take]. }
  destruct (quiet_near _ _ _ Hheld Hq) as [Hn' Et].
  rewrite (bind_ok _ _ _ _ _ (release_near _ s t' Hh Hf (near_trans _ _ _ (near_trans _ _ _ Hn (near_upd np cleared t)) Hn'))).
  rewrite Ht. split; [done|]. split; [apply near_fx|]. exact Et.
Qed.

(** ** allocproc *)

(** The slot once it has a number, and once it has its pages. *)
Definition started_as (pid : Z) (o : proc) : proc := with_p_state USED (with_p_pid pid o).
Definition born (pid tf pt : Z) (o : proc) : proc :=
  with_p_context (Context forkret_pc (p_kstack o +u PGSIZE) (replicate 12 0)) (with_p_pagetable pt (with_p_trapframe tf (started_as pid o))).

Definition claim_slot (p : nat) : K (option nat) :=
  (pid <- allocpid;;
   pset p (with_p_pid pid);;
   pset p (with_p_state USED);;
   tf <- kalloc;;
   pset p (with_p_trapframe tf);;
   if tf =? 0 then freeproc p;; release (L_proc p);; ret None else
   pt <- proc_pagetable p;;
   pset p (with_p_pagetable pt);;
   if pt =? 0 then freeproc p;; release (L_proc p);; ret None else
   pset p (fun pr => with_p_context (Context forkret_pc (p_kstack pr +u PGSIZE) (replicate 12 0)) pr);;
   ret (Some p))%M.

Lemma allocproc_claim : allocproc = (r <- find_unused;; match r with None => ret None | Some p => claim_slot p end)%M.
Proof. reflexivity. Qed.

(** What [allocproc] makes of the slot [np]. *)
Definition claimed (np : nat) (o : proc) (l : list Z) (s : kst) (r : option nat) (s' : kst) : Prop :=
  samep (fun x => x ∈ l) (mem s) (mem s') /\
  ((r = None /\ near s s' /\ tables s' = (<[np := cleared o]> (procs s), i32 (nextpid s + 1), files s, inodes s) /\
      (length l <= 6)%nat /\ exists l', vm_ok l' s' /\ forall x, x ∈ l' <-> x ∈ l) \/
   (exists tf pt T l', r = Some np /\ near (take_lock (L_proc np) s) s' /\
      tables s' = (<[np := born (nextpid s) tf pt o]> (procs s), i32 (nextpid s + 1), files s, inodes s) /\
      uspace pt T (proc_map tf) l' s' /\ fresh l' T (proc_map tf) tf /\ tf ∈ l /\
      (forall x, x ∈ l <-> x ∈ l' \/ x ∈ tpages T \/ x = tf) /\ (length l <= length l' + 6)%nat)).

(** The page table of the new process; [t] is the state with the trapframe [tf] allocated. *)
Definition claim_table (p : nat) : K (option nat) :=
  (pt <- proc_pagetable p;;
   pset p (with_p_pagetable pt);;
   if pt =? 0 then freeproc p;; release (L_proc p);; ret None else
   pset p (fun pr => with_p_context (Context forkret_pc (p_kstack pr +u PGSIZE) (replicate 12 0)) pr);;
   ret (Some p))%M.

Section claim.
Context (np : nat) (o : proc) (s : kst).
Hypothesis Hh : hart_ok s.
Hypothesis Ht : touch s = s.
Hypothesis Hf : lock_free (L_proc np) s.
Hypothesis Hfk : lock_free L_kmem s.
Hypothesis Ep : procs s !! np = Some o.
Hypothesis Hpt : p_pagetable o = 0.

(** The tables with the slot changed to [pr]. *)
Definition slot_is (pr : proc) (t : kst) : Prop :=
  tables t = (<[np := pr]> (procs s), i32 (nextpid s + 1), files s, inodes s).

Lemma slot_upd pr g t : slot_is pr t -> slot_is (g pr) (upd np g t).
Proof.
  intros [= E1 E2 E3 E4]. unfold slot_is, tables, upd. cbn [procs nextpid files inodes with_procs]. rewrite E1, E2, E3, E4.
  rewrite (list_alter_insert_lookup _ _ _ pr) by (apply list_lookup_insert_eq; by eapply lookup_lt_Some). by rewrite list_insert_insert_eq.
Qed.

Lemma slot_lookup pr t : slot_is pr t -> procs t !! np = Some pr.
Proof. intros [= E1 _ _ _]. rewrite E1. apply list_lookup_insert_eq. by eapply lookup_lt_Some. Qed.

Lemma claim_fail pr l t t' l' :
  near (take_lock (L_proc np) s) t -> slot_is pr t -> cleared pr = cleared o -> freeproc np t = Ok tt t' -> vm_ok l' t' -> quiet t' = quiet (upd np cleared t) ->
  samep (fun x => x ∈ l) (mem s) (mem t') -> (forall x, x ∈ l' <-> x ∈ l) -> (length l <= 6)%nat ->
  exists r s', (freeproc np;; release (L_proc np);; ret None)%M t = Ok r s' /\ claimed np o l s r s'.
Proof.
  intros Hn Hs Ec E Hv Hq Hsm Hl Hlen. destruct (free_release np (@None nat) s t t' Hh Ht Hf Hn E Hq) as (E' & Hn' & Et').
  exists (@None nat), (fx t' s). split; [exact E'|]. split; [exact Hsm|]. left. split; [done|]. split; [done|]. split; [|split; [done|]].
  - rewrite Et'. rewrite <- Ec. apply (slot_upd pr cleared) in Hs. exact Hs.
  - exists l'. split; [by apply vm_ok_fx|done].
Qed.

Lemma claim_table_spec tf l t :
  near (take_lock (L_proc np) s) t -> slot_is (with_p_trapframe tf (started_as (nextpid s) o)) t -> vm_ok l t ->
  page_ok tf -> tf ∉ l -> samep (fun x => x = tf) (mem s) (mem t) ->
  exists r s', claim_table np t = Ok r s' /\ claimed np o (tf :: l) s r s'.
Proof.
  intros Hn Hs Hv Htf Hni Hsm. pose proof (slot_lookup _ _ Hs) as El. unfold claim_table.
  destruct (proc_pagetable_spec np _ l t El (page_ok_pa Himg _ Htf) Hv) as (pt & t2 & E2 & Hq2 & Hs2 & HD). rewrite (bind_ok _ _ _ _ _ E2).
  assert (held_ok (L_proc np) t) as Hheld by (eapply near_held; [exact Hn|by apply held_take]).
  destruct (quiet_near _ _ _ Hheld Hq2) as [Hn2 Et2]. assert (slot_is (with_p_trapframe tf (started_as (nextpid s) o)) t2) as Hs2' by (unfold slot_is; by rewrite Et2).
  assert (samep (fun x => x ∈ tf :: l) (mem s) (mem t2)) as Hsm2.
  { eapply samep_trans; [exact Hsm|exact Hs2|by intros y ->; left|by intros y Hy; right]. }
  rewrite pset_eq, bind_modify. destruct HD as [(-> & Hlen & l' & Hv' & Hl')|(Hne & T & l' & Hu & Ho & Hlen)].
  - cbn [Z.eqb]. set (t3 := upd np (with_p_pagetable 0) t2). apply (slot_upd _ (with_p_pagetable 0)) in Hs2'. fold t3 in Hs2'.
    destruct (freeproc_bare np _ l' t3 (slot_lookup _ _ Hs2') eq_refl) as (t4 & l4 & E4 & Hv4 & Hl4 & Hs4 & Hq4).
    + eapply vm_ok_near; [apply near_upd|done|done|done].
    + right. split; [exact Htf|]. by rewrite Hl'.
    + eapply (claim_fail _ (tf :: l) t3 t4 l4); [|exact Hs2'|reflexivity|exact E4|exact Hv4|exact Hq4| | |cbn; lia].
      * eapply near_trans; [exact Hn|]. eapply near_trans; [exact Hn2|apply near_upd].
      * eapply samep_trans; [exact Hsm2|exact Hs4|done|]. intros y [-> _]. by left.
      * intros x. rewrite Hl4, Hl', elem_of_cons. cbn [p_trapframe with_p_pagetable with_p_trapframe].
        pose proof (page_ne0 tf Htf). naive_solver.
  - rewrite (proj2 (Z.eqb_neq pt 0)), pset_eq, bind_modify, upd_upd by done. eexists _, _. split; [reflexivity|].
    split; [exact Hsm2|]. right. exists tf, pt, T, l'. split; [done|].
    split; [eapply near_trans; [exact Hn|]; eapply near_trans; [exact Hn2|apply near_upd]|].
    split; [exact (slot_upd _ _ _ Hs2')|]. split; [eapply uspace_near; [apply near_upd|done|done|done]|].
    split; [|split; [by left|split; [intros x; rewrite elem_of_cons, <- Ho; tauto|cbn; lia]]].
    split; [exact Htf|]. rewrite owned_none by apply proc_map_high. by rewrite Ho.
Qed.

Lemma claim_slot_spec l :
  lock_free L_pid s -> vm_ok l s -> exists r s', claim_slot np (take_lock (L_proc np) s) = Ok r s' /\ claimed np o l s r s'.
Proof.
  intros Hfp Hv. set (t0 := take_lock (L_proc np) s). assert (held_ok (L_proc np) t0) as Hheld by by apply held_take.
  unfold claim_slot. rewrite (bind_ok _ _ _ _ _ (allocpid_eq t0 (held_hart_ok _ _ Hheld) (take_lock_other (L_proc np) L_pid s ltac:(done) Hfp))).
  rewrite (touch_held _ _ Hheld), !pset_eq, !bind_modify, upd_upd. change (nextpid t0) with (nextpid s). set (t1 := upd np _ _).
  assert (near t0 t1) as Hn1 by (eapply near_trans; [apply near_nextpid|apply near_upd]).
  assert (slot_is (started_as (nextpid s) o) t1) as Hs1.
  { apply (slot_upd o (started_as (nextpid s)) (with_nextpid (i32 (nextpid s + 1)) t0)). unfold slot_is. cbn. by rewrite list_insert_id. }
  assert (vm_ok l t1) as Hv1 by (eapply vm_ok_near; [exact Hn1|done|done|]; by apply vm_ok_take).
  assert (mem t1 = mem s) as Em1 by reflexivity. clearbody t1.
  pose proof (near_held _ _ _ Hn1 Hheld) as Hheld1.
  pose proof (kalloc_vm l t1 Himg Hv1) as Hk. destruct l as [|tf l].
  - destruct Hk as [E _]. rewrite (bind_ok _ _ _ _ _ E), (touch_held _ _ Hheld1), pset_eq, bind_modify. cbn [Z.eqb].
    apply (slot_upd _ (with_p_trapframe 0)) in Hs1. set (t2 := upd np _ t1) in *.
    destruct (freeproc_bare np _ [] t2 (slot_lookup _ _ Hs1) Hpt) as (t4 & l4 & E4 & Hv4 & Hl4 & Hs4 & Hq4);
      [eapply vm_ok_near; [apply near_upd|done|done|done]|by left|].
    eapply (claim_fail _ [] t2 t4 l4); [|exact Hs1|reflexivity|exact E4|exact Hv4|exact Hq4| | |cbn; lia].
    + eapply near_trans; [exact Hn1|apply near_upd].
    + rewrite <- Em1. eapply samep_mono; [exact Hs4|]. cbn [p_trapframe with_p_trapframe]. tauto.
    + intros x. rewrite Hl4. cbn [p_trapframe with_p_trapframe]. naive_solver.
  - destruct Hk as (E & Hv2 & Hok & _ & Hpos & Hni & Hso). rewrite (bind_ok _ _ _ _ _ E), pset_eq, bind_modify.
    rewrite (proj2 (Z.eqb_neq tf 0)) by lia. fold (claim_table np).
    destruct (quiet_near _ _ _ Hheld1 (kalloc_state_quiet t1)) as [Hn2 Et2].
    apply claim_table_spec; [| |eapply vm_ok_near; [apply near_upd|done|done|done]|done|done|].
    + eapply near_trans; [exact Hn1|]. eapply near_trans; [exact Hn2|apply near_upd].
    + apply slot_upd. unfold slot_is. by rewrite Et2.
    + rewrite <- Em1. eapply (vmstep_samep {[tf]} _ t1 (kalloc_state t1)); [split; [exact Hso|apply kalloc_state_quiet]|].
      intros q ->%elem_of_singleton. split; [apply Hok|done].
Qed.

End claim.

(** [allocproc] takes the first unused slot. *)
Lemma allocproc_spec l s :
  hart_ok s -> touch s = s -> length (procs s) = NPROC -> (forall i, (i < NPROC)%nat -> lock_free (L_proc i) s) ->
  lock_free L_pid s -> vm_ok l s -> (forall i o, procs s !! i = Some o -> p_state o = UNUSED -> p_pagetable o = 0) ->
  match list_find is_unused (procs s) with
  | None => allocproc s = Ok None s
  | Some (np, o) => exists r s', allocproc s = Ok r s' /\ claimed np o l s r s'
  end.
Proof.
  intros Hh Ht Hl Hf Hfp Hv Hclean. pose proof (find_unused_eq s Hh Ht Hl Hf) as E.
  destruct (list_find is_unused (procs s)) as [[np o]|] eqn:El; rewrite allocproc_claim, (bind_ok _ _ _ _ _ E); [|done].
  apply list_find_Some in El as (Ep & Hun & _).
  apply claim_slot_spec; try done; [|apply Hv|by eapply Hclean]. apply Hf. rewrite <- Hl. by eapply lookup_lt_Some.
Qed.

End procspec.
