(* ===== verification/ForkSpec.v ===== *)
(** * fork

    [fork] of kernel/proc.c: the child is a copy of the parent, or nothing has happened. *)

From S2P Require Import Prelude Riscv Memory CString Bytes State Spinlock Sched SchedSpec Sleeplock Kalloc Vm.
From S2P Require Import PageTable VmSpec Uvm UserCopy UvmFork Uart Printf Console Bio Log Fs Pipe File Proc ProcSpec.

(** ** References *)

Definition dup_file (i : nat) (fs : list file) : list file := alter (fun f => with_f_ref (f_ref f + 1) f) i fs.
Definition dup_files (ofs : list (option nat)) (fs : list file) : list file :=
  foldl (fun fs o => match o with Some i => dup_file i fs | None => fs end) fs ofs.
Definition dup_inode (i : nat) (l : list inode) : list inode := alter (fun ip => with_i_ref (i_ref ip + 1) ip) i l.

(** A file that is open somewhere. *)
Definition open_in (fs : list file) (i : nat) : Prop := exists f, fs !! i = Some f /\ 1 <= f_ref f.

Lemma open_dup fs i j : open_in fs j -> open_in (dup_file i fs) j.
Proof.
  intros (f & E & Hr). unfold open_in, dup_file. destruct (decide (i = j)) as [->|Hne].
  - rewrite list_lookup_alter_eq, E. eexists. split; [reflexivity|]. cbn. lia.
  - rewrite list_lookup_alter_ne by done. by exists f.
Qed.

Lemma open_dups ofs fs j : open_in fs j -> open_in (dup_files ofs fs) j.
Proof.
  unfold dup_files. revert fs. induction ofs as [|[i|] ofs IH]; intros fs Ho; cbn [foldl]; [done|apply IH; by apply open_dup|by apply IH].
Qed.

Lemma filedup_eq i s : hart_ok s -> lock_free L_ftable s -> open_in (files s) i ->
  filedup i s = Ok i (with_files (dup_file i (files s)) (touch s)).
Proof.
  intros Hh Hf (f & E & Hr). unfold filedup. rewrite (bind_ok _ _ _ _ _ (acquire_eq _ s Hh Hf)). unfold fget. rewrite bind_gets.
  change (files (take_lock L_ftable s)) with (files s). rewrite E. cbn [default from_option id].
  rewrite (proj2 (Z.ltb_ge (f_ref f) 1)) by lia. unfold fset. rewrite bind_modify.
  change (files (take_lock L_ftable s)) with (files s).
  rewrite (bind_ok _ _ _ _ _ (release_framed (with_files (alter (with_f_ref (f_ref f + 1)) i (files s))) _ s ltac:(solve_framed) Hh Hf)).
  unfold dup_file. by rewrite !(list_alter_insert_lookup _ _ _ f).
Qed.

Lemma idup_eq i s : hart_ok s -> lock_free L_itable s -> idup i s = Ok i (with_inodes (dup_inode i (inodes s)) (touch s)).
Proof.
  intros Hh Hf. unfold idup. rewrite (bind_ok _ _ _ _ _ (acquire_eq _ s Hh Hf)). unfold ipset. rewrite bind_modify.
  change (inodes (take_lock L_itable s)) with (inodes s).
  by rewrite (bind_ok _ _ _ _ _ (release_framed (with_inodes (dup_inode i (inodes s))) _ s ltac:(solve_framed) Hh Hf)).
Qed.

Lemma near_with_mem m s : near s (with_mem m s).
Proof. unfold near, fx. kst_cbv. by destruct s. Qed.
Lemma with_mem_with_mem m m' s : with_mem m (with_mem m' s) = with_mem m s.
Proof. reflexivity. Qed.
Lemma near_files fs s : near s (with_files fs s).
Proof. unfold near, fx. kst_cbv. by destruct s. Qed.
Lemma near_inodes l s : near s (with_inodes l s).
Proof. unfold near, fx. kst_cbv. by destruct s. Qed.

(** ** Steps that change the tables only *)

(** From [s] to [s'] the tables became [x]; memory is as before. *)
Definition retabled (s s' : kst) (x : list proc * Z * list file * list inode) : Prop :=
  near s s' /\ mem s' = mem s /\ freelist s' = freelist s /\ tables s' = x.

Lemma retabled_trans s1 s2 s3 x y : retabled s1 s2 x -> retabled s2 s3 y -> retabled s1 s3 y.
Proof.
  intros (N1 & M1 & F1 & _) (N2 & M2 & F2 & E). split; [by eapply near_trans|]. by rewrite M2, M1, F2, F1.
Qed.

Lemma retabled_upd np g s ps n fs ino c :
  tables s = (ps, n, fs, ino) -> ps !! np = Some c -> retabled s (upd np g s) (<[np := g c]> ps, n, fs, ino).
Proof.
  intros [= E1 E2 E3 E4] Ec. split; [apply near_upd|]. split; [done|]. split; [done|]. unfold tables, upd.
  cbn [procs nextpid files inodes with_procs]. by rewrite E1, E2, E3, E4, (list_alter_insert_lookup _ _ _ c).
Qed.

Lemma with_ofile_id c : with_p_ofile (p_ofile c) c = c.
Proof. by destruct c. Qed.

Section files.
Context (p np : nat) (pr c : proc) (ps : list proc) (n : Z) (fs : list file) (ino : list inode) (t1 : kst).
Hypothesis Hne : p <> np.
Hypothesis Ep : ps !! p = Some pr.
Hypothesis Enp : is_Some (ps !! np).
Hypothesis Hlen : length (p_ofile pr) = NOFILE.
Hypothesis Hc : p_ofile c = replicate NOFILE None.
Hypothesis Hopen : forall fd f, p_ofile pr !! fd = Some (Some f) -> open_in fs f.
Hypothesis Hheld : exists k, held_ok k t1.
Hypothesis Hfree : lock_free L_ftable t1.
Hypothesis Htab : tables t1 = (<[np := c]> ps, n, fs, ino).

(** The child after the first [k] descriptors. *)
Definition duped (k : nat) : list proc * Z * list file * list inode :=
  (<[np := with_p_ofile (take k (p_ofile pr) ++ replicate (NOFILE - k) None) c]> ps, n, dup_files (take k (p_ofile pr)) fs, ino).

Lemma fork_file_step k x t :
  p_ofile pr !! k = Some x -> retabled t1 t (duped k) ->
  wp (pr <- pget p;;
      match p_ofile pr !! k with
      | Some (Some f) => f <- filedup f;; pset np (fun pr => with_p_ofile (<[k := Some f]> (p_ofile pr)) pr)
      | _ => ret tt
      end)%M (fun _ t' => retabled t1 t' (duped (S k))) t.
Proof.
  intros Ex Ht. pose proof Ht as (Hn & Hm & Hfl & Et). pose proof (lookup_lt_Some _ _ _ Ex) as Hk. rewrite Hlen in Hk.
  assert (procs t !! p = Some pr) as Ept by (injection Et as E _ _ _; rewrite E; by rewrite list_lookup_insert_ne).
  assert (take (S k) (p_ofile pr) = take k (p_ofile pr) ++ [x]) as Etake by by apply take_S_r.
  assert (replicate (NOFILE - k) (@None nat) = None :: replicate (NOFILE - S k) None) as Erep by (by replace (NOFILE - k)%nat with (S (NOFILE - S k)) by lia).
  unfold pget. apply wp_bind, wp_gets. rewrite Ept. cbn [default from_option id]. rewrite Ex. destruct x as [f|].
  - destruct Hheld as [lk Hh]. pose proof (near_held _ _ _ Hn Hh) as Hht.
    apply wp_bind. eapply wp_eq.
    { apply filedup_eq; [by eapply held_hart_ok|by eapply near_free|]. injection Et as _ _ E _. rewrite E. apply open_dups. by eapply Hopen. }
    rewrite (touch_held _ _ Hht), pset_eq. apply wp_modify.
    eapply retabled_trans; [exact Ht|]. unfold duped. rewrite Etake.
    assert (retabled t (with_files (dup_file f (files t)) t) (<[np := with_p_ofile (take k (p_ofile pr) ++ replicate (NOFILE - k) None) c]> ps, n,
      dup_files (take k (p_ofile pr) ++ [Some f]) fs, ino)) as H1.
    { split; [apply near_files|]. split; [done|]. split; [done|]. injection Et as E1 E2 E3 E4. unfold tables. cbn. rewrite E1, E2, E3, E4.
      unfold dup_files at 2. by rewrite foldl_app. }
    eapply retabled_trans; [exact H1|]. destruct H1 as (_ & _ & _ & Et').
    pose proof (retabled_upd np (fun pr0 => with_p_ofile (<[k := Some f]> (p_ofile pr0)) pr0) _ _ _ _ _ _ Et'
      (list_lookup_insert_eq _ _ _ (proj1 (lookup_lt_is_Some _ _) Enp))) as H2. rewrite list_insert_insert_eq in H2.
    cbn [p_ofile with_p_ofile] in H2. rewrite <- app_assoc.
    rewrite Erep, insert_app_r_alt in H2 by (rewrite length_take; lia). rewrite length_take_le, Nat.sub_diag in H2 by lia. exact H2.
  - apply wp_ret. unfold duped in *. rewrite Etake, <- app_assoc. rewrite Erep in Ht.
    replace (dup_files (take k (p_ofile pr) ++ [None]) fs) with (dup_files (take k (p_ofile pr)) fs); [exact Ht|].
    unfold dup_files. by rewrite foldl_app.
Qed.

Lemma fork_files_spec : exists t, fork_files p np t1 = Ok tt t /\ retabled t1 t (<[np := with_p_ofile (p_ofile pr) c]> ps, n, dup_files (p_ofile pr) fs, ino).
Proof.
  enough (wp (fork_files p np) (fun _ t => retabled t1 t (duped NOFILE)) t1) as Hwp.
  { apply wp_ok in Hwp as ([] & t & E & Ht). exists t. split; [exact E|]. unfold duped in Ht.
    rewrite take_ge, Nat.sub_diag, app_nil_r in Ht by lia. exact Ht. }
  unfold fork_files. eapply wp_mono; [apply (wp_forM _ _ (fun pre t => retabled t1 t (duped (length pre))))|].
  - split; [apply near_refl|]. split; [done|]. split; [done|]. rewrite Htab. unfold duped. cbn [length take app dup_files foldl].
    rewrite Nat.sub_0_r, <- Hc, !take_0. cbn [app foldl]. by rewrite with_ofile_id.
  - intros pre i post t E Ht. rewrite length_app. cbn [length]. rewrite Nat.add_1_r.
    assert (i = length pre) as ->.
    { assert (seq 0 NOFILE !! length pre = Some i) as Ei by (rewrite E; by apply list_lookup_middle).
      apply lookup_seq in Ei. lia. }
    assert (length pre < NOFILE)%nat as Hlt.
    { rewrite <- (length_seq NOFILE 0), E, length_app. cbn. lia. }
    destruct (lookup_lt_is_Some_2 (p_ofile pr) (length pre)) as [x Ex]; [by rewrite Hlen|]. by eapply fork_file_step.
  - intros ? t. by rewrite length_seq.
Qed.

End files.

(** ** The end of fork *)

Lemma crit_upd_then {A} l i f (k : K A) s :
  hart_ok s -> lock_free l s -> touch s = s -> (acquire l;; modify (upd i f);; release l;; k)%M s = k (upd i f s).
Proof.
  intros Hh Hl Ht. rewrite (bind_ok _ _ _ _ _ (acquire_eq l s Hh Hl)), bind_modify.
  rewrite (bind_ok _ _ _ _ _ (release_framed (upd i f) l s (upd_framed i f) Hh Hl)). by rewrite Ht.
Qed.

Definition fork_tail (p np : nat) : K Z :=
  (fork_files p np;;
   pr <- pget p;;
   cwd <- deref (p_cwd pr);;
   cwd <- idup cwd;;
   pset np (with_p_cwd (Some cwd));;
   pset np (fun npr => with_p_name (safestrcpy_arr (p_name npr) (p_name pr) 16) npr);;
   npr <- pget np;;
   let pid := p_pid npr in
   release (L_proc np);;
   acquire L_wait;;
   pset np (with_p_parent (Some p));;
   release L_wait;;
   acquire (L_proc np);;
   pset np (with_p_state RUNNABLE);;
   release (L_proc np);;
   ret pid)%M.

(** The child [c] with what it inherits from [pr]. *)
Definition inherits (p : nat) (pr c : proc) : proc :=
  with_p_state RUNNABLE (with_p_parent (Some p) (with_p_name (safestrcpy_arr (p_name c) (p_name pr) 16)
    (with_p_cwd (p_cwd pr) (with_p_ofile (p_ofile pr) c)))).

Section tail.
Context (p np cw : nat) (pr c : proc) (ps : list proc) (n : Z) (fs : list file) (ino : list inode) (s t : kst).
Hypothesis Hne : p <> np.
Hypothesis Ep : ps !! p = Some pr.
Hypothesis Enp : is_Some (ps !! np).
Hypothesis Hlen : length (p_ofile pr) = NOFILE.
Hypothesis Hc : p_ofile c = replicate NOFILE None.
Hypothesis Hopen : forall fd f, p_ofile pr !! fd = Some (Some f) -> open_in fs f.
Hypothesis Hcwd : p_cwd pr = Some cw.
Hypothesis Hh : hart_ok s.
Hypothesis Ht : touch s = s.
Hypothesis Hfree : lock_free (L_proc np) s /\ lock_free L_wait s /\ lock_free L_ftable s /\ lock_free L_itable s.
Hypothesis Hnear : near (take_lock (L_proc np) s) t.
Hypothesis Htab : tables t = (<[np := c]> ps, n, fs, ino).

Lemma near_touch t' : near s t' -> touch t' = t'.
Proof. intros E. rewrite E. rewrite <- (framed_touch (fx t')) by apply fx_framed. by rewrite Ht. Qed.

Lemma fork_tail_spec : exists s', fork_tail p np t = Ok (p_pid c) s' /\ near s s' /\ mem s' = mem t /\ freelist s' = freelist t /\
  tables s' = (<[np := inherits p pr c]> ps, n, dup_files (p_ofile pr) fs, dup_inode cw ino).
Proof.
  destruct Hfree as (Hf1 & Hf2 & Hf3 & Hf4).
  assert (forall k, L_proc np <> k -> lock_free k s -> forall t', near t t' -> lock_free k t') as Hlf.
  { intros k Hk Hf t' Hn. eapply near_free; [exact Hn|]. eapply near_free; [exact Hnear|]. by apply take_lock_other. }
  assert (forall t', near t t' -> held_ok (L_proc np) t') as Hheld.
  { intros t' Hn. eapply near_held; [exact Hn|]. eapply near_held; [exact Hnear|]. by apply held_take. }
  destruct (fork_files_spec p np pr c ps n fs ino t Hne Ep Enp Hlen Hc Hopen (ex_intro (fun k => held_ok k t) _ (Hheld t (near_refl t))) (Hlf L_ftable ltac:(done) Hf3 t (near_refl t)) Htab)
    as (t1 & E1 & H1). unfold fork_tail. rewrite (bind_ok _ _ _ _ _ E1). clear E1. pose proof H1 as (N1 & _ & _ & T1).
  unfold pget. rewrite bind_gets. assert (procs t1 !! p = Some pr) as Ep1 by (injection T1 as E _ _ _; rewrite E; by rewrite list_lookup_insert_ne).
  rewrite Ep1. cbn [default from_option id]. rewrite Hcwd. cbn [deref]. rewrite bind_ret.
  rewrite (bind_ok _ _ _ _ _ (idup_eq cw t1 (held_hart_ok _ _ (Hheld t1 N1)) (Hlf L_itable ltac:(done) Hf4 t1 N1))), (touch_held _ _ (Hheld t1 N1)).
  set (t2 := with_inodes _ t1). assert (retabled t1 t2 (<[np := with_p_ofile (p_ofile pr) c]> ps, n, dup_files (p_ofile pr) fs, dup_inode cw ino)) as H2.
  { split; [apply near_inodes|]. split; [done|]. split; [done|]. injection T1 as E1 E2 E3 E4. unfold tables, t2. cbn. by rewrite E1, E2, E3, E4. }
  clearbody t2. rewrite !pset_eq, !bind_modify, upd_upd. set (g := fun npr => with_p_name _ _).
  assert (forall q, <[np := q]> ps !! np = Some q) as Elk by (intros q; apply list_lookup_insert_eq; by apply lookup_lt_is_Some).
  pose proof (retabled_upd np g t2 _ _ _ _ _ (proj2 (proj2 (proj2 H2))) (Elk _)) as H3. rewrite list_insert_insert_eq in H3.
  rewrite bind_gets. set (t3 := upd np g t2) in *. destruct (retabled_trans _ _ _ _ _ H1 (retabled_trans _ _ _ _ _ H2 H3)) as (N3 & M3 & F3 & T3).
  clearbody t3. assert (procs t3 !! np = Some (g (with_p_ofile (p_ofile pr) c))) as E3 by (injection T3 as E _ _ _; rewrite E; apply Elk).
  rewrite E3. cbn [default from_option id]. change (p_pid (g _)) with (p_pid c).
  rewrite (bind_ok _ _ _ _ _ (release_near _ s t3 Hh Hf1 (near_trans _ _ _ Hnear N3))), Ht. set (t4 := fx t3 s).
  assert (near s t4) as N4 by apply near_fx. assert (tables t4 = tables t3) as T4 by reflexivity. rewrite T3 in T4.
  assert (mem t4 = mem t /\ freelist t4 = freelist t) as [M4 F4] by done. clearbody t4.
  rewrite crit_upd_then; [|by eapply near_hart|by eapply near_free|by apply near_touch].
  pose proof (retabled_upd np (with_p_parent (Some p)) t4 _ _ _ _ _ T4 (Elk _)) as H5. rewrite list_insert_insert_eq in H5.
  set (t5 := upd np _ t4) in *. destruct H5 as (N5 & M5 & F5 & T5). pose proof (near_trans _ _ _ N4 N5) as N5'. clearbody t5.
  rewrite crit_upd_then; [|by eapply near_hart|by eapply near_free|by apply near_touch].
  pose proof (retabled_upd np (with_p_state RUNNABLE) t5 _ _ _ _ _ T5 (Elk _)) as (N6 & M6 & F6 & T6). rewrite list_insert_insert_eq in T6.
  eexists. split; [reflexivity|]. split; [by eapply near_trans|]. split; [congruence|]. split; [congruence|].
  rewrite T6. unfold inherits, g. rewrite Hcwd. reflexivity.
Qed.

End tail.

(** ** fork *)

Section fork.
Context `{image} (Himg : image_ok) (Htr : pa_ok trampoline).

(** Memory that changed only in pages [P] holds the same page table elsewhere. *)
Lemma pt_frame_samep (P : Z -> Prop) m m' root T U :
  pt_rep m root T U -> samep P m m' -> (forall t, t ∈ tpages T -> ~ P t) -> pt_rep m' root T U.
Proof.
  intros R Hs Hd. assert (forall q t i, T !! q = Some t -> index_ok i -> rd64 m' (t + 8 * i) = rd64 m (t + 8 * i)) as E.
  { intros q t i Hq Hi. eapply samep_rd64; [exact Hs|by eapply pt_aligned| |done]. apply Hd, elem_of_tpages. by exists q. }
  constructor; try apply R.
  - intros q t i Hq Hl Hi. rewrite (E q) by done. by apply (pt_node _ _ _ _ R).
  - intros va t Hva Hq. rewrite (E (vpath va)) by (done || apply PX_index; lia). by apply (pt_leaf _ _ _ _ R).
Qed.

Lemma uspace_samep (P : Z -> Prop) root T U l l' s s' :
  uspace root T U l s -> samep P (mem s) (mem s') -> (forall x, P x -> x ∈ l) -> vm_ok l' s' -> (forall x, x ∈ l' -> x ∈ l) ->
  uspace root T U l' s'.
Proof.
  intros [R Hv Ha Hp Hi] Hs HP Hv' Hl. split; [|done| | |done].
  - eapply pt_frame_samep; [exact R|exact Hs|]. intros t Ht Hin. by apply (Ha t Ht), HP.
  - intros t Ht Hin. by apply (Ha t Ht), Hl.
  - intros va pa fl Hva E. destruct (Hp va pa fl Hva E) as (? & ? & Hn & ?). split_and!; auto.
Qed.

Lemma uspace_moved root T U l t s : uspace root T U l t -> mem s = mem t -> freelist s = freelist t -> kmem_ready s -> uspace root T U l s.
Proof.
  intros [R [_ Hk] Ha Hp Hi] Em Ef Hr. split; [by rewrite Em| |done..]. split; [done|]. unfold kmem_inv. by rewrite Em, Ef.
Qed.

(** What the code relies on when process [p] calls [fork]. *)
Record forkable (p cw : nat) (pr : proc) (T : gmap (list Z) Z) (U : gmap Z (Z * Z)) (l : list Z) (s : kst) : Prop := {
  fk_hart : hart_ok s;
  fk_cur : cur s = Some p;
  fk_proc : procs s !! p = Some pr;
  fk_state : p_state pr <> UNUSED;
  fk_len : length (procs s) = NPROC;
  fk_locks : forall k, k = L_pid \/ k = L_wait \/ k = L_ftable \/ k = L_itable \/ (exists i, (i < NPROC)%nat /\ k = L_proc i) -> lock_free k s;
  fk_space : pspace pr T U l s;
  fk_slots : forall i o, procs s !! i = Some o -> p_state o = UNUSED ->
    p_pagetable o = 0 /\ p_sz o = 0 /\ p_ofile o = replicate NOFILE None;
  fk_ofile : length (p_ofile pr) = NOFILE;
  fk_files : forall fd f, p_ofile pr !! fd = Some (Some f) -> open_in (files s) f;
  fk_cwd : p_cwd pr = Some cw
}.

(** The child's memory [U'] is a copy of the parent's [U]. *)
Definition copied (pr : proc) (U U' : gmap Z (Z * Z)) (m m' : memory) : Prop :=
  forall va, in_range 0 (copy_pages (p_sz pr)) va -> exists pa q fl,
    U !! va = Some (pa, fl) /\ U' !! va = Some (q, fl) /\ page_is m' q (fun j => rd8 m (pa + j)).

(** The child's trapframe at [tf] is the parent's, with 0 in register a0. *)
Definition frame_copied (pr : proc) (tf : Z) (m m' : memory) : Prop :=
  forall i, 0 <= i < TF_SIZE ->
    rd8 m' (tf + i) = if decide (TF_a0 <= i < TF_a0 + 8) then 0 else rd8 m (p_trapframe pr + i).

(** The part of [fork] between the copy of memory and the tables. *)
Lemma frame_copy_spec tf ptf m :
  let m' := wr64 (memmove m tf ptf TF_SIZE) (tf + TF_a0) 0 in
  only_page m m' tf /\ forall i, 0 <= i < TF_SIZE -> rd8 m' (tf + i) = if decide (TF_a0 <= i < TF_a0 + 8) then 0 else rd8 m (ptf + i).
Proof.
  intros m'. split.
  - eapply only_page_trans; [|by apply only_page_wr64]. intros a Ha. rewrite rd8_memmove by done.
    rewrite decide_False; [done|]. unfold TF_SIZE, PGSIZE in *. lia.
  - intros i Hi. unfold m'. case_decide as Hd.
    + replace (tf + i) with (tf + TF_a0 + (i - TF_a0)) by lia. apply rd8_wr64_zero. lia.
    + rewrite rd8_wr64_ne by lia. rewrite rd8_memmove by done. rewrite decide_True by lia. f_equal. lia.
Qed.

(** Memory that is not on the free list stays the parent's. *)
Lemma parent_kept root T U l s s' :
  uspace root T U l s -> samep (fun x => x ∈ l) (mem s) (mem s') -> parent_inv root T U (mem s) s'.
Proof.
  intros [R Hv Ha Hp Hi] Hs. split; [eapply pt_frame_samep; [exact R|exact Hs|]; intros t Ht; by apply Ha|].
  intros q i (va & fl & Hva & E) Hi'. destruct (Hp va q fl Hva E) as ([Hq _] & _ & Hn & _). by apply Hs.
Qed.

Definition fork_copy (p np : nat) : K Z :=
  (pr <- pget p;;
   npr <- pget np;;
   c <- uvmcopy (p_pagetable pr) (p_pagetable npr) (p_sz pr);;
   if c <? 0 then freeproc np;; release (L_proc np);; ret (-1) else
   pset np (with_p_sz (p_sz pr));;
   mem_memmove (p_trapframe npr) (p_trapframe pr) TF_SIZE;;
   tf_set np TF_a0 0;;
   fork_tail p np)%M.

Lemma fork_claim : fork = (p <- curproc;; r <- allocproc;; match r with None => ret (-1) | Some np => fork_copy p np end)%M.
Proof. reflexivity. Qed.

Section copy.
Context (p cw np : nat) (pr o : proc) (T : gmap (list Z) Z) (U : gmap Z (Z * Z)) (l : list Z) (s : kst).
Context (tf pt : Z) (T2 : gmap (list Z) Z) (l2 : list Z) (t : kst).
Hypothesis F : forkable p cw pr T U l s.
Hypothesis Ht : touch s = s.
Hypothesis Eo : procs s !! np = Some o.
Hypothesis Ho : p_state o = UNUSED.
Let c : proc := born (nextpid s) tf pt o.
Hypothesis Hn : near (take_lock (L_proc np) s) t.
Hypothesis Htab : tables t = (<[np := c]> (procs s), i32 (nextpid s + 1), files s, inodes s).
Hypothesis Hu : uspace pt T2 (proc_map tf) l2 t.
Hypothesis Hfr : fresh l2 T2 (proc_map tf) tf.
Hypothesis Hl : forall x, x ∈ l <-> x ∈ l2 \/ x ∈ tpages T2 \/ x = tf.
Hypothesis Hs : samep (fun x => x ∈ l) (mem s) (mem t).

Lemma slot_free_lock : lock_free (L_proc np) s.
Proof.
  apply (fk_locks _ _ _ _ _ _ _ F). do 4 right. exists np. split; [|done]. rewrite <- (fk_len _ _ _ _ _ _ _ F). by eapply lookup_lt_Some.
Qed.

Lemma parent_uspace : uspace (p_pagetable pr) T U l2 t.
Proof.
  eapply uspace_samep; [apply (sp_space _ _ _ _ _ (fk_space _ _ _ _ _ _ _ F))|exact Hs|done|apply Hu|]. intros x Hx. apply Hl. by left.
Qed.

Lemma child_foreign q : owned l2 T2 (proc_map tf) q -> foreign T U q.
Proof.
  intros Hq. pose proof (sp_space _ _ _ _ _ (fk_space _ _ _ _ _ _ _ F)) as Hu0. split; [exact (owned_aligned _ _ _ _ _ _ Hu Hq)|].
  assert (q ∈ l) as Hin by (apply owned_none in Hq; [apply Hl; tauto|apply proc_map_high]). split.
  - intros HT. by apply (us_apart _ _ _ _ _ Hu0 q HT).
  - intros (va & fl & Hva & E). destruct (us_page _ _ _ _ _ Hu0 va q fl Hva E) as (_ & _ & Hni & _). done.
Qed.

(** The pages of a child that has copied nothing yet. *)
Lemma child_pages l3 T3 U3 x : (forall q, owned l3 T3 U3 q <-> owned l2 T2 (proc_map tf) q) -> owned l3 T3 U3 x \/ x = tf <-> x ∈ l.
Proof. intros H3. rewrite H3, owned_none, Hl by apply proc_map_high. tauto. Qed.

Lemma copy_lookups : np <> p /\ procs t !! p = Some pr /\ procs t !! np = Some c.
Proof.
  assert (np <> p) as Hne.
  { intros ->. pose proof (fk_proc _ _ _ _ _ _ _ F) as E. rewrite Eo in E. injection E as ->. by apply (fk_state _ _ _ _ _ _ _ F). }
  split; [done|]. injection Htab as E _ _ _. rewrite E, list_lookup_insert_ne, list_lookup_insert_eq by (done || by eapply lookup_lt_Some).
  split; [apply F|done].
Qed.

(** After [uvmcopy]: [t2], with the child's memory [U3]. *)
Context (r : Z) (t2 : kst) (T3 : gmap (list Z) Z) (U3 : gmap Z (Z * Z)) (l3 : list Z).
Hypothesis E2 : uvmcopy (p_pagetable pr) pt (p_sz pr) t = Ok r t2.
Hypothesis Hu3 : uspace pt T3 U3 l3 t2.
Hypothesis Ho3 : forall q, owned l3 T3 U3 q <-> owned l2 T2 (proc_map tf) q.
Hypothesis Hst : vmstep (list_to_set l2 ∪ tpages T2) t t2.

Lemma copy_kept : near t t2 /\ tables t2 = tables t /\ samep (fun x => x ∈ l) (mem s) (mem t2) /\ fresh l3 T3 U3 tf.
Proof.
  assert (held_ok (L_proc np) t) as Hheld by (eapply near_held; [exact Hn|apply held_take, F]).
  destruct (quiet_near _ _ _ Hheld (vs_quiet _ _ _ Hst)) as [Hn2 Et]. split; [done|]. split; [done|]. split.
  - eapply samep_trans; [exact Hs|eapply (vmstep_samep _ (fun x => x ∈ l)); [exact Hst|]|done|done].
    intros q Hq. split; [exact (uspace_aligned _ _ _ _ _ _ Hu Hq)|]. apply elem_of_union in Hq as [Hq%elem_of_list_to_set|Hq]; apply Hl; tauto.
  - split; [apply Hfr|]. rewrite Ho3. apply Hfr.
Qed.

Lemma fork_copy_fail : r = -1 -> U3 = proc_map tf ->
  exists s' l', fork_copy p np t = Ok (-1) s' /\ near s s' /\ samep (fun x => x ∈ l) (mem s) (mem s') /\
    tables s' = (<[np := cleared c]> (procs s), i32 (nextpid s + 1), files s, inodes s) /\ vm_ok l' s' /\ forall x, x ∈ l' <-> x ∈ l.
Proof.
  intros Er EU. destruct copy_lookups as (Hne & Ep & Enp). destruct copy_kept as (Hn2 & Et2 & Hs2 & Hfr3).
  destruct (fk_slots _ _ _ _ _ _ _ F np o Eo Ho) as (_ & Hsz & _).
  unfold fork_copy, pget. rewrite bind_gets, Ep, bind_gets, Enp. cbn [default from_option id].
  change (p_pagetable c) with pt. rewrite (bind_ok _ _ _ _ _ E2), Er. cbn [Z.ltb Z.compare].
  assert (procs t2 !! np = Some c) as Enp2 by (injection Et2 as E _ _ _; by rewrite E).
  destruct (freeproc_spec Himg np c T3 U3 l3 t2 Enp2) as (t3 & l4 & E3 & Hv3 & Hl4 & Hs3 & Hq3).
  { rewrite EU in *. split; [exact Hu3|by vm_compute|apply lookup_insert_eq| | | |exact Hfr3].
    - unfold proc_map. intros va e [[<- _]|[_ [<- _]%lookup_singleton_Some]]%lookup_insert_Some; tauto.
    - change (p_sz c) with (p_sz o). rewrite Hsz. apply sized_none_all. intros va e. apply proc_map_high.
    - change (p_sz c) with (p_sz o). rewrite Hsz. by vm_compute. }
  assert (forall x, pages c l3 T3 U3 x <-> x ∈ l) as Hp by (intros x; by apply child_pages).
  destruct (free_release np (-1) s t2 t3 (fk_hart _ _ _ _ _ _ _ F) Ht slot_free_lock (near_trans _ _ _ Hn Hn2) E3 Hq3) as (E4 & Hn4 & Et4).
  exists (fx t3 s), l4. split; [exact E4|]. split; [done|]. split; [|split; [|split]].
  - eapply samep_trans; [exact Hs2|exact Hs3|done|]. intros y. apply Hp.
  - rewrite Et4. injection Et2 as -> -> -> ->. injection Htab as -> -> -> ->.
    rewrite (list_alter_insert_lookup _ _ _ c), list_insert_insert_eq by (apply list_lookup_insert_eq; by eapply lookup_lt_Some). done.
  - apply vm_ok_fx; [apply F|apply (sp_space _ _ _ _ _ (fk_space _ _ _ _ _ _ _ F))|done].
  - intros x. by rewrite Hl4, Hp.
Qed.

Hypothesis Hout : forall va, ~ in_range 0 (copy_pages (p_sz pr)) va -> U3 !! va = proc_map tf !! va.
Hypothesis Hin : forall va, in_range 0 (copy_pages (p_sz pr)) va -> exists pa q fl,
  U !! va = Some (pa, fl) /\ U3 !! va = Some (q, fl) /\ q ∈ l2 /\ page_is (mem t2) q (fun j => rd8 (mem t) (pa + j)).

Lemma copy_range va : in_range 0 (copy_pages (p_sz pr)) va <-> page_aligned va /\ 0 <= va < PGROUNDUP (p_sz pr).
Proof.
  pose proof (sp_sz _ _ _ _ _ (fk_space _ _ _ _ _ _ _ F)) as Hsz. unfold in_range, copy_pages, page_aligned.
  rewrite PGROUNDUP_spec by (pgconst; lia). rewrite Z.sub_0_r. unfold PGSIZE. Z.to_euclidean_division_equations. lia.
Qed.

(** The child as it will be. *)
Let ch : proc := inherits p pr (with_p_sz (p_sz pr) c).

Lemma child_pspace s' : uspace pt T3 U3 l3 s' -> pspace ch T3 U3 l3 s'.
Proof.
  intros Hu'. pose proof (sp_sz _ _ _ _ _ (fk_space _ _ _ _ _ _ _ F)) as Hsz.
  destruct (roundup_user (p_sz pr) Hsz) as [Hb _]. destruct va_ok_high as (_ & _ & Hle & Hne).
  assert (forall va, TRAPFRAME <= va -> U3 !! va = proc_map tf !! va) as Hhigh.
  { intros va Hva. apply Hout. rewrite copy_range. lia. }
  split; [exact Hu'| | | | |exact Hsz|apply copy_kept].
  - rewrite Hhigh by done. unfold proc_map. rewrite lookup_insert_ne by done. apply lookup_singleton_eq.
  - rewrite Hhigh by lia. apply lookup_insert_eq.
  - intros va e E. destruct (decide (va < TRAPFRAME)); [by left|right]. rewrite Hhigh in E by lia. revert E.
    unfold proc_map. intros [[<- _]|[_ [<- _]%lookup_singleton_Some]]%lookup_insert_Some; tauto.
  - intros va Hva Ha. change (p_sz ch) with (p_sz pr). destruct (decide (in_range 0 (copy_pages (p_sz pr)) va)) as [Hr|Hr].
    + destruct (Hin va Hr) as (pa & q & fl & _ & E & _). rewrite E. apply copy_range in Hr. split; [intros _; lia|by eexists].
    + rewrite (Hout va Hr). rewrite copy_range in Hr. split; [|intros ?; exfalso; apply Hr; split; [done|lia]].
      intros [e E%proc_map_high]. lia.
Qed.

(** What the child sees, once the trapframe has been written. *)
Lemma child_contents m' : only_page (mem t2) m' tf ->
  (forall i, 0 <= i < TF_SIZE -> rd8 m' (tf + i) = if decide (TF_a0 <= i < TF_a0 + 8) then 0 else rd8 (mem t2) (p_trapframe pr + i)) ->
  copied pr U U3 (mem s) m' /\ frame_copied pr tf (mem s) m'.
Proof.
  intros Hm Hf. destruct copy_kept as (_ & _ & Hs2 & [[Htf _] _]). pose proof (sp_space _ _ _ _ _ (fk_space _ _ _ _ _ _ _ F)) as Hu0. split.
  - intros va Hva. destruct (Hin va Hva) as (pa & q & fl & EU & EU3 & Hq & Hp). exists pa, q, fl. split; [done|]. split; [done|].
    intros j Hj. assert (va < TRAPFRAME) as Hlt.
    { apply copy_range in Hva. pose proof (sp_sz _ _ _ _ _ (fk_space _ _ _ _ _ _ _ F)) as Hsz. pose proof (roundup_user _ Hsz). lia. }
    destruct (us_page _ _ _ _ _ Hu0 va pa fl Hlt EU) as ([Hpa _] & _ & Hpl & _).
    destruct (us_page _ _ _ _ _ Hu3 va q fl Hlt EU3) as ([Hqa _] & _ & _ & _).
    rewrite (samep_page _ _ _ Htf Hm q j Hqa) by (done || intros ->; apply Hfr; by left). rewrite Hp by done. by apply Hs.
  - intros i Hi. rewrite Hf by done. case_decide; [done|]. destruct (sp_tf _ _ _ _ _ (fk_space _ _ _ _ _ _ _ F)) as [[Ha _] Hno].
    apply Hs2; [done| |unfold TF_SIZE, PGSIZE in *; lia]. intros Hin'. apply Hno. by left.
Qed.

Lemma fork_copy_done : r = 0 ->
  exists s', fork_copy p np t = Ok (nextpid s) s' /\ near s s' /\ samep (fun x => x ∈ l) (mem s) (mem s') /\
    tables s' = (<[np := ch]> (procs s), i32 (nextpid s + 1), dup_files (p_ofile pr) (files s), dup_inode cw (inodes s)) /\
    pspace ch T3 U3 l3 s' /\ copied pr U U3 (mem s) (mem s') /\ frame_copied pr tf (mem s) (mem s').
Proof.
  intros Er. destruct copy_lookups as (Hne & Ep & Enp). destruct copy_kept as (Hn2 & Et2 & Hs2 & Hfr3).
  destruct (fk_slots _ _ _ _ _ _ _ F np o Eo Ho) as (_ & _ & Hof).
  unfold fork_copy, pget. rewrite bind_gets, Ep, bind_gets, Enp. cbn [default from_option id].
  change (p_pagetable c) with pt. rewrite (bind_ok _ _ _ _ _ E2), Er. cbn [Z.ltb Z.compare].
  rewrite pset_eq, bind_modify. change (p_trapframe c) with tf. unfold mem_memmove. rewrite bind_modify.
  assert (np < length (procs s))%nat as Hlt by by eapply lookup_lt_Some. rewrite Htab in Et2.
  destruct (retabled_upd np (with_p_sz (p_sz pr)) t2 _ _ _ _ c Et2 (list_lookup_insert_eq _ _ _ Hlt)) as (N3 & M3 & F3 & T3').
  rewrite list_insert_insert_eq in T3'. set (t3 := upd np _ t2) in *. clearbody t3.
  set (t4 := with_mem _ t3). assert (procs t4 !! np = Some (with_p_sz (p_sz pr) c)) as Enp4.
  { injection T3' as E _ _ _. change (procs t4) with (procs t3). rewrite E. by apply list_lookup_insert_eq. }
  unfold tf_set, pget. rewrite bind_assoc, bind_gets, Enp4. cbn [default from_option id].
  change (p_trapframe (with_p_sz (p_sz pr) c)) with tf. unfold store64. rewrite bind_modify. unfold t4. rewrite with_mem_with_mem. cbn [mem with_mem].
  destruct (frame_copy_spec tf (p_trapframe pr) (mem t3)) as [Hop Hfc]. cbv zeta in Hop, Hfc. set (m5 := wr64 _ _ _) in *. set (t5 := with_mem m5 t3).
  assert (near t2 t5) as N5 by (eapply near_trans; [exact N3|apply near_with_mem]). clearbody m5. clear t4 Enp4.
  destruct (fork_tail_spec p np cw pr (with_p_sz (p_sz pr) c) (procs s) (i32 (nextpid s + 1)) (files s) (inodes s) s t5)
    as (s' & E6 & N6 & M6 & F6 & T6);
    [congruence|apply F|by eexists|apply F|exact Hof|apply F|apply F|apply F|exact Ht| | |exact T3'|].
  { split; [exact slot_free_lock|]. pose proof (fk_locks _ _ _ _ _ _ _ F) as HL. split_and!; apply HL; tauto. }
  { eapply near_trans; [exact Hn|]. by eapply near_trans. }
  assert (kmem_ready s') as Hready.
  { pose proof (sp_space _ _ _ _ _ (fk_space _ _ _ _ _ _ _ F)) as [_ [[Hh Hk] _] _ _ _]. split; [by eapply near_hart|by eapply near_free]. }
  rewrite M3 in Hop, Hfc. change (mem t5) with m5 in M6. destruct (child_contents m5 Hop Hfc) as [Hc1 Hc2].
  exists s'. split; [exact E6|]. split; [exact N6|]. rewrite M6. split; [|split; [exact T6|split; [|by split]]].
  - eapply samep_trans; [exact Hs2|apply (samep_page _ _ tf); [apply Hfr|exact Hop]|done|]. intros y ->. apply Hl. tauto.
  - apply child_pspace. apply (uspace_moved _ _ _ _ (with_mem m5 t2)); [|exact M6|exact (eq_trans F6 F3)|exact Hready].
    apply (uspace_mem {[tf]}); [exact Hu3|by apply same_only_page|by intros ? ->%elem_of_singleton; apply Hfr|].
    intros ? ->%elem_of_singleton. destruct Hfr3 as [_ Hno]. unfold owned in Hno. tauto.
Qed.

End copy.

Lemma fork_copy_cases p cw np pr o T U l s tf pt T2 l2 t :
  forkable p cw pr T U l s -> touch s = s -> procs s !! np = Some o -> p_state o = UNUSED ->
  near (take_lock (L_proc np) s) t -> tables t = (<[np := born (nextpid s) tf pt o]> (procs s), i32 (nextpid s + 1), files s, inodes s) ->
  uspace pt T2 (proc_map tf) l2 t -> fresh l2 T2 (proc_map tf) tf -> (forall x, x ∈ l <-> x ∈ l2 \/ x ∈ tpages T2 \/ x = tf) ->
  samep (fun x => x ∈ l) (mem s) (mem t) ->
  let ch := inherits p pr (with_p_sz (p_sz pr) (born (nextpid s) tf pt o)) in
  exists r s', fork_copy p np t = Ok r s' /\ near s s' /\ samep (fun x => x ∈ l) (mem s) (mem s') /\
    ((r = -1 /\ (length l2 <= 3 * copy_pages (p_sz pr))%nat /\
      tables s' = (<[np := cleared (born (nextpid s) tf pt o)]> (procs s), i32 (nextpid s + 1), files s, inodes s) /\
      exists l', vm_ok l' s' /\ forall x, x ∈ l' <-> x ∈ l) \/
     (r = nextpid s /\ exists T' U' l',
      tables s' = (<[np := ch]> (procs s), i32 (nextpid s + 1), dup_files (p_ofile pr) (files s), dup_inode cw (inodes s)) /\
      pspace ch T' U' l' s' /\ (forall x, pages ch l' T' U' x <-> x ∈ l) /\
      copied pr U U' (mem s) (mem s') /\ frame_copied pr tf (mem s) (mem s'))).
Proof.
  intros F Ht Eo Ho Hn Et Hu Hfr Hl Hs ch. pose proof (fk_space _ _ _ _ _ _ _ F) as Hsp.
  destruct (uvmcopy_correct Himg (p_pagetable pr) pt (p_sz pr) T U T2 (proc_map tf) l2 t) as (r & t2 & T3 & U3 & l3 & E2 & Hu3 & Ho3 & _ & Hst & HD);
    [apply Hsp|apply Hsp|apply sized_none_all; intros va e; apply proc_map_high|by eapply parent_uspace|done|by eapply child_foreign|].
  destruct HD as [(-> & Hout & Hin)|(-> & EU & Hlen)].
  - destruct (fork_copy_done p cw np pr o T U l s tf pt T2 l2 t F Ht Eo Ho Hn Et Hu Hfr Hl Hs 0 t2 T3 U3 l3 E2 Hu3 Ho3 Hst Hout Hin eq_refl)
      as (s' & E & Hn' & Hs' & HT & Hp & Hc & Hf). exists (nextpid s), s'. split; [exact E|]. split; [done|]. split; [done|].
    right. split; [done|]. exists T3, U3, l3. split_and!; try done. intros x. by apply (child_pages l tf T2 l2 Hl).
  - destruct (fork_copy_fail p cw np pr o T U l s tf pt T2 l2 t F Ht Eo Ho Hn Et Hu Hfr Hl Hs (-1) t2 T3 U3 l3 E2 Hu3 Ho3 Hst eq_refl EU)
      as (s' & l' & E & Hn' & Hs' & HT & Hv & Hl'). exists (-1), s'. split; [exact E|]. split; [done|]. split; [done|].
    left. split; [done|]. split; [done|]. split; [done|]. by exists l'.
Qed.

Lemma cleared_context o : with_p_context (p_context o) (cleared o) = cleared o.
Proof. destruct o. vm_compute. reflexivity. Qed.

Lemma cleared_born pid tf pt o :
  cleared (born pid tf pt o) = with_p_context (Context forkret_pc (p_kstack o +u PGSIZE) (replicate 12 0)) (cleared o).
Proof. destruct o. cbv -[u64 Z.add PGSIZE forkret_pc]. reflexivity. Qed.

Lemma forkable_touch p cw pr T U l s : forkable p cw pr T U l s -> forkable p cw pr T U l (touch s).
Proof.
  intros [Hh Hcur Hp Hst Hlen Hlk Hsp Hsl Hof Hfi Hcw]. split; try done; [by apply touch_hart_ok|by rewrite cur_touch|].
  destruct Hsp as [Hu H1 H2 H3 H4 H5 H6]. split; try done. by apply uspace_touch.
Qed.

(** C2: [fork] makes a copy of the calling process, or leaves everything as it was.  It takes the first unused slot of
    the table and fails with -1 if there is none, or if memory runs out, which needs no more free pages than six and three for
    each page to copy.  On failure the slot is unused again and every page is back on the free list.  On success it returns the
    new pid; the child is RUNNABLE with the caller as parent, has every page of the caller's memory at the same address
    with the same permissions and contents in pages of its own, the caller's registers except that a0 is 0, its open
    files and directory with one reference more each, and its name; all its pages were free before.  In both cases
    the caller's memory and every page that was not free are unchanged, one pid is used up, and no lock is kept.
    The counters of the child are those the slot had. *)
Theorem fork_correct p cw pr T U l s :
  forkable p cw pr T U l s ->
  match list_find is_unused (procs s) with
  | None => fork s = Ok (-1) (touch s)
  | Some (np, o) => exists r s', fork s = Ok r s' /\ near (touch s) s' /\ samep (fun x => x ∈ l) (mem s) (mem s') /\
      parent_inv (p_pagetable pr) T U (mem s) s' /\
      ((r = -1 /\ (length l <= 6 + 3 * copy_pages (p_sz pr))%nat /\
        (exists ctx, tables s' = (<[np := with_p_context ctx (cleared o)]> (procs s), i32 (nextpid s + 1), files s, inodes s)) /\
        exists l', vm_ok l' s' /\ forall x, x ∈ l' <-> x ∈ l) \/
       (r = nextpid s /\ exists tf pt T' U' l',
        let ch := inherits p pr (with_p_sz (p_sz pr) (born (nextpid s) tf pt o)) in
        tables s' = (<[np := ch]> (procs s), i32 (nextpid s + 1), dup_files (p_ofile pr) (files s), dup_inode cw (inodes s)) /\
        pspace ch T' U' l' s' /\ (forall x, pages ch l' T' U' x <-> x ∈ l) /\
        copied pr U U' (mem s) (mem s') /\ frame_copied pr tf (mem s) (mem s')))
  end.
Proof.
  intros F0. pose proof (forkable_touch _ _ _ _ _ _ _ F0) as F. pose proof (touch_touch s) as Ht.
  rewrite fork_claim, (bind_ok _ _ _ _ _ (curproc_eq s p (fk_hart _ _ _ _ _ _ _ F0) (fk_cur _ _ _ _ _ _ _ F0))).
  change (procs s) with (procs (touch s)) in *. change (mem s) with (mem (touch s)). change (nextpid s) with (nextpid (touch s)).
  change (files s) with (files (touch s)). change (inodes s) with (inodes (touch s)). revert F Ht. generalize (touch s). clear s F0. intros s F Ht.
  pose proof (sp_space _ _ _ _ _ (fk_space _ _ _ _ _ _ _ F)) as Hu0.
  pose proof (fk_locks _ _ _ _ _ _ _ F) as HL.
  assert (forall i, (i < NPROC)%nat -> lock_free (L_proc i) s) as HLp by (intros i Hi; apply HL; do 4 right; by exists i).
  assert (forall i q, procs s !! i = Some q -> p_state q = UNUSED -> p_pagetable q = 0) as Hcl by (intros i q E Hq; by eapply (fk_slots _ _ _ _ _ _ _ F)).
  pose proof (allocproc_spec Himg Htr l s (fk_hart _ _ _ _ _ _ _ F) Ht (fk_len _ _ _ _ _ _ _ F) HLp (HL L_pid ltac:(by left)) (us_vm _ _ _ _ _ Hu0) Hcl) as HA.
  destruct (list_find is_unused (procs s)) as [[np o]|] eqn:El; [|by rewrite (bind_ok _ _ _ _ _ HA)].
  apply list_find_Some in El as (Eo & Ho & _). destruct HA as (r & t & E & Hs & HD). rewrite (bind_ok _ _ _ _ _ E). clear E.
  destruct HD as [(-> & Hn & Et & Hlen & l' & Hv' & Hl')|(tf & pt & T2 & l2 & -> & Hn & Et & Hu & Hfr & _ & Hl & Hlen)].
  { exists (-1), t. split; [done|]. split; [done|]. split; [done|]. split; [by eapply parent_kept|]. left. split; [done|]. split; [lia|].
    split; [|by exists l']. exists (p_context o). by rewrite Et, cleared_context. }
  destruct (fork_copy_cases p cw np pr o T U l s tf pt T2 l2 t F Ht Eo Ho Hn Et Hu Hfr Hl Hs) as (r & s' & E & Hn' & Hs' & HD).
  exists r, s'. split; [exact E|]. split; [done|]. split; [done|]. split; [by eapply parent_kept|].
  destruct HD as [(-> & Hlen' & Et' & Hv')|(-> & T3 & U3 & l3 & HD)]; [left|right].
  - split; [done|]. split; [lia|]. split; [|done]. eexists. rewrite <- (cleared_born (nextpid s) tf pt). exact Et'.
  - split; [done|]. by exists tf, pt, T3, U3, l3.
Qed.

End fork.
