(* ===== verification/UserProc.v ===== *)
(** * The running process and its trapframe

    What the system-call layer relies on: the current process has a page table that
    represents a map, its user pages are separate from the page table, and its trapframe is
    a page of its own. *)

From S2P Require Import Prelude Riscv Memory Bytes State Spinlock Sched SchedSpec Kalloc Vm.
From S2P Require Import PageTable VmSpec UserCopy Sleeplock Uart Printf Console Bio Log Fs Pipe.
From S2P Require Import File Proc.

Section userproc.
Context `{image}.

Record umem (pr : proc) (T : gmap (list Z) Z) (U : gmap Z (Z * Z)) (m : memory) : Prop := {
  um_rep : pt_rep m (p_pagetable pr) T U;
  um_sep : user_sep T U;
  um_page : forall va, accessible U va -> page_ok (user_pa U va);
  um_tf : page_ok (p_trapframe pr);
  um_tf_table : p_trapframe pr ∉ tpages T;
  um_tf_user : forall va, accessible U va -> user_pa U va <> p_trapframe pr
}.

(** A field of the trapframe. *)
Definition tf_field (off : Z) : Prop := 0 <= off /\ off + 8 <= PGSIZE.

Lemma umem_proc pr pr' T U m :
  p_pagetable pr' = p_pagetable pr -> p_trapframe pr' = p_trapframe pr ->
  umem pr T U m -> umem pr' T U m.
Proof. intros E1 E2 []. split; rewrite ?E1, ?E2; done. Qed.

Lemma umem_tf_set pr T U m off v :
  umem pr T U m -> tf_field off -> umem pr T U (wr64 m (p_trapframe pr + off) v).
Proof.
  intros [] [Ho Hs]. split; try done.
  apply (pt_frame {[p_trapframe pr]} m _ _ T U); [done| |by intros q ->%elem_of_singleton; apply um_tf0|].
  - intros a Ha. apply rd8_wr64_ne. specialize (Ha (p_trapframe pr) ltac:(set_solver)). lia.
  - intros t Ht Hq%elem_of_singleton. by subst.
Qed.

Lemma vread_tf_set pr T U m off v va :
  umem pr T U m -> tf_field off -> accessible U va ->
  vread (wr64 m (p_trapframe pr + off) v) U va = vread m U va.
Proof.
  intros [] [Ho Hs] Ha. unfold vread. apply rd8_wr64_ne.
  pose proof (um_tf_user0 va Ha). destruct (um_page0 va Ha) as [? _]. destruct um_tf0 as [? _].
  pose proof (Z.mod_pos_bound va PGSIZE ltac:(done)). unfold page_aligned in *.
  unfold PGSIZE in *. Z.to_euclidean_division_equations. lia.
Qed.

Lemma vbytes_ext m m' U va n :
  (forall i, 0 <= i < Z.of_nat n -> vread m' U (va + i) = vread m U (va + i)) ->
  vbytes m' U va n = vbytes m U va n.
Proof.
  revert va. induction n as [|n IH]; intros va Hv; [done|]. cbn [vbytes]. f_equal.
  - rewrite <- (Z.add_0_r va). apply Hv. lia.
  - apply IH. intros i Hi. replace (va + 1 + i) with (va + (1 + i)) by lia. apply Hv. lia.
Qed.

(** Writing to user memory keeps the trapframe. *)
Lemma stored_tf pr T U m m' dstva src n off :
  umem pr T U m -> stored U dstva src n m m' -> tf_field off ->
  rd64 m' (p_trapframe pr + off) = rd64 m (p_trapframe pr + off).
Proof.
  intros [] [_ Hf] [Ho Hs]. apply rd64_ext. intros i Hi. apply Hf. intros va Ha.
  pose proof (um_tf_user0 va Ha). destruct (um_page0 va Ha) as [? _]. destruct um_tf0 as [? _]. unfold page_aligned in *.
  unfold PGSIZE in *. Z.to_euclidean_division_equations. lia.
Qed.

Lemma stored_umem pr T U m m' dstva src n :
  umem pr T U m -> stored U dstva src n m m' -> pt_rep m' (p_pagetable pr) T U -> umem pr T U m'.
Proof. intros [] _ Hr. by split. Qed.

(** [copyout] with the weaker hypotheses a running process provides. *)
Lemma copyout_spec (Himg : image_ok) pr T U dstva src len s :
  umem pr T U (mem s) -> 0 <= dstva < 2 ^ 64 -> 0 <= len < 2 ^ 64 -> len <= Z.of_nat (length src) ->
  exists (n : nat) m', Z.of_nat n <= len /\
    copyout (p_pagetable pr) dstva src len s = Ok (if Z.of_nat n =? len then 0 else -1) (with_mem m' s) /\
    stored U dstva src n (mem s) m' /\ umem pr T U m' /\
    (forall i, 0 <= i < Z.of_nat n -> accessible U (dstva + i)) /\
    (Z.of_nat n < len -> ~ accessible U (dstva + Z.of_nat n)).
Proof.
  intros Hu Hva Hlen Hsrc.
  destruct (copyout_loop_spec Himg (2 + Z.to_nat (len / PGSIZE)) (p_pagetable pr) T U dstva src len s)
    as (n & m' & Hn & E & Hst & Hr & Ha & Hb); [apply Hu|apply Hu|done..|apply copy_fuel_ok; lia|].
  exists n, m'. split; [done|]. split; [exact E|]. split; [done|].
  split; [by eapply stored_umem|]. done.
Qed.

(** What [copyout] has stored, as the user reads it. *)
Lemma stored_bytes U dstva src m m' :
  0 <= dstva -> stored U dstva src (length src) m m' ->
  (forall i, 0 <= i < Z.of_nat (length src) -> accessible U (dstva + i)) ->
  vbytes m' U dstva (length src) = map u8 src.
Proof.
  intros Hd [Hst _] Ha. apply list_eq. intros k.
  destruct (decide (k < length src)%nat) as [Hk|Hk].
  - rewrite lookup_vbytes by done.
    rewrite Hst, decide_True by (try apply Ha; lia).
    rewrite list_lookup_fmap. replace (Z.to_nat (dstva + Z.of_nat k - dstva)) with k by lia.
    destruct (lookup_lt_is_Some_2 src k Hk) as [x Ex]. by rewrite Ex.
  - rewrite !lookup_ge_None_2; [done|rewrite length_fmap; lia|rewrite length_vbytes; lia].
Qed.

End userproc.

(** ** The trapframe in the monad *)

Lemma tf_get_eq p pr off s :
  procs s !! p = Some pr -> tf_get p off s = Ok (rd64 (mem s) (p_trapframe pr + off)) s.
Proof. intros E. unfold tf_get, pget, load64. rewrite bind_gets, E. done. Qed.

Lemma tf_set_eq p pr off v s :
  procs s !! p = Some pr ->
  tf_set p off v s = Ok tt (with_mem (wr64 (mem s) (p_trapframe pr + off) v) s).
Proof. intros E. unfold tf_set, pget, store64. rewrite bind_gets, E. done. Qed.
