(* ===== verification/WaitSpec.v ===== *)
(** * wait

    [wait] of kernel/proc.c: a child that has exited is reaped, and its pages go back to the free list. *)

From S2P Require Import Prelude Riscv Memory CString Bytes State Spinlock Sched SchedSpec Sleeplock Kalloc Vm.
From S2P Require Import PageTable VmSpec Uvm UserCopy UvmFork Uart Printf Console Bio Log Fs Pipe File Proc ProcSpec ForkSpec UserProc.

(** ** Scanning the table *)

Definition child_of (p : nat) (q : proc) : Prop := p_parent q = Some p.
#[export] Instance child_of_dec p q : Decision (child_of p q) := decide (p_parent q = Some p).
Definition zombie_child (p : nat) (q : proc) : Prop := child_of p q /\ p_state q = ZOMBIE.
#[export] Instance zombie_child_dec p q : Decision (zombie_child p q) := and_dec _ _.

Section wait.
Context `{image} `{environment} `{patience}.

(** What [wait] does with a zombie. *)
Definition reap (pp p : nat) (addr : Z) : K (Z + bool) :=
  (pr <- pget pp;;
   let pid := p_pid pr in
   me <- pget p;;
   r <- (if addr =? 0 then ret 0 else copyout (p_pagetable me) addr (unle 4 (p_xstate pr)) 4);;
   if r <? 0 then release (L_proc pp);; release L_wait;; ret (inl (-1))
   else freeproc pp;; release (L_proc pp);; release L_wait;; ret (inl pid))%M.

(** The loop of [wait], [n] rounds at most. *)
Definition wait_rounds (n p : nat) (addr : Z) : K Z :=
  loopM n (fun _ =>
    (r <- wait_scan plist p addr false;;
     match r with
     | inl r => ret (inr r)
     | inr havekids =>
         k <- (if havekids then killed p else ret 0);;
         if negb havekids || negb (k =? 0) then release L_wait;; ret (inr (-1))
         else sleep (Ch_proc p) L_wait;; ret (inl tt)
     end)%M) tt.

Lemma wait_rounds_eq addr : wait addr = (p <- curproc;; acquire L_wait;; wait_rounds wakeups p addr)%M.
Proof. reflexivity. Qed.

Lemma wait_scan_eq p addr t : forall ps k n hk,
  held_ok L_wait t -> drop k (procs t) = ps -> length ps = n -> (forall i, (i < k + n)%nat -> lock_free (L_proc i) t) ->
  wait_scan (seq k n) p addr hk t =
    match list_find (zombie_child p) ps with
    | Some (i, _) => reap (k + i) p addr (take_lock (L_proc (k + i)) t)
    | None => Ok (inr (hk || bool_decide (Exists (child_of p) ps))) t
    end.
Proof.
  induction ps as [|q ps IH]; intros k n hk Hh Hd Hn Hf; cbn [length] in Hn; subst n; cbn [seq wait_scan list_find].
  { rewrite bool_decide_false, orb_false_r by (by intros ?%Exists_nil). done. }
  assert (procs t !! k = Some q) as Eq by (rewrite <- (Nat.add_0_r k), <- lookup_drop, Hd; reflexivity).
  assert (lock_free (L_proc k) t) as Hk by (apply Hf; lia).
  assert (forall b, wait_scan (seq (S k) (length ps)) p addr b t = match list_find (zombie_child p) ps with
    | Some (i, _) => reap (S k + i) p addr (take_lock (L_proc (S k + i)) t)
    | None => Ok (inr (b || bool_decide (Exists (child_of p) ps))) t end) as IHk.
  { intros b. apply IH; [done|by rewrite <- Nat.add_1_r, <- drop_drop, Hd|done|intros i Hi; apply Hf; lia]. }
  unfold pget. rewrite bind_gets, Eq. cbn [default from_option id].
  destruct (decide (p_parent q = Some p)) as [Hp|Hp].
  - rewrite (bind_ok _ _ _ _ _ (acquire_eq _ t (held_hart_ok _ _ Hh) Hk)), bind_gets.
    change (procs (take_lock (L_proc k) t)) with (procs t). rewrite Eq. cbn [default from_option id].
    destruct (decide (p_state q = ZOMBIE)) as [Hz|Hz].
    + rewrite decide_True by done. rewrite Nat.add_0_r. symmetry. unfold reap, pget. rewrite bind_gets.
      change (procs (take_lock (L_proc k) t)) with (procs t). by rewrite Eq.
    + rewrite decide_False by (by intros [_ ?]). rewrite (bind_ok _ _ _ _ _ (release_take _ t (held_hart_ok _ _ Hh) Hk)), (touch_held _ _ Hh), IHk.
      rewrite (bool_decide_true (Exists (child_of p) (q :: ps))) by (by left). rewrite orb_true_r. cbn [orb].
      destruct (list_find (zombie_child p) ps) as [[i x]|]; cbn [fmap option_fmap option_map prod_map]; [|done]. by rewrite <- Nat.add_succ_comm.
  - rewrite decide_False by (by intros [? _]). rewrite IHk.
    assert (bool_decide (Exists (child_of p) (q :: ps)) = bool_decide (Exists (child_of p) ps)) as ->.
    { apply bool_decide_ext. rewrite Exists_cons. unfold child_of at 1. tauto. }
    destruct (list_find (zombie_child p) ps) as [[i x]|]; cbn [fmap option_fmap option_map prod_map]; [|done]. by rewrite <- Nat.add_succ_comm.
Qed.

(** ** Reaping *)

Lemma stored_samep pr T U l s dstva src n m' :
  pspace pr T U l s -> stored U dstva src n (mem s) m' -> samep (upage U) (mem s) m'.
Proof.
  intros Hsp [_ Hf] y i Hy Hn Hi. apply Hf. intros va (fl & E & Hfl)%accessible_inv Hr.
  assert (PGROUNDDOWN va < TRAPFRAME) as Hlt.
  { destruct (sp_low _ _ _ _ _ Hsp _ _ E) as [?|[Ev|Ev]]; [done|exfalso..]; rewrite Ev in E.
    - rewrite (sp_tramp _ _ _ _ _ Hsp) in E. injection E as _ <-. by apply Hfl.
    - rewrite (sp_frame _ _ _ _ _ Hsp) in E. injection E as _ <-. by apply Hfl. }
  destruct (us_page _ _ _ _ _ (sp_space _ _ _ _ _ Hsp) _ _ _ Hlt E) as ([Ha _] & _).
  apply Hn. exists (PGROUNDDOWN va), fl. split; [done|]. rewrite E. do 2 f_equal.
  destruct (decide (y = user_pa U va)) as [->|Hne]; [done|]. destruct (pages_disjoint y _ Hy Ha Hne); lia.
Qed.

Lemma pspace_low pr T U l s : pspace pr T U l s -> user_low U.
Proof.
  intros Hsp va pa fl E Hfl. destruct (sp_low _ _ _ _ _ Hsp _ _ E) as [?|[->| ->]]; [done|exfalso..].
  - rewrite (sp_tramp _ _ _ _ _ Hsp) in E. injection E as _ <-. by apply Hfl.
  - rewrite (sp_frame _ _ _ _ _ Hsp) in E. injection E as _ <-. by apply Hfl.
Qed.

Lemma vm_ok_samep P l m s : vm_ok l s -> samep P (mem s) m -> (forall x, P x -> x ∉ l) -> vm_ok l (with_mem m s).
Proof.
  intros [Hr (Hc & Hn & Hp)] Hs Hd. split; [exact Hr|]. split; [|done]. cbn [freelist with_mem mem]. revert Hc Hp Hd. clear Hr Hn.
  generalize (freelist s). induction l as [|q l IH]; intros head Hc Hp Hd; simpl in *; [done|].
  apply Forall_cons in Hp as [[Hq _] Hp]. destruct Hc as [-> Hc]. split; [done|].
  rewrite <- (Z.add_0_r q) at 1. change 0 with (8 * 0). rewrite (samep_rd64 P (mem s)); [|done|done|intros Hx; apply (Hd q Hx); by left|done].
  rewrite Z.mul_0_r, Z.add_0_r. apply IH; [done|done|]. intros x Hx Hin. apply (Hd x Hx). by right.
Qed.

(** Pages of a process, apart from the free ones. *)
Definition own (pr : proc) (T : gmap (list Z) Z) (U : gmap Z (Z * Z)) (x : Z) : Prop := pages pr [] T U x.

Lemma pspace_samep P pr T U l l' s s' :
  pspace pr T U l s -> samep P (mem s) (mem s') -> (forall x, P x -> x ∉ tpages T) -> vm_ok l' s' ->
  (forall x, x ∈ l' -> ~ own pr T U x) -> pspace pr T U l' s'.
Proof.
  intros [[R Hv Ha Hp Hi] H1' H2' H3 H4 H5 [H6 H7]] Hs HP Hv' Hl. split; try done.
  - split; [|done| | |done].
    + eapply pt_frame_samep; [exact R|exact Hs|]. intros t Ht Hin. by apply (HP t Hin).
    + intros t Ht Hin. apply (Hl t Hin). left. by right; left.
    + intros va pa fl Hva E. destruct (Hp va pa fl Hva E) as (? & ? & _ & ?). split_and!; try done.
      intros Hin. apply (Hl pa Hin). left. right; right. by exists va, fl.
  - split; [done|]. intros [Hx|Hx]; [apply (Hl _ Hx); by right|]. apply H7. by right.
Qed.

Lemma own_busy pr T U l s x : pspace pr T U l s -> x ∈ l -> ~ own pr T U x.
Proof.
  intros Hsp Hx [[?%elem_of_nil|[HT|(va & fl & Hva & E)]]| ->]; [done| | |].
  - by apply (us_apart _ _ _ _ _ (sp_space _ _ _ _ _ Hsp) x HT).
  - by apply (us_page _ _ _ _ _ (sp_space _ _ _ _ _ Hsp)) in E as (_ & _ & ? & _).
  - apply (sp_tf _ _ _ _ _ Hsp). by left.
Qed.

Lemma own_table pr T U x : x ∈ tpages T -> own pr T U x.
Proof. intros Hx. left. right. by left. Qed.

Lemma own_upage pr T U x : upage U x -> own pr T U x.
Proof. intros Hx. left. right. by right. Qed.

Lemma upage_table pr T U l s x : pspace pr T U l s -> upage U x -> x ∉ tpages T.
Proof. intros Hsp (va & fl & Hva & E). by apply (us_page _ _ _ _ _ (sp_space _ _ _ _ _ Hsp)) in E as (_ & ? & _). Qed.

Lemma accessible_upage pr T U l s va : pspace pr T U l s -> accessible U va -> page_ok (user_pa U va) /\ upage U (user_pa U va).
Proof.
  intros Hsp (fl & E & Hfl)%accessible_inv. assert (PGROUNDDOWN va < TRAPFRAME) as Hlt by by eapply (pspace_low _ _ _ _ _ Hsp).
  split; [by apply (us_page _ _ _ _ _ (sp_space _ _ _ _ _ Hsp)) in E as (? & _)|by exists (PGROUNDDOWN va), fl].
Qed.

Lemma pspace_umem pr T U l s : pspace pr T U l s -> umem pr T U (mem s).
Proof.
  intros Hsp. destruct (sp_tf _ _ _ _ _ Hsp) as [Htf Hno]. split; [apply Hsp| |..].
  - eapply uspace_sep; [apply Hsp|by eapply pspace_low].
  - intros va Ha. by apply (accessible_upage _ _ _ _ _ _ Hsp Ha).
  - done.
  - intros Hx. apply Hno. by right; left.
  - intros va Ha E. apply Hno. right; right. rewrite <- E. by apply (accessible_upage _ _ _ _ _ _ Hsp Ha).
Qed.

(** User memory is unchanged when none of its pages is. *)
Lemma vread_samep P pr T U l s m m' va :
  pspace pr T U l s -> accessible U va -> samep P m m' -> (forall x, P x -> ~ upage U x) -> vread m' U va = vread m U va.
Proof.
  intros Hsp [[Ha _] Hu]%(accessible_upage _ _ _ _ _ _ Hsp) Hs HP. unfold vread. apply Hs; [done|intros Hx; by apply (HP _ Hx)|].
  by apply Z.mod_pos_bound.
Qed.

Context (Himg : image_ok).

(** The result of reaping slot [i], which held [q] with the pages of [T'] and [U']. *)
Definition reaped (pr : proc) (T : gmap (list Z) Z) (U : gmap Z (Z * Z)) (l : list Z) (i : nat) (q : proc)
    (T' : gmap (list Z) Z) (U' : gmap Z (Z * Z)) (addr : Z) (s : kst) (r : Z) (s' : kst) : Prop :=
  near s s' /\
  (forall va, 0 <= va -> accessible U va -> ~ (addr <> 0 /\ addr <= va < addr + 4) -> vread (mem s') U va = vread (mem s) U va) /\
  ((r = -1 /\ addr <> 0 /\ (exists k, 0 <= k < 4 /\ ~ accessible U (addr + k)) /\
      tables s' = tables s /\ pspace pr T U l s' /\ pspace q T' U' l s') \/
   (r = p_pid q /\ (addr <> 0 -> vbytes (mem s') U addr 4 = unle 4 (p_xstate q)) /\
      tables s' = (<[i := cleared q]> (procs s), nextpid s, files s, inodes s) /\
      exists l', (forall x, x ∈ l' <-> pages q l T' U' x) /\ pspace pr T U l' s')).

Section reap.
Context (p i : nat) (pr q : proc) (T T' : gmap (list Z) Z) (U U' : gmap Z (Z * Z)) (l : list Z) (addr : Z) (s : kst).
Hypothesis Hh : hart_ok s.
Hypothesis Ht : touch s = s.
Hypothesis Ep : procs s !! p = Some pr.
Hypothesis Ei : procs s !! i = Some q.
Hypothesis Hfw : lock_free L_wait s.
Hypothesis Hfi : lock_free (L_proc i) s.
Hypothesis Hpr : pspace pr T U l s.
Hypothesis Hq : pspace q T' U' l s.
Hypothesis Hdisj : forall x, own q T' U' x -> ~ own pr T U x.

Let t : kst := take_lock (L_proc i) (take_lock L_wait s).

(** Both locks are released, whatever memory and tables have become. *)
Lemma release_both {A} (a : A) t' : near t t' ->
  (release (L_proc i);; release L_wait;; ret a)%M t' = Ok a (fx t' s).
Proof.
  intros Hn. assert (held_ok L_wait (take_lock L_wait s)) as Hheld by by apply held_take.
  rewrite (bind_ok _ _ _ _ _ (release_near (L_proc i) (take_lock L_wait s) t' (held_hart_ok _ _ Hheld) (take_lock_other L_wait (L_proc i) s ltac:(done) Hfi) Hn)).
  rewrite (touch_held _ _ Hheld), (bind_ok _ _ _ _ _ (release_near L_wait s (fx t' (take_lock L_wait s)) Hh Hfw (near_fx _ _))), Ht. reflexivity.
Qed.

Lemma pspace_locked pr0 T0 U0 : pspace pr0 T0 U0 l s -> pspace pr0 T0 U0 l t.
Proof.
  intros Hsp. apply (pspace_samep (fun _ => False) _ _ _ l _ s); [done|by intros ?|done| |by intros x; eapply own_busy].
  do 2 (apply vm_ok_take; [done|]). apply Hsp.
Qed.

Lemma kmem_free : lock_free L_kmem s.
Proof. apply (sp_space _ _ _ _ _ Hpr). Qed.

(** Storing the exit status leaves both spaces in place. *)
Lemma store_spaces m' s' : samep (upage U) (mem s) m' -> mem s' = m' -> vm_ok l s' -> pspace pr T U l s' /\ pspace q T' U' l s'.
Proof.
  intros Hs <- Hv. split; (eapply pspace_samep; [eassumption|exact Hs| |exact Hv|intros x; by eapply own_busy]).
  - intros x. by eapply upage_table.
  - intros x Hx Hin. apply (Hdisj x); [by apply own_table|by apply own_upage].
Qed.

Lemma store_vm m' : samep (upage U) (mem s) m' -> vm_ok l (with_mem m' t).
Proof.
  intros Hs. eapply vm_ok_samep; [apply (pspace_locked _ _ _ Hpr)|exact Hs|]. intros x Hx Hin.
  eapply own_busy; [exact Hpr|exact Hin|by apply own_upage].
Qed.

(** The child is freed; [m'] is memory after the exit status was stored. *)
Lemma free_child m' : samep (upage U) (mem s) m' ->
  exists s', (freeproc i;; release (L_proc i);; release L_wait;; ret (inl (p_pid q) : Z + bool))%M (with_mem m' t) = Ok (inl (p_pid q)) s' /\
    near s s' /\ samep (pages q l T' U') m' (mem s') /\
    tables s' = (<[i := cleared q]> (procs s), nextpid s, files s, inodes s) /\
    exists l', (forall x, x ∈ l' <-> pages q l T' U' x) /\ pspace pr T U l' s'.
Proof.
  intros Hs. pose proof (store_vm m' Hs) as Hvt. destruct (store_spaces m' (with_mem m' t) Hs eq_refl Hvt) as [Hpr2 Hq2].
  destruct (freeproc_spec Himg i q T' U' l (with_mem m' t) Ei Hq2) as (t3 & l3 & E3 & Hv3 & Hl3 & Hs3 & Hq3).
  assert (held_ok (L_proc i) (upd i cleared (with_mem m' t))) as Hheld.
  { eapply near_held; [eapply near_trans; [apply near_with_mem|apply near_upd]|]. apply held_take. by apply take_lock_hart_ok. }
  destruct (quiet_near _ _ _ Hheld Hq3) as [Hn3 Et3].
  assert (near t t3) as Hn by (eapply near_trans; [apply near_with_mem|]; eapply near_trans; [apply near_upd|exact Hn3]).
  rewrite (bind_ok _ _ _ _ _ E3), (release_both _ t3 Hn). exists (fx t3 s). split; [done|]. split; [apply near_fx|].
  split; [exact Hs3|]. split.
  - change (tables (fx t3 s)) with (tables t3). rewrite Et3. unfold tables, upd. cbn [procs nextpid files inodes with_procs with_mem].
    change (procs t) with (procs s). by rewrite (list_alter_insert_lookup _ _ _ q).
  - exists l3. split; [done|]. apply (pspace_samep (pages q l T' U') _ _ _ l _ (with_mem m' t)); [done|exact Hs3| | |].
    + intros x [[Hx|Hx]|Hx] Hin; [by apply (own_busy _ _ _ _ _ x Hpr Hx), own_table|apply (Hdisj x)..]; try by apply own_table.
      * left. by right.
      * by right.
    + apply vm_ok_fx; [done|exact kmem_free|done].
    + intros x [[Hx|Hx]|Hx]%Hl3; [by eapply own_busy|apply Hdisj..]; [left; by right|by right].
Qed.

(** Freed after nothing or four bytes were stored at [addr]. *)
Lemma free_reaped m' : samep (upage U) (mem s) m' ->
  (forall va, 0 <= va -> accessible U va -> ~ (addr <> 0 /\ addr <= va < addr + 4) -> vread m' U va = vread (mem s) U va) ->
  (addr <> 0 -> vbytes m' U addr 4 = unle 4 (p_xstate q) /\ forall k, 0 <= k < 4 -> accessible U (addr + k)) ->
  exists s', (freeproc i;; release (L_proc i);; release L_wait;; ret (inl (p_pid q) : Z + bool))%M (with_mem m' t) = Ok (inl (p_pid q)) s' /\
    reaped pr T U l i q T' U' addr s (p_pid q) s'.
Proof.
  intros Hs Hv Hb. destruct (free_child m' Hs) as (s' & E & Hn & Hs' & Ht' & Hl').
  assert (forall x, pages q l T' U' x -> ~ upage U x) as Hoff.
  { intros x [[Hx|Hx]|Hx] Hu%(own_upage pr T); [by apply (own_busy _ _ _ _ _ x Hpr Hx)|apply (Hdisj x); [|done]..]; [left; by right|by right]. }
  exists s'. split; [done|]. split; [done|]. split.
  - intros va Hva0 Ha Hne. rewrite <- Hv by done. by eapply vread_samep.
  - right. split; [done|]. split; [|done]. intros [<- Ha]%Hb. apply vbytes_ext. intros k Hk. eapply vread_samep; [exact Hpr|by apply Ha|done..].
Qed.

Lemma reap_spec : 0 <= addr < 2 ^ 64 ->
  exists r s', reap i p addr t = Ok (inl r) s' /\ reaped pr T U l i q T' U' addr s r s'.
Proof.
  intros Haddr. unfold reap, pget. rewrite bind_gets, bind_gets. change (procs t) with (procs s). rewrite Ei, Ep. cbn [default from_option id].
  destruct (Z.eqb_spec addr 0) as [E0|E0].
  { rewrite bind_ret. cbn [Z.ltb Z.compare]. destruct (free_reaped (mem s)) as (s' & E & Hr); [by intros ?|done|done|].
    exists (p_pid q), s'. split; [|done]. rewrite <- E. by replace (with_mem (mem s) t) with t by (by destruct s). }
  destruct (copyout_spec Himg pr T U addr (unle 4 (p_xstate q)) 4 t) as (n & m' & Hn & E & Hst & Hum & Ha & Hb);
    [by apply (pspace_umem _ _ _ _ _ (pspace_locked _ _ _ Hpr))|done|done|by rewrite unle_length|].
  change (mem t) with (mem s) in Hst. pose proof (stored_samep _ _ _ _ _ _ _ _ _ Hpr Hst) as Hs.
  rewrite (bind_ok _ _ _ _ _ E). destruct (Z.eqb_spec (Z.of_nat n) 4) as [E4|E4]; cbn [Z.ltb Z.compare].
  - assert (n = 4%nat) as -> by lia. destruct (free_reaped m' Hs) as (s' & Es & Hr); [| |by exists (p_pid q), s'].
    + intros va Hva0 Hva Hne. destruct Hst as [Hst _]. rewrite Hst, decide_False by (try done; intros [? ?]; by apply Hne). done.
    + intros _. split; [|done]. pose proof (stored_bytes U addr (unle 4 (p_xstate q)) (mem s) m') as Hsb.
      rewrite unle_length, map_u8_bytes in Hsb by apply unle_bytes. apply Hsb; [lia|done|done].
  - rewrite (release_both _ (with_mem m' t) (near_with_mem _ _)). exists (-1), (fx (with_mem m' t) s). split; [done|]. split; [apply near_fx|]. split.
    + intros va Hva0 Hva Hne. destruct Hst as [Hst _]. transitivity (vread m' U va); [reflexivity|]. rewrite (Hst va Hva0 Hva). apply decide_False. intros ?. apply Hne. lia.
    + left. split; [done|]. split; [done|]. split; [exists (Z.of_nat n); split; [lia|apply Hb; lia]|]. split; [done|].
      apply (store_spaces m'); [done|done|]. apply vm_ok_fx; [done|exact kmem_free|by apply store_vm].
Qed.

End reap.

(** A process that calls [wait]. *)
Record waiter (p : nat) (pr : proc) (T : gmap (list Z) Z) (U : gmap Z (Z * Z)) (l : list Z) (s : kst) : Prop := {
  wt_hart : hart_ok s;
  wt_cur : cur s = Some p;
  wt_proc : procs s !! p = Some pr;
  wt_len : length (procs s) = NPROC;
  wt_lock : lock_free L_wait s;
  wt_locks : forall i, (i < NPROC)%nat -> lock_free (L_proc i) s;
  wt_space : pspace pr T U l s
}.

Lemma pspace_touch pr T U l s : pspace pr T U l s -> pspace pr T U l (touch s).
Proof. intros [Hu H1' H2' H3 H4 H5 H6]. split; try done. by apply uspace_touch. Qed.

Lemma waiter_touch p pr T U l s : waiter p pr T U l s -> waiter p pr T U l (touch s).
Proof.
  intros [Hh Hc Hp Hlen Hw Hl Hs]. split; [by apply touch_hart_ok|by rewrite cur_touch|done|done|done|done|]. by apply pspace_touch.
Qed.

Lemma bind_then {A B C} (m : K A) (b : B) (k : B -> K C) s : (x <- (m;; ret b);; k x)%M s = (m;; k b)%M s.
Proof. rewrite bind_assoc. unfold bind. by destruct (m s). Qed.

(** A round of [wait] that finds no zombie child. *)
Lemma wait_idle p pr T U l n addr s :
  waiter p pr T U l s -> touch s = s -> list_find (zombie_child p) (procs s) = None ->
  wait_rounds (S n) p addr (take_lock L_wait s) =
    if bool_decide (Exists (child_of p) (procs s)) && (p_killed pr =? 0)
    then (sleep (Ch_proc p) L_wait;; wait_rounds n p addr)%M (take_lock L_wait s)
    else Ok (-1) s.
Proof.
  intros [Hh Hc Hp Hlen Hw Hl Hs] Ht Hf. assert (held_ok L_wait (take_lock L_wait s)) as Hheld by by apply held_take.
  assert (wait_scan plist p addr false (take_lock L_wait s) = Ok (inr (bool_decide (Exists (child_of p) (procs s)))) (take_lock L_wait s)) as E.
  { unfold plist. rewrite (wait_scan_eq p addr _ (procs s) 0 NPROC false Hheld eq_refl Hlen); [by rewrite Hf|]. intros i Hi. by apply take_lock_other, Hl. }
  unfold wait_rounds at 1. cbn [loopM]. rewrite bind_assoc, (bind_ok _ _ _ _ _ E).
  destruct (bool_decide (Exists (child_of p) (procs s))); cbn [negb orb andb].
  - rewrite bind_assoc. assert (killed p (take_lock L_wait s) = Ok (p_killed pr) (take_lock L_wait s)) as Ek.
    { rewrite killed_eq; [|by eapply held_hart_ok|]; [rewrite (touch_held _ _ Hheld); change (procs (take_lock L_wait s)) with (procs s); by rewrite Hp|].
      apply take_lock_other; [done|]. apply Hl. rewrite <- Hlen. by eapply lookup_lt_Some. }
    rewrite (bind_ok _ _ _ _ _ Ek). destruct (Z.eqb_spec (p_killed pr) 0); cbn [negb].
    + etransitivity; [apply bind_then|]. reflexivity.
    + rewrite bind_assoc, (bind_ok _ _ _ _ _ (release_take _ s Hh Hw)), bind_ret, Ht. reflexivity.
  - rewrite bind_assoc, bind_ret. rewrite bind_assoc, (bind_ok _ _ _ _ _ (release_take _ s Hh Hw)), bind_ret, Ht. reflexivity.
Qed.

(** A round of [wait] that finds one. *)
Lemma wait_reaps p pr T U l n addr s i q T' U' :
  waiter p pr T U l s -> touch s = s -> list_find (zombie_child p) (procs s) = Some (i, q) ->
  pspace q T' U' l s -> (forall x, own q T' U' x -> ~ own pr T U x) -> 0 <= addr < 2 ^ 64 ->
  exists r s', wait_rounds (S n) p addr (take_lock L_wait s) = Ok r s' /\ reaped pr T U l i q T' U' addr s r s'.
Proof.
  intros [Hh Hc Hp Hlen Hw Hl Hs] Ht Hf Hq Hd Ha. assert (held_ok L_wait (take_lock L_wait s)) as Hheld by by apply held_take.
  pose proof Hf as (Ei & _ & _)%list_find_Some.
  assert (lock_free (L_proc i) s) as Hli by (apply Hl; rewrite <- Hlen; by eapply lookup_lt_Some).
  destruct (reap_spec p i pr q T T' U U' l addr s Hh Ht Hp Ei Hw Hli Hs Hq Hd Ha) as (r & s' & E & Hr). exists r, s'. split; [|done].
  unfold wait_rounds. cbn [loopM]. rewrite bind_assoc, (bind_ok _ _ _ (inl r) s'); [by rewrite bind_ret|].
  unfold plist. rewrite (wait_scan_eq p addr _ (procs s) 0 NPROC false Hheld eq_refl Hlen); [by rewrite Hf|].
  intros j Hj. by apply take_lock_other, Hl.
Qed.

(** C10: [wait] reaps the first child in the table that has exited: it stores the exit status at [addr] unless that is 0, returns the
    child's pid, clears the slot and puts the child's user pages, page table and trapframe back on the free list; the caller's memory
    is otherwise unchanged.  If one of the four bytes at [addr] is not the caller's memory it returns -1 and the child stays a zombie
    with all its pages.  Without a zombie, a process that has no child or has been killed gets -1, with nothing changed, and
    any other goes to sleep holding the wait lock, and scans the table again when it is woken. *)
Theorem wait_correct p pr T U l addr n s :
  waiter p pr T U l s -> 0 <= addr < 2 ^ 64 -> wakeups = S n ->
  match list_find (zombie_child p) (procs s) with
  | Some (i, q) => forall T' U', pspace q T' U' l s -> (forall x, own q T' U' x -> ~ own pr T U x) ->
      exists r s', wait addr s = Ok r s' /\ reaped pr T U l i q T' U' addr (touch s) r s'
  | None => wait addr s =
      if bool_decide (Exists (child_of p) (procs s)) && (p_killed pr =? 0)
      then (sleep (Ch_proc p) L_wait;; wait_rounds n p addr)%M (take_lock L_wait (touch s))
      else Ok (-1) (touch s)
  end.
Proof.
  intros Hw Ha En. pose proof (waiter_touch _ _ _ _ _ _ Hw) as Hwt.
  assert (touch (touch s) = touch s) as Ht by apply touch_touch.
  assert (wait addr s = wait_rounds (S n) p addr (take_lock L_wait (touch s))) as ->.
  { rewrite wait_rounds_eq, (bind_ok _ _ _ _ _ (curproc_eq s p (wt_hart _ _ _ _ _ _ Hw) (wt_cur _ _ _ _ _ _ Hw))), En.
    by rewrite (bind_ok _ _ _ _ _ (acquire_eq L_wait (touch s) (wt_hart _ _ _ _ _ _ Hwt) (wt_lock _ _ _ _ _ _ Hwt))). }
  destruct (list_find (zombie_child p) (procs s)) as [[i q]|] eqn:Hf.
  - intros T' U' Hq Hd. eapply wait_reaps; try done. by apply pspace_touch.
  - by apply (wait_idle p pr T U l n addr (touch s)).
Qed.


End wait.
