(* ===== verification/ProcExamples.v ===== *)
(** * A process forks, and waits for a child

    Process 1, with the address space of [VmExamples] and an open file, and its child in slot 2, which has exited. *)

From S2P Require Import Prelude Riscv Memory Bytes State Spinlock Sched SchedSpec Kalloc Vm PageTable VmSpec Uvm.
From S2P Require Import UserCopy UvmFork VmExamples Sleeplock Uart Printf Console Bio Log Fs Pipe File Proc ProcSpec ForkSpec UserProc WaitSpec.

#[local] Existing Instance demo_image.
#[local] Existing Instance back_at_once.
#[local] Instance few_wakeups : patience := 10%nat.

(** ** Their address spaces *)

(** [U] with the trampoline and the trapframe. *)
Definition with_high (tf : Z) (U : gmap Z (Z * Z)) : gmap Z (Z * Z) :=
  <[TRAPFRAME := (tf, frame_flags)]> (<[TRAMPOLINE := (trampoline, tramp_flags)]> U).

Lemma map_both root tf T U l s :
  uspace root T U l s -> U !! TRAMPOLINE = None -> U !! TRAPFRAME = None -> pa_ok tf -> (4 < length l)%nat ->
  exists T' l' s', uspace root T' (with_high tf U) l' s' /\ samep (fun x => x ∈ l \/ x ∈ tpages T) (mem s) (mem s') /\
    (forall x, x ∈ l \/ x ∈ tpages T <-> x ∈ l' \/ x ∈ tpages T') /\ (length l <= length l' + 4)%nat.
Proof.
  intros Hu H1 H2 Htf Hl. destruct va_ok_high as (V1 & V2 & V3 & V4).
  destruct (map_high demo_image_ok root TRAMPOLINE trampoline (Z.lor PTE_R PTE_X) T U l s V1 V3 ltac:(done) ltac:(done) H1 Hu)
    as (T1 & l1 & s1 & _ & Hs1 & Ho1 & [(_ & _ & ?)|(_ & Hu1 & Hl1)]); [lia|].
  destruct (map_high demo_image_ok root TRAPFRAME tf (Z.lor PTE_R PTE_W) T1 _ l1 s1 V2 ltac:(lia) Htf ltac:(done)
    (eq_trans (lookup_insert_ne _ _ _ _ (not_eq_sym V4)) H2) Hu1) as (T2 & l2 & s2 & _ & Hs2 & Ho2 & [(_ & _ & ?)|(_ & Hu2 & Hl2)]); [lia|].
  exists T2, l2, s2. split; [exact Hu2|]. split; [|split; [intros x; by rewrite Ho1|lia]].
  eapply samep_trans; [exact Hs1|exact Hs2|done|]. intros y. apply Ho1.
Qed.

Definition par : proc :=
  with_p_ofile (<[1%nat := Some 3%nat]> (replicate NOFILE None)) (with_p_cwd (Some 0%nat) (with_p_sz 4096
    (with_p_pagetable (pg 0) (with_p_trapframe (pg 20) (with_p_pid 7 (with_p_state RUNNING proc0)))))).
Definition kid : proc :=
  with_p_xstate 5 (with_p_parent (Some 1%nat) (with_p_pagetable (pg 5) (with_p_trapframe (pg 21)
    (with_p_pid 8 (with_p_state ZOMBIE proc0))))).

Lemma with_high_upage tf U x : upage (with_high tf U) x <-> upage U x.
Proof. unfold with_high. destruct va_ok_high as (_ & _ & ? & _). rewrite upage_high by lia. by apply upage_high. Qed.

Lemma with_high_pspace pr T U l s :
  uspace (p_pagetable pr) T (with_high (p_trapframe pr) U) l s -> (forall va e, U !! va = Some e -> va < TRAPFRAME) ->
  sized U (PGROUNDUP (p_sz pr)) -> 0 <= p_sz pr <= TRAPFRAME -> page_ok (p_trapframe pr) -> p_trapframe pr ∉ l ->
  p_trapframe pr ∉ tpages T -> ~ upage U (p_trapframe pr) -> pspace pr T (with_high (p_trapframe pr) U) l s.
Proof.
  intros Hu HU Hsz Hs Hok Hl HT Hup. destruct va_ok_high as (_ & _ & V3 & V4). split; [done|..].
  - unfold with_high. rewrite lookup_insert_ne by done. apply lookup_insert_eq.
  - apply lookup_insert_eq.
  - unfold with_high. intros va e [[<- _]|[_ [[<- _]|[_ E]]%lookup_insert_Some]]%lookup_insert_Some; [tauto..|]. left. by eapply HU.
  - intros va Hva Ha. rewrite <- (Hsz va Hva Ha). unfold with_high. by rewrite !lookup_insert_ne by lia.
  - done.
  - split; [done|]. unfold owned. rewrite with_high_upage. tauto.
Qed.

Lemma demo_U_low va e : demo_U !! va = Some e -> va < TRAPFRAME.
Proof. unfold demo_U. by intros [<- _]%lookup_singleton_Some. Qed.

Definition par_U : gmap Z (Z * Z) := with_high (pg 20) demo_U.
Definition kid_U : gmap Z (Z * Z) := with_high (pg 21) ∅.

(** Memory with the parent's space. *)
Lemma par_space : exists T l s, pspace par T par_U l s /\ (26 <= length l)%nat /\
  (forall x, x ∈ l \/ x ∈ tpages T <-> x ∈ demo_free \/ x ∈ tpages demo_T) /\
  samep (fun x => x ∈ demo_free \/ x ∈ tpages demo_T) demo_mem (mem s).
Proof.
  destruct (map_both (pg 0) (pg 20) demo_T demo_U demo_free demo demo_uspace) as (T & l & s & Hu & Hs & Ho & Hl); [done|done|by apply pg_pa|vm_compute; lia|].
  assert (~ (pg 20 ∈ demo_free \/ pg 20 ∈ tpages demo_T)) as Hn.
  { intros [Hx|[E|[E|E]]%demo_T_pages]; [by apply demo_not_free in Hx|by apply pg_neq in E..]. }
  exists T, l, s. split; [|split; [change (length demo_free) with 30%nat in Hl; lia|split; [|done]; intros x; by rewrite Ho]].
  apply (with_high_pspace par); [done|exact demo_U_low|exact demo_sized|done|by apply pg_ok|intros Hx; apply Hn, Ho; tauto..|].
  unfold demo_U. intros (va & fl & _ & [_ [= E _]]%lookup_singleton_Some).
Qed.

(** ** The machine *)

Definition family_locks : gmap lockref spinlock :=
  <[L_kmem := free_lock]> (<[L_pid := free_lock]> (<[L_wait := free_lock]> (<[L_ftable := free_lock]> (<[L_itable := free_lock]>
    (add_proc_locks plist ∅))))).
Definition family (ps : list proc) (t : kst) : kst :=
  with_mem (mem t) (with_freelist (freelist t) (with_nextpid 9 (with_procs ps
    (with_files (<[3%nat := with_f_ref 1 file0]> (files kst0)) (with_locks family_locks
      (with_cpus (<[0%nat := Cpu (Some 1%nat) context0 0 1]> (cpus kst0)) kst0)))))).

Lemma family_hart ps t : hart_ok (family ps t).
Proof. eexists. split; [reflexivity|]. cbn. lia. Qed.

Lemma family_free k ps t :
  k = L_kmem \/ k = L_pid \/ k = L_wait \/ k = L_ftable \/ k = L_itable \/ (exists i, (i < NPROC)%nat /\ k = L_proc i) ->
  lock_free k (family ps t).
Proof.
  intros Hk. assert (exists n, family_locks !! k = Some (Spinlock 0 n None)) as [n E]; [|by exists n]. unfold family_locks.
  destruct Hk as [->|[->|[->|[->|[->|(i & Hi & ->)]]]]]; [by eexists..|].
  eexists. rewrite !lookup_insert_ne by done. apply add_proc_locks_lookup. apply elem_of_seq. lia.
Qed.

Lemma family_pspace ps t pr T U l : pspace pr T U l t -> pspace pr T U l (family ps t).
Proof.
  intros [Hu H1 H2 H3 H4 H5 H6]. split; try done. eapply uspace_moved; [exact Hu|done|done|].
  split; [apply family_hart|]. apply family_free. by left.
Qed.

(** ** fork *)

Definition fork_procs : list proc := <[1%nat := par]> (<[0%nat := with_p_state SLEEPING proc0]> (replicate NPROC proc0)).

Lemma fork_slots i o : fork_procs !! i = Some o -> p_state o = UNUSED ->
  p_pagetable o = 0 /\ p_sz o = 0 /\ p_ofile o = replicate NOFILE None.
Proof.
  unfold fork_procs. intros [(_ & <- & _)|[_ [(_ & <- & _)|[_ [-> _]%lookup_replicate]]%list_lookup_insert_Some]]%list_lookup_insert_Some; done.
Qed.

Lemma fork_correct_witness : exists t s', fork (family fork_procs t) = Ok 9 s' /\
  exists ch, procs s' !! 2%nat = Some ch /\ p_state ch = RUNNABLE /\ p_parent ch = Some 1%nat /\ p_pid ch = 9 /\
    p_ofile ch !! 1%nat = Some (Some 3%nat) /\ f_ref (default file0 (files s' !! 3%nat)) = 2.
Proof.
  destruct par_space as (T & l & t & Hp & Hl & _). exists t.
  destruct (fork_correct demo_image_ok ltac:(done) 1 0 par T par_U l (family fork_procs t)) as (r & s' & E & _ & _ & _ & HD).
  - split; [apply family_hart|done|done|done|done| |by apply family_pspace|exact fork_slots|done| |done].
    + intros k Hk. apply family_free. by right.
    + intros fd f Hf. assert (f = 3%nat) as ->; [|by eexists].
      unfold par in Hf. cbn [p_ofile with_p_ofile] in Hf. apply list_lookup_insert_Some in Hf as [(_ & [= <-] & _)|[_ [? _]%lookup_replicate]]; done.
  - destruct HD as [(_ & Hlen & _)|(-> & tf & pt & T' & U' & l' & HT & _)].
    { change (copy_pages (p_sz par)) with 1%nat in Hlen. lia. }
    exists s'. split; [exact E|]. clear E. injection HT as -> _ -> _. eexists. split; [reflexivity|]. vm_compute. repeat split.
Defined.

(** ** wait *)

Lemma sized_empty : sized ∅ (PGROUNDUP 0).
Proof. apply sized_none_all. intros va e E. by rewrite lookup_empty in E. Qed.

(** The child's empty page table at [pg 5], after the parent's space was made. *)
Lemma kid_table T l s :
  vm_ok l s -> (forall x, x ∈ l \/ x ∈ tpages T <-> x ∈ demo_free \/ x ∈ tpages demo_T) ->
  samep (fun x => x ∈ demo_free \/ x ∈ tpages demo_T) demo_mem (mem s) -> uspace (pg 5) child_T ∅ l s.
Proof.
  intros Hv Ho Hs. assert (~ (pg 5 ∈ demo_free \/ pg 5 ∈ tpages demo_T)) as Hn.
  { intros [Hx|[E|[E|E]]%demo_T_pages]; [by apply demo_not_free in Hx|by apply pg_neq in E..]. }
  split; [|done| |by intros va pa fl _ E; rewrite lookup_empty in E|by intros va vb pa fl fl' _ _ E; rewrite lookup_empty in E].
  - eapply pt_frame_samep; [exact (us_rep _ _ _ _ _ child_uspace)|exact Hs|]. by intros t ->%child_T_pages.
  - intros t ->%child_T_pages Hin. apply Hn, Ho. by left.
Qed.

Lemma both_spaces : exists T T' l s, pspace par T par_U l s /\ pspace kid T' kid_U l s /\
  (forall x, own kid T' kid_U x -> ~ own par T par_U x).
Proof.
  destruct par_space as (T & l & s & Hp & Hl & Ho & Hs). pose proof (sp_space _ _ _ _ _ Hp) as Hu.
  destruct (map_both (pg 5) (pg 21) child_T ∅ l s) as (T' & l' & s' & Hu' & Hs' & Ho' & Hl');
    [by eapply kid_table; [apply Hu|..]|apply lookup_empty|apply lookup_empty|by apply pg_pa|lia|].
  assert (forall k, 3 <= k < 40 -> ~ (pg k ∈ l \/ pg k ∈ tpages T)) as Hn.
  { intros k Hk [Hx|[E|[E|E]]%demo_T_pages]%Ho; [by apply demo_not_free in Hx; lia|apply pg_neq in E; lia..]. }
  assert (forall x, x ∈ l' \/ x ∈ tpages T' -> ~ own par T par_U x) as Hd.
  { intros x [Hx| ->%child_T_pages]%Ho'; [by eapply own_busy|]. intros [[?%elem_of_nil|[HT|HU]]|E]; [done| | |by apply pg_neq in E].
    - apply (Hn 5 ltac:(lia)). by right.
    - unfold par_U in HU. rewrite with_high_upage in HU. unfold demo_U in HU.
      destruct HU as (va & fl & _ & [_ [= E _]]%lookup_singleton_Some). }
  exists T, T', l', s'. split; [|split].
  - eapply pspace_samep; [exact Hp|exact Hs'| |apply Hu'|by intros x Hx; apply Hd; left].
    intros x Hx Hin. apply (Hd x); [by apply Ho'|by apply own_table].
  - apply (with_high_pspace kid); [exact Hu'|by intros va e E; rewrite lookup_empty in E|exact sized_empty|done|by apply pg_ok| | |].
    + intros Hx. destruct (proj2 (Ho' (pg 21)) ltac:(by left)) as [Hy|E%child_T_pages]; [|by apply pg_neq in E]. apply (Hn 21 ltac:(lia)). by left.
    + intros Hx. destruct (proj2 (Ho' (pg 21)) ltac:(by right)) as [Hy|E%child_T_pages]; [|by apply pg_neq in E]. apply (Hn 21 ltac:(lia)). by left.
    + intros (va & fl & _ & E). by rewrite lookup_empty in E.
  - intros x [[?%elem_of_nil|[HT|HU]]| ->]; [done|apply Hd; by right| |].
    + unfold kid_U in HU. rewrite with_high_upage in HU. destruct HU as (va & fl & _ & E). by rewrite lookup_empty in E.
    + change (p_trapframe kid) with (pg 21). intros [[?%elem_of_nil|[HT|HU]]|E]; [done| | |by apply pg_neq in E].
      * apply (Hn 21 ltac:(lia)). by right.
      * unfold par_U in HU. rewrite with_high_upage in HU. unfold demo_U in HU.
        destruct HU as (va & fl & _ & [_ [= E _]]%lookup_singleton_Some).
Qed.

Definition wait_procs : list proc := <[1%nat := par]> (<[2%nat := kid]> (replicate NPROC proc0)).

Lemma par_accessible k : 0 <= k < 4 -> accessible par_U (16 + k).
Proof.
  intros Hk. unfold accessible, user_pa. replace (PGROUNDDOWN (16 + k)) with 0; [done|].
  rewrite PGROUNDDOWN_spec, Z.mod_small; [lia|unfold PGSIZE; lia].
Qed.

Lemma wait_correct_witness : exists t s', wait 16 (family wait_procs t) = Ok 8 s' /\
  procs s' !! 2%nat = Some (cleared kid) /\ vbytes (mem s') par_U 16 4 = [5; 0; 0; 0].
Proof.
  destruct both_spaces as (T & T' & l & t & Hp & Hq & Hd). exists t.
  pose proof (wait_correct demo_image_ok 1 par T par_U l 16 9 (family wait_procs t)) as HW.
  destruct HW with (T' := T') (U' := kid_U) as (r & s' & E & _ & _ & HD).
  - split; [apply family_hart|done|done|done| |intros i Hi|by apply family_pspace]; apply family_free; [tauto|]. do 5 right. by exists i.
  - done.
  - done.
  - by apply family_pspace.
  - done.
  - destruct HD as [(_ & _ & (k & Hk & Ha) & _)|(-> & Hb & HT & _)]; [by destruct Ha; apply par_accessible|].
    exists s'. split; [exact E|]. clear E. split; [|by apply Hb]. injection HT as -> _ _ _. reflexivity.
Defined.
