(* ===== verification/PipeSpec.v ===== *)
(** * A pipe is a bounded queue of bytes

    The ring buffer of kernel/pipe.c with its two wrapping 32-bit counters refines a
    first-in first-out queue of at most [PIPESIZE] bytes, and [pipewrite] and [piperead]
    append to it from, and remove from it to, the memory of the calling process. *)

From S2P Require Import Prelude Riscv Memory State Spinlock Sched SchedSpec Sleeplock SleepSpec.
From S2P Require Import Kalloc Vm PageTable VmSpec UserCopy UserProc Pipe.

(** ** The ring *)

(** The bytes in the pipe. *)
Definition used (p : pipe) : nat := Z.to_nat (u32 (pi_nwrite p - pi_nread p)).
Definition slot_at (p : pipe) (k : Z) : Z :=
  default 0 (pi_data p !! Z.to_nat ((pi_nread p + k) mod PIPESIZE)).
Definition contents (p : pipe) : list Z := (fun k => slot_at p (Z.of_nat k)) <$> seq 0 (used p).

Record pipe_ok (p : pipe) : Prop := {
  pipe_len : length (pi_data p) = Z.to_nat PIPESIZE;
  pipe_nread : 0 <= pi_nread p < 2 ^ 32;
  pipe_nwrite : 0 <= pi_nwrite p < 2 ^ 32;
  pipe_used : Z.of_nat (used p) <= PIPESIZE
}.

Lemma length_contents p : length (contents p) = used p.
Proof. unfold contents. by rewrite length_fmap, length_seq. Qed.

Lemma new_pipe_ok : pipe_ok new_pipe /\ contents new_pipe = [].
Proof. split; [split; vm_compute; (done || intuition congruence)|reflexivity]. Qed.

Lemma pipe_full_spec p : pipe_ok p -> pipe_full p = bool_decide (used p = Z.to_nat PIPESIZE).
Proof.
  intros []. unfold pipe_full, used, u32, PIPESIZE in *. apply Bool.eq_true_iff_eq.
  rewrite bool_decide_eq_true, Z.eqb_eq. Z.to_euclidean_division_equations. lia.
Qed.

Lemma pipe_empty_spec p : pipe_ok p -> pipe_empty p = bool_decide (used p = 0%nat).
Proof.
  intros []. unfold pipe_empty, used, u32, PIPESIZE in *. apply Bool.eq_true_iff_eq.
  rewrite bool_decide_eq_true, Z.eqb_eq. Z.to_euclidean_division_equations. lia.
Qed.

Lemma used_put p ch : pipe_ok p -> pipe_full p = false -> used (pipe_put ch p) = S (used p).
Proof.
  intros Hp. rewrite pipe_full_spec by done. rewrite bool_decide_eq_false. destruct Hp.
  unfold used, pipe_put, u32, PIPESIZE in *. cbn. Z.to_euclidean_division_equations. lia.
Qed.

Lemma used_get p : pipe_ok p -> pipe_empty p = false -> used p = S (used (pipe_get p)).
Proof.
  intros Hp. rewrite pipe_empty_spec by done. rewrite bool_decide_eq_false. destruct Hp.
  unfold used, pipe_get, u32, PIPESIZE in *. cbn. Z.to_euclidean_division_equations. lia.
Qed.

(** The slot after the last used one is the one [pipewrite] fills. *)
Lemma next_slot p : pipe_ok p -> pi_nwrite p mod PIPESIZE = (pi_nread p + Z.of_nat (used p)) mod PIPESIZE.
Proof. intros []. unfold used, u32, PIPESIZE in *. Z.to_euclidean_division_equations. lia. Qed.

Lemma slot_put p ch k :
  pipe_ok p -> pipe_full p = false -> (k <= used p)%nat ->
  slot_at (pipe_put ch p) (Z.of_nat k) = if decide (k = used p) then ch else slot_at p (Z.of_nat k).
Proof.
  intros Hp Hf Hk. rewrite pipe_full_spec in Hf by done. rewrite bool_decide_eq_false in Hf.
  unfold slot_at, pipe_put. cbn. rewrite (next_slot p Hp). destruct Hp.
  destruct (decide _) as [->|Hne].
  - rewrite list_lookup_insert_eq; [done|]. rewrite pipe_len0. unfold PIPESIZE in *.
    Z.to_euclidean_division_equations. lia.
  - rewrite list_lookup_insert_ne; [done|]. unfold PIPESIZE in *. Z.to_euclidean_division_equations. lia.
Qed.

Lemma put_spec p ch :
  pipe_ok p -> pipe_full p = false ->
  pipe_ok (pipe_put ch p) /\ contents (pipe_put ch p) = contents p ++ [ch].
Proof.
  intros Hp Hf. pose proof (used_put p ch Hp Hf) as Hu. split.
  - pose proof Hf as Hf'. rewrite pipe_full_spec in Hf' by done. rewrite bool_decide_eq_false in Hf'.
    destruct Hp. split; [cbn; by rewrite length_insert|done|apply u32_range|rewrite Hu; unfold PIPESIZE in *; lia].
  - unfold contents. rewrite Hu, seq_S, fmap_app. f_equal.
    + apply list_fmap_ext. intros i k Hk. apply lookup_seq in Hk as [-> Hk]. cbn [Nat.add].
      rewrite slot_put by (done || lia). by rewrite decide_False by lia.
    + cbn [fmap list_fmap]. rewrite slot_put by (done || lia). by rewrite decide_True by lia.
Qed.

Lemma slot_get p k : slot_at (pipe_get p) k = slot_at p (k + 1).
Proof.
  unfold slot_at, pipe_get. cbn. replace ((u32 (pi_nread p + 1) + k) mod PIPESIZE)
    with ((pi_nread p + (k + 1)) mod PIPESIZE); [done|].
  unfold u32, PIPESIZE. Z.to_euclidean_division_equations. lia.
Qed.

Lemma get_spec p :
  pipe_ok p -> pipe_empty p = false ->
  pipe_ok (pipe_get p) /\ contents p = pipe_head p :: contents (pipe_get p).
Proof.
  intros Hp He. pose proof (used_get p Hp He) as Hu. split.
  - destruct Hp. split; [done|apply u32_range|done|lia].
  - unfold contents. rewrite Hu. cbn [seq fmap list_fmap]. f_equal.
    + unfold slot_at, pipe_head. by rewrite Z.add_0_r.
    + rewrite <- fmap_S_seq, <- list_fmap_compose. apply list_fmap_ext. intros i k _. cbn.
      rewrite slot_get. f_equal. lia.
Qed.

(** ** One byte to or from user memory *)

Section pipe.
Context `{image} `{environment} `{patience}.
Hypothesis Himg : image_ok.

Lemma copyin_byte root T U va s :
  pt_rep (mem s) root T U -> 0 <= va < 2 ^ 64 ->
  copyin root va 1 s = Ok (if decide (accessible U va) then (0, [vread (mem s) U va]) else (-1, [])) s.
Proof.
  intros R Hva. destruct (copyin_loop_spec Himg (2 + Z.to_nat (1 / PGSIZE)) root T U [] va 1 s R Hva)
    as (k & Hk & E & Ha & Hn); [lia|apply copy_fuel_ok; lia|].
  etransitivity; [exact E|]. destruct k as [|k].
  - specialize (Hn ltac:(lia)). rewrite Z.add_0_r in Hn. by rewrite decide_False.
  - assert (k = 0%nat) as -> by lia. specialize (Ha 0 ltac:(lia)). rewrite Z.add_0_r in Ha.
    by rewrite decide_True.
Qed.

Lemma copyout_byte pr T U va ch s :
  umem pr T U (mem s) -> 0 <= va < 2 ^ 64 ->
  if decide (accessible U va)
  then exists m', copyout (p_pagetable pr) va [ch] 1 s = Ok 0 (with_mem m' s) /\
         stored U va [ch] 1 (mem s) m' /\ umem pr T U m'
  else copyout (p_pagetable pr) va [ch] 1 s = Ok (-1) s.
Proof.
  intros Hu Hva. destruct (decide (accessible U va)) as [Ha|Ha].
  - destruct (copyout_spec Himg pr T U va [ch] 1 s Hu Hva) as (k & m' & Hk & E & Hs & Hu' & _ & Hn);
      [lia|simpl; lia|].
    destruct k as [|k]; [specialize (Hn ltac:(lia)); by rewrite Z.add_0_r in Hn|].
    assert (k = 0%nat) as -> by lia. by exists m'.
  - destruct Hu as [R _ _ _ _ _].
    etransitivity; [apply (copyout_step Himg (2 + Z.to_nat (1 / PGSIZE)) _ T U); (done || lia)|].
    by rewrite decide_False.
Qed.

(** ** A process at a pipe *)

Record at_pipe (p : nat) (pr : proc) (pi : Z) (s : kst) : Prop := {
  ap_idle : no_lock s;
  ap_cur : cur s = Some p;
  ap_proc : procs s !! p = Some pr;
  ap_len : length (procs s) = NPROC;
  ap_free : lock_free (L_pipe pi) s;
  ap_procs : forall i, (i < NPROC)%nat -> lock_free (L_proc i) s
}.

Definition pi_upd (pi : Z) (q : pipe) (s : kst) : kst := with_pipes (<[pi := q]> (pipes s)) s.

Lemma pi_upd_framed pi q : framed (pi_upd pi q).
Proof. unfold pi_upd. solve_framed. Qed.

Lemma pi_upd_upd pi a b s : pi_upd pi a (pi_upd pi b s) = pi_upd pi a s.
Proof. unfold pi_upd. kst_cbv. by rewrite insert_insert_eq. Qed.

(** Inside the critical section. *)
Definition inside (pi : Z) (q : pipe) (s : kst) : kst := take_lock (L_pipe pi) (pi_upd pi q s).

Lemma inside_held p pr pi q s : at_pipe p pr pi s -> held_ok (L_pipe pi) (inside pi q s).
Proof. intros []. apply held_take. apply framed_hart; [apply pi_upd_framed|]. by apply no_lock_hart. Qed.

Lemma inside_piget {B} pi q s (k : pipe -> K B) : bind (piget pi) k (inside pi q s) = k q (inside pi q s).
Proof. unfold piget. rewrite bind_gets. unfold inside, pi_upd. cbn. by rewrite lookup_insert_eq. Qed.

Lemma inside_piset {B} pi f q s (k : unit -> K B) :
  bind (piset pi f) k (inside pi q s) = k tt (inside pi (f q) s).
Proof.
  unfold piset. rewrite bind_modify. change (pipes (inside pi q s)) with (<[pi:=q]> (pipes s)).
  rewrite lookup_insert_eq, insert_insert_eq. reflexivity.
Qed.

Lemma inside_killed {B} p pr pi q s (k : Z -> K B) :
  at_pipe p pr pi s -> bind (killed p) k (inside pi q s) = k (p_killed pr) (inside pi q s).
Proof.
  intros Ha. pose proof (inside_held p pr pi q s Ha) as Hh. destruct Ha.
  rewrite (bind_ok _ _ _ (p_killed pr) (inside pi q s)); [done|].
  rewrite killed_eq; [|by eapply held_hart_ok|].
  - rewrite (touch_held _ _ Hh). change (procs (inside pi q s)) with (procs s). by rewrite ap_proc0.
  - apply take_lock_other; [done|]. apply framed_free; [apply pi_upd_framed|]. apply ap_procs0.
    rewrite <- ap_len0. by eapply lookup_lt_Some.
Qed.

Lemma inside_wakeup p pr pi ch q s :
  at_pipe p pr pi s -> wakeup ch (inside pi q s) = Ok tt (with_procs (wake ch (Some p) (procs s)) (inside pi q s)).
Proof.
  intros Ha. pose proof (inside_held p pr pi q s Ha) as Hh. destruct Ha. rewrite wakeup_eq.
  - unfold woken. rewrite (touch_held _ _ Hh). unfold inside at 1.
    by rewrite cur_take, cur_framed, ap_cur0 by apply pi_upd_framed.
  - by eapply held_hart_ok.
  - exact ap_len0.
  - intros i Hi _. apply take_lock_other; [done|]. apply framed_free; [apply pi_upd_framed|]. by apply ap_procs0.
Qed.

(** The end of [pipewrite] and [piperead]. *)
Definition left_pipe (p : nat) (ch : chan) (pi : Z) (q : pipe) (s : kst) : kst :=
  with_procs (wake ch (Some p) (procs s)) (pi_upd pi q (touch s)).

Lemma leave_eq {B} p pr pi ch q s (v : B) :
  at_pipe p pr pi s ->
  (wakeup ch;; release (L_pipe pi);; ret v)%M (inside pi q s) = Ok v (left_pipe p ch pi q s).
Proof.
  intros Ha. rewrite (bind_ok _ _ _ _ _ (inside_wakeup p pr pi ch q s Ha)). destruct Ha.
  set (f := fun s0 => with_procs (wake ch (Some p) (procs s)) (pi_upd pi q s0)).
  assert (framed f) as Hf by (intros r c lk s0; reflexivity).
  rewrite (bind_ok _ _ _ tt (f (touch s))); [done|]. unfold inside.
  rewrite <- (framed_take (pi_upd pi q)) by apply pi_upd_framed. apply (release_framed f); [done|by apply no_lock_hart|done].
Qed.

(** ** Writing *)

(** One round of the loop when the reader is there, the process is not killed and there is room. *)
Lemma write_round p pr pi T U addr n i q s :
  at_pipe p pr pi s -> p_killed pr = 0 -> pt_rep (mem s) (p_pagetable pr) T U ->
  pi_readopen q <> 0 -> pipe_full q = false -> 0 <= addr -> addr + n <= 2 ^ 64 -> 0 <= i < n ->
  pipewrite_round p pi addr n i (inside pi q s) =
    if decide (accessible U (addr + i))
    then Ok (inl (i + 1)) (inside pi (pipe_put (vread (mem s) U (addr + i)) q) s)
    else Ok (inr (Some i)) (inside pi q s).
Proof.
  intros Ha Hk R Hro Hf H0a Han Hi. unfold pipewrite_round.
  rewrite (proj2 (Z.ltb_lt i n)) by lia. cbn [negb]. rewrite inside_piget.
  destruct (Z.eqb_spec (pi_readopen q) 0) as [|_]; [done|].
  rewrite bind_assoc, (inside_killed p pr) by done. rewrite Hk. cbn [Z.eqb negb]. rewrite bind_ret, inside_piget, Hf.
  unfold pget. rewrite bind_gets. change (procs (inside pi q s)) with (procs s). rewrite (ap_proc _ _ _ _ Ha).
  cbn [default from_option id]. rewrite u64_small by lia.
  rewrite (bind_ok _ _ _ _ _ (copyin_byte (p_pagetable pr) T U (addr + i) (inside pi q s) R ltac:(lia))).
  destruct (decide _); [|done]. cbn [fst snd Z.eqb Pos.eqb hd]. by rewrite inside_piset.
Qed.

(** The loop appends the accessible bytes. *)
Lemma write_loop p pr pi T U addr n s fuel : forall i q,
  at_pipe p pr pi s -> p_killed pr = 0 -> pt_rep (mem s) (p_pagetable pr) T U ->
  pi_readopen q <> 0 -> pipe_ok q -> 0 <= addr -> addr + n <= 2 ^ 64 -> 0 <= i <= n ->
  Z.of_nat (used q) + (n - i) <= PIPESIZE -> n - i < Z.of_nat fuel ->
  exists (k : nat) q', i + Z.of_nat k <= n /\
    loopM fuel (pipewrite_round p pi addr n) i (inside pi q s) =
      Ok (Some (i + Z.of_nat k)) (inside pi q' s) /\
    pipe_ok q' /\ contents q' = contents q ++ vbytes (mem s) U (addr + i) k /\
    pi_readopen q' = pi_readopen q /\ pi_writeopen q' = pi_writeopen q /\
    (forall j, 0 <= j < Z.of_nat k -> accessible U (addr + i + j)) /\
    (i + Z.of_nat k < n -> ~ accessible U (addr + i + Z.of_nat k)).
Proof.
  induction fuel as [|fuel IH]; intros i q Ha Hk R Hro Hq H0a Han Hi Hroom Hfuel; [lia|]. cbn [loopM].
  destruct (decide (i = n)) as [->|Hne].
  { exists 0%nat, q. rewrite Z.add_0_r, app_nil_r. split; [lia|]. split; [|split_and!; (done || lia)].
    erewrite bind_ok by (unfold pipewrite_round; rewrite Z.ltb_irrefl; reflexivity). done. }
  assert (pipe_full q = false) as Hf.
  { rewrite pipe_full_spec by done. apply bool_decide_eq_false. unfold PIPESIZE in *. lia. }
  pose proof (write_round p pr pi T U addr n i q s Ha Hk R Hro Hf H0a Han ltac:(lia)) as E.
  destruct (decide (accessible U (addr + i))) as [Hacc|Hacc]; rewrite (bind_ok _ _ _ _ _ E).
  - destruct (put_spec q (vread (mem s) U (addr + i)) Hq Hf) as [Hq' Ec].
    destruct (IH (i + 1) (pipe_put (vread (mem s) U (addr + i)) q) Ha Hk R Hro Hq' H0a Han)
      as (k & q' & Hkn & El & Hok & Ek & Hr & Hw & Hin & Hout); [lia|rewrite used_put by done; lia|lia|].
    exists (S k), q'. rewrite El, Ek, Ec, <- app_assoc. cbn [vbytes app].
    replace (i + Z.of_nat (S k)) with (i + 1 + Z.of_nat k) by lia.
    split; [lia|]. split; [done|]. split; [done|]. split; [by rewrite Z.add_assoc|]. split; [done|]. split; [done|].
    split; [|intros Hlt; rewrite <- Z.add_assoc in *].
    + intros j Hj. destruct (decide (j = 0)) as [->|]; [by rewrite Z.add_0_r|].
      replace (addr + i + j) with (addr + (i + 1) + (j - 1)) by lia. apply Hin. lia.
    + replace (addr + (i + Z.of_nat (S k))) with (addr + (i + 1) + Z.of_nat k) by lia. by apply Hout.
  - exists 0%nat, q. rewrite !Z.add_0_r, app_nil_r. split_and!; (done || lia || reflexivity).
Qed.

(** ** Reading *)

Lemma stored_nil U va src m : stored U va src 0 m m.
Proof. split; [|done]. intros va' _ _. by rewrite decide_False by lia. Qed.

Lemma stored_cons U va ch l k m1 m2 m3 :
  stored U va [ch] 1 m1 m2 -> stored U (va + 1) l k m2 m3 -> stored U va (ch :: l) (S k) m1 m3.
Proof.
  intros [Hs Hf] H2. apply (stored_trans U va (ch :: l) 1 k m1 m2 m3); [|exact H2]. split; [|done].
  intros va' Hv Ha. rewrite Hs by done. destruct (decide _) as [Hd|]; [|done].
  by replace (Z.to_nat (va' - va)) with 0%nat by lia.
Qed.

(** What [piperead] has done after its loop: [k] bytes delivered, and one more removed from
    the pipe when the address to store it at was bad. *)
Record read_done (U : gmap Z (Z * Z)) (addr n : Z) (q q' : pipe) (m m' : memory) (k : nat) : Prop := {
  rd_len : Z.of_nat k <= n /\ (k <= used q)%nat;
  rd_ok : pipe_ok q';
  rd_stored : stored U addr (contents q) k m m';
  rd_acc : forall j, 0 <= j < Z.of_nat k -> accessible U (addr + j);
  rd_stop : Z.of_nat k < n -> (k < used q)%nat -> ~ accessible U (addr + Z.of_nat k);
  rd_left : contents q' =
    drop (k + (if decide (Z.of_nat k < n /\ (k < used q)%nat) then 1 else 0)) (contents q);
  rd_open : pi_readopen q' = pi_readopen q /\ pi_writeopen q' = pi_writeopen q
}.

Lemma read_done_nil U addr n q m : 0 <= n -> pipe_ok q -> n = 0 \/ used q = 0%nat -> read_done U addr n q q m m 0.
Proof.
  intros Hn Hq Hz. split; try (done || lia); [apply stored_nil|].
  by rewrite decide_False by lia.
Qed.

Lemma read_done_fail U addr n q m :
  0 < n -> pipe_ok q -> pipe_empty q = false -> ~ accessible U addr ->
  read_done U addr n q (pipe_get q) m m 0.
Proof.
  intros Hn Hq He Ha. destruct (get_spec q Hq He) as [Hq' Ec]. pose proof (used_get q Hq He).
  split; try (done || lia); [apply stored_nil|by rewrite Z.add_0_r|].
  rewrite decide_True by lia. by rewrite Ec.
Qed.

Lemma read_done_cons U addr n q q' m1 m2 m3 k :
  pipe_ok q -> pipe_empty q = false -> accessible U addr ->
  stored U addr [pipe_head q] 1 m1 m2 -> read_done U (addr + 1) (n - 1) (pipe_get q) q' m2 m3 k ->
  read_done U addr n q q' m1 m3 (S k).
Proof.
  intros Hq He Ha Hs [Hl Hok Hst Hacc Hstop Hleft Hop]. destruct (get_spec q Hq He) as [_ Ec].
  pose proof (used_get q Hq He) as Hu. split; try (done || lia).
  - rewrite Ec. by eapply stored_cons.
  - intros j Hj. destruct (decide (j = 0)) as [->|]; [by rewrite Z.add_0_r|].
    replace (addr + j) with (addr + 1 + (j - 1)) by lia. apply Hacc. lia.
  - intros Hk1 Hk2. replace (addr + Z.of_nat (S k)) with (addr + 1 + Z.of_nat k) by lia. apply Hstop; lia.
  - rewrite Hleft, Ec. cbn [Nat.add drop]. f_equal. f_equal.
    by destruct (decide _), (decide _); try (done || lia).
Qed.

(** The loop ends here. *)
Lemma read_stop pr T U addr n i pi q q1 s :
  umem pr T U (mem s) -> read_done U (addr + i) (n - i) q q1 (mem s) (mem s) 0 ->
  exists (k : nat) q' m',
    Ok i (inside pi q1 s) = Ok (i + Z.of_nat k) (inside pi q' (with_mem m' s)) /\
    umem pr T U m' /\ read_done U (addr + i) (n - i) q q' (mem s) m' k.
Proof.
  intros Hu Hd. exists 0%nat, q1, (mem s). rewrite Z.add_0_r.
  replace (with_mem (mem s) s) with s by by destruct s. done.
Qed.

Lemma pipe_read_loop p pr pi T U addr n fuel : forall i q s,
  at_pipe p pr pi s -> umem pr T U (mem s) -> pipe_ok q ->
  0 <= addr -> addr + n <= 2 ^ 64 -> 0 <= i <= n -> n - i <= Z.of_nat fuel ->
  exists (k : nat) q' m',
    piperead_loop fuel p pi addr n i (inside pi q s) =
      Ok (i + Z.of_nat k) (inside pi q' (with_mem m' s)) /\
    umem pr T U m' /\ read_done U (addr + i) (n - i) q q' (mem s) m' k.
Proof.
  induction fuel as [|fuel IH]; intros i q s Ha Hu Hq H0a Han Hi Hf.
  { apply (read_stop pr T); [done|]. apply read_done_nil; (done || lia). }
  cbn [piperead_loop]. destruct (Z.ltb_spec i n) as [Hlt|Hge]; cbn [negb].
  2:{ apply (read_stop pr T); [done|]. apply read_done_nil; (done || lia). }
  rewrite inside_piget. destruct (pipe_empty q) eqn:He.
  { apply (read_stop pr T); [done|]. apply read_done_nil; [lia|done|]. right.
    rewrite pipe_empty_spec in He by done. by apply bool_decide_eq_true in He. }
  rewrite inside_piset. unfold pget. rewrite bind_gets. change (procs (inside pi (pipe_get q) s)) with (procs s).
  rewrite (ap_proc _ _ _ _ Ha). cbn [default from_option id]. rewrite u64_small by lia.
  pose proof (copyout_byte pr T U (addr + i) (pipe_head q) (inside pi (pipe_get q) s) Hu ltac:(lia)) as E.
  destruct (decide (accessible U (addr + i))) as [Hacc|Hacc].
  - destruct E as (m1 & E & Hs & Hu1). rewrite (bind_ok _ _ _ _ _ E). cbn [Z.eqb].
    change (with_mem m1 (inside pi (pipe_get q) s)) with (inside pi (pipe_get q) (with_mem m1 s)).
    destruct (IH (i + 1) (pipe_get q) (with_mem m1 s)) as (k & q' & m' & El & Hu' & Hd); try (done || lia).
    { by destruct Ha. } { by apply get_spec. }
    exists (S k), q', m'. rewrite El. split; [|split; [done|]].
    + f_equal. lia.
    + eapply read_done_cons; try done. by rewrite <- Z.add_assoc, <- Z.sub_add_distr.
  - rewrite (bind_ok _ _ _ _ _ E). cbn [Z.eqb]. apply (read_stop pr T); [done|].
    apply read_done_fail; (done || lia).
Qed.

(** ** The calls *)

Lemma at_pipe_touch p pr pi s : at_pipe p pr pi s -> at_pipe p pr pi (touch s).
Proof. intros []. split; try done; [by apply touch_no_lock|by rewrite cur_touch]. Qed.

Lemma pi_upd_id pi q s : pipes s !! pi = Some q -> pi_upd pi q s = s.
Proof. intros E. unfold pi_upd. rewrite insert_id by done. by destruct s. Qed.

(** Entering either call. *)
Lemma enter_pipe {B} p pr pi q s (k : nat -> K B) :
  at_pipe p pr pi s -> pipes s !! pi = Some q ->
  (pr <- curproc;; acquire (L_pipe pi);; k pr)%M s = k p (inside pi q (touch s)).
Proof.
  intros Ha Eq. pose proof (no_lock_hart s (ap_idle _ _ _ _ Ha)) as Hh.
  rewrite (bind_ok _ _ _ _ _ (curproc_eq s p Hh (ap_cur _ _ _ _ Ha))).
  apply at_pipe_touch in Ha. rewrite (bind_ok _ _ _ tt (inside pi q (touch s))); [done|].
  unfold inside. rewrite pi_upd_id by exact Eq.
  apply acquire_eq; [by apply touch_hart_ok|]. apply Ha.
Qed.

Lemma inside_release p pr pi q s :
  at_pipe p pr pi s -> pipes s !! pi = Some q -> release (L_pipe pi) (inside pi q s) = Ok tt (touch s).
Proof.
  intros Ha Eq. unfold inside. rewrite pi_upd_id by done.
  apply release_take; [apply no_lock_hart|]; apply Ha.
Qed.

(** Going to sleep in the critical section, if nothing resumes the process. *)
Definition blocked (p : nat) (ch : chan) (pi : Z) (ps : list proc) (s h : kst) : Prop :=
  only_lock (L_proc p) h /\ lock_free (L_pipe pi) h /\ only_procs (alter (sleeping ch) p ps) s h.

Lemma sleep_gone p pr ch lk s :
  only_lock lk s -> lk <> L_proc p -> lock_free (L_proc p) s -> cur s = Some p -> procs s !! p = Some pr ->
  only_lock (L_proc p) (asleep p ch lk s) /\ lock_free lk (asleep p ch lk s) /\
  only_procs (alter (sleeping ch) p (procs s)) s (asleep p ch lk s) /\
  (env (nswtch s) (asleep p ch lk s) = None -> sleep ch lk s = Gone (asleep p ch lk s)).
Proof.
  intros Ho Hne Hf Hc Ep.
  split; [apply (framed_only (upd p _)); [apply upd_framed|by apply switch_only]|].
  split; [apply (framed_free (upd p _)); [apply upd_framed|apply switch_free]|].
  split; [reflexivity|]. rewrite (sleep_eq ch lk p pr s Ho Hne Hf Hc Ep).
  change (nswtch s) with (nswtch (asleep p ch lk s)). intros E. unfold resume. by rewrite E.
Qed.

Lemma only_procs_trans ps1 ps2 s1 s2 s3 :
  only_procs ps1 s1 s2 -> only_procs ps2 s2 s3 -> only_procs ps2 s1 s3.
Proof. unfold only_procs. intros E1 E2. rewrite E2, E1. reflexivity. Qed.

Lemma sleep_pipe p pr pi ch ps q s :
  at_pipe p pr pi s -> pipes s !! pi = Some q -> ps !! p = Some pr ->
  exists h, blocked p ch pi ps s h /\
    (env (nswtch s) h = None -> sleep ch (L_pipe pi) (with_procs ps (inside pi q s)) = Gone h).
Proof.
  intros Ha Eq Ep. unfold inside. rewrite pi_upd_id by done.
  assert (only_procs ps s (with_procs ps (take_lock (L_pipe pi) s))) as Hp by reflexivity.
  assert (nswtch (with_procs ps (take_lock (L_pipe pi) s)) = nswtch s) as <- by reflexivity.
  destruct (sleep_gone p pr ch (L_pipe pi) (with_procs ps (take_lock (L_pipe pi) s))) as (Ho & Hf & Hp' & Hg).
  - apply (framed_only (with_procs ps)); [solve_framed|]. apply take_only, Ha.
  - done.
  - apply (framed_free (with_procs ps)); [solve_framed|]. apply take_lock_other; [done|].
    destruct Ha. apply ap_procs0. rewrite <- ap_len0. by eapply lookup_lt_Some.
  - rewrite (cur_framed (with_procs ps)) by solve_framed. rewrite cur_take. apply Ha.
  - exact Ep.
  - eexists. split; [|exact Hg]. split; [exact Ho|]. split; [exact Hf|]. exact (only_procs_trans _ _ _ _ _ Hp Hp').
Qed.

(** The rounds of [pipewrite] that do not write. *)
Lemma write_dead p pr pi addr n q s fuel :
  at_pipe p pr pi s -> pipes s !! pi = Some q -> pi_readopen q = 0 \/ p_killed pr <> 0 -> 0 < n ->
  loopM (S fuel) (pipewrite_round p pi addr n) 0 (inside pi q s) = Ok None (touch s).
Proof.
  intros Ha Eq Hd Hn. apply loopM_done; [lia|]. unfold pipewrite_round.
  rewrite (proj2 (Z.ltb_lt 0 n)) by done. cbn [negb]. rewrite inside_piget.
  rewrite (bind_ok _ _ _ true (inside pi q s)).
  - by rewrite (bind_ok _ _ _ _ _ (inside_release p pr pi q s Ha Eq)).
  - destruct (Z.eqb_spec (pi_readopen q) 0); [done|]. rewrite (inside_killed p pr) by done.
    destruct (Z.eqb_spec (p_killed pr) 0); [naive_solver|done].
Qed.

Lemma write_full p pr pi addr n i q s :
  at_pipe p pr pi s -> pipes s !! pi = Some q -> p_killed pr = 0 -> pi_readopen q <> 0 ->
  pipe_full q = true -> i < n -> exists h,
  blocked p (Ch_nwrite pi) pi (wake (Ch_nread pi) (Some p) (procs s)) s h /\
  (env (nswtch s) h = None -> pipewrite_round p pi addr n i (inside pi q s) = Gone h).
Proof.
  intros Ha Eq Hk Hro Hf Hi. unfold pipewrite_round.
  rewrite (proj2 (Z.ltb_lt i n)) by lia. cbn [negb]. rewrite inside_piget.
  destruct (Z.eqb_spec (pi_readopen q) 0) as [|_]; [done|].
  rewrite bind_assoc, (inside_killed p pr) by done. rewrite Hk. cbn [Z.eqb negb]. rewrite bind_ret, inside_piget, Hf.
  rewrite (bind_ok _ _ _ _ _ (inside_wakeup p pr pi (Ch_nread pi) q s Ha)).
  destruct (sleep_pipe p pr pi (Ch_nwrite pi) (wake (Ch_nread pi) (Some p) (procs s)) q s Ha Eq) as (h & Hb & E).
  { apply wake_self, Ha. }
  exists h. split; [done|]. intros Hg. unfold bind. by rewrite (E Hg).
Qed.

(** C16: [pipewrite(pi, addr, n)] by a live process whose pipe has a reader and room for [n]
    bytes appends to the queue of bytes in the pipe the bytes of user memory from [addr] on, up to the
    first inaccessible address, wakes the readers and returns how many it wrote.  If the reader is
    gone or the process was killed it returns -1 and writes nothing.  If the pipe is full
    it wakes the readers and gives up the hart asleep on [&pi->nwrite], with the pipe's
    lock free and nothing written. *)
Theorem pipewrite_correct p pr pi q T U addr n s :
  at_pipe p pr pi s -> pipes s !! pi = Some q -> pipe_ok q -> pt_rep (mem s) (p_pagetable pr) T U ->
  0 <= addr -> addr + n <= 2 ^ 64 -> 0 < n < 2 ^ 31 ->
  (pi_readopen q = 0 \/ p_killed pr <> 0 -> pipewrite pi addr n s = Ok (-1) (touch s)) /\
  (pi_readopen q <> 0 -> p_killed pr = 0 ->
   (Z.of_nat (length (contents q)) + n <= PIPESIZE -> exists (k : nat) q',
      pipewrite pi addr n s = Ok (Z.of_nat k) (left_pipe p (Ch_nread pi) pi q' s) /\
      Z.of_nat k <= n /\ pipe_ok q' /\ contents q' = contents q ++ vbytes (mem s) U addr k /\
      pi_readopen q' = pi_readopen q /\ pi_writeopen q' = pi_writeopen q /\
      (forall j, 0 <= j < Z.of_nat k -> accessible U (addr + j)) /\
      (Z.of_nat k < n -> ~ accessible U (addr + Z.of_nat k))) /\
   (Z.of_nat (length (contents q)) = PIPESIZE -> exists h,
      blocked p (Ch_nwrite pi) pi (wake (Ch_nread pi) (Some p) (procs s)) (touch s) h /\
      (env (nswtch s) h = None -> pipewrite pi addr n s = Gone h))).
Proof.
  intros Ha Eq Hq R H0a Han Hn. unfold pipewrite.
  rewrite (enter_pipe p pr pi q s _ Ha Eq). apply at_pipe_touch in Ha.
  rewrite length_contents. split; [|intros Hro Hk; split].
  - intros Hd. rewrite (bind_ok _ _ _ _ _ (write_dead p pr pi addr n q (touch s) _ Ha Eq Hd (proj1 Hn))).
    by rewrite touch_touch.
  - intros Hroom. destruct (write_loop p pr pi T U addr n (touch s) (S (Z.to_nat n + wakeups)) 0 q Ha)
      as (k & q' & Hkn & El & Hok & Ec & Hr & Hw & Hin & Hout); try (done || lia).
    rewrite Z.add_0_r, Z.add_0_l in *. exists k, q'. rewrite (bind_ok _ _ _ _ _ El), (leave_eq p pr) by done.
    unfold left_pipe. by rewrite touch_touch.
  - intros Hfull. cbn [loopM]. destruct (write_full p pr pi addr n 0 q (touch s) Ha Eq Hk Hro) as (h & Hb & E);
      [by rewrite pipe_full_spec, bool_decide_eq_true by done; lia|lia|].
    exists h. split; [done|]. intros Hg. rewrite bind_assoc. unfold bind at 1. by rewrite (E Hg).
Qed.

(** The wait loop of [piperead]. *)
Lemma wait_ready p pi q s :
  (0 < wakeups)%nat -> used q <> 0%nat \/ pi_writeopen q = 0 -> pipe_ok q ->
  piperead_wait p pi (inside pi q s) = Ok true (inside pi q s).
Proof.
  intros Hw Hd Hq. apply loopM_done; [done|]. rewrite inside_piget, pipe_empty_spec by done.
  destruct (Z.eqb_spec (pi_writeopen q) 0); [by rewrite andb_false_r|].
  rewrite bool_decide_false by naive_solver. done.
Qed.

Lemma wait_killed p pr pi q s :
  (0 < wakeups)%nat -> at_pipe p pr pi s -> pipes s !! pi = Some q -> pipe_ok q ->
  used q = 0%nat -> pi_writeopen q <> 0 -> p_killed pr <> 0 ->
  piperead_wait p pi (inside pi q s) = Ok false (touch s).
Proof.
  intros Hw Ha Eq Hq Hu Ho Hk. apply loopM_done; [done|]. rewrite inside_piget, pipe_empty_spec by done.
  rewrite bool_decide_true by done. destruct (Z.eqb_spec (pi_writeopen q) 0); [done|]. cbn [andb negb].
  rewrite (inside_killed p pr) by done. destruct (Z.eqb_spec (p_killed pr) 0); [done|]. cbn [negb].
  by rewrite (bind_ok _ _ _ _ _ (inside_release p pr pi q s Ha Eq)).
Qed.

Lemma wait_block p pr pi q s :
  (0 < wakeups)%nat -> at_pipe p pr pi s -> pipes s !! pi = Some q -> pipe_ok q ->
  used q = 0%nat -> pi_writeopen q <> 0 -> p_killed pr = 0 -> exists h,
  blocked p (Ch_nread pi) pi (procs s) s h /\
  (env (nswtch s) h = None -> piperead_wait p pi (inside pi q s) = Gone h).
Proof.
  intros Hw Ha Eq Hq Hu Ho Hk. unfold piperead_wait. destruct wakeups as [|w]; [lia|]. cbn [loopM].
  destruct (sleep_pipe p pr pi (Ch_nread pi) (procs s) q s Ha Eq (ap_proc _ _ _ _ Ha)) as (h & Hb & E).
  exists h. split; [done|]. intros Hg. rewrite bind_assoc, inside_piget, pipe_empty_spec by done.
  rewrite bool_decide_true by done. destruct (Z.eqb_spec (pi_writeopen q) 0); [done|]. cbn [andb negb].
  rewrite bind_assoc, (inside_killed p pr) by done. rewrite Hk. cbn [Z.eqb negb].
  replace (with_procs (procs s) (inside pi q s)) with (inside pi q s) in E by by destruct s.
  unfold bind. by rewrite (E Hg).
Qed.

(** C17: [piperead(pi, addr, n)] when there are bytes in the pipe or its writer is gone stores
    at [addr] in user memory the oldest [n] bytes of the queue, or all of it, up to the
    first inaccessible address, removes them from the queue, wakes the writers and returns
    how many it stored (a byte that could not be stored is removed as well); other user
    memory is unchanged.  When the pipe is
    empty and a writer remains, a killed process gets -1 and another one gives up the hart
    asleep on [&pi->nread] with the pipe's lock free. *)
Theorem piperead_correct p pr pi q T U addr n s :
  (0 < wakeups)%nat ->
  at_pipe p pr pi s -> pipes s !! pi = Some q -> pipe_ok q -> umem pr T U (mem s) ->
  0 <= addr -> addr + n <= 2 ^ 64 -> 0 <= n < 2 ^ 31 ->
  (contents q <> [] \/ pi_writeopen q = 0 -> exists (k : nat) q' m',
     piperead pi addr n s = Ok (Z.of_nat k) (left_pipe p (Ch_nwrite pi) pi q' (with_mem m' s)) /\
     umem pr T U m' /\ read_done U addr n q q' (mem s) m' k) /\
  (contents q = [] -> pi_writeopen q <> 0 ->
     (p_killed pr <> 0 -> piperead pi addr n s = Ok (-1) (touch s)) /\
     (p_killed pr = 0 -> exists h, blocked p (Ch_nread pi) pi (procs s) (touch s) h /\
        (env (nswtch s) h = None -> piperead pi addr n s = Gone h))).
Proof.
  intros Hw Ha Eq Hq Hu H0a Han Hn. unfold piperead.
  rewrite (enter_pipe p pr pi q s _ Ha Eq). apply at_pipe_touch in Ha.
  rewrite <- length_zero_iff_nil, length_contents. split; [|intros Hz Ho; split; intros Hk].
  - intros Hd. rewrite (bind_ok _ _ _ _ _ (wait_ready p pi q (touch s) Hw Hd Hq)). cbn [negb].
    destruct (pipe_read_loop p pr pi T U addr n (Z.to_nat n) 0 q (touch s) Ha Hu Hq) as (k & q' & m' & El & Hu' & Hd');
      try lia.
    rewrite Z.add_0_r, Z.add_0_l, Z.sub_0_r in *. rewrite (bind_ok _ _ _ _ _ El).
    exists k, q', m'. split; [|done]. rewrite (leave_eq p pr) by by destruct Ha.
    unfold left_pipe. rewrite (framed_touch (with_mem m')) by solve_framed. by rewrite touch_touch.
  - rewrite (bind_ok _ _ _ _ _ (wait_killed p pr pi q (touch s) Hw Ha Eq Hq Hz Ho Hk)). by rewrite touch_touch.
  - destruct (wait_block p pr pi q (touch s) Hw Ha Eq Hq Hz Ho Hk) as (h & Hb & E).
    exists h. split; [done|]. intros Hg. unfold bind at 1. by rewrite (E Hg).
Qed.

End pipe.
