(* ===== verification/Args.v ===== *)
(** * System call arguments: kernel/syscall.c, first part

    The arguments of a system call are in the caller's trapframe; strings and words they
    point to are fetched from user memory. *)

From S2P Require Import Prelude Riscv Memory Bytes State Spinlock Sched Sleeplock Kalloc Vm.
From S2P Require Import Uart Printf Console Bio Log Fs Pipe File Proc.

Section args.
Context `{image} `{environment} `{patience} `{disk_driver}.

(** The word, or [None] for -1. *)
Definition fetchaddr (addr : Z) : K (option Z) :=
  p <- curproc;;
  pr <- pget p;;
  if (addr >=? p_sz pr) || (addr +u 8 >? p_sz pr) then ret None else
  r <- copyin (p_pagetable pr) addr 8;;
  if negb (r.1 =? 0) then ret None else ret (Some (le r.2)).

(** The length of the string or -1, and what has been stored in [buf]. *)
Definition fetchstr (addr max : Z) : K (Z * list Z) :=
  p <- curproc;;
  pr <- pget p;;
  r <- copyinstr (p_pagetable pr) addr max;;
  if r.1 <? 0 then ret (-1, r.2) else ret (Z.of_nat (length (cstr r.2)), r.2).

Definition argraw (n : Z) : K Z :=
  p <- curproc;;
  if (0 <=? n) && (n <=? 5) then tf_get p (TF_a0 + 8 * n) else panic "argraw".

Definition argint (n : Z) : K Z := x <- argraw n;; ret (i32 x).

Definition argaddr (n : Z) : K Z := argraw n.

(** The string, or [None] for -1. *)
Definition argstr (n max : Z) : K (option (list Z)) :=
  addr <- argaddr n;;
  r <- fetchstr addr max;;
  ret (if r.1 <? 0 then None else Some (cstr r.2)).

End args.
