(* ===== verification/Exec.v ===== *)
(** * Program loading: kernel/exec.c *)

From S2P Require Import Prelude Riscv Memory CString Bytes State Spinlock Sched Sleeplock.
From S2P Require Import Kalloc Vm Uart Printf Console Bio Log Fs Pipe File Proc.

(** ** kernel/elf.h *)

Definition ELF_MAGIC : Z := 0x464C457F.
Definition ELF_PROG_LOAD : Z := 1.
Definition ELFHDR_SIZE : Z := 64.
Definition PROGHDR_SIZE : Z := 56.

(** The fields of [struct elfhdr] and [struct proghdr] that [exec] uses. *)
Definition elf_magic (d : list Z) : Z := get32 d 0.
Definition elf_entry (d : list Z) : Z := get64 d 24.
Definition elf_phoff (d : list Z) : Z := get64 d 32.
Definition elf_phnum (d : list Z) : Z := get16 d 56.
Definition ph_type (d : list Z) : Z := get32 d 0.
Definition ph_flags (d : list Z) : Z := get32 d 4.
Definition ph_off (d : list Z) : Z := get64 d 8.
Definition ph_vaddr (d : list Z) : Z := get64 d 16.
Definition ph_filesz (d : list Z) : Z := get64 d 32.
Definition ph_memsz (d : list Z) : Z := get64 d 40.

(** The local variables [elf] and [ph]. *)
Definition local_elf : Z := KSTACK 0 + 512.
Definition local_ph : Z := KSTACK 0 + 640.

Definition flags2perm (flags : Z) : Z :=
  let perm := if negb (Z.land flags 0x1 =? 0) then PTE_X else 0 in
  if negb (Z.land flags 0x2 =? 0) then Z.lor perm PTE_W else perm.

(** The checks [exec] makes on a program header before it loads the segment. *)
Definition ph_ok (ph : list Z) : bool :=
  negb (ph_memsz ph <? ph_filesz ph)
  && negb (ph_vaddr ph +u ph_memsz ph <? ph_vaddr ph)
  && (ph_vaddr ph mod PGSIZE =? 0).

(** [for(last=s=path; *s; s++) if( *s == '/') last = s+1]. *)
Fixpoint last_elem (path last : list Z) : list Z :=
  match path with
  | [] => last
  | c :: s => last_elem s (if c =? SLASH then s else last)
  end.

Section exec.
Context `{image} `{environment} `{patience} `{disk_driver}.

(** [for(i = 0; i < sz; i += PGSIZE)]: true when every page was read. *)
Fixpoint loadseg_loop (fuel : nat) (pagetable va : Z) (ip : nat) (offset sz i : Z) : K bool :=
  match fuel with
  | O => fun _ => NoFuel
  | S f =>
      if negb (i <? sz) then ret true else
      pa <- walkaddr pagetable (va +u i);;
      if pa =? 0 then panic "loadseg: address should exist" else
      let n := if sz - i <? PGSIZE then sz - i else PGSIZE in
      r <- readi ip false pa (u32 (offset + i)) n;;
      if negb (u32 r =? n) then ret false else
      loadseg_loop f pagetable va ip offset sz (u32 (i + PGSIZE))
  end.

Definition loadseg (pagetable va : Z) (ip : nat) (offset sz : Z) : K Z :=
  ok <- loadseg_loop (Z.to_nat (sz / PGSIZE + 2)) pagetable va ip offset sz 0;;
  ret (if ok then 0 else -1).

(** The [bad:] label. *)
Definition exec_bad (pagetable sz : Z) (ip : option nat) : K Z :=
  (if negb (pagetable =? 0) then proc_freepagetable pagetable sz else ret tt);;
  (match ip with Some ip => iunlockput ip;; end_op | None => ret tt end);;
  ret (-1).

(** One program header: [inl sz] to go on with size [sz], [inr sz] for [goto bad]. *)
Definition load_ph (ip : nat) (pagetable off sz : Z) : K (Z + Z) :=
  r <- readi ip false local_ph (u32 off) PROGHDR_SIZE;;
  if negb (r =? PROGHDR_SIZE) then ret (inr sz) else
  ph <- load_bytes local_ph (Z.to_nat PROGHDR_SIZE);;
  if negb (ph_type ph =? ELF_PROG_LOAD) then ret (inl sz) else
  if negb (ph_ok ph) then ret (inr sz) else
  sz1 <- uvmalloc pagetable sz (ph_vaddr ph +u ph_memsz ph) (flags2perm (ph_flags ph));;
  if sz1 =? 0 then ret (inr sz) else
  l <- loadseg pagetable (ph_vaddr ph) ip (u32 (ph_off ph)) (u32 (ph_filesz ph));;
  if l <? 0 then ret (inr sz1) else ret (inl sz1).

(** The program headers: [n] of them from file offset [off]. *)
Fixpoint load_program (n : nat) (ip : nat) (pagetable off sz : Z) : K (Z + Z) :=
  match n with
  | O => ret (inl sz)
  | S n =>
      r <- load_ph ip pagetable off sz;;
      match r with
      | inr sz => ret (inr sz)
      | inl sz => load_program n ip pagetable (i32 (off + PROGHDR_SIZE)) sz
      end
  end.

(** Push the argument strings: the stack pointer and the addresses pushed so far, or
    [None] for [goto bad]. *)
Fixpoint push_args (pagetable stackbase sp : Z) (argv ustack : list Z) : K (option (Z * list Z)) :=
  match argv with
  | [] => ret (Some (sp, ustack))
  | a :: argv =>
      if Z.of_nat (length ustack) >=? MAXARG then ret None else
      m <- gets mem;;
      match strlen (Z.to_nat PGSIZE) m a with
      | None => fun _ => NoFuel
      | Some len =>
          let sp := sp -u (len + 1) in
          let sp := sp -u (sp mod 16) in
          if sp <? stackbase then ret None else
          s <- load_bytes a (Z.to_nat (len + 1));;
          r <- copyout pagetable sp s (len + 1);;
          if r <? 0 then ret None else
          push_args pagetable stackbase sp argv (ustack ++ [sp])
      end
  end.

(** From the loaded image on: the stack, the arguments and the commit. *)
Definition exec_image (path argv : list Z) (entry pagetable sz : Z) : K Z :=
  p <- curproc;;
  pr <- pget p;;
  let oldsz := p_sz pr in
  let sz := PGROUNDUP sz in
  sz1 <- uvmalloc pagetable sz (sz +u 2 * PGSIZE) PTE_W;;
  if sz1 =? 0 then exec_bad pagetable sz None else
  let sz := sz1 in
  uvmclear pagetable (sz -u 2 * PGSIZE);;
  let stackbase := sz -u PGSIZE in
  a <- push_args pagetable stackbase sz argv [];;
  match a with
  | None => exec_bad pagetable sz None
  | Some (sp, ustack) =>
      let argc := Z.of_nat (length ustack) in
      if argc >=? MAXARG then undefined else
      let sp := sp -u (argc + 1) * 8 in
      let sp := sp -u (sp mod 16) in
      if sp <? stackbase then exec_bad pagetable sz None else
      r <- copyout pagetable sp (concat (map (unle 8) (ustack ++ [0]))) ((argc + 1) * 8);;
      if r <? 0 then exec_bad pagetable sz None else
      tf_set p TF_a1 sp;;
      pset p (fun pr => with_p_name
        (safestrcpy_arr (p_name pr) (last_elem path path ++ [0]) 16) pr);;
      pr <- pget p;;
      let oldpagetable := p_pagetable pr in
      pset p (with_p_pagetable pagetable);;
      pset p (with_p_sz sz);;
      tf_set p TF_epc entry;;
      tf_set p TF_sp sp;;
      proc_freepagetable oldpagetable oldsz;;
      ret (i32 argc)
  end.

(** [argv] is the list of the addresses of the argument strings. *)
Definition exec (path argv : list Z) : K Z :=
  p <- curproc;;
  begin_op;;
  i <- namei path;;
  match i with
  | None => end_op;; ret (-1)
  | Some ip =>
      ilock ip;;
      r <- readi ip false local_elf 0 ELFHDR_SIZE;;
      if negb (r =? ELFHDR_SIZE) then exec_bad 0 0 (Some ip) else
      elf <- load_bytes local_elf (Z.to_nat ELFHDR_SIZE);;
      if negb (elf_magic elf =? ELF_MAGIC) then exec_bad 0 0 (Some ip) else
      pagetable <- proc_pagetable p;;
      if pagetable =? 0 then exec_bad 0 0 (Some ip) else
      r <- load_program (Z.to_nat (elf_phnum elf)) ip pagetable (i32 (elf_phoff elf)) 0;;
      match r with
      | inr sz => exec_bad pagetable sz (Some ip)
      | inl sz =>
          iunlockput ip;;
          end_op;;
          exec_image path argv (elf_entry elf) pagetable sz
      end
  end.

End exec.
