(* ===== verification/Sysproc.v ===== *)
(** * System calls on processes: kernel/sysproc.c *)

From S2P Require Import Prelude Riscv Memory CString Bytes State Spinlock Sched Sleeplock.
From S2P Require Import Kalloc Vm Uart Printf Console Bio Log Fs Pipe File Proc Args.

(** ** The array [ps] of sys_ps

    [struct ps_struct] is 36 bytes: [pid] at 0, [ppid] at 4, [state] at 8, [name] at 18,
    and two bytes of padding. *)

Definition PS_SIZE : Z := 36.

(** The local variable [ps]. *)
Definition local_ps : Z := KSTACK 0 + 1024.

(** [strncpy(dst, src, n - 1); dst[n - 1] = 0] on an array of [n] bytes. *)
Definition copy_field (dst src : list Z) (n : Z) : list Z :=
  <[Z.to_nat (n - 1) := 0]> (strncpy_arr dst src (n - 1)).

(** Fill entry [k] of the array for process [pr]. *)
Definition ps_fill (d : list Z) (k : Z) (pr : proc) (ppid : Z) : list Z :=
  let o := k * PS_SIZE in
  let d := set32 d o (p_pid pr) in
  let d := set32 d (o + 4) ppid in
  let d := patch d (o + 8)
    (copy_field (slice (o + 8) 10 d) (literal (procstate_name (p_state pr))) 10) in
  patch d (o + 18) (copy_field (slice (o + 18) 16 d) (p_name pr) 16).

(** [proc[i].parent ? proc[i].parent->pid : -1]. *)
Definition ppid_of (ps : list proc) (pr : proc) : Z :=
  match p_parent pr with
  | Some j => p_pid (default proc0 (ps !! j))
  | None => -1
  end.

Definition ps_step (ps : list proc) (acc : list Z * Z) (pr : proc) : list Z * Z :=
  if decide (p_state pr = UNUSED) then acc
  else (ps_fill acc.1 acc.2 pr (ppid_of ps pr), acc.2 + 1).

(** [struct sched_history] as bytes. *)
Definition history_bytes (pr : proc) : list Z :=
  concat (map (unle 4)
    [runCount pr; systemcallCount pr; interruptCount pr; preemptCount pr; trapCount pr;
     sleepCount pr]).

Section sysproc.
Context `{image} `{environment} `{patience} `{disk_driver}.

Definition sys_exit : K Z :=
  n <- argint 0;;
  exit n.

Definition sys_getpid : K Z :=
  p <- curproc;;
  pr <- pget p;;
  ret (p_pid pr).

Definition sys_fork : K Z := fork.

Definition sys_wait : K Z :=
  p <- argaddr 0;;
  wait p.

Definition sys_sbrk : K Z :=
  n <- argint 0;;
  p <- curproc;;
  pr <- pget p;;
  let addr := p_sz pr in
  r <- growproc n;;
  if r <? 0 then ret (-1) else ret addr.

Definition sys_sleep : K Z :=
  n <- argint 0;;
  acquire L_tick;;
  ticks0 <- gets ticks;;
  loopM wakeups (fun _ =>
    t <- gets ticks;;
    if u32 (t - ticks0) <? u32 n then
      p <- curproc;;
      k <- killed p;;
      if negb (k =? 0) then release L_tick;; ret (inr (-1))
      else sleep Ch_ticks L_tick;; ret (inl tt)
    else release L_tick;; ret (inr 0)) tt.

Definition sys_kill : K Z :=
  pid <- argint 0;;
  kill pid.

Definition sys_uptime : K Z :=
  acquire L_tick;;
  xticks <- gets ticks;;
  release L_tick;;
  ret xticks.

Definition sys_getppid : K Z :=
  current_proc <- myproc;;
  match current_proc with
  | None => ret (-1)
  | Some i =>
      pr <- pget i;;
      match p_parent pr with
      | None => ret (-1)
      | Some j => parent <- pget j;; ret (p_pid parent)
      end
  end.

Definition sys_ps : K Z :=
  d <- load_bytes local_ps (NPROC * Z.to_nat PS_SIZE);;
  ps <- gets procs;;
  let r := fold_left (ps_step ps) ps (d, 0) in
  store_bytes local_ps r.1;;
  let numProc := r.2 in
  arg_addr <- argaddr 0;;
  p <- curproc;;
  pr <- pget p;;
  c <- copyout (p_pagetable pr) arg_addr r.1 (numProc * PS_SIZE);;
  if c <? 0 then ret (-1) else ret numProc.

Definition sys_getschedhistory : K Z :=
  p <- myproc;;
  match p with
  | None => ret (-1)
  | Some i =>
      pr <- pget i;;
      let my_history := history_bytes pr in
      arg_addr <- argaddr 0;;
      pr <- pget i;;
      c <- copyout (p_pagetable pr) arg_addr my_history 24;;
      if c <? 0 then ret (-1) else
      pr <- pget i;;
      ret (p_pid pr)
  end.

End sysproc.
