(* ===== verification/Sysfile.v ===== *)
(** * System calls on files: kernel/sysfile.c *)

From S2P Require Import Prelude Riscv Memory CString Bytes State Spinlock Sched Sleeplock.
From S2P Require Import Kalloc Vm Uart Printf Console Bio Log Fs Pipe File Proc Args Exec.

(** ** kernel/fcntl.h *)

Definition O_RDONLY : Z := 0x000.
Definition O_WRONLY : Z := 0x001.
Definition O_RDWR : Z := 0x002.
Definition O_CREATE : Z := 0x200.
Definition O_TRUNC : Z := 0x400.

(** A flag of [omode]. *)
Definition has (omode flag : Z) : bool := negb (Z.land omode flag =? 0).

(** An uninitialised [char name[DIRSIZ]]. *)
Definition name0 : list Z := replicate (Z.to_nat DIRSIZ) 0.

(** [ip->nlink++] and [ip->nlink--]. *)
Definition nlink_add (i : nat) (d : Z) : K unit :=
  ipset i (fun ip => with_i_nlink (i16 (i_nlink ip + d)) ip).

Section sysfile.
Context `{image} `{environment} `{patience} `{disk_driver}.

(** The descriptor and the file, or [None] for -1. *)
Definition argfd (n : Z) : K (option (Z * nat)) :=
  fd <- argint n;;
  if (fd <? 0) || (fd >=? Z.of_nat NOFILE) then ret None else
  p <- curproc;;
  pr <- pget p;;
  match p_ofile pr !! Z.to_nat fd with
  | Some (Some f) => ret (Some (fd, f))
  | _ => ret None
  end.

Definition ofile_set (p : nat) (fd : Z) (f : option nat) : K unit :=
  pset p (fun pr => with_p_ofile (<[Z.to_nat fd := f]> (p_ofile pr)) pr).

Definition fdalloc (f : nat) : K Z :=
  p <- curproc;;
  r <- searchM (seq 0 NOFILE) (fun fd =>
    pr <- pget p;;
    match p_ofile pr !! fd with
    | Some None => ofile_set p (Z.of_nat fd) (Some f);; ret (Some (Z.of_nat fd))
    | _ => ret None
    end);;
  ret (default (-1) r).

Definition sys_dup : K Z :=
  a <- argfd 0;;
  match a with
  | None => ret (-1)
  | Some (_, f) =>
      fd <- fdalloc f;;
      if fd <? 0 then ret (-1) else
      _ <- filedup f;;
      ret fd
  end.

Definition sys_read : K Z :=
  p <- argaddr 1;;
  n <- argint 2;;
  a <- argfd 0;;
  match a with
  | None => ret (-1)
  | Some (_, f) => fileread f p n
  end.

Definition sys_write : K Z :=
  p <- argaddr 1;;
  n <- argint 2;;
  a <- argfd 0;;
  match a with
  | None => ret (-1)
  | Some (_, f) => filewrite f p n
  end.

Definition sys_close : K Z :=
  a <- argfd 0;;
  match a with
  | None => ret (-1)
  | Some (fd, f) =>
      p <- curproc;;
      ofile_set p fd None;;
      fileclose f;;
      ret 0
  end.

Definition sys_fstat : K Z :=
  st <- argaddr 1;;
  a <- argfd 0;;
  match a with
  | None => ret (-1)
  | Some (_, f) => filestat f st
  end.

(** The [bad:] label of [sys_link]. *)
Definition link_bad (ip : nat) : K Z :=
  ilock ip;;
  nlink_add ip (-1);;
  iupdate ip;;
  iunlockput ip;;
  end_op;;
  ret (-1).

(** [dp->dev != ip->dev || dirlink(dp, name, ip->inum) < 0]. *)
Definition link_fails (dp ip : nat) (name : list Z) : K bool :=
  d <- ipget dp;;
  i <- ipget ip;;
  if negb (i_dev d =? i_dev i) then ret true else
  r <- dirlink dp name (i_inum i);;
  ret (r <? 0).

(** [sys_link] from [begin_op] on. *)
Definition do_link (old new : list Z) : K Z :=
  begin_op;;
  i <- namei old;;
  match i with
  | None => end_op;; ret (-1)
  | Some ip =>
      ilock ip;;
      n <- ipget ip;;
      if i_type n =? T_DIR then iunlockput ip;; end_op;; ret (-1) else
      nlink_add ip 1;;
      iupdate ip;;
      iunlock ip;;
      d <- nameiparent new name0;;
      match d with
      | (None, _) => link_bad ip
      | (Some dp, name) =>
          ilock dp;;
          f <- link_fails dp ip name;;
          if f then iunlockput dp;; link_bad ip else
          iunlockput dp;;
          iput ip;;
          end_op;;
          ret 0
      end
  end.

Definition sys_link : K Z :=
  old <- argstr 0 MAXPATH;;
  match old with
  | None => ret (-1)
  | Some old =>
      new <- argstr 1 MAXPATH;;
      match new with
      | None => ret (-1)
      | Some new => do_link old new
      end
  end.

Definition isdirempty (dp : nat) : K bool :=
  ip <- ipget dp;;
  r <- searchM (drop 2 (de_offsets (i_size ip))) (fun off =>
    de <- readi_de dp off "isdirempty: readi";;
    if negb (de_inum de =? 0) then ret (Some tt) else ret None);;
  ret (match r with Some _ => false | None => true end).

(** The [bad:] label of [sys_unlink]. *)
Definition unlink_bad (dp : nat) : K Z := iunlockput dp;; end_op;; ret (-1).

(** Is [ip] a directory with entries? *)
Definition nonempty_dir (ip : nat) : K bool :=
  n <- ipget ip;;
  if i_type n =? T_DIR then e <- isdirempty ip;; ret (negb e) else ret false.

(** [sys_unlink] once the entry at offset [off] of [dp] has been found to name [ip]. *)
Definition unlink_entry (dp ip : nat) (off : Z) : K Z :=
  ilock ip;;
  n <- ipget ip;;
  if i_nlink n <? 1 then panic "unlink: nlink < 1" else
  f <- nonempty_dir ip;;
  if f then iunlockput ip;; unlink_bad dp else
  store_bytes local_de (replicate (Z.to_nat DE_SIZE) 0);;
  w <- writei dp false local_de off DE_SIZE;;
  if negb (w =? DE_SIZE) then panic "unlink: writei" else
  n <- ipget ip;;
  (if i_type n =? T_DIR then nlink_add dp (-1);; iupdate dp else ret tt);;
  iunlockput dp;;
  nlink_add ip (-1);;
  iupdate ip;;
  iunlockput ip;;
  end_op;;
  ret 0.

Definition sys_unlink : K Z :=
  path <- argstr 0 MAXPATH;;
  match path with
  | None => ret (-1)
  | Some path =>
      begin_op;;
      d <- nameiparent path name0;;
      match d with
      | (None, _) => end_op;; ret (-1)
      | (Some dp, name) =>
          ilock dp;;
          if (namecmp name (literal ".") =? 0) || (namecmp name (literal "..") =? 0)
          then unlink_bad dp else
          r <- dirlookup dp name;;
          match r with
          | None => unlink_bad dp
          | Some (ip, off) => unlink_entry dp ip off
          end
      end
  end.

(** The [fail:] label of [create]. *)
Definition create_fail (dp ip : nat) : K (option nat) :=
  ipset ip (with_i_nlink 0);;
  iupdate ip;;
  iunlockput ip;;
  iunlockput dp;;
  ret None.

(** [create] when the name is new: a fresh inode is initialised and linked. *)
Definition create_new (dp ip : nat) (name : list Z) (type major minor : Z) : K (option nat) :=
  ilock ip;;
  ipset ip (with_i_major major);;
  ipset ip (with_i_minor minor);;
  ipset ip (with_i_nlink 1);;
  iupdate ip;;
  dots <- (if type =? T_DIR then
             n <- ipget ip;;
             r <- dirlink ip (chars ".") (i_inum n);;
             if r <? 0 then ret false else
             d <- ipget dp;;
             r <- dirlink ip (chars "..") (i_inum d);;
             ret (negb (r <? 0))
           else ret true);;
  if negb dots then create_fail dp ip else
  n <- ipget ip;;
  r <- dirlink dp name (i_inum n);;
  if r <? 0 then create_fail dp ip else
  (if type =? T_DIR then nlink_add dp 1;; iupdate dp else ret tt);;
  iunlockput dp;;
  ret (Some ip).

Definition create (path : list Z) (type major minor : Z) : K (option nat) :=
  d <- nameiparent path name0;;
  match d with
  | (None, _) => ret None
  | (Some dp, name) =>
      ilock dp;;
      r <- dirlookup dp name;;
      match r with
      | Some (ip, _) =>
          iunlockput dp;;
          ilock ip;;
          n <- ipget ip;;
          if (type =? T_FILE) && ((i_type n =? T_FILE) || (i_type n =? T_DEVICE))
          then ret (Some ip)
          else iunlockput ip;; ret None
      | None =>
          n <- ipget dp;;
          i <- ialloc (i_dev n) type;;
          match i with
          | None => iunlockput dp;; ret None
          | Some ip => create_new dp ip name type major minor
          end
      end
  end.

(** The first half of [sys_open]: the locked inode, or [None] for -1. *)
Definition open_inode (path : list Z) (omode : Z) : K (option nat) :=
  if has omode O_CREATE then
    i <- create path T_FILE 0 0;;
    match i with
    | None => end_op;; ret None
    | Some ip => ret (Some ip)
    end
  else
    i <- namei path;;
    match i with
    | None => end_op;; ret None
    | Some ip =>
        ilock ip;;
        n <- ipget ip;;
        if (i_type n =? T_DIR) && negb (omode =? O_RDONLY)
        then iunlockput ip;; end_op;; ret None
        else ret (Some ip)
    end.

(** The second half: a file and a descriptor for the locked inode. *)
Definition open_file (ip : nat) (omode : Z) : K Z :=
  n <- ipget ip;;
  if (i_type n =? T_DEVICE) && ((i_major n <? 0) || (i_major n >=? NDEV))
  then iunlockput ip;; end_op;; ret (-1) else
  fo <- filealloc;;
  match fo with
  | None => iunlockput ip;; end_op;; ret (-1)
  | Some f =>
      fd <- fdalloc f;;
      if fd <? 0 then fileclose f;; iunlockput ip;; end_op;; ret (-1) else
      n <- ipget ip;;
      (if i_type n =? T_DEVICE then
         fset f (with_f_type FD_DEVICE);;
         fset f (with_f_major (i_major n))
       else
         fset f (with_f_type FD_INODE);;
         fset f (with_f_off 0));;
      fset f (with_f_ip (Some ip));;
      fset f (with_f_readable (if has omode O_WRONLY then 0 else 1));;
      fset f (with_f_writable (if has omode O_WRONLY || has omode O_RDWR then 1 else 0));;
      (if has omode O_TRUNC && (i_type n =? T_FILE) then itrunc ip else ret tt);;
      iunlock ip;;
      end_op;;
      ret fd
  end.

Definition sys_open : K Z :=
  omode <- argint 1;;
  path <- argstr 0 MAXPATH;;
  match path with
  | None => ret (-1)
  | Some path =>
      begin_op;;
      i <- open_inode path omode;;
      match i with
      | None => ret (-1)
      | Some ip => open_file ip omode
      end
  end.

(** The end of [sys_mkdir] and [sys_mknod]. *)
Definition created (i : option nat) : K Z :=
  match i with
  | None => end_op;; ret (-1)
  | Some ip => iunlockput ip;; end_op;; ret 0
  end.

Definition sys_mkdir : K Z :=
  begin_op;;
  path <- argstr 0 MAXPATH;;
  match path with
  | None => end_op;; ret (-1)
  | Some path => i <- create path T_DIR 0 0;; created i
  end.

Definition sys_mknod : K Z :=
  begin_op;;
  major <- argint 1;;
  minor <- argint 2;;
  path <- argstr 0 MAXPATH;;
  match path with
  | None => end_op;; ret (-1)
  | Some path => i <- create path T_DEVICE (i16 major) (i16 minor);; created i
  end.

Definition sys_chdir : K Z :=
  p <- curproc;;
  begin_op;;
  path <- argstr 0 MAXPATH;;
  i <- match path with None => ret None | Some path => namei path end;;
  match i with
  | None => end_op;; ret (-1)
  | Some ip =>
      ilock ip;;
      n <- ipget ip;;
      if negb (i_type n =? T_DIR) then iunlockput ip;; end_op;; ret (-1) else
      iunlock ip;;
      pr <- pget p;;
      cwd <- deref (p_cwd pr);;
      iput cwd;;
      end_op;;
      pset p (with_p_cwd (Some ip));;
      ret 0
  end.

(** The loop of [sys_exec] that fetches the arguments: the pages allocated for them, and
    whether all were fetched. *)
Fixpoint fetch_args (n : nat) (uargv : Z) (argv : list Z) : K (list Z * bool) :=
  match n with
  | O => ret (argv, false)
  | S n =>
      w <- fetchaddr (uargv +u 8 * Z.of_nat (length argv));;
      match w with
      | None => ret (argv, false)
      | Some uarg =>
          if uarg =? 0 then ret (argv, true) else
          pa <- kalloc;;
          if pa =? 0 then ret (argv, false) else
          r <- fetchstr uarg PGSIZE;;
          store_bytes pa r.2;;
          if r.1 <? 0 then ret (argv ++ [pa], false) else fetch_args n uargv (argv ++ [pa])
      end
  end.

Definition sys_exec : K Z :=
  uargv <- argaddr 1;;
  path <- argstr 0 MAXPATH;;
  match path with
  | None => ret (-1)
  | Some path =>
      a <- fetch_args (Z.to_nat MAXARG) uargv [];;
      if a.2 then
        r <- exec path a.1;;
        forM a.1 kfree;;
        ret r
      else
        forM a.1 kfree;;
        ret (-1)
  end.

(** Both files are closed when [sys_pipe] fails. *)
Definition pipe_fail (rf wf : nat) : K Z := fileclose rf;; fileclose wf;; ret (-1).

Definition sys_pipe : K Z :=
  p <- curproc;;
  fdarray <- argaddr 0;;
  r <- pipealloc;;
  match r with
  | None => ret (-1)
  | Some (rf, wf) =>
      fd0 <- fdalloc rf;;
      if fd0 <? 0 then pipe_fail rf wf else
      fd1 <- fdalloc wf;;
      if fd1 <? 0 then ofile_set p fd0 None;; pipe_fail rf wf else
      pr <- pget p;;
      c <- copyout (p_pagetable pr) fdarray (unle 4 fd0) 4;;
      c <- (if c <? 0 then ret c
            else copyout (p_pagetable pr) (fdarray +u 4) (unle 4 fd1) 4);;
      if c <? 0 then
        ofile_set p fd0 None;;
        ofile_set p fd1 None;;
        pipe_fail rf wf
      else ret 0
  end.

End sysfile.
