(* ===== verification/Syscall.v ===== *)
(** * System call dispatch: kernel/syscall.c, second part, and kernel/syscall.h *)

From S2P Require Import Prelude Riscv Memory State Spinlock Sched Sleeplock Kalloc Vm Uart.
From S2P Require Import Printf Console Bio Log Fs Pipe File Proc Args Exec Sysproc Sysfile.

(** System call numbers. *)
Definition SYS_fork : Z := 1.
Definition SYS_exit : Z := 2.
Definition SYS_wait : Z := 3.
Definition SYS_pipe : Z := 4.
Definition SYS_read : Z := 5.
Definition SYS_kill : Z := 6.
Definition SYS_exec : Z := 7.
Definition SYS_fstat : Z := 8.
Definition SYS_chdir : Z := 9.
Definition SYS_dup : Z := 10.
Definition SYS_getpid : Z := 11.
Definition SYS_sbrk : Z := 12.
Definition SYS_sleep : Z := 13.
Definition SYS_uptime : Z := 14.
Definition SYS_open : Z := 15.
Definition SYS_write : Z := 16.
Definition SYS_mknod : Z := 17.
Definition SYS_unlink : Z := 18.
Definition SYS_link : Z := 19.
Definition SYS_mkdir : Z := 20.
Definition SYS_close : Z := 21.
Definition SYS_getppid : Z := 22.
Definition SYS_ps : Z := 23.
Definition SYS_getschedhistory : Z := 24.

Section syscall.
Context `{image} `{environment} `{patience} `{disk_driver}.

(** The table of designated initialisers: entry [n] is the function for number [n]. *)
Definition syscalls : list (Z * K Z) :=
  [(SYS_fork, sys_fork); (SYS_exit, sys_exit); (SYS_wait, sys_wait); (SYS_pipe, sys_pipe);
   (SYS_read, sys_read); (SYS_kill, sys_kill); (SYS_exec, sys_exec); (SYS_fstat, sys_fstat);
   (SYS_chdir, sys_chdir); (SYS_dup, sys_dup); (SYS_getpid, sys_getpid);
   (SYS_sbrk, sys_sbrk); (SYS_sleep, sys_sleep); (SYS_uptime, sys_uptime);
   (SYS_open, sys_open); (SYS_write, sys_write); (SYS_mknod, sys_mknod);
   (SYS_unlink, sys_unlink); (SYS_getppid, sys_getppid); (SYS_ps, sys_ps);
   (SYS_getschedhistory, sys_getschedhistory); (SYS_link, sys_link);
   (SYS_mkdir, sys_mkdir); (SYS_close, sys_close)].

(** [syscalls[num]], or [None] where the table has no function. *)
Definition syscall_entry (num : Z) : option (K Z) :=
  match List.find (fun e => e.1 =? num) syscalls with Some e => Some e.2 | None => None end.

Definition syscall : K unit :=
  p <- curproc;;
  a7 <- tf_get p TF_a7;;
  let num := i32 a7 in
  match syscall_entry num with
  | Some f =>
      r <- f;;
      tf_set p TF_a0 (u64 r)
  | None =>
      pr <- pget p;;
      printf (chars "%d %s: unknown sys call %d" ++ newline)
        [V_int (p_pid pr); V_str (Some (cstr (p_name pr))); V_int num];;
      tf_set p TF_a0 (u64 (-1))
  end.

End syscall.
