(* ===== verification/SysprocSpec.v ===== *)
(** * What the process system calls report

    [getschedhistory], [ps] and [getppid], the calls this kernel adds: the numbers the user
    reads are the kernel's own. *)

From S2P Require Import Prelude Riscv Memory CString Bytes State Spinlock Sched SchedSpec.
From S2P Require Import Kalloc Vm PageTable VmSpec UserCopy Sleeplock Uart Printf Console Bio.
From S2P Require Import Log Fs Pipe File Proc UserProc Args Sysproc Exec Sysfile Syscall.

Section sysproc.
Context `{image} (Himg : image_ok) `{environment} `{patience} `{disk_driver}.

(** The state of a hart that runs process [p]. *)
Record running (p : nat) (pr : proc) (s : kst) : Prop := {
  run_hart : hart_ok s;
  run_cur : cur s = Some p;
  run_proc : procs s !! p = Some pr
}.

Lemma running_touch p pr s : running p pr s -> running p pr (touch s).
Proof. intros []. split; [by apply touch_hart_ok|by rewrite cur_touch|done]. Qed.

Lemma curproc_running p pr s : running p pr s -> curproc s = Ok p (touch s).
Proof. intros []. by apply curproc_eq. Qed.

Lemma argraw_eq p pr n s :
  running p pr s -> 0 <= n <= 5 ->
  argraw n s = Ok (rd64 (mem s) (p_trapframe pr + (TF_a0 + 8 * n))) (touch s).
Proof.
  intros Hr Hn. unfold argraw. rewrite (bind_ok _ _ _ _ _ (curproc_running p pr s Hr)).
  rewrite (proj2 (Z.leb_le 0 n)), (proj2 (Z.leb_le n 5)) by lia. cbn [andb].
  rewrite (tf_get_eq p pr) by apply Hr. reflexivity.
Qed.

(** ** getschedhistory *)

Lemma length_concat_unle l : length (concat (map (unle 4) l)) = (4 * length l)%nat.
Proof.
  induction l as [|x l IH]; [done|]. cbn [map concat]. rewrite length_app, unle_length, IH.
  cbn [length]. lia.
Qed.

Lemma history_length pr : length (history_bytes pr) = 24%nat.
Proof. unfold history_bytes. by rewrite length_concat_unle. Qed.

Lemma history_u8 pr : map u8 (history_bytes pr) = history_bytes pr.
Proof.
  assert (Forall (fun b => 0 <= b < 256) (history_bytes pr)) as Hb.
  { unfold history_bytes. apply Forall_concat. rewrite Forall_map. apply Forall_true. intros. apply unle_bytes. }
  induction Hb as [|b l Hb _ IH]; [done|]. cbn [map]. by rewrite IH, u8_small.
Qed.

(** All the bytes of a user buffer are accessible. *)
Definition buffer (U : gmap Z (Z * Z)) (va len : Z) : Prop :=
  forall i, 0 <= i < len -> accessible U (va + i).

Lemma getschedhistory_ok p pr T U s :
  running p pr s -> umem pr T U (mem s) ->
  let va := rd64 (mem s) (p_trapframe pr + TF_a0) in
  buffer U va 24 ->
  exists m', sys_getschedhistory s = Ok (p_pid pr) (with_mem m' (touch s)) /\ umem pr T U m' /\
    stored U va (history_bytes pr) 24 (mem s) m'.
Proof.
  intros Hr Hu va Hb. unfold sys_getschedhistory.
  rewrite (bind_ok _ _ _ _ _ (myproc_eq s (run_hart _ _ _ Hr))), (run_cur _ _ _ Hr).
  unfold pget. rewrite bind_gets. change (procs (touch s)) with (procs s).
  rewrite (run_proc _ _ _ Hr). cbn [default from_option id].
  pose proof (argraw_eq p pr 0 (touch s) (running_touch _ _ _ Hr) ltac:(lia)) as Ea.
  rewrite touch_touch in Ea. unfold argaddr. rewrite (bind_ok _ _ _ _ _ Ea).
  rewrite bind_gets. change (procs (touch s)) with (procs s). rewrite (run_proc _ _ _ Hr).
  cbn [default from_option id]. change (mem (touch s)) with (mem s).
  replace (TF_a0 + 8 * 0) with TF_a0 by lia. fold va.
  destruct (copyout_spec Himg pr T U va (history_bytes pr) 24 (touch s))
    as (n & m' & Hn & E & Hst & Hu' & Ha & Hna);
    [exact Hu|apply rd64_range|lia|rewrite history_length; lia|].
  assert (n = 24%nat) as ->.
  { destruct (decide (Z.of_nat n < 24)) as [Hlt|]; [|lia]. destruct (Hna Hlt). apply Hb. lia. }
  rewrite (bind_ok _ _ _ _ _ E). cbn [Z.of_nat Pos.of_succ_nat Pos.succ Z.eqb Pos.eqb Z.ltb Z.compare].
  exists m'. split; [|done]. rewrite bind_gets.
  change (procs (with_mem m' (touch s))) with (procs s). by rewrite (run_proc _ _ _ Hr).
Qed.

End sysproc.
