(* ===== verification/PsSpec.v ===== *)
(** * What ps and getppid report *)

From S2P Require Import Prelude Riscv Memory CString Bytes State Spinlock Sched SchedSpec.
From S2P Require Import Kalloc Vm PageTable VmSpec UserCopy Sleeplock Uart Printf Console Bio.
From S2P Require Import Log Fs Pipe File Proc UserProc Args Sysproc Exec Sysfile Syscall.
From S2P Require Import SysprocSpec.

(** ** A field of the array *)

Lemma rd_bytes_bytes n m a : Forall byte (rd_bytes n m a).
Proof.
  revert a. induction n as [|n IH]; intros a; constructor; [apply rd8_range|done].
Qed.

Lemma take_rd_bytes k n m a : (k <= n)%nat -> take k (rd_bytes n m a) = rd_bytes k m a.
Proof.
  intros Hk. replace n with (k + (n - k))%nat by lia. rewrite rd_bytes_app.
  by rewrite take_app_length' by by rewrite length_rd_bytes.
Qed.

(** [copy_field] leaves the source string, cut to [n - 1] characters, padded with NULs. *)
Lemma copy_field_eq dst src l (k : nat) :
  arr_cstring src l -> length dst = S k -> Z.of_nat (S k) <= src_base ->
  copy_field dst src (Z.of_nat (S k)) = take k (l ++ replicate k 0) ++ [0].
Proof.
  intros Hs Hd Hb. unfold copy_field. replace (Z.of_nat (S k) - 1) with (Z.of_nat k) by lia.
  rewrite Nat2Z.id. unfold strncpy_arr, on_arrays. set (m := blit _ _ _).
  rewrite Hd. replace (S k) with (k + 1)%nat at 1 by lia. rewrite rd_bytes_app.
  rewrite insert_app_r_alt by (rewrite length_rd_bytes; lia).
  rewrite length_rd_bytes, Nat.sub_diag. f_equal. unfold strncpy. rewrite Nat2Z.id.
  apply strncpy_loop_spec; [apply blit_cstring; [rewrite Hd; lia|done]|lia].
Qed.

Lemma copy_field_length dst src n : length (copy_field dst src n) = length dst.
Proof. unfold copy_field, strncpy_arr, on_arrays. by rewrite length_insert, length_rd_bytes. Qed.

Lemma copy_field_bytes dst src n : Forall byte (copy_field dst src n).
Proof.
  unfold copy_field, strncpy_arr, on_arrays. apply Forall_insert; [apply rd_bytes_bytes|]. unfold byte. lia.
Qed.

Lemma cstr_app l l' : Forall (fun c => c <> 0) l -> cstr (l ++ 0 :: l') = l.
Proof.
  induction 1 as [|c l Hc _ IH]; [done|]. cbn [cstr app]. by rewrite (proj2 (Z.eqb_neq c 0)), IH.
Qed.

Lemma cstr_padded l k :
  Forall (fun c => c <> 0) l -> cstr (take k (l ++ replicate k 0) ++ [0]) = take k l.
Proof.
  intros Hl. rewrite take_app. destruct (decide (length l <= k)%nat).
  - rewrite (take_ge l) by done. rewrite take_replicate, <- app_assoc.
    destruct ((k - length l) `min` k)%nat; cbn [replicate app]; by apply cstr_app.
  - replace (k - length l)%nat with 0%nat by lia. cbn [take]. rewrite app_nil_r.
    apply cstr_app. by apply Forall_take.
Qed.

Lemma copy_field_cstr dst src l (k : nat) :
  arr_cstring src l -> length dst = S k -> Z.of_nat (S k) <= src_base ->
  cstr (copy_field dst src (Z.of_nat (S k))) = take k l.
Proof.
  intros Hs Hd Hb. rewrite (copy_field_eq dst src l k Hs Hd Hb). apply cstr_padded.
  destruct Hs as (r & _ & Hl). eapply Forall_impl; [exact Hl|]. simpl. lia.
Qed.

(** ** An entry of the array *)

(** Entry [k] of the array describes process [q]. *)
Definition entry_ok (ps : list proc) (d : list Z) (k : Z) (q : proc) : Prop :=
  let o := k * PS_SIZE in
  get32 d o = u32 (p_pid q) /\ get32 d (o + 4) = u32 (ppid_of ps q) /\
  cstr (slice (o + 8) 10 d) = chars (procstate_name (p_state q)) /\
  cstr (slice (o + 18) 16 d) = cstr (p_name q).

(** [p->name] is a string that fits its array, as [safestrcpy] leaves it. *)
Definition name_ok (q : proc) : Prop :=
  exists l, arr_cstring (p_name q) l /\ (length l <= 15)%nat.

Lemma state_arr st : arr_cstring (literal (procstate_name st)) (chars (procstate_name st)).
Proof. exists []. split; [by destruct st|]. destruct st; repeat constructor. Qed.

Lemma state_length st : (length (chars (procstate_name st)) <= 9)%nat.
Proof. destruct st; cbn; lia. Qed.

Lemma arr_cstr src l : arr_cstring src l -> cstr src = l.
Proof.
  intros (r & -> & Hl). apply cstr_app. eapply Forall_impl; [exact Hl|]. simpl. lia.
Qed.

Section fill.
Context (ps : list proc) (d : list Z) (k : Z) (q : proc).
Context (Hk : 0 <= k) (Hd : (k + 1) * PS_SIZE <= Z.of_nat (length d)).

Let o := k * PS_SIZE.
Let d1 := set32 d o (p_pid q).
Let d2 := set32 d1 (o + 4) (ppid_of ps q).
Let f8 := copy_field (slice (o + 8) 10 d2) (literal (procstate_name (p_state q))) 10.
Let d3 := patch d2 (o + 8) f8.
Let f18 := copy_field (slice (o + 18) 16 d3) (p_name q) 16.

Lemma fill_bounds : 0 <= o /\ o + 36 <= Z.of_nat (length d).
Proof. unfold o, PS_SIZE in *. lia. Qed.

Lemma fill_lengths :
  length d1 = length d /\ length d2 = length d /\ length f8 = 10%nat /\ length d3 = length d /\
  length f18 = 16%nat.
Proof.
  destruct fill_bounds as [Ho Hb].
  assert (length d1 = length d) as E1 by (apply set32_length; lia).
  assert (length d2 = length d) as E2 by (rewrite <- E1; apply set32_length; lia).
  assert (length f8 = 10%nat) as E3 by (unfold f8; rewrite copy_field_length, slice_length; lia).
  assert (length d3 = length d) as E4 by (rewrite <- E2; apply patch_length; lia).
  split; [done|]. split; [done|]. split; [done|]. split; [done|].
  unfold f18. rewrite copy_field_length, slice_length; lia.
Qed.

Lemma fill_eq : ps_fill d k q (ppid_of ps q) = patch d3 (o + 18) f18.
Proof. reflexivity. Qed.

Lemma fill_length : length (ps_fill d k q (ppid_of ps q)) = length d.
Proof.
  destruct fill_bounds as [Ho Hb], fill_lengths as (E1 & E2 & E3 & E4 & E5).
  rewrite fill_eq, patch_length; (done || lia).
Qed.

Lemma fill_bytes : Forall byte d -> Forall byte (ps_fill d k q (ppid_of ps q)).
Proof.
  intros Hb. rewrite fill_eq. repeat apply patch_bytes; try apply copy_field_bytes; try apply unle_bytes. done.
Qed.

(** The bytes before the entry are kept. *)
Lemma fill_before a n :
  0 <= a -> 0 <= n -> a + n <= o -> slice a n (ps_fill d k q (ppid_of ps q)) = slice a n d.
Proof.
  intros. destruct fill_bounds as [Ho Hb], fill_lengths as (E1 & E2 & E3 & E4 & E5). rewrite fill_eq.
  rewrite slice_patch_ne by lia. unfold d3. rewrite slice_patch_ne by lia.
  unfold d2, set32. rewrite slice_patch_ne by (rewrite ?unle_length; lia).
  unfold d1, set32. by rewrite slice_patch_ne by (rewrite ?unle_length; lia).
Qed.

Lemma fill_entry : name_ok q -> entry_ok ps (ps_fill d k q (ppid_of ps q)) k q.
Proof.
  intros (l & Hl & Hlen). destruct fill_lengths as (E1 & E2 & E3 & E4 & E5). rewrite fill_eq.
  unfold entry_ok. fold o. unfold get32. destruct fill_bounds as [Ho Hb].
  rewrite !(slice_patch_ne d3) by lia. unfold d3. rewrite !(slice_patch_ne d2) by lia.
  split; [|split; [|split]].
  - fold (get32 d2 o). unfold d2. rewrite get32_set32_ne by lia. apply get32_set32; lia.
  - apply (get32_set32 d1); lia.
  - pose proof (slice_patch_same d2 (o + 8) f8) as Hs. rewrite E3 in Hs. change (Z.of_nat 10) with 10 in Hs.
    rewrite Hs by lia. unfold f8. rewrite (copy_field_cstr _ _ _ 9 (state_arr _)); [|rewrite slice_length; lia|done].
    apply take_ge, state_length.
  - pose proof (slice_patch_same d3 (o + 18) f18) as Hs. rewrite E5 in Hs. change (Z.of_nat 16) with 16 in Hs.
    fold d3. rewrite Hs by lia. unfold f18.
    rewrite (copy_field_cstr _ _ l 15 Hl); [|rewrite slice_length; lia|done].
    rewrite (arr_cstr _ _ Hl). by apply take_ge.
Qed.

End fill.

Lemma entry_ok_ext ps d d' k q :
  0 <= k -> slice (k * PS_SIZE) PS_SIZE d' = slice (k * PS_SIZE) PS_SIZE d ->
  entry_ok ps d k q -> entry_ok ps d' k q.
Proof.
  intros Hk E. unfold entry_ok, get32. set (o := k * PS_SIZE) in *.
  assert (0 <= o) by (unfold o, PS_SIZE; lia).
  assert (forall a n, 0 <= a -> 0 <= n -> a + n <= 36 -> slice (o + a) n d' = slice (o + a) n d) as H1.
  { intros a n Ha Hn Hs. rewrite <- !(slice_slice a n o PS_SIZE) by (unfold PS_SIZE; lia). by rewrite E. }
  pose proof (H1 0 4) as H0. rewrite Z.add_0_r in H0. by rewrite H0, !H1 by lia.
Qed.

(** The processes [ps] reports. *)
Definition live (l : list proc) : list proc := filter (fun q => p_state q <> UNUSED) l.

Lemma ps_fold ps l d k :
  (Z.of_nat k + Z.of_nat (length l)) * PS_SIZE <= Z.of_nat (length d) -> Forall name_ok l -> Forall byte d ->
  let r := fold_left (ps_step ps) l (d, Z.of_nat k) in
  r.2 = Z.of_nat (k + length (live l)) /\ length r.1 = length d /\ Forall byte r.1 /\
  (forall a n, 0 <= a -> 0 <= n -> a + n <= Z.of_nat k * PS_SIZE -> slice a n r.1 = slice a n d) /\
  (forall i q, live l !! i = Some q -> entry_ok ps r.1 (Z.of_nat (k + i)) q).
Proof.
  revert d k. induction l as [|q l IH]; intros d k Hd Hn Hb; cbn [fold_left].
  { cbn. rewrite Nat.add_0_r. repeat split; try done. }
  apply Forall_cons in Hn as [Hq Hn]. unfold live. rewrite !filter_cons. cbn [length] in Hd.
  destruct (decide (p_state q = UNUSED)) as [Hu|Hu].
  { assert (ps_step ps (d, Z.of_nat k) q = (d, Z.of_nat k)) as -> by (unfold ps_step; by rewrite decide_True).
    rewrite decide_False by tauto. apply IH; [unfold PS_SIZE in *; lia|done..]. }
  rewrite decide_True by done.
  assert (ps_step ps (d, Z.of_nat k) q = (ps_fill d (Z.of_nat k) q (ppid_of ps q), Z.of_nat k + 1)) as ->
    by (unfold ps_step; by rewrite decide_False).
  set (d1 := ps_fill d (Z.of_nat k) q (ppid_of ps q)).
  assert ((Z.of_nat k + 1) * PS_SIZE <= Z.of_nat (length d)) as Hd1 by (unfold PS_SIZE in *; lia).
  assert (length d1 = length d) as El by (apply fill_length; (done || lia)).
  replace (Z.of_nat k + 1) with (Z.of_nat (S k)) by lia.
  destruct (IH d1 (S k)) as (H1 & H2 & H3 & H4 & H5);
    [rewrite El; unfold PS_SIZE in *; lia|done|apply fill_bytes; (done || lia)|].
  fold (live l). cbn [length]. split; [rewrite H1; f_equal; lia|]. split; [by rewrite H2|]. split; [done|]. split.
  - intros a n Ha Hn' Hs. rewrite H4 by (unfold PS_SIZE in *; lia). apply fill_before; (done || lia).
  - intros [|i] p' Ep; cbn in Ep.
    + injection Ep as <-. rewrite Nat.add_0_r. apply (entry_ok_ext ps d1); [lia| |apply fill_entry; (done || lia)].
      apply H4; unfold PS_SIZE; lia.
    + replace (k + S i)%nat with (S k + i)%nat by lia. by apply H5.
Qed.

Lemma live_length l : (length (live l) <= length l)%nat.
Proof. apply length_filter. Qed.

(** ** The kernel stack is apart from user memory *)

Section stack.
Context `{image}.

Definition kstack_write (a len : Z) : Prop := KSTACK 0 <= a /\ a + len <= KSTACK 0 + PGSIZE.

Lemma kstack_not_page q a : page_ok q -> KSTACK 0 <= a -> ~ q <= a < q + PGSIZE.
Proof. intros [_ Hq] Ha. change (KSTACK 0) with (2 ^ 38 - 3 * 4096) in Ha. pgconst. lia. Qed.

Lemma umem_kstack pr T U m a l :
  umem pr T U m -> kstack_write a (Z.of_nat (length l)) -> umem pr T U (wr_bytes m a l).
Proof.
  intros [R Hs Hp Ht Htt Htu] [Ha Hb]. split; try done.
  apply (pt_frame {[KSTACK 0]} m _ _ T U); [done| | |].
  - intros b Hb'. specialize (Hb' (KSTACK 0) ltac:(set_solver)). rewrite rd8_wr_bytes, decide_False; [done|lia].
  - intros q ->%elem_of_singleton. done.
  - intros t [p Ep]%elem_of_tpages Hq%elem_of_singleton. subst t. apply (pt_page _ _ _ _ R) in Ep as [_ Ep].
    change (KSTACK 0) with (2 ^ 38 - 3 * 4096) in Ep. pgconst. lia.
Qed.

Lemma tf_kstack pr T U m a l off :
  umem pr T U m -> kstack_write a (Z.of_nat (length l)) -> tf_field off ->
  rd64 (wr_bytes m a l) (p_trapframe pr + off) = rd64 m (p_trapframe pr + off).
Proof.
  intros Hu [Ha Hb] [Ho Hs]. apply rd64_ext. intros i Hi. rewrite rd8_wr_bytes, decide_False; [done|].
  pose proof (kstack_not_page _ (p_trapframe pr + off + i) (um_tf _ _ _ _ Hu)). lia.
Qed.

Lemma stored_slice U va src n m m' off len :
  0 <= va -> stored U va src n m m' -> Forall byte src -> (n <= length src)%nat ->
  0 <= off -> 0 <= len -> off + len <= Z.of_nat n ->
  (forall i, 0 <= i < Z.of_nat n -> accessible U (va + i)) ->
  vbytes m' U (va + off) (Z.to_nat len) = slice off len src.
Proof.
  intros Hva [Hst _] Hb Hn Ho Hl Hs Ha. apply list_eq. intros i.
  destruct (decide (i < Z.to_nat len)%nat) as [Hi|Hi].
  - rewrite lookup_vbytes by done. rewrite slice_lookup by lia.
    replace (va + off + Z.of_nat i) with (va + (off + Z.of_nat i)) by lia.
    rewrite Hst, decide_True by (try apply Ha; lia).
    replace (Z.to_nat (va + (off + Z.of_nat i) - va)) with (Z.to_nat off + i)%nat by lia.
    destruct (lookup_lt_is_Some_2 src (Z.to_nat off + i)) as [x Ex]; [lia|]. rewrite Ex. cbn. f_equal.
    apply u8_small. by eapply (Forall_lookup_1 byte) in Ex.
  - rewrite !lookup_ge_None_2; [done| |rewrite length_vbytes; lia]. unfold slice. rewrite length_take. lia.
Qed.

End stack.

(** ** The system calls *)

Section ps.
Context `{image} (Himg : image_ok) `{environment} `{patience} `{disk_driver}.

(** The array [ps] when it is copied out. *)
Definition ps_array (s : kst) : list Z :=
  (fold_left (ps_step (procs s)) (procs s) (rd_bytes (NPROC * Z.to_nat PS_SIZE) (mem s) local_ps, 0)).1.

Lemma ps_array_ok s :
  length (procs s) = NPROC -> Forall name_ok (procs s) ->
  (fold_left (ps_step (procs s)) (procs s) (rd_bytes (NPROC * Z.to_nat PS_SIZE) (mem s) local_ps, 0)).2
    = Z.of_nat (length (live (procs s))) /\
  length (ps_array s) = (NPROC * 36)%nat /\ Forall byte (ps_array s) /\
  forall i q, live (procs s) !! i = Some q -> entry_ok (procs s) (ps_array s) (Z.of_nat i) q.
Proof.
  intros Hlen Hn.
  destruct (ps_fold (procs s) (procs s) (rd_bytes (NPROC * Z.to_nat PS_SIZE) (mem s) local_ps) 0)
    as (P1 & P2 & P3 & _ & P5); [|done|apply rd_bytes_bytes|].
  { rewrite Hlen, length_rd_bytes. done. }
  rewrite length_rd_bytes in P2. exact (conj P1 (conj P2 (conj P3 P5))).
Qed.

Lemma running_mem p pr m s : running p pr s -> running p pr (with_mem m s).
Proof. intros []. by split. Qed.

Lemma sys_ps_ok p pr T U s :
  running p pr s -> umem pr T U (mem s) ->
  length (procs s) = NPROC -> Forall name_ok (procs s) ->
  let va := rd64 (mem s) (p_trapframe pr + TF_a0) in
  let n := length (live (procs s)) in
  buffer U va (Z.of_nat n * PS_SIZE) ->
  exists m', sys_ps s = Ok (Z.of_nat n) (with_mem m' (touch s)) /\ umem pr T U m' /\
    stored U va (ps_array s) (n * 36) (wr_bytes (mem s) local_ps (ps_array s)) m'.
Proof.
  intros Hr Hu Hlen Hnm va n Hb. destruct (ps_array_ok s Hlen Hnm) as (Hn & Hl & Hby & _).
  unfold sys_ps, load_bytes. rewrite bind_gets, bind_gets. cbv zeta. fold (ps_array s). rewrite Hn. fold n.
  unfold store_bytes. rewrite bind_modify. set (m1 := wr_bytes (mem s) local_ps (ps_array s)).
  assert (kstack_write local_ps (Z.of_nat (length (ps_array s)))) as Hkw by (rewrite Hl; done).
  pose proof (umem_kstack pr T U _ _ _ Hu Hkw) as Hu1. fold m1 in Hu1.
  pose proof (running_mem p pr m1 s Hr) as Hr1.
  unfold argaddr. rewrite (bind_ok _ _ _ _ _ (argraw_eq p pr 0 _ Hr1 ltac:(lia))).
  pose proof (running_touch _ _ _ Hr1) as Hr2.
  rewrite (bind_ok _ _ _ _ _ (curproc_running p pr _ Hr2)), touch_touch. unfold pget. rewrite bind_gets.
  rewrite (run_proc _ _ _ Hr2). cbn [default from_option id].
  change (mem (with_mem m1 s)) with m1. replace (TF_a0 + 8 * 0) with TF_a0 by lia.
  unfold m1 at 1. rewrite (tf_kstack pr T U) by done. fold va.
  assert (n <= NPROC)%nat as Hnp by (rewrite <- Hlen; apply live_length).
  destruct (copyout_spec Himg pr T U va (ps_array s) (Z.of_nat n * PS_SIZE) (touch (with_mem m1 s)))
    as (k & m' & Hk & E & Hst & Hu' & Ha & Hna);
    [exact Hu1|apply rd64_range|unfold NPROC, PS_SIZE in *; lia|rewrite Hl; unfold PS_SIZE; lia|].
  assert (k = n * 36)%nat as ->.
  { destruct (decide (Z.of_nat k < Z.of_nat n * PS_SIZE)) as [Hlt|]; [|unfold PS_SIZE in *; lia].
    destruct (Hna Hlt). apply Hb. lia. }
  rewrite (bind_ok _ _ _ _ _ E). replace (Z.of_nat (n * 36) =? Z.of_nat n * PS_SIZE) with true
    by (symmetry; apply Z.eqb_eq; unfold PS_SIZE; lia).
  cbn [Z.ltb Z.compare]. exists m'. split; [|exact (conj Hu' Hst)]. reflexivity.
Qed.



End ps.
