(* ===== verification/Trap.v ===== *)
(** * Traps and interrupts: kernel/trap.c and kernel/plic.c, and forkret of kernel/proc.c *)

From S2P Require Import Prelude Riscv Memory State Spinlock Sched Sleeplock Kalloc Vm Uart.
From S2P Require Import Printf Console Virtio Bio Log Fs Pipe File Proc Args Exec Sysproc.
From S2P Require Import Sysfile Syscall.

(** ** kernel/plic.c *)

Definition plicinit : K unit :=
  mmio_wr (PLIC + UART0_IRQ * 4) 1;;
  mmio_wr (PLIC + VIRTIO0_IRQ * 4) 1.

Definition plicinithart : K unit :=
  hart <- cpuid;;
  mmio_wr (PLIC_SENABLE hart) (Z.lor (Z.shiftl 1 UART0_IRQ) (Z.shiftl 1 VIRTIO0_IRQ));;
  mmio_wr (PLIC_SPRIORITY hart) 0.

Definition plic_claim : K Z :=
  hart <- cpuid;;
  irq <- mmio_rd (PLIC_SCLAIM hart);;
  ret (i32 irq).

Definition plic_complete (irq : Z) : K unit :=
  hart <- cpuid;;
  mmio_wr (PLIC_SCLAIM hart) (u32 irq).

(** ** Registers *)

Definition regset (f : csrs -> csrs) : K unit := modify (fun s => with_regs (f (regs s)) s).
Definition r_scause : K Z := gets (fun s => scause (regs s)).
Definition r_sepc : K Z := gets (fun s => sepc (regs s)).
Definition r_stval : K Z := gets (fun s => stval (regs s)).
Definition r_satp : K Z := gets (fun s => satp (regs s)).
Definition r_sip : K Z := gets (fun s => sip (regs s)).
Definition r_tp : K Z := gets (fun s => tp (regs s)).
Definition w_stvec (x : Z) : K unit := regset (with_stvec x).
Definition w_sepc (x : Z) : K unit := regset (with_sepc x).
Definition w_sip (x : Z) : K unit := regset (with_sip x).
Definition w_satp (x : Z) : K unit := regset (with_satp x).

(** ** kernel/trap.c *)

Definition trapinit : K unit := initlock L_tick "time".

Section trap.
Context `{image} `{environment} `{patience} `{disk_driver}.

Definition trapinithart : K unit := w_stvec kernelvec_pc.

Definition clockintr : K unit :=
  acquire L_tick;;
  modify (fun s => with_ticks (u32 (ticks s + 1)) s);;
  wakeup Ch_ticks;;
  release L_tick.

Definition devintr : K Z :=
  sc <- r_scause;;
  if negb (Z.land sc 0x8000000000000000 =? 0) && (Z.land sc 0xff =? 9) then
    irq <- plic_claim;;
    (if irq =? UART0_IRQ then uartintr
     else if irq =? VIRTIO0_IRQ then virtio_disk_intr
     else if negb (irq =? 0) then printf (chars "unexpected interrupt irq=%d" ++ newline) [V_int irq]
     else ret tt);;
    (if negb (irq =? 0) then plic_complete irq else ret tt);;
    ret 1
  else if sc =? 0x8000000000000001 then
    id <- cpuid;;
    (if id =? 0 then clockintr else ret tt);;
    x <- r_sip;;
    w_sip (Z.land x (Z.lnot 2));;
    ret 2
  else ret 0.

(** [usertrapret] jumps to [userret] in the trampoline: the address and the argument. *)
Definition usertrapret : K (Z * Z) :=
  p <- curproc;;
  intr_off;;
  let trampoline_uservec := TRAMPOLINE + (uservec - trampoline) in
  w_stvec trampoline_uservec;;
  kernel_satp <- r_satp;;
  tf_set p TF_kernel_satp kernel_satp;;
  pr <- pget p;;
  tf_set p TF_kernel_sp (p_kstack pr +u PGSIZE);;
  tf_set p TF_kernel_trap usertrap_pc;;
  hartid <- r_tp;;
  tf_set p TF_kernel_hartid hartid;;
  x <- r_sstatus;;
  let x := Z.land x (Z.lnot SSTATUS_SPP) in
  let x := Z.lor x SSTATUS_SPIE in
  w_sstatus x;;
  epc <- tf_get p TF_epc;;
  w_sepc epc;;
  pr <- pget p;;
  let satp := MAKE_SATP (p_pagetable pr) in
  let trampoline_userret := TRAMPOLINE + (userret - trampoline) in
  ret (trampoline_userret, satp).

(** The body of [usertrap] between the bookkeeping and the way out: what [which_dev] is. *)
Definition usertrap_cause (p : nat) : K Z :=
  sc <- r_scause;;
  if sc =? 8 then
    pset p (fun pr => with_systemcallCount (i32 (systemcallCount pr + 1)) pr);;
    k <- killed p;;
    (if negb (k =? 0) then exit (-1) else ret tt);;
    epc <- tf_get p TF_epc;;
    tf_set p TF_epc (epc +u 4);;
    intr_on;;
    syscall;;
    ret 0
  else
    which_dev <- devintr;;
    if negb (which_dev =? 0) then ret which_dev else
    pr <- pget p;;
    sepc <- r_sepc;;
    stval <- r_stval;;
    printf (chars "usertrap(): unexpected scause %p pid=%d" ++ newline)
      [V_ptr sc; V_int (p_pid pr)];;
    printf (chars "            sepc=%p stval=%p" ++ newline) [V_ptr sepc; V_ptr stval];;
    setkilled p;;
    ret 0.

(** [None]: there is no current process, and [usertrap] just returns. *)
Definition usertrap : K (option (Z * Z)) :=
  q <- myproc;;
  match q with
  | None => ret None
  | Some p =>
      pset p (fun pr => with_trapCount (i32 (trapCount pr + 1)) pr);;
      st <- r_sstatus;;
      if negb (Z.land st SSTATUS_SPP =? 0) then panic "usertrap: not from user mode" else
      w_stvec kernelvec_pc;;
      pc <- r_sepc;;
      tf_set p TF_epc pc;;
      which_dev <- usertrap_cause p;;
      k <- killed p;;
      (if negb (k =? 0) then exit (-1) else ret tt);;
      (if which_dev =? 2 then
         pset p (fun pr => with_interruptCount (i32 (interruptCount pr + 1)) pr);;
         yield
       else ret tt);;
      r <- usertrapret;;
      ret (Some r)
  end.

Definition kerneltrap : K unit :=
  pc <- r_sepc;;
  status <- r_sstatus;;
  sc <- r_scause;;
  if Z.land status SSTATUS_SPP =? 0 then panic "kerneltrap: not from supervisor mode" else
  i <- intr_get;;
  if negb (i =? 0) then panic "kerneltrap: interrupts enabled" else
  which_dev <- devintr;;
  if which_dev =? 0 then
    printf (chars "scause %p" ++ newline) [V_ptr sc];;
    sepc <- r_sepc;;
    stval <- r_stval;;
    printf (chars "sepc=%p stval=%p" ++ newline) [V_ptr sepc; V_ptr stval];;
    panic "kerneltrap"
  else
  (if which_dev =? 2 then
     q <- myproc;;
     match q with
     | None => ret tt
     | Some p => pr <- pget p;; if decide (p_state pr = RUNNING) then yield else ret tt
     end
   else ret tt);;
  w_sepc pc;;
  w_sstatus status.

(** A fork child's first scheduling starts here. *)
Definition forkret : K (Z * Z) :=
  p <- curproc;;
  release (L_proc p);;
  first <- gets first_ret;;
  (if first then
     modify (with_first_ret false);;
     fsinit ROOTDEV
   else ret tt);;
  usertrapret.

End trap.
