(* ===== verification/TrapSpec.v ===== *)
(** * Traps from user space, end to end

    A trap from user mode enters [usertrap], which counts it, handles it and goes back to
    user space through [usertrapret]. *)

From S2P Require Import Prelude Riscv Memory CString Bytes State Spinlock Sched SchedSpec.
From S2P Require Import Kalloc Vm PageTable VmSpec UserCopy Sleeplock Uart Printf Console.
From S2P Require Import Virtio Bio Log Fs Pipe File Proc UserProc Args Sysproc Exec Sysfile.
From S2P Require Import Syscall SysprocSpec Trap.

(** A state apart from the hart, the locks, the process table and memory. *)
Definition rest (s : kst) : kst := with_rcl csrs0 [] ∅ (with_procs [] (with_mem ∅ s)).

(** The hart runs process [p] in the kernel without a lock; the process table is [ps] and
    memory is [m]. *)
Record in_kernel (p : nat) (ps : list proc) (m : memory) (lk : gmap lockref spinlock) (r : kst)
  (s : kst) : Prop := {
  ik_no_lock : no_lock s;
  ik_cur : cur s = Some p;
  ik_procs : procs s = ps;
  ik_mem : mem s = m;
  ik_locks : locks s = lk;
  ik_rest : rest s = r
}.

Lemma ik_touch p ps m lk r s : in_kernel p ps m lk r s -> in_kernel p ps m lk r (touch s).
Proof. intros []. split; [by apply touch_no_lock|by rewrite cur_touch|done..]. Qed.

Lemma ik_upd p ps m lk r s f :
  in_kernel p ps m lk r s -> in_kernel p (alter f p ps) m lk r (upd p f s).
Proof.
  intros []. split; [done| |by subst|done..]. by rewrite cur_framed by apply upd_framed.
Qed.

Lemma ik_mem_set p ps m m' lk r s :
  in_kernel p ps m lk r s -> in_kernel p ps m' lk r (with_mem m' s).
Proof. intros []. by split. Qed.

(** A register write that keeps [tp]. *)
Lemma ik_regs p ps m lk r s x :
  tp x = tp (regs s) -> in_kernel p ps m lk r s -> in_kernel p ps m lk r (with_regs x s).
Proof.
  intros E [[c [Ec Hn]] Hc]. split; try done.
  - exists c. split; [|done]. unfold me. cbn. rewrite E. exact Ec.
  - unfold cur, me. cbn. rewrite E. exact Hc.
Qed.

Lemma ik_hart p ps m lk r s : in_kernel p ps m lk r s -> hart_ok s.
Proof. intros []. by apply no_lock_hart. Qed.

Lemma ik_running p ps m lk r s pr : in_kernel p ps m lk r s -> ps !! p = Some pr -> running p pr s.
Proof. intros Hk E. split; [by eapply ik_hart|apply Hk|]. by rewrite (ik_procs _ _ _ _ _ _ Hk). Qed.

(** Steps of code that runs in the kernel for process [p]. *)

Lemma step_tf_set {A} p pr ps m lk r s off v (k : unit -> K A) :
  in_kernel p ps m lk r s -> ps !! p = Some pr ->
  bind (tf_set p off v) k s = k tt (with_mem (wr64 m (p_trapframe pr + off) v) s).
Proof.
  intros [] E. subst. by rewrite (bind_ok _ _ _ _ _ (tf_set_eq p pr off v s E)).
Qed.

Lemma step_tf_get {A} p pr ps m lk r s off (k : Z -> K A) :
  in_kernel p ps m lk r s -> ps !! p = Some pr ->
  bind (tf_get p off) k s = k (rd64 m (p_trapframe pr + off)) s.
Proof.
  intros [] E. subst. by rewrite (bind_ok _ _ _ _ _ (tf_get_eq p pr off s E)).
Qed.

Lemma step_pget {A} p pr ps m lk r s (k : proc -> K A) :
  in_kernel p ps m lk r s -> ps !! p = Some pr -> bind (pget p) k s = k pr s.
Proof. intros [] E. subst. unfold pget. rewrite bind_gets, E. done. Qed.

(** Runs [tf_set], and updates what is known of the state. *)
Ltac step_set H E :=
  lazymatch type of H with in_kernel ?p ?ps ?m ?lk ?r ?s =>
  lazymatch type of E with _ = Some ?pr =>
  lazymatch goal with |- context [bind (tf_set p ?off ?v) ?k s] =>
    rewrite (step_tf_set p pr ps m lk r s off v k H E);
    apply (ik_mem_set p ps m (wr64 m (p_trapframe pr + off) v) lk r s) in H;
    repeat change (with_mem ?a (with_mem ?b ?c)) with (with_mem a c) in H;
    repeat change (with_mem ?a (with_mem ?b ?c)) with (with_mem a c)
  end end end.

(** The two assignments to [sstatus] before [sret]. *)
Lemma sret_spp y : Z.land (Z.lor (Z.land y (Z.lnot SSTATUS_SPP)) SSTATUS_SPIE) SSTATUS_SPP = 0.
Proof.
  rewrite Z.land_lor_distr_l, <- Z.land_assoc, (Z.land_comm (Z.lnot _)), Z.land_lnot_diag.
  by rewrite Z.land_0_r.
Qed.

Lemma sret_sie y :
  Z.land y SSTATUS_SIE = 0 ->
  Z.land (Z.lor (Z.land y (Z.lnot SSTATUS_SPP)) SSTATUS_SPIE) SSTATUS_SIE = 0.
Proof.
  intros E. rewrite Z.land_lor_distr_l, <- Z.land_assoc, (Z.land_comm (Z.lnot _)), Z.land_assoc, E.
  done.
Qed.

Section trap.
Context `{image} (Himg : image_ok) `{environment} `{patience} `{disk_driver}.

(** What [usertrap] and [usertrapret] leave in the registers and the trapframe. *)
Definition trap_return (pr : proc) (r : csrs) (m : memory) : memory :=
  wr64 (wr64 (wr64 (wr64 m (p_trapframe pr + TF_kernel_satp) (satp r))
    (p_trapframe pr + TF_kernel_sp) (p_kstack pr +u PGSIZE))
    (p_trapframe pr + TF_kernel_trap) usertrap_pc)
    (p_trapframe pr + TF_kernel_hartid) (tp r).

Lemma trap_return_rd pr r m off :
  40 <= off \/ off = TF_epc ->
  rd64 (trap_return pr r m) (p_trapframe pr + off) = rd64 m (p_trapframe pr + off).
Proof.
  intros Ho. unfold trap_return, TF_kernel_satp, TF_kernel_sp, TF_kernel_trap, TF_kernel_hartid, TF_epc in *.
  by rewrite !rd64_wr64_ne by lia.
Qed.

Lemma trap_return_umem pr T U r m : umem pr T U m -> umem pr T U (trap_return pr r m).
Proof. intros Hu. unfold trap_return. repeat apply umem_tf_set; try done. Qed.

Lemma usertrapret_eq p pr ps m lk r s :
  in_kernel p ps m lk r s -> ps !! p = Some pr ->
  exists s', usertrapret s =
      Ok (TRAMPOLINE + (userret - trampoline), MAKE_SATP (p_pagetable pr)) s' /\
    in_kernel p ps (trap_return pr (regs s) m) lk r s' /\
    sepc (regs s') = rd64 m (p_trapframe pr + TF_epc) /\
    stvec (regs s') = TRAMPOLINE + (uservec - trampoline) /\
    Z.land (sstatus (regs s')) SSTATUS_SPP = 0 /\ sie s' = 0.
Proof.
  intros Hk Ep. unfold usertrapret.
  rewrite (bind_ok _ _ _ _ _ (curproc_running p pr s (ik_running _ _ _ _ _ _ _ Hk Ep))).
  apply ik_touch in Hk. change (regs s) with (regs (touch s)). set (s0 := touch s) in *. clearbody s0.
  unfold intr_off, r_sstatus at 1. rewrite bind_assoc, bind_gets. unfold w_sstatus at 1. rewrite bind_modify.
  set (s1 := with_regs _ s0). assert (in_kernel p ps m lk r s1) as Hk1 by by apply ik_regs.
  unfold w_stvec, regset. rewrite bind_modify. set (s2 := with_regs _ s1).
  assert (in_kernel p ps m lk r s2) as Hk2 by by apply ik_regs.
  unfold r_satp. rewrite bind_gets.
  step_set Hk2 Ep.
  rewrite (step_pget _ _ _ _ _ _ _ _ Hk2 Ep).
  step_set Hk2 Ep.
  step_set Hk2 Ep.
  unfold r_tp. rewrite bind_gets.
  step_set Hk2 Ep.
  change (satp (regs s2)) with (satp (regs s0)) in *.
  change (tp (regs (with_mem _ s2))) with (tp (regs s0)) in *.
  fold (trap_return pr (regs s0) m) in *. set (m4 := trap_return pr (regs s0) m) in *.
  unfold r_sstatus. rewrite bind_gets. unfold w_sstatus. rewrite bind_modify.
  set (x := Z.lor _ SSTATUS_SPIE). set (s3 := with_regs (with_sstatus x _) _).
  assert (in_kernel p ps m4 lk r s3) as Hk3 by by apply ik_regs.
  rewrite (step_tf_get _ _ _ _ _ _ _ _ _ Hk3 Ep). unfold w_sepc, regset. rewrite bind_modify.
  set (s4 := with_regs _ s3). assert (in_kernel p ps m4 lk r s4) as Hk4 by by apply ik_regs.
  rewrite (step_pget _ _ _ _ _ _ _ _ Hk4 Ep). exists s4. split; [reflexivity|]. split; [exact Hk4|].
  split; [apply trap_return_rd; by right|]. split; [reflexivity|].
  change (sstatus (regs s4)) with x. unfold sie. change (sstatus (regs s4)) with x.
  assert (Z.land x SSTATUS_SIE = 0) as -> by (unfold x; apply sret_sie; apply sie_off).
  split; [|done]. apply sret_spp.
Qed.

(** ** System calls *)

(** What a system call trap counts. *)
Definition counted (pr : proc) : proc :=
  with_systemcallCount (i32 (systemcallCount pr + 1)) (with_trapCount (i32 (trapCount pr + 1)) pr).

(** The way out of [usertrap] after a system call. *)
Definition trap_exit (p : nat) : K (option (Z * Z)) :=
  (k <- killed p;;
   (if negb (k =? 0) then exit (-1) else ret tt);;
   r <- usertrapret;;
   ret (Some r))%M.

Lemma ik_killed p pr ps m lk r s nm :
  in_kernel p ps m lk r s -> ps !! p = Some pr -> lk !! L_proc p = Some (Spinlock 0 nm None) ->
  killed p s = Ok (p_killed pr) (touch s).
Proof.
  intros Hk Ep El. rewrite killed_eq; [|by eapply ik_hart|exists nm; by rewrite (ik_locks _ _ _ _ _ _ Hk)].
  by rewrite (ik_procs _ _ _ _ _ _ Hk), Ep.
Qed.

Lemma usertrap_ecall p pr ps m lk r s nm :
  in_kernel p ps m lk r s -> ps !! p = Some pr -> lk !! L_proc p = Some (Spinlock 0 nm None) ->
  scause (regs s) = 8 -> Z.land (sstatus (regs s)) SSTATUS_SPP = 0 -> p_killed pr = 0 ->
  0 <= sepc (regs s) < 2 ^ 64 ->
  exists s1,
    in_kernel p (<[p := counted pr]> ps)
      (wr64 (wr64 m (p_trapframe pr + TF_epc) (sepc (regs s)))
        (p_trapframe pr + TF_epc) (sepc (regs s) +u 4)) lk r s1 /\
    usertrap s = (syscall;; trap_exit p)%M s1.
Proof.
  intros Hk Ep El Hsc Hspp Hkl Hpc. unfold usertrap.
  rewrite (bind_ok _ _ _ _ _ (myproc_eq s (ik_hart _ _ _ _ _ _ Hk))), (ik_cur _ _ _ _ _ _ Hk).
  apply ik_touch in Hk. change (regs s) with (regs (touch s)) in *. set (s0 := touch s) in *. clearbody s0.
  rewrite pset_eq, bind_modify. set (f1 := fun pr0 => with_trapCount _ pr0).
  apply (ik_upd _ _ _ _ _ _ f1) in Hk. rewrite (list_alter_insert_lookup _ _ _ pr Ep) in Hk.
  unfold r_sstatus at 1. rewrite bind_gets. change (regs (upd p f1 s0)) with (regs s0). rewrite Hspp.
  cbn [Z.eqb negb]. unfold w_stvec, regset. rewrite bind_modify. set (s1 := with_regs _ _).
  assert (in_kernel p (<[p:=f1 pr]> ps) m lk r s1) as Hk1 by by apply ik_regs.
  assert (p < length ps)%nat as Hlt by by eapply lookup_lt_Some.
  assert (<[p:=f1 pr]> ps !! p = Some (f1 pr)) as Ep1 by by apply list_lookup_insert_eq.
  unfold r_sepc. rewrite bind_gets. step_set Hk1 Ep1. unfold usertrap_cause, r_scause.
  rewrite bind_assoc, bind_gets. change (scause (regs (with_mem _ s1))) with (scause (regs s0)).
  rewrite Hsc. cbn [Z.eqb Pos.eqb]. rewrite pset_eq, bind_assoc, bind_modify.
  set (f2 := fun pr0 => with_systemcallCount _ pr0). apply (ik_upd _ _ _ _ _ _ f2) in Hk1.
  rewrite (list_alter_insert_lookup _ _ _ _ Ep1), list_insert_insert_eq in Hk1.
  change (f2 (f1 pr)) with (counted pr) in Hk1.
  assert (<[p:=counted pr]> ps !! p = Some (counted pr)) as Ep2 by by apply list_lookup_insert_eq.
  rewrite bind_assoc, (bind_ok _ _ _ _ _ (ik_killed _ _ _ _ _ _ _ _ Hk1 Ep2 El)).
  change (p_killed (counted pr)) with (p_killed pr). rewrite Hkl. cbn [Z.eqb negb].
  apply ik_touch in Hk1. rewrite bind_assoc, bind_ret, bind_assoc.
  rewrite (step_tf_get _ _ _ _ _ _ _ _ _ Hk1 Ep2). rewrite bind_assoc.
  change (p_trapframe (counted pr)) with (p_trapframe pr).
  change (p_trapframe (f1 pr)) with (p_trapframe pr) in *.
  change (sepc (regs s1)) with (sepc (regs s0)) in *.
  rewrite rd64_wr64 by done. step_set Hk1 Ep2. change (p_trapframe (counted pr)) with (p_trapframe pr) in Hk1.
  rewrite bind_assoc. unfold intr_on, r_sstatus at 1. rewrite bind_assoc, bind_gets.
  unfold w_sstatus at 1. rewrite bind_modify. set (s2 := with_mem _ _) in *. clearbody s2.
  eexists. split; [|rewrite bind_assoc; reflexivity]. by apply ik_regs.
Qed.

Lemma trap_exit_eq p pr ps m lk r s nm :
  in_kernel p ps m lk r s -> ps !! p = Some pr -> lk !! L_proc p = Some (Spinlock 0 nm None) ->
  p_killed pr = 0 ->
  exists s', trap_exit p s =
      Ok (Some (TRAMPOLINE + (userret - trampoline), MAKE_SATP (p_pagetable pr))) s' /\
    in_kernel p ps (trap_return pr (regs s) m) lk r s' /\
    sepc (regs s') = rd64 m (p_trapframe pr + TF_epc) /\
    stvec (regs s') = TRAMPOLINE + (uservec - trampoline) /\
    Z.land (sstatus (regs s')) SSTATUS_SPP = 0 /\ sie s' = 0.
Proof.
  intros Hk Ep El Hkl. unfold trap_exit. rewrite (bind_ok _ _ _ _ _ (ik_killed _ _ _ _ _ _ _ _ Hk Ep El)).
  rewrite Hkl. cbn [Z.eqb negb]. rewrite bind_ret. apply ik_touch in Hk.
  destruct (usertrapret_eq p pr ps m lk r (touch s) Hk Ep) as (s' & E & Hrest).
  exists s'. rewrite (bind_ok _ _ _ _ _ E). exact (conj eq_refl Hrest).
Qed.

(** A system call that ends normally stores its result in [a0]. *)
Lemma syscall_eq p pr ps m lk r s num f v s1 m1 :
  in_kernel p ps m lk r s -> ps !! p = Some pr ->
  i32 (rd64 m (p_trapframe pr + TF_a7)) = num -> syscall_entry num = Some f ->
  f (touch s) = Ok v s1 -> in_kernel p ps m1 lk r s1 ->
  exists s', syscall s = Ok tt s' /\
    in_kernel p ps (wr64 m1 (p_trapframe pr + TF_a0) (u64 v)) lk r s' /\ regs s' = regs s1.
Proof.
  intros Hk Ep Hnum Hf Ef Hk1. unfold syscall.
  rewrite (bind_ok _ _ _ _ _ (curproc_running p pr s (ik_running _ _ _ _ _ _ _ Hk Ep))).
  apply ik_touch in Hk. rewrite (step_tf_get _ _ _ _ _ _ _ _ _ Hk Ep). cbv zeta. rewrite Hnum, Hf.
  rewrite (bind_ok _ _ _ _ _ Ef). eexists. split; [|split].
  - rewrite (tf_set_eq p pr); [rewrite (ik_mem _ _ _ _ _ _ Hk1); reflexivity|].
    by rewrite (ik_procs _ _ _ _ _ _ Hk1).
  - by eapply ik_mem_set.
  - reflexivity.
Qed.

(** Trapframe writes do not show in user memory. *)
Lemma vread_trap_return pr T U r m va :
  umem pr T U m -> accessible U va -> vread (trap_return pr r m) U va = vread m U va.
Proof.
  intros Hu Ha. unfold trap_return.
  assert (forall off, 0 <= off <= 4088 -> tf_field off) as Hf by (intros; split; unfold PGSIZE; lia).
  repeat (rewrite (vread_tf_set pr T); [|repeat apply umem_tf_set; (done || by apply Hf)|by apply Hf|done]).
  done.
Qed.

(** The memory in which a system call runs: [epc] is past the [ecall]. *)
Definition entered (pr : proc) (pc : Z) (m : memory) : memory :=
  wr64 (wr64 m (p_trapframe pr + TF_epc) pc) (p_trapframe pr + TF_epc) (pc +u 4).

(** A whole system call trap, for a handler [f] that ends normally and leaves the processes
    and the locks alone: [P] is what the handler establishes of memory. *)
Lemma usertrap_syscall p pr ps m lk r s nm num f v P :
  in_kernel p ps m lk r s -> ps !! p = Some pr -> lk !! L_proc p = Some (Spinlock 0 nm None) ->
  scause (regs s) = 8 -> Z.land (sstatus (regs s)) SSTATUS_SPP = 0 -> p_killed pr = 0 ->
  0 <= sepc (regs s) < 2 ^ 64 ->
  i32 (rd64 m (p_trapframe pr + TF_a7)) = num -> syscall_entry num = Some f ->
  (forall s1, in_kernel p (<[p := counted pr]> ps) (entered pr (sepc (regs s)) m) lk r s1 ->
     exists s2 m2, f s1 = Ok v s2 /\ in_kernel p (<[p := counted pr]> ps) m2 lk r s2 /\ P m2) ->
  exists (s' : kst) (m2 : memory) (x : csrs), usertrap s =
      Ok (Some (TRAMPOLINE + (userret - trampoline), MAKE_SATP (p_pagetable pr))) s' /\
    P m2 /\ sepc (regs s') = rd64 (wr64 m2 (p_trapframe pr + TF_a0) (u64 v)) (p_trapframe pr + TF_epc) /\
    in_kernel p (<[p := counted pr]> ps)
      (trap_return (counted pr) x (wr64 m2 (p_trapframe pr + TF_a0) (u64 v))) lk r s'.
Proof.
  intros Hk Ep El Hsc Hspp Hkl Hpc Hnum Hf Hrun.
  destruct (usertrap_ecall p pr _ _ _ _ s nm Hk Ep El Hsc Hspp Hkl Hpc) as (s1 & Hk1 & ->).
  change (wr64 (wr64 m _ _) _ _) with (entered pr (sepc (regs s)) m) in Hk1.
  assert (p < length ps)%nat as Hlt by by eapply lookup_lt_Some.
  assert (<[p:=counted pr]> ps !! p = Some (counted pr)) as Ep1 by by apply list_lookup_insert_eq.
  destruct (Hrun (touch s1)) as (s2 & m2 & E2 & Hk2 & HP); [by apply ik_touch|].
  destruct (syscall_eq p (counted pr) _ _ _ _ s1 num f v s2 m2 Hk1 Ep1) as (s3 & E3 & Hk3 & _);
    [|exact Hf|exact E2|exact Hk2|].
  { change (p_trapframe (counted pr)) with (p_trapframe pr). unfold entered.
    by rewrite !rd64_wr64_ne by (unfold TF_epc, TF_a7; lia). }
  rewrite (bind_ok _ _ _ _ _ E3).
  destruct (trap_exit_eq p (counted pr) _ _ _ _ s3 nm Hk3 Ep1 El Hkl) as (s' & E & Hk' & Hsepc & _).
  exists s', m2, (regs s3). split; [exact E|]. split; [exact HP|]. split; [exact Hsepc|exact Hk'].
Qed.

(** The stored bytes are the six counters. *)
Lemma history_stored U va pr m1 m2 :
  0 <= va < 2 ^ 64 -> buffer U va 24 -> stored U va (history_bytes (counted pr)) 24 m1 m2 ->
  vbytes m2 U va 24 = concat (map (unle 4) [runCount pr; systemcallCount (counted pr);
    interruptCount pr; preemptCount pr; trapCount (counted pr); sleepCount pr]).
Proof.
  intros Hva Hb Hst. pose proof (stored_bytes U va (history_bytes (counted pr)) m1 m2) as Hsb.
  rewrite history_length in Hsb. rewrite Hsb, history_u8; [reflexivity|lia|exact Hst|exact Hb].
Qed.


(** ** Timer interrupts *)

Definition TIMER : Z := 0x8000000000000001.

(** Every process lock is free. *)
Definition all_proc_locks_free (s : kst) : Prop := forall i, (i < NPROC)%nat -> lock_free (L_proc i) s.

Definition ticked (s : kst) : kst :=
  with_procs (wake Ch_ticks (cur s) (procs s)) (with_ticks (u32 (ticks s + 1)) s).

Lemma clockintr_eq s :
  hart_ok s -> lock_free L_tick s -> length (procs s) = NPROC -> all_proc_locks_free s ->
  clockintr s = Ok tt (touch (ticked s)).
Proof.
  intros Hh Hl Hlen Hp. unfold clockintr. rewrite (bind_ok _ _ _ _ _ (acquire_eq _ s Hh Hl)), bind_modify.
  set (s1 := with_ticks _ _).
  assert (s1 = take_lock L_tick (with_ticks (u32 (ticks s + 1)) s)) as Es1
    by (apply (framed_take (with_ticks (u32 (ticks s + 1)))); solve_framed).
  assert (held_ok L_tick s1) as Hh1 by (rewrite Es1; by apply held_take).
  assert (cur s1 = cur s) as Ec by exact (cur_take L_tick s).
  rewrite (bind_ok _ _ _ tt (with_procs (wake Ch_ticks (cur s) (procs s)) s1)).
  2:{ rewrite (wakeup_eq Ch_ticks s1); [|by eapply held_hart_ok|exact Hlen|].
      - unfold woken. by rewrite (touch_held L_tick), Ec.
      - intros i Hi _. rewrite Es1. by apply take_lock_other, Hp. }
  set (f := fun s0 => with_procs (wake Ch_ticks (cur s) (procs s)) (with_ticks (u32 (ticks s + 1)) s0)).
  change (release L_tick (f (take_lock L_tick s)) = Ok tt (touch (f s))).
  rewrite (release_framed f); [reflexivity|solve_framed|done|done].
Qed.

(** The effect of a timer interrupt before it is acknowledged: only hart 0 keeps the time. *)
Definition tick (s : kst) : kst := if i32 (tp (regs s)) =? 0 then ticked s else s.

Lemma devintr_timer s :
  hart_ok s -> lock_free L_tick s -> length (procs s) = NPROC -> all_proc_locks_free s ->
  scause (regs s) = TIMER ->
  exists s', devintr s = Ok 2 s' /\
    s' = with_regs (with_sip (Z.land (sip (regs s)) (Z.lnot 2)) (regs s))
           (if i32 (tp (regs s)) =? 0 then touch (ticked s) else s).
Proof.
  intros Hh Hl Hlen Hp Hsc. unfold devintr, r_scause. rewrite bind_gets, Hsc.
  change (negb (Z.land TIMER 0x8000000000000000 =? 0) && (Z.land TIMER 0xff =? 9)) with false.
  change (TIMER =? 0x8000000000000001) with true. cbv beta iota. unfold cpuid. rewrite bind_gets.
  eexists. split; [|reflexivity].
  destruct (i32 (tp (regs s)) =? 0); [rewrite (bind_ok _ _ _ _ _ (clockintr_eq s Hh Hl Hlen Hp))|rewrite bind_ret];
    reflexivity.
Qed.

(** A state in which a timer interrupt can be taken. *)
Record timer_ready (p : nat) (pr : proc) (s : kst) : Prop := {
  tr_no_lock : no_lock s;
  tr_cur : cur s = Some p;
  tr_proc : procs s !! p = Some pr;
  tr_len : length (procs s) = NPROC;
  tr_locks : all_proc_locks_free s;
  tr_tick : lock_free L_tick s;
  tr_killed : p_killed pr = 0
}.

(** The counters a timer interrupt taken in user mode advances. *)
Definition timer_counted (pr : proc) : proc :=
  with_interruptCount (i32 (interruptCount pr + 1)) (with_trapCount (i32 (trapCount pr + 1)) pr).

(** [usertrap] up to its call of [yield]. *)
Lemma usertrap_timer_pre p pr s :
  timer_ready p pr s ->
  scause (regs s) = TIMER -> Z.land (sstatus (regs s)) SSTATUS_SPP = 0 ->
  exists s1,
    usertrap s = (yield;; r <- usertrapret;; ret (Some r))%M s1 /\
    no_lock s1 /\ cur s1 = Some p /\ locks s1 = locks s /\
    mem s1 = wr64 (mem s) (p_trapframe pr + TF_epc) (sepc (regs s)) /\
    ticks s1 = (if i32 (tp (regs s)) =? 0 then u32 (ticks s + 1) else ticks s) /\
    nswtch s1 = nswtch s /\
    forall j q, procs s !! j = Some q -> procs s1 !! j = Some
      (if decide (j = p) then timer_counted q
       else if i32 (tp (regs s)) =? 0 then wake_one Ch_ticks q else q).
Proof.
  intros [Hn Hc Ep Hlen Hp Hl Hkl] Hsc Hspp. unfold usertrap.
  rewrite (bind_ok _ _ _ _ _ (myproc_eq s (no_lock_hart s Hn))), Hc.
  rewrite pset_eq, bind_modify. set (f1 := fun pr0 => with_trapCount _ pr0).
  unfold r_sstatus at 1. rewrite bind_gets. change (regs (upd p f1 (touch s))) with (regs s). rewrite Hspp.
  cbn [Z.eqb negb]. unfold w_stvec, regset. rewrite bind_modify. unfold r_sepc. rewrite bind_gets.
  set (s1 := with_regs _ _).
  assert (procs s1 !! p = Some (f1 pr)) as Ep1 by exact (upd_lookup p f1 (touch s) pr Ep).
  rewrite (bind_ok _ _ _ _ _ (tf_set_eq p (f1 pr) _ _ s1 Ep1)). set (s2 := with_mem _ s1).
  assert (no_lock s2) as Hn2 by exact (touch_no_lock s Hn).
  assert (cur s2 = Some p) as Hc2 by (rewrite <- Hc; exact (cur_touch s)).
  unfold usertrap_cause. unfold r_scause. rewrite bind_assoc, bind_gets.
  change (scause (regs s2)) with (scause (regs s)). rewrite Hsc. change (TIMER =? 8) with false. cbv beta iota.
  destruct (devintr_timer s2) as (s3 & E3 & Hs3);
    [by apply no_lock_hart|exact Hl|by (cbn; rewrite length_alter)|exact Hp|exact Hsc|].
  rewrite bind_assoc, (bind_ok _ _ _ _ _ E3). cbn [Z.eqb negb]. rewrite bind_ret.
  set (ps := if i32 (tp (regs s)) =? 0 then wake Ch_ticks (Some p) (procs s2) else procs s2).
  assert (no_lock s3 /\ cur s3 = Some p /\ locks s3 = locks s /\ mem s3 = mem s2 /\
    ticks s3 = (if i32 (tp (regs s)) =? 0 then u32 (ticks s + 1) else ticks s) /\
    nswtch s3 = nswtch s /\ procs s3 = ps) as (Hn3 & Hc3 & Hl3 & Hm3 & Ht3 & Hw3 & Hp3).
  { change (tp (regs s2)) with (tp (regs s)) in Hs3. unfold ps. rewrite <- Hc2. rewrite Hs3.
    destruct (i32 (tp (regs s)) =? 0); [|exact (conj Hn2 (conj eq_refl (conj eq_refl (conj eq_refl (conj eq_refl (conj eq_refl eq_refl))))))].
    split; [exact (touch_no_lock s2 Hn2)|]. split; [exact (cur_touch s2)|]. repeat split; reflexivity. }
  clear Hs3 E3. rewrite (bind_ok _ _ _ _ _ (killed_eq p s3 (no_lock_hart _ Hn3)
    ltac:(unfold lock_free; rewrite Hl3; apply Hp; rewrite <- Hlen; by eapply lookup_lt_Some))).
  assert (forall j q, procs s !! j = Some q -> procs s3 !! j = Some
    (if decide (j = p) then f1 q else if i32 (tp (regs s)) =? 0 then wake_one Ch_ticks q else q)) as Hlk.
  { intros j q Eq. rewrite Hp3. unfold ps.
    assert (procs s2 !! j = Some (if decide (j = p) then f1 q else q)) as E2.
    { change (procs s2) with (alter f1 p (procs s)). destruct (decide (j = p)) as [->|Hne].
      - by rewrite list_lookup_alter_eq, Eq.
      - by rewrite list_lookup_alter_ne. }
    destruct (i32 (tp (regs s)) =? 0); [|exact E2]. unfold wake. rewrite list_lookup_imap, E2. cbn.
    destruct (decide (j = p)) as [->|Hne]; [rewrite decide_False by tauto|rewrite decide_True by congruence]; done. }
  rewrite (Hlk p pr Ep), decide_True by done. cbn [default from_option id].
  change (p_killed (f1 pr)) with (p_killed pr). rewrite Hkl. cbn [Z.eqb negb Pos.eqb]. rewrite bind_ret.
  rewrite pset_eq, bind_assoc, bind_modify. set (f2 := fun pr0 => with_interruptCount _ pr0).
  exists (upd p f2 (touch s3)). split; [reflexivity|]. split; [exact (touch_no_lock s3 Hn3)|].
  split; [rewrite <- Hc3; exact (cur_touch s3)|]. split; [exact Hl3|]. split; [exact Hm3|].
  split; [exact Ht3|]. split; [exact Hw3|]. intros j q Eq.
  change (procs (upd p f2 (touch s3))) with (alter f2 p (procs s3)).
  pose proof (Hlk j q Eq) as Ej. destruct (decide (j = p)) as [->|Hne].
  - by rewrite list_lookup_alter_eq, Ej.
  - by rewrite list_lookup_alter_ne.
Qed.

(** C6: a timer interrupt taken in user mode preempts the process.  [usertrap] saves the user
    program counter and gives up the hart in a state in which the process is RUNNABLE, its
    [trapCount], [interruptCount] and [preemptCount] are each one higher and its other
    counters are unchanged; if the hart is hart 0, [ticks] is one higher and exactly the
    processes sleeping on it have become RUNNABLE; every other process is unchanged.  Once the
    process runs again, [usertrap] returns to user space at the saved program counter. *)
Theorem usertrap_timer p pr s :
  timer_ready p pr s ->
  scause (regs s) = TIMER -> Z.land (sstatus (regs s)) SSTATUS_SPP = 0 ->
  exists h,
    only_lock (L_proc p) h /\
    mem h = wr64 (mem s) (p_trapframe pr + TF_epc) (sepc (regs s)) /\
    ticks h = (if i32 (tp (regs s)) =? 0 then u32 (ticks s + 1) else ticks s) /\
    procs h !! p = Some (with_preemptCount (i32 (preemptCount pr + 1)) (with_p_state RUNNABLE
      (with_interruptCount (i32 (interruptCount pr + 1))
        (with_trapCount (i32 (trapCount pr + 1)) pr)))) /\
    (forall j q, procs s !! j = Some q -> j <> p -> procs h !! j = Some
       (if i32 (tp (regs s)) =? 0 then wake_one Ch_ticks q else q)) /\
    match env (nswtch s) h with
    | None => usertrap s = Gone h
    | Some s2 => forall pr2,
        resumed p s2 -> cur s2 = Some p -> procs s2 !! p = Some pr2 ->
        exists s', usertrap s =
            Ok (Some (TRAMPOLINE + (userret - trampoline), MAKE_SATP (p_pagetable pr2))) s' /\
          sepc (regs s') = rd64 (mem s2) (p_trapframe pr2 + TF_epc) /\ procs s' = procs s2
    end.
Proof.
  intros Hr Hsc Hspp. destruct (usertrap_timer_pre p pr s Hr Hsc Hspp)
    as (s1 & -> & Hn1 & Hc1 & Hl1 & Hm1 & Ht1 & Hw1 & Hp1). destruct Hr as [Hn Hc Ep Hlen Hp Hl Hkl].
  pose proof (Hp1 p pr Ep) as Ep1. rewrite decide_True in Ep1 by done.
  assert (lock_free (L_proc p) s1) as Hf1.
  { unfold lock_free. rewrite Hl1. apply Hp. rewrite <- Hlen. by eapply lookup_lt_Some. }
  destruct (yield_eq p _ s1 Hn1 Hf1 Hc1 Ep1) as [ie Ey]. exists (yielded p s1).
  split; [by apply yielded_only|]. split; [exact Hm1|]. split; [exact Ht1|].
  split; [exact (upd_lookup p preempted (take_lock (L_proc p) (touch s1)) _ Ep1)|].
  split.
  { intros j q Eq Hne. change (procs (yielded p s1)) with (alter preempted p (procs s1)).
    rewrite list_lookup_alter_ne by done. by rewrite (Hp1 j q Eq), decide_False. }
  rewrite <- Hw1. change (nswtch s1) with (nswtch (yielded p s1)).
  destruct (env (nswtch (yielded p s1)) (yielded p s1)) as [s2|] eqn:E.
  2:{ apply bind_gone. rewrite Ey. unfold resume. by rewrite E. }
  intros pr2 Hr2 Hc2 Ep2. set (s3 := set_intena ie (with_nswtch (S (nswtch (yielded p s1))) s2)).
  assert (only_lock (L_proc p) s3) as Ho3 by by apply set_intena_only.
  rewrite (bind_ok _ _ _ tt (drop_lock (L_proc p) s3)).
  2:{ rewrite Ey, (resume_eq _ _ _ s2 E). by apply release_held, only_held. }
  set (s4 := drop_lock (L_proc p) s3).
  assert (in_kernel p (procs s2) (mem s2) (locks s4) (rest s4) s4) as Hk.
  { split; [by apply drop_no_lock| |reflexivity..]. unfold s4. rewrite cur_drop.
    rewrite <- Hc2. unfold s3, cur, set_intena. change (me (with_cpus _ _)) with (me s2).
    cbn [cpus with_cpus with_nswtch]. change (me (with_nswtch _ s2)) with (me s2).
    rewrite list_lookup_alter_eq. by destruct (cpus s2 !! me s2). }
  destruct (usertrapret_eq p pr2 _ _ _ _ s4 Hk Ep2) as (s' & E' & Hk' & Hpc & _).
  exists s'. rewrite (bind_ok _ _ _ _ _ E'). split; [reflexivity|]. split; [exact Hpc|apply Hk'].
Qed.

End trap.
