(* ===== verification/TrapExamples.v ===== *)
(** * Examples: a process traps

    Process 1 (pid 7) of [SchedSpec] with the address space of [VmExamples]: its user page 0 is
    [pg 3], its trapframe is [pg 6], and its registers ask for [getschedhistory] with the
    buffer at 16. *)

From S2P Require Import Prelude Riscv Memory Bytes State Spinlock Sched SchedSpec Kalloc Vm.
From S2P Require Import PageTable VmSpec UserCopy VmExamples Sleeplock Uart Printf Console.
From S2P Require Import Virtio Bio Log Fs Pipe File Proc UserProc PipeSpec Args Sysproc Exec Sysfile.
From S2P Require Import Syscall SysprocSpec PsSpec Trap TrapSpec.

#[local] Existing Instance demo_image.
#[local] Existing Instance back_at_once.
#[local] Instance demo_patience : patience := 10%nat.
#[local] Instance no_disk : disk_driver := fun _ _ => ret tt.

Definition trap_pr : proc :=
  with_p_pagetable (pg 0) (with_p_trapframe (pg 6)
    (with_runCount 3 (with_trapCount 41 (with_systemcallCount 30
      (with_p_pid 7 (with_p_state RUNNING proc0)))))).

Definition trap_mem : memory :=
  wr64 (wr64 demo_mem (pg 6 + TF_a7) SYS_getschedhistory) (pg 6 + TF_a0) 16.

Definition trap_demo (cause : Z) : kst :=
  with_regs (with_scause cause (with_sepc 0x24 csrs0))
    (with_mem trap_mem (with_procs (<[1%nat := trap_pr]> demo_procs) demo_idle)).

Lemma demo_accessible va : 0 <= va < 4096 -> accessible demo_U va /\ user_pa demo_U va = pg 3.
Proof.
  intros Hva. assert (user_pa demo_U va = pg 3) as E; [|by rewrite <- E at 1; unfold accessible; rewrite E].
  unfold user_pa. replace (PGROUNDDOWN va) with 0; [done|].
  rewrite PGROUNDDOWN_spec. rewrite Z.mod_small; [lia|unfold PGSIZE; lia].
Qed.

Lemma demo_accessible_inv va : accessible demo_U va -> user_pa demo_U va = pg 3.
Proof.
  intros (fl & E & _)%accessible_inv. generalize dependent (user_pa demo_U va). intros pa E.
  unfold demo_U in E. by apply lookup_singleton_Some in E as [_ [= <- _]].
Qed.

Lemma trap_umem : umem trap_pr demo_T demo_U trap_mem.
Proof.
  assert (umem trap_pr demo_T demo_U demo_mem) as Hu.
  { split; change (p_trapframe trap_pr) with (pg 6).
    - exact demo_rep.
    - eapply (uspace_sep (pg 0) _ _ _ demo); [exact demo_uspace|].
      unfold demo_U. by intros va pa fl [<- _]%lookup_singleton_Some _.
    - intros va Ha. rewrite (demo_accessible_inv va Ha). by apply pg_ok.
    - by apply pg_ok.
    - intros [E|[E|E]]%demo_T_pages; by apply pg_neq in E.
    - intros va Ha. rewrite (demo_accessible_inv va Ha). by apply pg_neq. }
  apply (umem_tf_set trap_pr demo_T demo_U (wr64 demo_mem (pg 6 + TF_a7) SYS_getschedhistory)); [|done].
  by apply (umem_tf_set trap_pr).
Qed.

Lemma trap_demo_no_lock cause : no_lock (trap_demo cause).
Proof. exact demo_idle_no_lock. Qed.


Lemma usertrap_timer_witness :
  exists h, procs h !! 1%nat = Some (with_preemptCount 1 (with_p_state RUNNABLE
      (with_interruptCount 1 (with_trapCount 42 trap_pr)))) /\ ticks h = 1 /\
    p_state (default proc0 (procs h !! 2%nat)) = RUNNABLE.
Proof.
  destruct (@usertrap_timer demo_image back_at_once demo_patience no_disk 1 trap_pr (trap_demo TIMER))
    as (h & _ & _ & Ht & Hp & Hj & _); [|reflexivity|reflexivity|].
  - split; [exact (trap_demo_no_lock TIMER)|reflexivity|reflexivity|reflexivity| | |reflexivity].
    + intros i Hi. exact (demo_locks 0 free_lock i Hi).
    + eexists. reflexivity.
  - exists h. split; [exact Hp|]. split; [exact Ht|]. rewrite (Hj 2%nat _ eq_refl ltac:(done)). reflexivity.
Defined.

(** ** ps and getppid *)

Lemma trap_running cause : running 1 trap_pr (trap_demo cause).
Proof. split; [exact (no_lock_hart _ demo_idle_no_lock)|reflexivity|reflexivity]. Qed.

Lemma trap_names : Forall name_ok (procs (trap_demo 8)).
Proof.
  apply Forall_forall. intros q Hq. exists []. split; [|cbn; lia]. exists (replicate 15 0).
  split; [|constructor]. apply list_elem_of_lookup in Hq as [i Ei].
  do 4 (destruct i as [|i]; [cbn in Ei; by injection Ei as <-|]).
  change (procs (trap_demo 8) !! S (S (S (S i)))) with (replicate 60 proc0 !! i) in Ei.
  by apply lookup_replicate in Ei as [-> _].
Qed.


Definition child_demo : kst :=
  with_procs (<[1%nat := with_p_parent (Some 3%nat) trap_pr]> demo_procs) (trap_demo 8).


(** ** A pipe whose counters are about to wrap *)

Definition demo_pipe : pipe :=
  Pipe (<[510%nat := 104]> (<[511%nat := 105]> (replicate 512 5))) (2 ^ 32 - 2) 0 1 1.

Definition pipe_demo : kst :=
  with_pipes {[pg 8 := demo_pipe]}
    (with_locks (<[L_pipe (pg 8) := free_lock]> (locks (trap_demo 8))) (trap_demo 8)).

Lemma pipe_demo_at : at_pipe 1 trap_pr (pg 8) pipe_demo.
Proof.
  split; [exact (trap_demo_no_lock 8)|reflexivity|reflexivity|reflexivity| |].
  - eexists. apply lookup_insert_eq.
  - intros i Hi. destruct (demo_locks 0 free_lock i Hi) as [nm E]. exists nm.
    etransitivity; [apply lookup_insert_ne; done|exact E].
Qed.

Lemma demo_pipe_ok : pipe_ok demo_pipe /\ contents demo_pipe = [104; 105].
Proof. split; [split; vm_compute; (done || intuition congruence)|reflexivity]. Qed.

Lemma pipewrite_correct_witness :
  exists q', pipewrite (pg 8) 40 8 pipe_demo =
      Ok 8 (left_pipe 1 (Ch_nread (pg 8)) (pg 8) q' pipe_demo) /\
    contents q' = [104; 105] ++ vbytes trap_mem demo_U 40 8.
Proof.
  destruct (pipewrite_correct demo_image_ok 1 trap_pr (pg 8) demo_pipe demo_T demo_U 40 8 pipe_demo) as [_ Hw];
    [exact pipe_demo_at|reflexivity|exact (proj1 demo_pipe_ok)|exact (um_rep _ _ _ _ trap_umem)|done..|].
  destruct Hw as [(k & q' & E & Hk & _ & Ec & _ & _ & _ & Hout) _]; [done|reflexivity|vm_compute; done|].
  assert (k = 8%nat) as ->.
  { destruct (decide (Z.of_nat k < 8)) as [Hlt|]; [|lia]. destruct (Hout Hlt). apply demo_accessible. lia. }
  exists q'. split; [exact E|exact Ec].
Defined.

Lemma piperead_correct_witness :
  exists q' m', piperead (pg 8) 40 8 pipe_demo =
      Ok 2 (left_pipe 1 (Ch_nwrite (pg 8)) (pg 8) q' (with_mem m' pipe_demo)) /\
    contents q' = [] /\ vread m' demo_U 40 = 104 /\ vread m' demo_U 41 = 105.
Proof.
  destruct (piperead_correct demo_image_ok 1 trap_pr (pg 8) demo_pipe demo_T demo_U 40 8 pipe_demo) as [Hr _];
    [apply Nat.lt_0_succ|exact pipe_demo_at|reflexivity|exact (proj1 demo_pipe_ok)|exact trap_umem|done..|].
  destruct Hr as (k & q' & m' & E & _ & [[_ Hu] _ [Hs _] _ Hstop Hl _]); [left; by rewrite (proj2 demo_pipe_ok)|].
  change (used demo_pipe) with 2%nat in *. rewrite (proj2 demo_pipe_ok) in Hs, Hl.
  assert (k = 2%nat) as ->.
  { destruct (decide (k < 2)%nat) as [Hlt|]; [|lia]. destruct (Hstop ltac:(lia) Hlt). apply demo_accessible. lia. }
  exists q', m'. split; [exact E|]. split; [exact Hl|].
  split; rewrite Hs by (done || (apply demo_accessible; lia)); reflexivity.
Defined.
