(* ===== verification/Boot.v ===== *)
(** * Start-up: kernel/start.c, kernel/main.c, and kvmmake, kvminit and kvminithart of
    kernel/vm.c *)

From S2P Require Import Prelude Riscv Memory State Spinlock Sched Sleeplock Kalloc Vm Uart.
From S2P Require Import Printf Console Virtio Bio Log Fs Pipe File Proc Args Exec Sysproc.
From S2P Require Import Sysfile Syscall Trap.

(** ** Machine mode: kernel/start.c *)

Definition MSTATUS_MPP_MASK : Z := Z.shiftl 3 11.
Definition MSTATUS_MPP_S : Z := Z.shiftl 1 11.
Definition MSTATUS_MIE : Z := Z.shiftl 1 3.
Definition SIE_SEIE : Z := Z.shiftl 1 9.
Definition SIE_STIE : Z := Z.shiftl 1 5.
Definition SIE_SSIE : Z := Z.shiftl 1 1.
Definition MIE_MTIE : Z := Z.shiftl 1 7.

(** The machine-mode registers of a hart, its row of [timer_scratch], and the two CLINT
    registers it uses. *)
Record mregs := Mregs {
  mhartid : Z;
  mstatus : Z;
  mepc : Z;
  m_satp : Z;
  medeleg : Z;
  mideleg : Z;
  sie_reg : Z;
  pmpaddr0 : Z;
  pmpcfg0 : Z;
  mscratch : Z;
  mtvec : Z;
  mie : Z;
  m_tp : Z;
  scratch : list Z;
  mtime : Z;
  mtimecmp : Z;
}.

(** [timerinit], with the addresses of [timer_scratch] and [timervec]. *)
Definition timerinit (timer_scratch timervec : Z) (r : mregs) : mregs :=
  let id := i32 (mhartid r) in
  let interval := 1000000 in
  Mregs (mhartid r) (Z.lor (mstatus r) MSTATUS_MIE) (mepc r) (m_satp r) (medeleg r)
    (mideleg r) (sie_reg r) (pmpaddr0 r) (pmpcfg0 r)
    (timer_scratch + 40 * id) timervec (Z.lor (mie r) MIE_MTIE) (m_tp r)
    (<[4%nat := interval]> (<[3%nat := CLINT_MTIMECMP id]> (scratch r)))
    (mtime r) (mtime r +u interval).

(** [start]: the registers when [mret] is executed. *)
Definition start (main_pc timer_scratch timervec : Z) (r : mregs) : mregs :=
  let x := Z.lor (Z.land (mstatus r) (Z.lnot MSTATUS_MPP_MASK)) MSTATUS_MPP_S in
  let r := Mregs (mhartid r) x main_pc 0 0xffff 0xffff
    (Z.lor (Z.lor (Z.lor (sie_reg r) SIE_SEIE) SIE_STIE) SIE_SSIE)
    0x3fffffffffffff 0xf (mscratch r) (mtvec r) (mie r) (m_tp r) (scratch r)
    (mtime r) (mtimecmp r) in
  let r := timerinit timer_scratch timervec r in
  Mregs (mhartid r) (mstatus r) (mepc r) (m_satp r) (medeleg r) (mideleg r) (sie_reg r)
    (pmpaddr0 r) (pmpcfg0 r) (mscratch r) (mtvec r) (mie r) (i32 (mhartid r)) (scratch r)
    (mtime r) (mtimecmp r).

(** ** The kernel page table: kernel/vm.c *)

Section boot.
Context `{image} `{environment} `{patience} `{disk_driver}.

Definition kvmmake : K Z :=
  kpgtbl <- kalloc;;
  mem_memset kpgtbl 0 PGSIZE;;
  kvmmap kpgtbl UART0 UART0 PGSIZE (Z.lor PTE_R PTE_W);;
  kvmmap kpgtbl VIRTIO0 VIRTIO0 PGSIZE (Z.lor PTE_R PTE_W);;
  kvmmap kpgtbl PLIC PLIC 0x400000 (Z.lor PTE_R PTE_W);;
  kvmmap kpgtbl KERNBASE KERNBASE (etext -u KERNBASE) (Z.lor PTE_R PTE_X);;
  kvmmap kpgtbl etext etext (PHYSTOP -u etext) (Z.lor PTE_R PTE_W);;
  kvmmap kpgtbl TRAMPOLINE trampoline PGSIZE (Z.lor PTE_R PTE_X);;
  proc_mapstacks kpgtbl;;
  ret kpgtbl.

Definition kvminit : K unit :=
  k <- kvmmake;;
  modify (with_kernel_pagetable k).

Definition kvminithart : K unit :=
  k <- gets kernel_pagetable;;
  w_satp (MAKE_SATP k).

(** ** kernel/main.c *)

(** What [main] does before it enters the scheduler. *)
Definition main_init : K unit :=
  id <- cpuid;;
  if id =? 0 then
    consoleinit;;
    printfinit;;
    printf newline [];;
    printf (chars "xv6 kernel is booting" ++ newline) [];;
    printf newline [];;
    kinit;;
    kvminit;;
    kvminithart;;
    procinit;;
    trapinit;;
    trapinithart;;
    plicinit;;
    plicinithart;;
    binit;;
    iinit;;
    fileinit;;
    virtio_disk_init;;
    userinit;;
    modify (with_started 1)
  else
    st <- gets started;;
    if st =? 0 then spin_forever else
    id <- cpuid;;
    printf (chars "hart %d starting" ++ newline) [V_int id];;
    kvminithart;;
    trapinithart;;
    plicinithart.

(** [main]; the scheduler is followed for [n] rounds. *)
Definition main (n : nat) : K unit := main_init;; scheduler n.

End boot.
