(* ===== verification/User.v ===== *)
(** * User programs

    A program of user/ is an interaction tree over the system calls of user/user.h (the
    stubs that user/usys.pl generates): a tree of calls whose branches are the results the
    kernel may return.  A C string is the list of its bytes without the NUL, and a pointer
    into it the rest of the list.  [must] runs one process against a description of what
    the kernel may answer; [Pool] runs several processes that talk through pipes. *)

From S2P Require Import Prelude.
From ITree Require Import Core.ITreeDefinition.

(** The fields of struct stat a user program sees. *)
Record ustat := Ustat { us_type : Z; us_ino : Z; us_nlink : Z; us_size : Z }.

(** A string argument: the string itself, or a pointer the program did not get from one. *)
Inductive cptr : Type :=
| Lit (s : list Z)
| At (a : Z).

(** The system calls.  [Read] answers the bytes stored at the given address, or None for -1;
    [Pipe] the two descriptors, or None for -1.  [Wait] has a null pointer, and [WaitFor] a pointer to a
    variable: it answers what was stored there, if anything.  The calls from [RawRead] on are those of the test programs with
    addresses of their own making; [Load] and [Store] are accesses of [n] bytes to such addresses, which may
    be page faults and have no answer then. *)
Inductive sysE : Type -> Type :=
| Fork : sysE Z
| Exit (status : Z) : sysE Empty_set
| Wait : sysE Z
| Pipe : sysE (option (Z * Z))
| Read (fd n : Z) : sysE (option (list Z))
| Write (fd : Z) (buf : list Z) : sysE Z
| Close (fd : Z) : sysE Z
| Kill (pid : Z) : sysE Z
| Exec (path : list Z) (argv : list (list Z)) : sysE Z
| Open (path : list Z) (mode : Z) : sysE Z
| Mknod (path : list Z) (major minor : Z) : sysE Z
| Unlink (path : list Z) : sysE Z
| Fstat (fd : Z) : sysE (option ustat)
| Link (old new : list Z) : sysE Z
| Mkdir (path : list Z) : sysE Z
| Chdir (path : list Z) : sysE Z
| Dup (fd : Z) : sysE Z
| Getpid : sysE Z
| Sbrk (n : Z) : sysE Z
| Sleep (n : Z) : sysE Z
| Uptime : sysE Z
| Getppid : sysE Z
| Ps : sysE (Z * list Z)
| Getschedhistory : sysE (Z * list Z)
| WaitFor : sysE (Z * option Z)
| RawRead (fd a n : Z) : sysE Z
| RawWrite (fd a n : Z) : sysE Z
| RawOpen (path : cptr) (mode : Z) : sysE Z
| RawUnlink (path : cptr) : sysE Z
| RawLink (old new : cptr) : sysE Z
| RawExec (path : cptr) (argv : list cptr) : sysE Z
| RawPipe (a : Z) : sysE Z
| Load (n a : Z) : sysE Z
| Store (n a v : Z) : sysE unit.

Definition prog (A : Type) : Type := itree sysE A.

Declare Scope prog_scope.
Delimit Scope prog_scope with P.
Bind Scope prog_scope with prog.
Notation "x <- m ;; k" := (ITree.bind m (fun x => k))
  (at level 100, m at next level, right associativity) : prog_scope.
Notation "m ;; k" := (ITree.bind m (fun _ => k)) (at level 100, right associativity) : prog_scope.

Definition done {A} (a : A) : prog A := Ret a.
Definition call {A} (e : sysE A) : prog A := ITree.trigger e.

(** [exit] does not return. *)
Definition exit {A} (status : Z) : prog A :=
  ITree.bind (call (Exit status)) (fun v : Empty_set => match v with end).

(** [for] over a list: the body says whether to go on. *)
Fixpoint each {A} (l : list A) (body : A -> prog bool) : prog unit :=
  match l with
  | [] => done tt
  | a :: l => ITree.bind (body a) (fun go => if (go : bool) then each l body else done tt)
  end.

(** ** Unfolding *)

Lemma observe_bind {A B} (t : prog A) (k : A -> prog B) :
  observe (ITree.bind t k) =
    match observe t with
    | RetF a => observe (k a)
    | TauF t => TauF (ITree.bind t k)
    | VisF e h => VisF e (fun x => ITree.bind (h x) k)
    end.
Proof. unfold ITree.bind, ITree.subst, observe. cbn. unfold observe. by destruct (_observe t). Qed.

Lemma observe_iter {A B} (body : A -> prog (A + B)) a :
  observe (ITree.iter body a) =
    observe (ITree.bind (body a) (fun r => match r with inl a => Tau (ITree.iter body a) | inr b => Ret b end)).
Proof. reflexivity. Qed.

Lemma observe_ret_bind {A B} (a : A) (k : A -> prog B) : observe (ITree.bind (Ret a) k) = observe (k a).
Proof. by rewrite observe_bind. Qed.

Lemma observe_call_bind {A B} (e : sysE A) (k : A -> prog B) :
  observe (ITree.bind (call e) k) = VisF e (fun x => ITree.bind (Ret x) k).
Proof. by rewrite observe_bind. Qed.

Lemma observe_bind_cong {A B} (t t' : prog A) (k : A -> prog B) :
  observe t = observe t' -> observe (ITree.bind t k) = observe (ITree.bind t' k).
Proof. intros E. by rewrite !observe_bind, E. Qed.

Lemma observe_bind_call {A B C} (t : prog A) (e : sysE C) h (k : A -> prog B) :
  observe t = VisF e h -> observe (ITree.bind t k) = VisF e (fun x => ITree.bind (h x) k).
Proof. intros E. by rewrite observe_bind, E. Qed.

(** ** One process

    [step e w x w']: in the world [w] the kernel may answer [x] to [e] and leave [w'].
    [must t w Q R]: whatever the kernel answers, the program [t] ends after finitely many
    calls, either by returning a value that satisfies [Q] or by an [exit] that satisfies
    [R]. *)
Class world := World {
  W : Type;
  step : forall X, sysE X -> W -> X -> W -> Prop
}.

Section must.
Context `{world}.

Inductive must {A} (Q : A -> W -> Prop) (R : Z -> W -> Prop) : prog A -> W -> Prop :=
| must_done t w a : observe t = RetF a -> Q a w -> must Q R t w
| must_tau t t' w : observe t = TauF t' -> must Q R t' w -> must Q R t w
| must_exit t w st k : observe t = VisF (Exit st) k -> R st w -> must Q R t w
| must_call t w X (e : sysE X) k :
    observe t = VisF e k -> (exists x w', step X e w x w') ->
    (forall x w', step X e w x w' -> must Q R (k x) w') -> must Q R t w.

Lemma must_observe {A} (Q : A -> W -> Prop) R t t' w :
  observe t = observe t' -> must Q R t w -> must Q R t' w.
Proof.
  intros E Hm. revert t' E. destruct Hm as [t w a Ho Hq|t u w Ho Hm|t w st k Ho Hr|t w X e k Ho Hex Hm];
    intros t' E; rewrite E in Ho.
  - by eapply must_done.
  - by eapply must_tau.
  - by eapply must_exit.
  - by eapply must_call.
Qed.

Lemma must_ret {A} (Q : A -> W -> Prop) R a w : Q a w -> must Q R (done a) w.
Proof. intros Hq. by eapply must_done. Qed.

Lemma must_bind {A B} (Q : B -> W -> Prop) R (t : prog A) (k : A -> prog B) w :
  must (fun a w' => must Q R (k a) w') R t w -> must Q R (ITree.bind t k) w.
Proof.
  induction 1 as [t w a Ho Hq|t t' w Ho _ IH|t w st h Ho Hr|t w X e h Ho Hex _ IH].
  - eapply must_observe; [|exact Hq]. by rewrite observe_bind, Ho.
  - eapply must_tau; [by rewrite observe_bind, Ho|exact IH].
  - eapply must_exit; [by rewrite observe_bind, Ho|exact Hr].
  - eapply must_call; [by rewrite observe_bind, Ho|exact Hex|exact IH].
Qed.

Lemma must_trigger {A} (Q : A -> W -> Prop) R (e : sysE A) w :
  (exists x w', step A e w x w') -> (forall x w', step A e w x w' -> Q x w') -> must Q R (call e) w.
Proof.
  intros Hex Hq. eapply must_call; [reflexivity|exact Hex|]. intros x w' Hs. by eapply must_done, Hq.
Qed.

Lemma must_quit {A} (Q : A -> W -> Prop) (R : Z -> W -> Prop) st w : R st w -> must Q R (exit st) w.
Proof. intros Hr. eapply must_exit; [unfold exit; rewrite observe_bind; reflexivity|exact Hr]. Qed.

Lemma must_mono {A} (Q Q' : A -> W -> Prop) (R R' : Z -> W -> Prop) t w :
  (forall a w', Q a w' -> Q' a w') -> (forall st w', R st w' -> R' st w') ->
  must Q R t w -> must Q' R' t w.
Proof.
  intros HQ HR. induction 1 as [t w a Ho Hq|t t' w Ho _ IH|t w st h Ho Hr|t w X e h Ho Hex _ IH].
  - eapply must_done; [exact Ho|by apply HQ].
  - by eapply must_tau.
  - eapply must_exit; [exact Ho|by apply HR].
  - by eapply must_call.
Qed.

(** One round of a loop. *)
Lemma must_iter_step {A B} (Q : B -> W -> Prop) R (body : A -> prog (A + B)) a w :
  must (fun r w' => match r with inl a => must Q R (ITree.iter body a) w' | inr b => Q b w' end) R (body a) w ->
  must Q R (ITree.iter body a) w.
Proof.
  intros Hb. eapply must_observe; [symmetry; apply observe_iter|]. apply must_bind.
  eapply must_mono; [|by intros st w'; exact (fun x => x)|exact Hb].
  intros [a'|b] w' Hq; [|by apply must_ret]. by eapply must_tau.
Qed.

(** A loop whose measure decreases. *)
Lemma must_iter {A B} (I : A -> W -> Prop) (measure : A -> W -> nat) (Q : B -> W -> Prop) R
    (body : A -> prog (A + B)) a w :
  (forall a w, I a w -> must (fun r w' => match r with
     | inl a' => I a' w' /\ (measure a' w' < measure a w)%nat
     | inr b => Q b w' end) R (body a) w) ->
  I a w -> must Q R (ITree.iter body a) w.
Proof.
  intros Hb. remember (measure a w) as n eqn:En. revert a w En.
  induction (lt_wf n) as [n _ IH]. intros a w -> HI. apply must_iter_step.
  eapply must_mono; [|by intros st w'; exact (fun x => x)|exact (Hb a w HI)].
  intros [a'|b] w'; [|done]. intros [HI' Hlt]. by eapply IH.
Qed.

End must.
