(* ===== verification/Ulib.v ===== *)
(** * The library of user programs: user/ulib.c

    The string functions work on C strings as lists of bytes (a pointer into a string is
    the rest of it), the ones that store into an array on the list of its bytes, and the
    memory functions, whose arguments may overlap, on byte memory. *)

From S2P Require Import Prelude Memory User.
From ITree Require Import Core.ITreeDefinition.

Open Scope prog_scope.

(** A string literal. *)
Definition str (s : string) : list Z :=
  map (fun c => Z.of_N (Ascii.N_of_ascii c)) (String.list_ascii_of_string s).

(** The characters the programs compare with. *)
Definition NL : Z := 10.
(** A string literal that ends in a newline. *)
Definition line (s : string) : list Z := str s ++ [NL].
Definition CR : Z := 13.
Definition TAB : Z := 9.
Definition VT : Z := 11.
Definition SPACE : Z := 32.
Definition ZERO : Z := 48.
Definition NINE : Z := 57.

(** [while(( *s++ = *t++) != 0)] with room for [s] bytes at the destination: the new contents of
    the array, or None when the copy runs past its end. *)
Fixpoint strcpy (s t : list Z) : option (list Z) :=
  match s, t with
  | [], _ => None
  | _ :: s, [] => Some (0 :: s)
  | _ :: s, c :: t => cons c <$> strcpy s t
  end.

Fixpoint strcmp (p q : list Z) : Z :=
  match p, q with
  | c :: p', d :: q' => if c =? d then strcmp p' q' else u8 c - u8 d
  | c :: _, [] => u8 c
  | [], d :: _ => - u8 d
  | [], [] => 0
  end.

(** [for(n = 0; s[n]; n++)]. *)
Fixpoint strlen (s : list Z) : Z :=
  match s with
  | [] => 0
  | _ :: s => 1 + strlen s
  end.

(** The first [c] in the string, as the pointer to it. *)
Fixpoint strchr (s : list Z) (c : Z) : option (list Z) :=
  match s with
  | [] => None
  | d :: s' => if d =? c then Some s else strchr s' c
  end.

(** [strchr(s, c)] as a condition: strchr never finds the NUL. *)
Definition has (s : list Z) (c : Z) : bool := match strchr s c with Some _ => true | None => false end.

(** [for(i = 0; i < n; i++)]: stores [n] bytes from [dst] on. *)
Fixpoint memset_loop (k : nat) (m : memory) (cdst c : Z) : memory :=
  match k with
  | O => m
  | S k => memset_loop k (wr8 m cdst c) (cdst + 1) c
  end.
Definition memset (m : memory) (dst c n : Z) : memory := memset_loop (Z.to_nat n) m dst c.

(** [for(i=0; i+1 < max; )]: what is in [buf] before the terminating NUL. *)
Fixpoint gets_loop (k : nat) (buf : list Z) : prog (list Z) :=
  match k with
  | O => done buf
  | S k =>
      r <- call (Read 0 1);;
      match r with
      | Some [c] =>
          if (c =? NL) || (c =? CR) then done (buf ++ [c])
          else gets_loop k (buf ++ [c])
      | _ => done buf
      end
  end.

(** [gets(buf, max)]: the bytes read, and the array with the NUL stored after them. *)
Definition gets (buf : list Z) (max : Z) : prog (list Z) :=
  l <- gets_loop (Z.to_nat (max - 1)) [];;
  done (l ++ [0] ++ drop (S (length l)) buf).

Definition stat (n : list Z) : prog (option ustat) :=
  fd <- call (Open n 0);;
  if fd <? 0 then done None else
  r <- call (Fstat fd);;
  call (Close fd);;
  done r.

Definition isdigit (c : Z) : bool := (ZERO <=? c) && (c <=? NINE).

Fixpoint atoi_loop (n : Z) (s : list Z) : Z :=
  match s with
  | c :: s => if isdigit c then atoi_loop (i32 (n * 10 + c - ZERO)) s else n
  | [] => n
  end.
Definition atoi (s : list Z) : Z := atoi_loop 0 s.

(** Both directions of [memmove]. *)
Fixpoint move_up (k : nat) (m : memory) (dst src : Z) : memory :=
  match k with
  | O => m
  | S k => move_up k (wr8 m dst (rd8 m src)) (dst + 1) (src + 1)
  end.
Fixpoint move_down (k : nat) (m : memory) (dst src : Z) : memory :=
  match k with
  | O => m
  | S k => move_down k (wr8 m (dst - 1) (rd8 m (src - 1))) (dst - 1) (src - 1)
  end.
Definition memmove (m : memory) (vdst vsrc n : Z) : memory :=
  if vsrc >? vdst then move_up (Z.to_nat n) m vdst vsrc
  else move_down (Z.to_nat n) m (vdst + n) (vsrc + n).

Fixpoint memcmp_loop (k : nat) (m : memory) (p1 p2 : Z) : Z :=
  match k with
  | O => 0
  | S k =>
      if negb (rd8 m p1 =? rd8 m p2) then rd8 m p1 - rd8 m p2
      else memcmp_loop k m (p1 + 1) (p2 + 1)
  end.
Definition memcmp (m : memory) (s1 s2 n : Z) : Z := memcmp_loop (Z.to_nat n) m s1 s2.

Definition memcpy (m : memory) (dst src n : Z) : memory := memmove m dst src n.

(** The wrapper that calls [exit] when [main] returns. *)
Definition _main (main : prog unit) : prog unit := main;; exit 0.

(** ** Lemmas *)

Lemma strlen_length s : strlen s = Z.of_nat (length s).
Proof. induction s as [|c s IH]; [done|]. cbn [strlen length]. lia. Qed.

Lemma strchr_None s c : strchr s c = None <-> c ∉ s.
Proof.
  induction s as [|d s IH]; cbn [strchr]; [set_solver|].
  destruct (Z.eqb_spec d c) as [->|Hne]; [set_solver|]. rewrite IH. set_solver.
Qed.

Lemma strchr_Some s c q : strchr s c = Some q -> exists l r, s = l ++ q /\ q = c :: r /\ c ∉ l.
Proof.
  induction s as [|d s IH]; cbn [strchr]; [done|].
  destruct (Z.eqb_spec d c) as [->|Hne]; intros E.
  - injection E as <-. exists [], s. set_solver.
  - destruct (IH E) as (l & r & -> & -> & Hl). exists (d :: l), r. set_solver.
Qed.

Lemma has_elem s c : has s c = bool_decide (c ∈ s).
Proof.
  unfold has. destruct (strchr s c) eqn:E.
  - apply strchr_Some in E as (l' & r & -> & -> & _). rewrite bool_decide_true; [done|set_solver].
  - apply strchr_None in E. by rewrite bool_decide_false.
Qed.

Lemma strcpy_fits s t : (length t < length s)%nat -> strcpy s t = Some (t ++ 0 :: drop (S (length t)) s).
Proof.
  revert s. induction t as [|c t IH]; intros [|d s] Hl; cbn [strcpy length] in *; try lia; [done|].
  rewrite IH by lia. done.
Qed.
