(* ===== verification/Uprintf.v ===== *)
(** * Formatted output of user programs: user/printf.c

    Every character is a [write] of one byte.  [emits] says what a program writes, and
    [format] is what [vprintf] writes for a format and its arguments. *)

From S2P Require Import Prelude User Ulib.
From ITree Require Import Core.ITreeDefinition.

Open Scope prog_scope.

Definition PERCENT : Z := 37.
Definition MINUS : Z := 45.

Definition digits (d : Z) : Z := default 0 (str "0123456789ABCDEF" !! Z.to_nat d).

Definition putc (fd c : Z) : prog unit := call (Write fd [c]);; done tt.

(** [while(--i >= 0) putc(fd, buf[i])] and [while( *s != 0)]. *)
Fixpoint puts (fd : Z) (l : list Z) : prog unit :=
  match l with
  | [] => done tt
  | c :: l => putc fd c;; puts fd l
  end.

(** [do buf[i++] = digits[x % base]; while((x /= base) != 0)]: the digits, last first; a
    32-bit number has at most 32 of them. *)
Fixpoint digit_loop (fuel : nat) (x base : Z) : list Z :=
  match fuel with
  | O => []
  | S n => digits (x mod base) :: (if x / base =? 0 then [] else digit_loop n (x / base) base)
  end.

(** The contents of [buf], last character first. *)
Definition printint_buf (xx base : Z) (sgn : bool) : list Z :=
  let neg := sgn && (xx <? 0) in
  let x := if neg then u32 (- xx) else u32 xx in
  digit_loop 32 x base ++ (if neg then [MINUS] else []).

Definition printint (fd xx base : Z) (sgn : bool) : prog unit :=
  puts fd (rev (printint_buf xx base sgn)).

(** [for(i = 0; i < 16; i++, x <<= 4) putc(fd, digits[x >> 60])]. *)
Fixpoint printptr_loop (n : nat) (fd x : Z) : prog unit :=
  match n with
  | O => done tt
  | S n => putc fd (digits (Z.shiftr x 60));; printptr_loop n fd (u64 (Z.shiftl x 4))
  end.

Definition printptr (fd x : Z) : prog unit :=
  putc fd ZERO;;
  putc fd 120;;
  printptr_loop 16 fd x.

(** The variable arguments: integers of any width, and strings (None is the null pointer). *)
Inductive va : Type :=
| V_int (n : Z)
| V_str (s : option (list Z)).

(** A missing argument, or one of the wrong kind, is undefined: nothing is said of what
    follows. *)
Definition va_int (ap : list va) (k : Z -> list va -> prog unit) : prog unit :=
  match ap with
  | V_int n :: ap => k n ap
  | _ => ITree.spin
  end.
Definition va_str (ap : list va) (k : option (list Z) -> list va -> prog unit) : prog unit :=
  match ap with
  | V_str s :: ap => k s ap
  | _ => ITree.spin
  end.

(** The loop over the format: [state] is true after a percent sign. *)
Fixpoint vprintf_loop (fd : Z) (fmt : list Z) (state : bool) (ap : list va) : prog unit :=
  match fmt with
  | [] => done tt
  | c :: fmt =>
      let next := vprintf_loop fd fmt false in
      if negb state then
        if c =? PERCENT then vprintf_loop fd fmt true ap
        else putc fd c;; next ap
      else if c =? 100 then va_int ap (fun n ap => printint fd (i32 n) 10 true;; next ap)
      else if c =? 108 then va_int ap (fun n ap => printint fd (i32 n) 10 false;; next ap)
      else if c =? 120 then va_int ap (fun n ap => printint fd (i32 n) 16 false;; next ap)
      else if c =? 112 then va_int ap (fun n ap => printptr fd (u64 n);; next ap)
      else if c =? 115 then va_str ap (fun s ap => puts fd (default (str "(null)") s);; next ap)
      else if c =? 99 then va_int ap (fun n ap => putc fd (u8 n);; next ap)
      else if c =? PERCENT then putc fd c;; next ap
      else putc fd PERCENT;; putc fd c;; next ap
  end.

Definition vprintf (fd : Z) (fmt : list Z) (ap : list va) : prog unit := vprintf_loop fd fmt false ap.
Definition fprintf (fd : Z) (fmt : list Z) (ap : list va) : prog unit := vprintf fd fmt ap.
Definition printf (fmt : list Z) (ap : list va) : prog unit := vprintf 1 fmt ap.

(** ** What is written *)

(** [t] writes the characters [l] to [fd], one by one, and goes on as [u]. *)
Inductive emits {A} (fd : Z) : prog A -> list Z -> prog A -> Prop :=
| emits_nil t u : observe t = observe u -> emits fd t [] u
| emits_cons t c k l u :
    observe t = VisF (Write fd [c]) k -> (forall r, emits fd (k r) l u) -> emits fd t (c :: l) u.

Lemma emits_bind {A B} fd (t : prog A) l a (k : A -> prog B) l' u :
  emits fd t l (done a) -> emits fd (k a) l' u -> emits fd (ITree.bind t k) (l ++ l') u.
Proof.
  intros Ht. remember (done a) as d eqn:Ed. revert Ed.
  induction Ht as [t d Ho|t c h l d Ho _ IH]; intros -> Hk.
  - cbn [app]. inversion Hk as [t' u' Ho'|t' c h l'' u' Ho' Hr]; subst.
    + apply emits_nil. by rewrite observe_bind, Ho.
    + eapply emits_cons; [by rewrite observe_bind, Ho|exact Hr].
  - eapply emits_cons; [by rewrite observe_bind, Ho|]. intros r. by apply IH.
Qed.

(** Output in the middle of a program. *)
Lemma emits_inside {A B} fd (t : prog A) l u (k : A -> prog B) :
  emits fd t l u -> emits fd (ITree.bind t k) l (ITree.bind u k).
Proof.
  induction 1 as [t u Ho|t c h l u Ho _ IH].
  - apply emits_nil. by rewrite !observe_bind, Ho.
  - eapply emits_cons; [by rewrite observe_bind, Ho|exact IH].
Qed.

Lemma emits_observe {A} fd (t t' : prog A) l u : observe t = observe t' -> emits fd t' l u -> emits fd t l u.
Proof.
  intros E He. revert t E. destruct He as [t' u Ho|t' c k l u Ho Hk]; intros t E.
  - apply emits_nil. congruence.
  - eapply emits_cons; [by rewrite E|exact Hk].
Qed.

Lemma emits_done {A} fd (a : A) : emits fd (done a) [] (done a).
Proof. by apply emits_nil. Qed.

Lemma emits_putc fd c : emits fd (putc fd c) [c] (done tt).
Proof. eapply emits_cons; [unfold putc; rewrite observe_bind; reflexivity|]. intros r. by apply emits_nil. Qed.

Lemma emits_then {B} fd t l (k : prog B) l' u :
  emits fd t l (done tt) -> emits fd k l' u -> emits fd (t;; k) (l ++ l') u.
Proof. exact (emits_bind fd t l tt (fun _ => k) l' u). Qed.

Lemma emits_char {B} fd c (k : prog B) l u : emits fd k l u -> emits fd (putc fd c;; k) (c :: l) u.
Proof. intros Hk. exact (emits_then fd _ [c] k l u (emits_putc fd c) Hk). Qed.

Lemma emits_puts fd l : emits fd (puts fd l) l (done tt).
Proof. induction l as [|c l IH]; [apply emits_done|by apply emits_char]. Qed.

Fixpoint hex_digits (n : nat) (x : Z) : list Z :=
  match n with
  | O => []
  | S n => digits (Z.shiftr x 60) :: hex_digits n (u64 (Z.shiftl x 4))
  end.

Lemma emits_printptr fd x : emits fd (printptr fd x) (ZERO :: 120 :: hex_digits 16 x) (done tt).
Proof.
  do 2 apply emits_char. generalize 16%nat as n. intros n. revert x.
  induction n as [|n IH]; intros x; [apply emits_done|by apply emits_char].
Qed.

(** What [vprintf] writes; None when an argument is missing or of the wrong kind. *)
Fixpoint format (fmt : list Z) (state : bool) (ap : list va) : option (list Z) :=
  match fmt with
  | [] => Some []
  | c :: fmt =>
      if negb state then
        if c =? PERCENT then format fmt true ap else cons c <$> format fmt false ap
      else if c =? PERCENT then cons c <$> format fmt false ap
      else if (c =? 100) || (c =? 108) || (c =? 120) || (c =? 112) || (c =? 99) then
        match ap with
        | V_int n :: ap => app (if c =? 112 then ZERO :: 120 :: hex_digits 16 (u64 n)
                                else if c =? 99 then [u8 n]
                                else rev (printint_buf (i32 n) (if c =? 120 then 16 else 10) (c =? 100)))
                             <$> format fmt false ap
        | _ => None
        end
      else if c =? 115 then
        match ap with
        | V_str s :: ap => app (default (str "(null)") s) <$> format fmt false ap
        | _ => None
        end
      else (fun l => PERCENT :: c :: l) <$> format fmt false ap
  end.

Lemma emits_vprintf_loop fd fmt : forall state ap l,
  format fmt state ap = Some l -> emits fd (vprintf_loop fd fmt state ap) l (done tt).
Proof.
  induction fmt as [|c fmt IH]; intros state ap l; cbn [format vprintf_loop].
  { intros [= <-]. apply emits_done. }
  destruct state; cbn [negb].
  2:{ destruct (c =? PERCENT); [apply IH|]. intros (l' & El & ->)%fmap_Some. apply emits_char. by apply IH. }
  destruct (Z.eqb_spec c PERCENT) as [->|_].
  { intros (l' & El & ->)%fmap_Some. apply emits_char. by apply IH. }
  destruct (Z.eqb_spec c 100), (Z.eqb_spec c 108), (Z.eqb_spec c 120), (Z.eqb_spec c 112),
    (Z.eqb_spec c 99), (Z.eqb_spec c 115); try lia; cbn [orb].
  1-6: destruct ap as [|[v|s] ap]; try done; intros (l' & El & ->)%fmap_Some; cbn [va_int va_str].
  - eapply emits_then; [apply emits_puts|by apply IH].
  - eapply emits_then; [apply emits_puts|by apply IH].
  - eapply emits_then; [apply emits_puts|by apply IH].
  - eapply emits_then; [apply emits_printptr|by apply IH].
  - eapply emits_then; [apply emits_putc|by apply IH].
  - eapply emits_then; [apply emits_puts|by apply IH].
  - intros (l' & El & ->)%fmap_Some. do 2 apply emits_char. by apply IH.
Qed.

Lemma emits_vprintf fd fmt ap l :
  format fmt false ap = Some l -> emits fd (vprintf fd fmt ap) l (done tt).
Proof. apply emits_vprintf_loop. Qed.

(** ** Decimal numbers *)

Lemma digits_spec d : 0 <= d < 10 -> digits d = ZERO + d.
Proof.
  intros Hd. assert (d = 0 \/ d = 1 \/ d = 2 \/ d = 3 \/ d = 4 \/ d = 5 \/ d = 6 \/ d = 7 \/ d = 8 \/ d = 9)
    as Hc by lia. by destruct_or! Hc; subst.
Qed.

Lemma digit_loop_digits fuel x : 0 <= x -> Forall (fun c => isdigit c = true) (digit_loop fuel x 10).
Proof.
  revert x. induction fuel as [|fuel IH]; intros x Hx; cbn [digit_loop]; constructor.
  - pose proof (Z.mod_pos_bound x 10 ltac:(lia)). rewrite digits_spec by lia.
    unfold isdigit, ZERO, NINE. rewrite andb_true_iff, !Z.leb_le. lia.
  - destruct (x / 10 =? 0); [constructor|]. apply IH, Z.div_pos; lia.
Qed.

Lemma atoi_snoc l : forall n c, Forall (fun c => isdigit c = true) l -> isdigit c = true ->
  atoi_loop n (l ++ [c]) = i32 (atoi_loop n l * 10 + c - ZERO).
Proof.
  induction l as [|d l IH]; intros n c Hl Hc; cbn [app atoi_loop]; [by rewrite Hc|].
  apply Forall_cons in Hl as [-> Hl]. by apply IH.
Qed.

Lemma atoi_stop l rest : forall n, Forall (fun c => isdigit c = true) l ->
  (forall c, head rest = Some c -> isdigit c = false) -> atoi_loop n (l ++ rest) = atoi_loop n l.
Proof.
  induction l as [|d l IH]; intros n Hl Hr; cbn [app atoi_loop].
  - destruct rest as [|c rest]; [done|]. cbn [atoi_loop]. by rewrite (Hr c).
  - apply Forall_cons in Hl as [-> Hl]. by apply IH.
Qed.

Lemma atoi_digits fuel x : 0 <= x < 2 ^ 31 -> x < 10 ^ Z.of_nat fuel -> (0 < fuel)%nat ->
  atoi_loop 0 (rev (digit_loop fuel x 10)) = x.
Proof.
  revert x. induction fuel as [|fuel IH]; intros x Hx Hlt Hf; [lia|]. cbn [digit_loop rev].
  pose proof (Z.mod_pos_bound x 10 ltac:(lia)). pose proof (Z_div_mod_eq_full x 10).
  pose proof (Z.div_pos x 10 ltac:(lia) ltac:(lia)).
  rewrite atoi_snoc, digits_spec; [|lia| |].
  - replace (atoi_loop 0 _) with (x / 10).
    + replace (x / 10 * 10 + (ZERO + x mod 10) - ZERO) with x by lia. apply i32_small. lia.
    + destruct (Z.eqb_spec (x / 10) 0) as [->|Hne]; [done|]. symmetry.
      rewrite Nat2Z.inj_succ, Z.pow_succ_r in Hlt by lia. apply IH; [lia|lia|].
      destruct fuel; [cbn in Hlt|]; lia.
  - apply Forall_rev. destruct (_ =? 0); [constructor|]. by apply digit_loop_digits.
  - rewrite digits_spec by lia. unfold isdigit, ZERO, NINE. rewrite andb_true_iff, !Z.leb_le. lia.
Qed.

(** C40: what [printf("%d", n)] writes for a non-negative int is a numeral that [atoi] reads
    back as [n], whatever follows it other than a digit. *)
Theorem atoi_printf fd n rest :
  0 <= n < 2 ^ 31 -> (forall c, head rest = Some c -> isdigit c = false) ->
  exists l, emits fd (fprintf fd (str "%d") [V_int n]) l (done tt) /\ atoi (l ++ rest) = n.
Proof.
  intros Hn Hr. exists (rev (digit_loop 32 n 10)). split.
  - apply emits_vprintf.
    change (format (str "%d") false [V_int n]) with (Some (rev (printint_buf (i32 n) 10 true) ++ [])).
    unfold printint_buf. rewrite i32_small, (proj2 (Z.ltb_ge n 0)) by lia. cbn [andb]. cbv zeta.
    rewrite (u32_small n) by lia. by rewrite !app_nil_r.
  - unfold atoi. rewrite atoi_stop; [apply atoi_digits; lia| |done].
    apply Forall_rev, digit_loop_digits. lia.
Qed.

Lemma atoi_printf_witness :
  exists l, emits 1 (fprintf 1 (str "%d") [V_int 352]) l (done tt) /\ atoi (l ++ str " rest") = 352.
Proof. apply (atoi_printf 1 352 (str " rest")); [lia|]. intros c [= <-]. reflexivity. Defined.
