(* ===== verification/Filter.v ===== *)
(** * Programs that read a stream and write to the standard output

    The kernel as cat, grep and wc see it: a descriptor to read from, and the standard
    output. *)

From S2P Require Import Prelude User Ulib Uprintf.
From ITree Require Import Core.ITreeDefinition.

Open Scope prog_scope.

(** The kernel side of a filter: [input] is what is still to be read from [fd] and [out] what was
    written to the standard output.  A read gives a part of what it was asked for, and
    nothing only at the end or when asked for nothing. *)
Definition filter_step (fd : Z) (X : Type) (e : sysE X) : list Z * list Z -> X -> list Z * list Z -> Prop :=
  match e in sysE X return list Z * list Z -> X -> list Z * list Z -> Prop with
  | Read fd' n => fun w r w' => fd' = fd /\ exists l, r = Some l /\ w.1 = l ++ w'.1 /\ w'.2 = w.2 /\
      Z.of_nat (length l) <= Z.max 0 n /\ (l = [] -> n <= 0 \/ w.1 = [])
  | Write fd' buf => fun w r w' => fd' = 1 /\ r = Z.of_nat (length buf) /\ w' = (w.1, w.2 ++ buf)
  | _ => fun _ _ _ => False
  end.
Definition filter_world (fd : Z) : world := World (list Z * list Z) (filter_step fd).

Section filter.
Context (fd : Z).
Let stream : world := filter_world fd.
#[local] Existing Instance stream.

(** A read is always answered. *)
Lemma can_read n input out :
  exists x w', step _ (Read fd n) ((input, out) : @W stream) x w'.
Proof.
  destruct (decide (n <= 0)) as [Hle|Hgt].
  - exists (Some []), (input, out). split; [done|]. exists []. cbn. split_and!; try done; [lia|by left].
  - destruct input as [|c input].
    + exists (Some []), ([], out). split; [done|]. exists []. cbn. split_and!; try done; [lia|by right].
    + exists (Some [c]), (input, out). split; [done|]. exists [c]. cbn. split_and!; try done. lia.
Qed.

Lemma must_write {B} (Q : B -> W -> Prop) R buf (k : Z -> prog B) input out :
  must Q R (k (Z.of_nat (length buf))) ((input, out ++ buf) : @W stream) ->
  must Q R (r <- call (Write 1 buf);; k r) ((input, out) : @W stream).
Proof.
  intros Hk. apply must_bind, must_trigger.
  - by exists (Z.of_nat (length buf)), (input, out ++ buf).
  - intros x w' (_ & -> & ->). exact Hk.
Qed.

(** Formatted output. *)
Lemma must_emits {A} (Q : A -> W -> Prop) R t l u input out :
  emits 1 t l u -> must Q R u ((input, out ++ l) : @W stream) -> must Q R t ((input, out) : @W stream).
Proof.
  intros He. revert out. induction He as [t u Ho|t c k l u Ho _ IH]; intros out Hu.
  - rewrite app_nil_r in Hu. by eapply must_observe.
  - eapply must_call; [exact Ho|by exists 1, (input, out ++ [c])|].
    intros x w' (_ & -> & ->). apply IH. by rewrite <- app_assoc.
Qed.

(** [while((n = read(fd, buf, sz)) > 0) body]: the loop gets the input in pieces; [I] is what
    holds of the state of the loop and of the output after the part [seen] of the input. *)
Definition read_loop {A} (sz : Z) (body : A -> list Z -> prog A) : A -> prog (A * bool) :=
  ITree.iter (fun a =>
    r <- call (Read fd sz);;
    match r with
    | None => done (inr (a, false))
    | Some [] => done (inr (a, true))
    | Some ((_ :: _) as l) => a <- body a l;; done (inl a)
    end).

Lemma read_loop_must {A} (I : A -> list Z -> list Z -> Prop) R sz (body : A -> list Z -> prog A) a0 text out0 :
  0 < sz ->
  (forall a seen l input out, I a seen out -> l <> [] ->
     must (fun a' w' => w'.1 = input /\ I a' (seen ++ l) w'.2) R (body a l) ((input, out) : @W stream)) ->
  I a0 [] out0 ->
  must (fun r w' => I r.1 text w'.2 /\ r.2 = true) R (read_loop sz body a0) ((text, out0) : @W stream).
Proof.
  intros Hsz Hb HI. unfold read_loop.
  apply (must_iter (fun a (w : @W stream) => exists seen, text = seen ++ w.1 /\ I a seen w.2)
    (fun _ w => length w.1)); [|by exists []].
  intros a [input out] (seen & -> & Ha). cbn [fst snd] in *.
  apply must_bind, must_trigger; [apply can_read|].
  intros r [input' out'] (_ & l & -> & El & Eo & Hln & Hnil). cbn in El, Eo. subst input out'.
  destruct l as [|c l].
  - apply must_ret. cbn. destruct (Hnil eq_refl) as [|E]; [lia|]. cbn in E. rewrite E, app_nil_r. done.
  - apply must_bind. eapply must_mono; [| |exact (Hb a seen (c :: l) input' out Ha ltac:(done))]; [|done].
    intros a' [input2 out2] [E HI2]. cbn in E. subst input2. apply must_ret. cbn. split.
    + exists (seen ++ c :: l). by rewrite <- app_assoc.
    + rewrite length_app. lia.
Qed.

End filter.
