(* ===== verification/Grep.v ===== *)
(** * grep: user/grep.c

    The matcher of Kernighan and Pike decides a regular expression with the operators
    [^ . * $] (C strings are lists of bytes), and the loop over the input prints exactly the
    lines that match, however the kernel splits the input into reads. *)

From S2P Require Import Prelude User Ulib Uprintf Filter.
From ITree Require Import Core.ITreeDefinition.

Open Scope prog_scope.

Definition CARET : Z := 94.
Definition DOLLAR : Z := 36.
Definition DOT : Z := 46.
Definition STAR : Z := 42.

(** The loop of [matchstar(c, re, text)], where [here] is [matchhere(re, _)]. *)
Definition star_loop (here : list Z -> bool) (c : Z) : list Z -> bool :=
  fix loop (text : list Z) : bool :=
    if here text then true else
    match text with
    | [] => false
    | t :: text => if (t =? c) || (c =? DOT) then loop text else false
    end.

Fixpoint matchhere (re text : list Z) : bool :=
  match re with
  | [] => true
  | c :: re1 =>
      let one :=
        match text with
        | t :: text => if (c =? DOT) || (c =? t) then matchhere re1 text else false
        | [] => false
        end in
      match re1 with
      | d :: re2 => if d =? STAR then star_loop (matchhere re2) c text else one
      | [] => if c =? DOLLAR then match text with [] => true | _ => false end else one
      end
  end.

Definition matchstar (c : Z) (re text : list Z) : bool := star_loop (matchhere re) c text.

(** [do ... while( *text++ != 0)]. *)
Fixpoint match_anywhere (re text : list Z) : bool :=
  if matchhere re text then true else
  match text with
  | [] => false
  | _ :: text => match_anywhere re text
  end.

Definition match_ (re text : list Z) : bool :=
  match re with
  | c :: re' => if c =? CARET then matchhere re' text else match_anywhere re text
  | [] => match_anywhere re text
  end.

(** The bytes before the first NUL. *)
Fixpoint upto_nul (l : list Z) : list Z :=
  match l with
  | [] => []
  | c :: l => if c =? 0 then [] else c :: upto_nul l
  end.

(** The inner loop: [rest] is what is in the buffer from [p] on; answers what is left when
    there is no newline any more.  Each round moves [p]. *)
Fixpoint grep_lines (fuel : nat) (pattern rest : list Z) : prog (list Z) :=
  match fuel with
  | O => done rest
  | S fuel =>
      match strchr (upto_nul rest) NL with
      | None => done rest
      | Some q =>
          let n := (length (upto_nul rest) - length q)%nat in
          (if match_ pattern (take n rest) then call (Write 1 (take (S n) rest)) else done 0);;
          grep_lines fuel pattern (drop (S n) rest)
      end
  end.

Definition BUFSZ : Z := 1024.

Definition grep (pattern : list Z) (fd : Z) : prog unit :=
  ITree.iter (fun buf =>
    r <- call (Read fd (BUFSZ - Z.of_nat (length buf) - 1));;
    match r with
    | Some ((_ :: _) as l) =>
        rest <- grep_lines (length (buf ++ l)) pattern (buf ++ l);;
        done (inl rest)
    | _ => done (inr tt)
    end) [].

Definition grep_main (argv : list (list Z)) : prog unit :=
  match argv with
  | _ :: pattern :: [] =>
      grep pattern 0;;
      exit 0
  | _ :: pattern :: files =>
      each files (fun f =>
        fd <- call (Open f 0);;
        if fd <? 0 then
          printf (line "grep: cannot open %s") [V_str (Some f)];;
          exit 1
        else
          grep pattern fd;;
          call (Close fd);;
          done true);;
      exit 0
  | _ =>
      fprintf 2 (line "usage: grep pattern [file ...]") [];;
      exit 1
  end.

(** ** What a pattern means *)

(** The atoms of a pattern (a character or any one, starred or not), and whether it ends
    in a dollar sign. *)
Fixpoint atoms (re : list Z) : list (Z * bool) * bool :=
  match re with
  | [] => ([], false)
  | c :: re1 =>
      match re1 with
      | d :: re2 =>
          if d =? STAR then let '(l, e) := atoms re2 in ((c, true) :: l, e)
          else let '(l, e) := atoms re1 in ((c, false) :: l, e)
      | [] => if c =? DOLLAR then ([], true) else ([(c, false)], false)
      end
  end.

Definition fits (c t : Z) : Prop := c = DOT \/ c = t.

(** The words of a sequence of atoms. *)
Inductive lang : list (Z * bool) -> list Z -> Prop :=
| lang_nil : lang [] []
| lang_one c l t w : fits c t -> lang l w -> lang ((c, false) :: l) (t :: w)
| lang_star c l ts w : Forall (fits c) ts -> lang l w -> lang ((c, true) :: l) (ts ++ w).

(** [text] starts with a word of the pattern, which is all of it if there is a dollar sign. *)
Definition begins (re text : list Z) : Prop :=
  exists w post, text = w ++ post /\ lang (atoms re).1 w /\ ((atoms re).2 = true -> post = []).

(** Some part of [text] is a word of the pattern, at the beginning if there is a caret. *)
Definition matches (re text : list Z) : Prop :=
  if decide (head re = Some CARET) then begins (tail re) text
  else exists pre text', text = pre ++ text' /\ begins re text'.

Lemma begins_nil text : begins [] text.
Proof. exists [], text. split; [done|]. split; [constructor|done]. Qed.

Lemma begins_dollar text : begins [DOLLAR] text <-> text = [].
Proof.
  unfold begins. cbn. split.
  - intros (w & post & -> & Hw & He). inversion Hw; subst. by rewrite He.
  - intros ->. exists [], []. split; [done|]. split; [constructor|done].
Qed.

Lemma begins_one c re1 text :
  head re1 <> Some STAR -> ~ (c = DOLLAR /\ re1 = []) ->
  begins (c :: re1) text <-> exists t text', text = t :: text' /\ fits c t /\ begins re1 text'.
Proof.
  intros Hs Hd. assert (atoms (c :: re1) = ((c, false) :: (atoms re1).1, (atoms re1).2)) as Ea.
  { destruct re1 as [|d re2]; cbn [atoms].
    - destruct (Z.eqb_spec c DOLLAR); [naive_solver|done].
    - destruct (Z.eqb_spec d STAR) as [->|]; [done|]. by destruct (match re2 with [] => _ | _ => _ end). }
  unfold begins. rewrite Ea. cbn [fst snd]. split.
  - intros (w & post & -> & Hw & He). inversion Hw; subst. do 2 eexists. split; [done|]. split; [done|].
    by do 2 eexists.
  - intros (t & text' & -> & Hf & w & post & -> & Hw & He). exists (t :: w), post.
    split; [done|]. split; [by constructor|done].
Qed.

Lemma begins_star c re2 text :
  begins (c :: STAR :: re2) text <->
  begins re2 text \/ exists t text', text = t :: text' /\ fits c t /\ begins (c :: STAR :: re2) text'.
Proof.
  unfold begins. cbn [atoms]. rewrite Z.eqb_refl. destruct (atoms re2) as [l e]. cbn [fst snd]. split.
  - intros (w & post & -> & Hw & He). inversion Hw as [| |? ? ts w' Hts Hw']; subst.
    destruct ts as [|t ts]; [left; by exists w', post|]. right.
    apply Forall_cons in Hts as [Ht Hts]. exists t, (ts ++ w' ++ post). rewrite <- app_assoc.
    split; [done|]. split; [done|]. exists (ts ++ w'), post. rewrite <- app_assoc.
    split; [done|]. split; [by constructor|done].
  - intros [(w & post & -> & Hw & He)|(t & text' & -> & Hf & w & post & -> & Hw & He)].
    + exists w, post. split; [done|]. split; [exact (lang_star c l [] w (Forall_nil_2 _) Hw)|done].
    + inversion Hw as [| |? ? ts w' Hts Hw']; subst. exists ((t :: ts) ++ w'), post.
      split; [done|]. split; [|done]. apply (lang_star c l (t :: ts) w'); [by constructor|done].
Qed.

Lemma fits_eqb c t : (c =? DOT) || (c =? t) = true <-> fits c t.
Proof. rewrite orb_true_iff, !Z.eqb_eq. done. Qed.

Lemma star_eqb c t : (t =? c) || (c =? DOT) = true <-> fits c t.
Proof. rewrite orb_true_iff, !Z.eqb_eq. unfold fits. naive_solver. Qed.

(** The recursion of the matcher over the pattern, two characters at a time. *)
Lemma pattern_ind (P : list Z -> Prop) :
  P [] -> (forall c, P [c]) -> (forall c d re, P (d :: re) -> P re -> P (c :: d :: re)) -> forall re, P re.
Proof.
  intros Hn Ho Ht re. enough (P re /\ P (tail re)) by tauto. induction re as [|c re [IH1 IH2]]; [done|].
  split; [|done]. destruct re as [|d re]; [done|]. by apply Ht.
Qed.

Lemma matchstar_spec c re text :
  (forall text, matchhere re text = true <-> begins re text) ->
  matchstar c re text = true <-> begins (c :: STAR :: re) text.
Proof.
  intros Hh. unfold matchstar. induction text as [|t text IH]; cbn [star_loop]; rewrite begins_star, <- Hh.
  - destruct (matchhere re []); [tauto|]. split; [done|]. intros [?|(? & ? & ? & _)]; done.
  - destruct (matchhere re (t :: text)); [tauto|].
    destruct ((t =? c) || (c =? DOT)) eqn:E.
    + apply star_eqb in E. fold (star_loop (matchhere re) c text).
      rewrite IH. split; [intros Hb; right; eauto|]. intros [?|(t' & x & [= <- <-] & _ & Hb)]; done.
    + split; [done|]. intros [?|(t' & x & [= <- <-] & Hf & _)]; [done|].
      apply star_eqb in Hf. congruence.
Qed.

Lemma matchhere_one c re1 text :
  (forall text, matchhere re1 text = true <-> begins re1 text) ->
  head re1 <> Some STAR -> ~ (c = DOLLAR /\ re1 = []) ->
  match text with
  | t :: text => if (c =? DOT) || (c =? t) then matchhere re1 text else false
  | [] => false
  end = true <-> begins (c :: re1) text.
Proof.
  intros Hh Hs Hd. rewrite begins_one by done. destruct text as [|t text].
  - split; [done|]. intros (? & ? & ? & _); done.
  - destruct ((c =? DOT) || (c =? t)) eqn:E.
    + apply fits_eqb in E. rewrite Hh. split; [eauto|]. by intros (? & ? & [= <- <-] & _ & ?).
    + split; [done|]. intros (? & ? & [= <- <-] & Hf & _). apply fits_eqb in Hf. congruence.
Qed.

Lemma matchhere_spec re text : matchhere re text = true <-> begins re text.
Proof.
  revert text. induction re as [|c|c d re IH1 IH2] using pattern_ind; intros text.
  - split; [intros; apply begins_nil|done].
  - cbn [matchhere]. destruct (Z.eqb_spec c DOLLAR) as [->|Hne].
    + rewrite begins_dollar. by destruct text.
    + apply (matchhere_one c []); [|done|naive_solver]. intros x. split; [intros; apply begins_nil|done].
  - cbn [matchhere]. destruct (Z.eqb_spec d STAR) as [->|Hne]; [by apply matchstar_spec|].
    apply (matchhere_one c (d :: re) text IH1); naive_solver.
Qed.

Lemma match_anywhere_spec re text :
  match_anywhere re text = true <-> exists pre text', text = pre ++ text' /\ begins re text'.
Proof.
  induction text as [|t text IH]; cbn [match_anywhere].
  - destruct (matchhere re []) eqn:E; [apply matchhere_spec in E|].
    + split; [|done]. intros _. by exists [], [].
    + split; [done|]. intros (pre & text' & Ht & Hb%matchhere_spec).
      destruct pre, text'; try done. congruence.
  - destruct (matchhere re (t :: text)) eqn:E; [apply matchhere_spec in E|].
    + split; [|done]. intros _. by exists [], (t :: text).
    + rewrite IH. split.
      * intros (pre & text' & -> & Hb). by exists (t :: pre), text'.
      * intros (pre & text' & Ht & Hb). destruct pre as [|t' pre]; cbn in Ht.
        { apply matchhere_spec in Hb. congruence. }
        injection Ht as <- ->. by exists pre, text'.
Qed.

(** C21: [match(re, text)] decides whether some part of the text, its beginning if the
    pattern starts with a caret, is a word of the regular expression: the matcher
    with its backtracking loops terminates and agrees with the meaning of the pattern, for
    every pattern and every text. *)
Theorem match_correct re text : match_ re text = true <-> matches re text.
Proof.
  unfold matches, match_. destruct re as [|c re]; cbn [head tail].
  - rewrite decide_False by done. apply match_anywhere_spec.
  - destruct (Z.eqb_spec c CARET) as [->|Hne].
    + rewrite decide_True by done. apply matchhere_spec.
    + rewrite decide_False by naive_solver. apply match_anywhere_spec.
Qed.

(** ** The input loop *)

(** The lines of a text that are complete, after the part [acc] of the first. *)
Fixpoint full_lines (acc text : list Z) : list (list Z) :=
  match text with
  | [] => []
  | c :: text => if c =? NL then acc :: full_lines [] text else full_lines (acc ++ [c]) text
  end.

(** The lines that match, as they are to be printed. *)
Definition matching (pattern text : list Z) : list Z :=
  concat ((fun l => l ++ [NL]) <$> filter (fun l => match_ pattern l = true) (full_lines [] text)).

Lemma full_lines_none acc text : NL ∉ text -> full_lines acc text = [].
Proof.
  revert acc. induction text as [|c text IH]; intros acc Hn; [done|]. cbn [full_lines].
  destruct (Z.eqb_spec c NL) as [->|]; [set_solver|]. apply IH. set_solver.
Qed.

Lemma full_lines_cons acc l text :
  NL ∉ l -> full_lines acc (l ++ NL :: text) = (acc ++ l) :: full_lines [] text.
Proof.
  revert acc. induction l as [|c l IH]; intros acc Hn; cbn [full_lines app]; [by rewrite Z.eqb_refl, app_nil_r|].
  destruct (Z.eqb_spec c NL) as [->|]; [set_solver|]. rewrite IH by set_solver. by rewrite <- app_assoc.
Qed.

Lemma matching_none pattern text : NL ∉ text -> matching pattern text = [].
Proof. intros Hn. unfold matching. by rewrite full_lines_none. Qed.

Lemma matching_cons pattern l text :
  NL ∉ l -> matching pattern (l ++ NL :: text) =
    (if match_ pattern l then l ++ [NL] else []) ++ matching pattern text.
Proof.
  intros Hn. unfold matching. rewrite full_lines_cons by done. cbn [app]. rewrite filter_cons.
  destruct (match_ pattern l); by rewrite ?decide_True, ?decide_False by done.
Qed.

Lemma upto_nul_id l : 0 ∉ l -> upto_nul l = l.
Proof.
  induction l as [|c l IH]; intros Hn; cbn [upto_nul]; [done|].
  destruct (Z.eqb_spec c 0) as [->|]; [set_solver|]. by rewrite IH by set_solver.
Qed.

(** The first line of what is in the buffer. *)
Lemma first_line rest q :
  strchr rest NL = Some q ->
  let n := (length rest - length q)%nat in
  NL ∉ take n rest /\ rest = take n rest ++ NL :: drop (S n) rest /\
  take (S n) rest = take n rest ++ [NL] /\ (length (drop (S n) rest) < length rest)%nat.
Proof.
  intros (l & r & -> & -> & Hl)%strchr_Some n.
  assert (n = length l) as -> by (subst n; rewrite length_app; cbn; lia).
  assert (l ++ NL :: r = (l ++ [NL]) ++ r) as E by by rewrite <- app_assoc.
  assert (S (length l) = length (l ++ [NL])) as En by (rewrite length_app; cbn; lia).
  rewrite take_app_length, En, E, take_app_length, drop_app_length, <- app_assoc.
  rewrite !length_app. cbn. split_and!; (done || lia).
Qed.

(** Some lines at the beginning of [rest] are done with: [rest'] is left and [printed] is
    what was printed of them. *)
Record consumed (pattern rest rest' printed : list Z) : Prop := {
  co_suffix : exists pre, rest = pre ++ rest';
  co_match : forall more, matching pattern (rest ++ more) = printed ++ matching pattern (rest' ++ more);
  co_lines : forall more, exists ls, full_lines [] (rest ++ more) = ls ++ full_lines [] (rest' ++ more)
}.

Lemma consumed_refl pattern rest : consumed pattern rest rest [].
Proof. split; [by exists []|done|]. intros more. by exists []. Qed.

Lemma consumed_line pattern l r rest' printed :
  NL ∉ l -> consumed pattern r rest' printed ->
  consumed pattern (l ++ NL :: r) rest' ((if match_ pattern l then l ++ [NL] else []) ++ printed).
Proof.
  intros Hl [(pre & ->) Hm Hls]. split.
  - exists (l ++ NL :: pre). by rewrite <- app_assoc.
  - intros more. rewrite <- app_assoc. cbn [app]. by rewrite matching_cons, Hm, <- app_assoc.
  - intros more. destruct (Hls more) as [ls E]. exists (l :: ls).
    rewrite <- (app_assoc l). cbn [app]. rewrite full_lines_cons by done. cbn [app]. by rewrite E.
Qed.

Section grep.
Context (fd : Z).
Let stream : world := filter_world fd.
#[local] Existing Instance stream.

Lemma grep_lines_must pattern fuel : forall rest input out R,
  0 ∉ rest -> (length rest <= fuel)%nat ->
  must (fun rest' w' => exists printed, w' = (input, out ++ printed) /\ NL ∉ rest' /\
      consumed pattern rest rest' printed)
    R (grep_lines fuel pattern rest) ((input, out) : @W stream).
Proof.
  induction fuel as [|fuel IH]; intros rest input out R Hz Hf; cbn [grep_lines].
  { apply must_ret. exists []. rewrite app_nil_r. destruct rest; [|cbn in Hf; lia].
    split; [done|]. split; [set_solver|apply consumed_refl]. }
  rewrite upto_nul_id by done. destruct (strchr rest NL) as [q|] eqn:Eq.
  2:{ apply must_ret. exists []. rewrite app_nil_r. split; [done|]. split; [by apply strchr_None|apply consumed_refl]. }
  destruct (first_line rest q Eq) as (Hn & Er & Et & Hl). cbv zeta in *.
  set (n := (length rest - length q)%nat) in *. rewrite Et.
  assert (forall out', must (fun rest' w' => exists printed, w' = (input, out' ++ printed) /\ NL ∉ rest' /\
    consumed pattern (drop (S n) rest) rest' printed) R (grep_lines fuel pattern (drop (S n) rest))
    ((input, out') : @W stream)) as Hrec.
  { intros out'. apply IH; [|lia]. rewrite Er in Hz. set_solver. }
  pose proof (consumed_line pattern (take n rest) (drop (S n) rest)) as Hc. rewrite <- Er in Hc.
  destruct (match_ pattern (take n rest)).
  - apply (must_write fd _ _ (take n rest ++ [NL])). eapply must_mono; [|by intros ? ? ?|apply Hrec].
    intros rest' w' (printed & -> & Hr & Hp). exists ((take n rest ++ [NL]) ++ printed).
    split; [f_equal; symmetry; apply app_assoc|]. split; [done|]. by apply Hc.
  - apply must_bind, must_ret. eapply must_mono; [|by intros ? ? ?|apply Hrec].
    intros rest' w' (printed & -> & Hr & Hp). exists printed. split; [done|]. split; [done|]. by apply Hc.
Qed.

(** Every line, with its newline, fits in the buffer. *)
Definition short_lines (text : list Z) : Prop :=
  Forall (fun l => Z.of_nat (length l) + 1 < BUFSZ) (full_lines [] text).

(** The buffer is full and its line is not complete: there is no complete line left. *)
Lemma buffer_full buf input :
  NL ∉ buf -> BUFSZ - 1 <= Z.of_nat (length buf) -> short_lines (buf ++ input) -> NL ∉ buf ++ input.
Proof.
  intros Hb Hl Hs. destruct (strchr input NL) as [q|] eqn:Eq.
  2:{ apply strchr_None in Eq. set_solver. }
  apply strchr_Some in Eq as (l & r & -> & -> & Hn). unfold short_lines in Hs.
  rewrite app_assoc, full_lines_cons in Hs by set_solver. apply Forall_cons in Hs as [Hs _].
  cbn [app] in Hs. rewrite length_app in Hs. unfold BUFSZ in *. lia.
Qed.

(** C22: [grep(pattern, fd)] on an input without NUL bytes whose lines fit in the buffer
    ends, and what it has written to the standard output is exactly the lines that match, in order
    and with their newlines, however the kernel splits the input into reads; a last line without a
    newline is not printed. *)
Theorem grep_correct pattern text :
  0 ∉ text -> short_lines text ->
  must (fun _ w => w.2 = matching pattern text) (fun _ _ => False)
    (grep pattern fd) ((text, []) : @W stream).
Proof.
  intros Hz Hs. unfold grep.
  apply (must_iter (fun buf (w : @W stream) => NL ∉ buf /\ 0 ∉ buf ++ w.1 /\ short_lines (buf ++ w.1) /\
      Z.of_nat (length buf) < BUFSZ /\ matching pattern text = w.2 ++ matching pattern (buf ++ w.1))
    (fun _ w => length w.1)); [|by split_and!; (set_solver || done)].
  clear Hz Hs. intros buf [input out] (Hb & Hz & Hs & Hl & Hm). cbn [fst snd] in *.
  apply must_bind, must_trigger.
  { apply can_read. }
  intros r [input' out'] (_ & l & -> & El & Eo & Hln & Hnil). cbn in El, Eo. subst input out'.
  destruct l as [|c l].
  { apply must_ret. cbn. rewrite Hm, matching_none, app_nil_r; [done|]. cbn in Hnil.
    destruct (Hnil eq_refl) as [Hle| ->]; [apply buffer_full; (done || lia)|set_solver]. }
  apply must_bind. eapply (must_mono _ _ (fun _ _ => False));
    [|done|apply grep_lines_must; [set_solver|done]].
  intros rest' w' (printed & -> & Hr & [[pre Ep] Hcm Hcl]). apply must_ret. cbn [fst snd].
  assert (buf ++ (c :: l) ++ input' = (buf ++ c :: l) ++ input') as Ea by by rewrite <- app_assoc.
  rewrite Ea in *. split_and!.
  - done.
  - rewrite Ep in Hz. set_solver.
  - unfold short_lines in *. destruct (Hcl input') as [ls E]. rewrite E in Hs. by apply Forall_app in Hs as [_ Hs].
  - assert (length rest' <= length (buf ++ c :: l))%nat by (rewrite Ep, length_app; lia).
    rewrite length_app in *. unfold BUFSZ in *. lia.
  - by rewrite Hm, Hcm, app_assoc.
  - rewrite length_app. cbn. lia.
Qed.

End grep.

Lemma grep_correct_witness :
  @must (filter_world 3) unit (fun _ w => w.2 = line "needle") (fun _ _ => False)
    (grep (str "ne*dl") 3) (line "hay" ++ line "needle" ++ str "ne", []).
Proof.
  replace (line "needle") with (matching (str "ne*dl") (line "hay" ++ line "needle" ++ str "ne")) at 1
    by (vm_compute; reflexivity).
  apply (grep_correct 3 (str "ne*dl") (line "hay" ++ line "needle" ++ str "ne")).
  - apply strchr_None. vm_compute. reflexivity.
  - repeat constructor.
Defined.
