(* ===== verification/Coreutils.v ===== *)
(** * The small user programs

    user/cat.c, echo.c, init.c, kill.c, ln.c, ls.c, mkdir.c, rm.c, wc.c and zombie.c: each [main]
    takes its [argv] (the program's name first). *)

From S2P Require Import Prelude Bytes User Ulib Uprintf Filter.
From ITree Require Import Core.ITreeDefinition.

Open Scope prog_scope.

(** ** cat *)

Definition cat (fd : Z) : prog unit :=
  r <- read_loop fd 512 (fun _ buf =>
    n <- call (Write 1 buf);;
    if negb (n =? Z.of_nat (length buf)) then
      fprintf 2 (line "cat: write error") [];;
      exit 1
    else done tt) tt;;
  if negb r.2 then
    fprintf 2 (line "cat: read error") [];;
    exit 1
  else done tt.

Definition cat_main (argv : list (list Z)) : prog unit :=
  match tail argv with
  | [] =>
      cat 0;;
      exit 0
  | files =>
      each files (fun f =>
        fd <- call (Open f 0);;
        if fd <? 0 then
          fprintf 2 (line "cat: cannot open %s") [V_str (Some f)];;
          exit 1
        else
          cat fd;;
          call (Close fd);;
          done true);;
      exit 0
  end.

(** ** echo *)

Fixpoint echo_args (args : list (list Z)) : prog unit :=
  match args with
  | [] => done tt
  | a :: rest =>
      call (Write 1 a);;
      call (Write 1 (match rest with [] => [NL] | _ => [SPACE] end));;
      echo_args rest
  end.
Definition echo_main (argv : list (list Z)) : prog unit :=
  echo_args (tail argv);;
  exit 0.

(** ** kill, ln, mkdir, rm, zombie *)

Definition kill_main (argv : list (list Z)) : prog unit :=
  match tail argv with
  | [] =>
      fprintf 2 (line "usage: kill pid...") [];;
      exit 1
  | pids =>
      each pids (fun a => call (Kill (atoi a));; done true);;
      exit 0
  end.

Definition ln_main (argv : list (list Z)) : prog unit :=
  match argv with
  | [_; old; new] =>
      r <- call (Link old new);;
      (if r <? 0 then fprintf 2 (line "link %s %s: failed") [V_str (Some old); V_str (Some new)]
       else done tt);;
      exit 0
  | _ =>
      fprintf 2 (line "Usage: ln old new") [];;
      exit 1
  end.

Definition mkdir_main (argv : list (list Z)) : prog unit :=
  match tail argv with
  | [] =>
      fprintf 2 (line "Usage: mkdir files...") [];;
      exit 1
  | files =>
      each files (fun f =>
        r <- call (Mkdir f);;
        if r <? 0 then fprintf 2 (line "mkdir: %s failed to create") [V_str (Some f)];; done false
        else done true);;
      exit 0
  end.

Definition rm_main (argv : list (list Z)) : prog unit :=
  match tail argv with
  | [] =>
      fprintf 2 (line "Usage: rm files...") [];;
      exit 1
  | files =>
      each files (fun f =>
        r <- call (Unlink f);;
        if r <? 0 then fprintf 2 (line "rm: %s failed to delete") [V_str (Some f)];; done false
        else done true);;
      exit 0
  end.

Definition zombie_main : prog unit :=
  r <- call Fork;;
  (if r >? 0 then call (Sleep 5);; done tt else done tt);;
  exit 0.

(** ** init *)

Definition O_RDWR : Z := 2.
Definition CONSOLE : Z := 1.

(** [for(;;)]: wait until the shell [pid] has exited. *)
Definition init_wait (pid : Z) : prog unit :=
  ITree.iter (fun _ =>
    wpid <- call Wait;;
    if wpid =? pid then done (inr tt)
    else if wpid <? 0 then
      printf (line "init: wait returned an error") [];;
      exit 1
    else done (inl tt)) tt.

Definition init_main : prog unit :=
  fd <- call (Open (str "console") O_RDWR);;
  (if fd <? 0 then
     call (Mknod (str "console") CONSOLE 0);;
     call (Open (str "console") O_RDWR);;
     done tt
   else done tt);;
  call (Dup 0);;
  call (Dup 0);;
  ITree.iter (fun _ =>
    printf (line "init: starting sh") [];;
    pid <- call Fork;;
    if pid <? 0 then
      printf (line "init: fork failed") [];;
      exit 1
    else if pid =? 0 then
      call (Exec (str "sh") [str "sh"]);;
      printf (line "init: exec sh failed") [];;
      exit 1
    else
      init_wait pid;;
      done (inl tt : unit + unit)) tt.

(** ** wc *)

Definition wc_space : list Z := [SPACE; CR; TAB; NL; VT].

(** The counters [l], [w], [c] and the flag [inword]. *)
Record counts := Counts { wc_l : Z; wc_w : Z; wc_c : Z; wc_in : bool }.

Definition wc_byte (k : counts) (b : Z) : counts :=
  let c := i32 (wc_c k + 1) in
  let l := if b =? NL then i32 (wc_l k + 1) else wc_l k in
  if has wc_space b then Counts l (wc_w k) c false
  else if negb (wc_in k) then Counts l (i32 (wc_w k + 1)) c true
  else Counts l (wc_w k) c (wc_in k).

Definition wc (fd : Z) (name : list Z) : prog unit :=
  r <- read_loop fd 512 (fun k buf => done (foldl wc_byte k buf)) (Counts 0 0 0 false);;
  if negb r.2 then
    printf (line "wc: read error") [];;
    exit 1
  else
    printf (line "%d %d %d %s") [V_int (wc_l r.1); V_int (wc_w r.1); V_int (wc_c r.1); V_str (Some name)].

Definition wc_main (argv : list (list Z)) : prog unit :=
  match tail argv with
  | [] =>
      wc 0 [];;
      exit 0
  | files =>
      each files (fun f =>
        fd <- call (Open f 0);;
        if fd <? 0 then
          printf (line "wc: cannot open %s") [V_str (Some f)];;
          exit 1
        else
          wc fd f;;
          call (Close fd);;
          done true);;
      exit 0
  end.

(** ** ls *)

Definition DIRSIZ : Z := 14.
Definition SLASH : Z := 47.
Definition T_DIR : Z := 1.
Definition T_FILE : Z := 2.
Definition T_DEVICE : Z := 3.

(** What follows the last slash of the path; [last] is the answer so far. *)
Fixpoint after_slash (path last : list Z) : list Z :=
  match path with
  | [] => last
  | c :: path => after_slash path (if c =? SLASH then path else last)
  end.

Definition fmtname (path : list Z) : list Z :=
  let p := after_slash path path in
  if strlen p >=? DIRSIZ then p
  else p ++ replicate (Z.to_nat (DIRSIZ - strlen p)) SPACE.

(** The string in a directory entry's name field. *)
Fixpoint until_nul (l : list Z) : list Z :=
  match l with
  | [] => []
  | c :: l => if c =? 0 then [] else c :: until_nul l
  end.

(** [while(read(fd, &de, sizeof(de)) == sizeof(de))]. *)
Definition ls_dir (fd : Z) (path : list Z) : prog unit :=
  ITree.iter (fun _ =>
    r <- call (Read fd 16);;
    match r with
    | Some de =>
        if negb (length de =? 16)%nat then done (inr tt)
        else if le (take 2 de) =? 0 then done (inl tt)
        else
          let buf := path ++ [SLASH] ++ until_nul (drop 2 de) in
          st <- stat buf;;
          match st with
          | None =>
              printf (line "ls: cannot stat %s") [V_str (Some buf)];;
              done (inl tt)
          | Some st =>
              printf (line "%s %d %d %d") [V_str (Some (fmtname buf)); V_int (us_type st);
                V_int (us_ino st); V_int (us_size st)];;
              done (inl tt)
          end
    | None => done (inr tt)
    end) tt.

Definition ls (path : list Z) : prog unit :=
  fd <- call (Open path 0);;
  if fd <? 0 then fprintf 2 (line "ls: cannot open %s") [V_str (Some path)] else
  st <- call (Fstat fd);;
  match st with
  | None =>
      fprintf 2 (line "ls: cannot stat %s") [V_str (Some path)];;
      call (Close fd);;
      done tt
  | Some st =>
      (if (us_type st =? T_DEVICE) || (us_type st =? T_FILE) then
         printf (line "%s %d %d %l") [V_str (Some (fmtname path)); V_int (us_type st);
           V_int (us_ino st); V_int (us_size st)]
       else if us_type st =? T_DIR then
         if strlen path + 1 + DIRSIZ + 1 >? 512 then printf (line "ls: path too long") []
         else ls_dir fd path
       else done tt);;
      call (Close fd);;
      done tt
  end.

Definition ls_main (argv : list (list Z)) : prog unit :=
  match tail argv with
  | [] =>
      ls (str ".");;
      exit 0
  | paths =>
      each paths (fun p => ls p;; done true);;
      exit 0
  end.

(** ** What cat and wc write *)

Section filters.
Context (fd : Z).
Let stream : world := filter_world fd.
#[local] Existing Instance stream.

Lemma cat_body (buf input out : list Z) R :
  must (fun (_ : unit) w' => w'.1 = input /\ w'.2 = out ++ buf) R
    (n <- call (Write 1 buf);;
     if negb (n =? Z.of_nat (length buf)) then fprintf 2 (line "cat: write error") [];; exit 1
     else done tt) ((input, out) : @W stream).
Proof. apply (must_write fd). rewrite Z.eqb_refl. by apply must_ret. Qed.

(** [cat(fd)] ends without an error, and it has written to the standard output what there was to
    read, however the kernel splits it into reads. *)
Theorem cat_correct text :
  must (fun _ w => w.2 = text) (fun _ _ => False) (cat fd) ((text, []) : @W stream).
Proof.
  apply must_bind. eapply (must_mono (fun (r : unit * bool) (w : @W stream) => w.2 = text /\ r.2 = true) _ (fun _ _ => False)); [|done|].
  - intros r w [Hw ->]. by apply must_ret.
  - apply (read_loop_must fd (fun (_ : unit) seen out => out = seen)); [done| |done].
    intros _ seen l input out -> _. apply cat_body.
Qed.

End filters.

(** The words of a text: the longest parts without white space, after the part [cur] of
    the first. *)
Fixpoint words (cur text : list Z) : list (list Z) :=
  match text with
  | [] => if decide (cur = []) then [] else [cur]
  | b :: text =>
      if decide (b ∈ wc_space) then (if decide (cur = []) then [] else [cur]) ++ words [] text
      else words (cur ++ [b]) text
  end.

Definition newlines (text : list Z) : nat := length (filter (fun b => b = NL) text).

Lemma i32_add a b : i32 (i32 a + b) = i32 (a + b).
Proof. unfold i32. Z.to_euclidean_division_equations. lia. Qed.

Lemma newlines_cons b text : newlines (b :: text) = ((if (b =? NL)%Z then 1 else 0) + newlines text)%nat.
Proof.
  unfold newlines. rewrite filter_cons. destruct (Z.eqb_spec b NL) as [->|Hne].
  - by rewrite decide_True.
  - by rewrite decide_False.
Qed.

(** The counters after a text, from counters that stand for the numbers [l], [w] and [c]. *)
Lemma wc_fold text : forall l w c cur,
  exists inword,
    foldl wc_byte (Counts (i32 l) (i32 w) (i32 c) (negb (bool_decide (cur = [])))) text =
      Counts (i32 (l + Z.of_nat (newlines text)))
        (i32 (w + Z.of_nat (length (words cur text)) - (if decide (cur = []) then 0 else 1)))
        (i32 (c + Z.of_nat (length text))) inword.
Proof.
  induction text as [|b text IH]; intros l w c cur.
  { eexists. cbn [foldl newlines filter length words]. rewrite !Z.add_0_r. f_equal. f_equal.
    destruct (decide (cur = [])); cbn; lia. }
  cbn [foldl length words]. rewrite newlines_cons. unfold wc_byte at 2. cbn [wc_l wc_w wc_c wc_in].
  rewrite !i32_add, has_elem.
  replace (if b =? NL then i32 (l + 1) else i32 l) with (i32 (l + (if b =? NL then 1 else 0)))
    by (destruct (b =? NL); [done|by rewrite Z.add_0_r]).
  destruct (decide (b ∈ wc_space)) as [Hs|Hs].
  - rewrite bool_decide_true by done.
    destruct (IH (l + (if b =? NL then 1 else 0)) w (c + 1) []) as [f E]. exists f.
    refine (eq_trans E _). rewrite length_app, (decide_True (P := @nil Z = [])) by done.
    f_equal; f_equal; [destruct (b =? NL); lia| |lia].
    destruct (decide (cur = [])); cbn; lia.
  - rewrite bool_decide_false by done.
    assert (~ (cur ++ [b] = [])) as Hne by by destruct cur.
    destruct (decide (cur = [])) as [->|Hc].
    + rewrite bool_decide_true by done. cbn [negb].
      destruct (IH (l + (if b =? NL then 1 else 0)) (w + 1) (c + 1) [b]) as [f E]. exists f.
      refine (eq_trans E _). rewrite decide_False by done.
      f_equal; f_equal; [destruct (b =? NL); lia|cbn [app]; lia|lia].
    + rewrite bool_decide_false by done. cbn [negb].
      destruct (IH (l + (if b =? NL then 1 else 0)) w (c + 1) (cur ++ [b])) as [f E]. exists f.
      rewrite bool_decide_false in E by done. refine (eq_trans E _). rewrite decide_False by done.
      f_equal; f_equal; [destruct (b =? NL); lia|lia].
Qed.

Lemma wc_format l w c name :
  format (line "%d %d %d %s") false [V_int l; V_int w; V_int c; V_str (Some name)] =
    Some (rev (printint_buf (i32 l) 10 true) ++ SPACE :: rev (printint_buf (i32 w) 10 true) ++
      SPACE :: rev (printint_buf (i32 c) 10 true) ++ SPACE :: name ++ [NL]).
Proof. reflexivity. Qed.

Lemma i32_i32 x : i32 (i32 x) = i32 x.
Proof. apply i32_small, i32_range. Qed.

(** C39: [wc(fd, name)] ends and prints the number of newlines, of words (longest parts without
    white space) and of bytes of its input as 32-bit integers, and the name, however the
    kernel splits the input into reads. *)
Theorem wc_correct fd name text :
  @must (filter_world fd) unit
    (fun _ w => Some w.2 = format (line "%d %d %d %s") false
       [V_int (Z.of_nat (newlines text)); V_int (Z.of_nat (length (words [] text)));
        V_int (Z.of_nat (length text)); V_str (Some name)])
    (fun _ _ => False) (wc fd name) (text, []).
Proof.
  apply must_bind.
  eapply (must_mono (fun (r : counts * bool) (w : @W (filter_world fd)) =>
    (r.1 = foldl wc_byte (Counts 0 0 0 false) text /\ w.2 = []) /\ r.2 = true) _ (fun _ _ => False)); [|done|].
  - intros [k f] [input out] [[Ek Eo] Ef]. cbn in Ek, Eo, Ef. subst k out f.
    destruct (wc_fold text 0 0 0 []) as [f E]. cbn [negb fst snd].
    change (foldl wc_byte (Counts 0 0 0 false) text) with (foldl wc_byte (Counts (i32 0) (i32 0) (i32 0)
      (negb (bool_decide (@nil Z = [])))) text). rewrite E. cbn [wc_l wc_w wc_c].
    rewrite (wc_format (Z.of_nat (newlines text))).
    eapply (must_emits fd); [apply emits_vprintf, wc_format|]. apply must_ret. cbn [snd app].
    rewrite !i32_i32, Z.sub_0_r. done.
  - apply (read_loop_must fd (fun k seen out => k = foldl wc_byte (Counts 0 0 0 false) seen /\ out = []));
      [done| |done].
    intros k seen l input out [-> ->] _. apply must_ret. split; [done|]. by rewrite foldl_app.
Qed.
