(* ===== verification/Messages.v ===== *)
(** * The message programs: user/unicast.c and user/broadcast.c

    A parent forks children that share two pipes with it, one for the message and one for the
    acknowledgement.  A struct msg_t is the list of its bytes.  What is on the stack before
    it is initialised is a parameter, [stack]; the loops that only burn time have no effect
    and are left out. *)

From S2P Require Import Prelude Bytes User Ulib Uprintf.
From ITree Require Import Core.ITreeDefinition.

Open Scope prog_scope.

(** ** What both programs have (and user/sh.c, but for [pipe1]) *)

Definition panic {A} (s : list Z) : prog A :=
  fprintf 2 (line "%s") [V_str (Some s)];;
  exit 1.

Definition fork1 : prog Z :=
  pid <- call Fork;;
  if pid =? -1 then panic (str "fork") else done pid.

Definition pipe1 : prog (Z * Z) :=
  rc <- call Pipe;;
  match rc with
  | None => panic (str "Fail to create a pipe.")
  | Some fd => done fd
  end.

(** The loop that forks [k] more children, the first of which is number [i]. *)
Fixpoint fork_children (k : nat) (i : Z) (child : Z -> prog unit) : prog unit :=
  match k with
  | O => done tt
  | S k =>
      retFork <- fork1;;
      (if retFork =? 0 then child i
       else printf (line "Parent: creates child process with id: %d") [V_int i]);;
      call (Sleep 1);;
      fork_children k (i + 1) child
  end.

(** The C string in an array, [beyond] being what follows the array in memory. *)
Fixpoint chars_until_nul (l : list Z) : list Z :=
  match l with
  | [] => []
  | c :: l => if c =? 0 then [] else c :: chars_until_nul l
  end.
Definition string_in (array beyond : list Z) : list Z := chars_until_nul (array ++ beyond).

(** What [read] stores at the beginning of an array. *)
Definition stored_at (array : list Z) (r : option (list Z)) : list Z :=
  match r with
  | Some l => l ++ drop (length l) array
  | None => array
  end.

(** What is on the stack: the uninitialised [msg] and [recvBuf], the descriptors of a pipe
    that could not be made, and what follows these arrays. *)
Record stack := Stack {
  st_msg : list Z;
  st_recv : list Z;
  st_fd : Z * Z;
  st_beyond : list Z
}.

Definition MAX_NUM_RECEIVERS : nat := 10.
Definition MAX_MSG_SIZE : Z := 256.

(** ** unicast *)

(** struct msg_t: [target] at 0 and [content] at 4. *)
Definition UMSG : Z := 4 + MAX_MSG_SIZE.

(** What child [i] does with the message it has read. *)
Definition unicast_got (st : stack) (to from : Z * Z) (msg : list Z) (i : Z) : prog unit :=
  let target := i32 (get32 msg 0) in
  let content := string_in (drop 4 msg) (st_beyond st) in
  (if i =? target then
     printf (line "Child %d: get msg (%s) to Child %d") [V_int i; V_str (Some content); V_int target];;
     printf (line "Child %d: the msg is for me.") [V_int i];;
     call (Write from.2 (str "received!" ++ [0]))
   else
     printf (line "Child %d: get msg (%s) to Child %d") [V_int i; V_str (Some content); V_int target];;
     printf (line "Child %d: the msg is not for me.") [V_int i];;
     printf (line "Child %d: write the msg back to pipe.") [V_int i];;
     call (Write to.2 msg));;
  exit 0.

Definition unicast_child (st : stack) (to from : Z * Z) (msg : list Z) (i : Z) : prog unit :=
  printf (line "Child %d: start!") [V_int i];;
  r <- call (Read to.1 UMSG);;
  unicast_got st to from (stored_at msg r) i.

Definition unicast_parent (st : stack) (to from : Z * Z) (msg : list Z) (targetChild : Z) : prog unit :=
  call (Write to.2 msg);;
  printf (line "Parent sends to Child %d: %s")
    [V_int targetChild; V_str (Some (string_in (drop 4 msg) (st_beyond st)))];;
  r <- call (Read from.1 20);;
  printf (line "Parent receives: %s")
    [V_str (Some (string_in (stored_at (take 20 (st_recv st)) r) (st_beyond st)))];;
  exit 0.

Definition unicast_main (st : stack) (argv : list (list Z)) : prog unit :=
  match argv with
  | _ :: a1 :: a2 :: a3 :: _ =>
      let numChildren := atoi a1 in
      let targetChild := atoi a2 in
      match strcpy (drop 4 (st_msg st)) a3 with
      | None => ITree.spin
      | Some content =>
          let msg := unle 4 targetChild ++ content in
          to <- pipe1;;
          from <- pipe1;;
          fork_children (Z.to_nat numChildren) 0 (unicast_child st to from msg);;
          unicast_parent st to from msg targetChild
      end
  | _ => panic (str "Usage: unicast <num_of_children> <target_child> <msg>")
  end.

(** ** broadcast *)

(** struct msg_t: [flags] at 0 and [content] at 40. *)
Definition BMSG : Z := 4 * Z.of_nat MAX_NUM_RECEIVERS + MAX_MSG_SIZE.

(** [for(int j=0; j<MAX_NUM_RECEIVERS; j++) sum += msg.flags[j]]. *)
Definition flag_sum (msg : list Z) : Z :=
  foldl (fun sum j => i32 (sum + i32 (get32 msg (4 * Z.of_nat j)))) 0 (seq 0 MAX_NUM_RECEIVERS).

(** What child [i] does with the message it has read. *)
Definition broadcast_got (st : stack) (to from : Z * Z) (msg : list Z) (i : Z) : prog unit :=
  printf (line "Child %d: get msg (%s)") [V_int i; V_str (Some (string_in (drop 40 msg) (st_beyond st)))];;
  let msg := set32 msg (4 * i) 0 in
  (if flag_sum msg =? 0 then call (Write from.2 (str "completed!"))
   else call (Write to.2 msg));;
  exit 0.

Definition broadcast_child (st : stack) (to from : Z * Z) (i : Z) : prog unit :=
  printf (line "Child %d: start!") [V_int i];;
  r <- call (Read to.1 BMSG);;
  broadcast_got st to from (stored_at (st_msg st) r) i.

(** [for(int i=0; i<numReceiver; i++) msg.flags[i] = 1]. *)
Definition set_flags (n : nat) (msg : list Z) : list Z :=
  foldl (fun msg j => set32 msg (4 * Z.of_nat j) 1) msg (seq 0 n).

(** The lines for the processes in the buffer [ps] filled. *)
Definition ps_line (info : list Z) (i : nat) : prog unit :=
  let e := drop (36 * i) info in
  printf (line "pid: %d, ppid: %d, state: %s, name: %s")
    [V_int (get32 e 0); V_int (get32 e 4); V_str (Some (chars_until_nul (drop 8 e)));
     V_str (Some (chars_until_nul (drop 18 e)))].

(** The calls of the added system calls at the end of [main]. *)
Definition report : prog unit :=
  printf (NL :: line "Call system calls for Project 1.B" ++ [NL]) [];;
  printf (line "Result from calling getppid:") [];;
  ppid <- call Getppid;;
  printf (line "My ppid = %d") [V_int ppid];;
  printf (NL :: line "Result from calling ps:") [];;
  ps <- call Ps;;
  printf (line "Total number of processes: %d") [V_int ps.1];;
  each (seq 0 (Z.to_nat ps.1)) (fun i => ps_line ps.2 i;; done true);;
  printf (NL :: line "Result from calling getschedhistory:") [];;
  h <- call Getschedhistory;;
  printf (line "My scheduling history" ++ line " pid: %d" ++
    line " runs: %d, traps: %d, interrupts: %d, preemptions: %d, sleeps: %d, system calls: %d")
    [V_int h.1; V_int (get32 h.2 0); V_int (get32 h.2 16); V_int (get32 h.2 8);
     V_int (get32 h.2 12); V_int (get32 h.2 20); V_int (get32 h.2 4)];;
  exit 0.

Definition broadcast_parent (st : stack) (to from : Z * Z) (n : nat) (text : list Z) : prog unit :=
  let msg := set_flags n (st_msg st) in
  match strcpy (drop 40 msg) text with
  | None => ITree.spin
  | Some content =>
      let msg := take 40 msg ++ content in
      call (Write to.2 msg);;
      printf (line "Parent broadcasts: %s") [V_str (Some (string_in content (st_beyond st)))];;
      r <- call (Read from.1 BMSG);;
      printf (line "Parent receives: %s")
        [V_str (Some (string_in (stored_at (st_recv st) r) (st_beyond st)))];;
      report
  end.

Definition broadcast_main (st : stack) (argv : list (list Z)) : prog unit :=
  match argv with
  | _ :: a1 :: a2 :: _ =>
      let numReceiver := atoi a1 in
      to <- call Pipe;;
      from <- call Pipe;;
      let to := default (st_fd st) to in
      let from := default (st_fd st) from in
      fork_children (Z.to_nat numReceiver) 0 (broadcast_child st to from);;
      broadcast_parent st to from (Z.to_nat numReceiver) a2
  | _ => panic (str "Usage: broadcast <num_of_receivers> <msg_to_broadcast>")
  end.

(** ** Lemmas *)

Lemma chars_until_nul_app l r : 0 ∉ l -> chars_until_nul (l ++ 0 :: r) = l.
Proof.
  induction l as [|c l IH]; intros Hn; cbn [chars_until_nul app]; [done|].
  destruct (Z.eqb_spec c 0) as [->|]; [set_solver|]. by rewrite IH by set_solver.
Qed.

(** One round of the loop that forks. *)

Lemma fork1_call {B} (k : Z -> prog B) :
  exists h, observe (ITree.bind fork1 k) = VisF Fork h /\
    forall x, x <> -1 -> observe (h x) = observe (k x).
Proof.
  eexists. split; [eapply observe_bind_call, observe_call_bind|]. intros x Hx. cbv beta.
  rewrite observe_bind, observe_ret_bind. by rewrite (proj2 (Z.eqb_neq x (-1)) Hx).
Qed.

Lemma fork_children_call k i child (K : unit -> prog unit) :
  exists h, observe (ITree.bind (fork_children (S k) i child) K) = VisF Fork h /\
    forall x, x <> -1 -> observe (h x) = observe (ITree.bind (ITree.bind
      (if x =? 0 then child i else printf (line "Parent: creates child process with id: %d") [V_int i])
      (fun _ => call (Sleep 1);; fork_children k (i + 1) child)) K).
Proof.
  cbn [fork_children]. edestruct (fork1_call (B := unit)) as (h & E & Hh).
  eexists. split; [eapply observe_bind_call, E|]. intros x Hx. by apply observe_bind_cong, Hh.
Qed.

Lemma pipe1_call {B} (k : Z * Z -> prog B) :
  exists h, observe (ITree.bind pipe1 k) = VisF Pipe h /\
    forall fd, observe (h (Some fd)) = observe (k fd).
Proof.
  eexists. split; [eapply observe_bind_call, observe_call_bind|]. intros fd. cbv beta.
  by rewrite observe_bind, observe_ret_bind.
Qed.
