(* ===== verification/Pool.v ===== *)
(** * Several user processes

    A pool of user programs that run interleaved, one system call at a time, and share pipes
    and the console.  A pipe is the queue of bytes that [PipeSpec] shows it to be: a read
    takes what there is, up to the number asked for, and waits while there is nothing; a
    write waits while the pipe is full. *)

From S2P Require Import Prelude User Ulib Uprintf Pipe.
From ITree Require Import Core.ITreeDefinition.

(** What a file descriptor stands for. *)
Inductive desc : Type :=
| Console
| RdEnd (q : nat)
| WrEnd (q : nat).

Record task := Task { t_tree : prog unit; t_fds : list desc }.

(** [said]: what was written to the console, each character with the process that wrote
    it. *)
Record pool := Pool { tasks : list task; queues : list (list Z); said : list (nat * Z) }.

(** What the system calls answer that do not depend on the pool. *)
Class machine := Machine {
  m_ppid : Z;
  m_ps : Z * list Z;
  m_history : Z * list Z
}.

Definition fd_desc (fds : list desc) (fd : Z) : option desc :=
  if fd <? 0 then None else fds !! Z.to_nat fd.

(** Process [i] goes on as [t]. *)
Definition resume (i : nat) (t : prog unit) (p : pool) : pool :=
  Pool (alter (fun k => Task t (t_fds k)) i (tasks p)) (queues p) (said p).
Definition set_queue (q : nat) (l : list Z) (p : pool) : pool :=
  Pool (tasks p) (<[q := l]> (queues p)) (said p).
Definition say (i : nat) (l : list Z) (p : pool) : pool :=
  Pool (tasks p) (queues p) (said p ++ (pair i <$> l)).

Section pool.
Context `{machine}.

(** What the kernel does for process [i]; None when the process has to wait (or calls what the
    pool does not have).  The processes here read only from pipes whose write end they
    hold, so an empty pipe never means the end of the input. *)
Definition serve {X} (e : sysE X) (i : nat) (fds : list desc) (p : pool) : (X -> prog unit) -> option pool :=
  match e in sysE X return (X -> prog unit) -> option pool with
  | Fork => fun k =>
      Some (Pool (<[i := Task (k (Z.of_nat (length (tasks p)))) fds]> (tasks p) ++ [Task (k 0) fds])
        (queues p) (said p))
  | Exit _ => fun _ => Some (resume i (done tt) p)
  | Pipe => fun k =>
      let q := length (queues p) in
      let fd := Z.of_nat (length fds) in
      Some (Pool (<[i := Task (k (Some (fd, fd + 1))) (fds ++ [RdEnd q; WrEnd q])]> (tasks p))
        (queues p ++ [[]]) (said p))
  | Read fd n => fun k =>
      match fd_desc fds fd with
      | Some (RdEnd q) =>
          match queues p !! q with
          | Some ((_ :: _) as l) =>
              Some (resume i (k (Some (take (Z.to_nat n) l))) (set_queue q (drop (Z.to_nat n) l) p))
          | _ => None
          end
      | Some Console => None
      | _ => Some (resume i (k None) p)
      end
  | Write fd buf => fun k =>
      match fd_desc fds fd with
      | Some (WrEnd q) =>
          let l := default [] (queues p !! q) in
          let room := (Z.to_nat PIPESIZE - length l)%nat in
          if (length buf <=? room)%nat then
            Some (resume i (k (Z.of_nat (length buf))) (set_queue q (l ++ buf) p))
          else if (room =? 0)%nat then None
          else
            Some (resume i (Vis (Write fd (drop room buf))
                              (fun r => k (if r <? 0 then r else r + Z.of_nat room)))
                    (set_queue q (l ++ take room buf) p))
      | Some Console => Some (resume i (k (Z.of_nat (length buf))) (say i buf p))
      | _ => Some (resume i (k (-1)) p)
      end
  | Sleep _ => fun k => Some (resume i (k 0) p)
  | Getppid => fun k => Some (resume i (k m_ppid) p)
  | Ps => fun k => Some (resume i (k m_ps) p)
  | Getschedhistory => fun k => Some (resume i (k m_history) p)
  | _ => fun _ => None
  end.

(** The next step of process [i]. *)
Definition act (i : nat) (p : pool) : option pool :=
  match tasks p !! i with
  | None => None
  | Some t =>
      match observe (t_tree t) with
      | RetF _ => None
      | TauF u => Some (resume i u p)
      | VisF e k => serve e i (t_fds t) p k
      end
  end.

(** The steps of the pool, in any order. *)
Definition moves (p p' : pool) : Prop := exists i, act i p = Some p'.

(** ** Progress *)

(** Every run ends, and where it ends [P] holds. *)
Inductive always_ends (P : pool -> Prop) (p : pool) : Prop :=
| ends_at : (forall p', ~ moves p p') -> P p -> always_ends P p
| ends_later : (exists p', moves p p') -> (forall p', moves p p' -> always_ends P p') -> always_ends P p.

(** An invariant with a measure that every step decreases. *)
Lemma ends_by (P : pool -> Prop) {S} (I : pool -> S -> Prop) (measure : S -> nat) p s :
  (forall p s p', I p s -> moves p p' -> exists s', I p' s' /\ (measure s' < measure s)%nat) ->
  (forall p s, I p s -> (forall i, act i p = None) -> P p) ->
  I p s -> always_ends P p.
Proof.
  intros Hstep Hend. remember (measure s) as n eqn:En. revert p s En.
  induction (lt_wf n) as [n _ IH]. intros p s -> HI.
  destruct (decide (Exists (fun i => is_Some (act i p)) (seq 0 (length (tasks p))))) as [He|Hn].
  - apply ends_later.
    + apply Exists_exists in He as (i & _ & p' & E). by exists p', i.
    + intros p' Hm. destruct (Hstep _ _ _ HI Hm) as (s' & HI' & Hlt). by eapply IH.
  - assert (forall i, act i p = None) as Hnone.
    { intros i. destruct (act i p) as [p'|] eqn:E; [|done]. destruct Hn. apply Exists_exists. exists i.
      split; [|by exists p']. apply elem_of_seq. split; [lia|]. unfold act in E.
      destruct (tasks p !! i) eqn:Et; [|done]. by apply lookup_lt_Some in Et. }
    apply ends_at; [|by eapply Hend]. intros p' [i E]. by rewrite Hnone in E.
Qed.

(** ** The steps of one process *)

Lemma act_observe i p t fds u :
  tasks p !! i = Some (Task t fds) -> observe t = observe u ->
  act i p = match observe u with
            | RetF _ => None
            | TauF v => Some (resume i v p)
            | VisF e k => serve e i fds p k
            end.
Proof. intros Et Eo. unfold act. rewrite Et. cbn [t_tree t_fds]. by rewrite Eo. Qed.

(** A process that has characters to write. *)
Lemma act_emits i p t fds c l u :
  tasks p !! i = Some (Task t fds) -> fds !! 1%nat = Some Console -> emits 1 t (c :: l) u ->
  exists t', act i p = Some (resume i t' (say i [c] p)) /\ emits 1 t' l u.
Proof.
  intros Et Ef He. inversion He as [|? ? k ? ? Ho Hk]; subst. exists (k 1). split; [|apply Hk].
  unfold act. rewrite Et. cbn [t_tree t_fds]. rewrite Ho. cbn [serve].
  change (fd_desc fds 1) with (fds !! 1%nat). by rewrite Ef.
Qed.

(** ** Where the processes are

    A process is described by the point of its program it gets to next, where it calls
    something else than a [write] to the console, and the characters it writes before it gets there. *)
Section track.
Context {point : Type}.
(** The program from a point on, the descriptors there, and all a process has written when it
    gets there. *)
Context (tree_of : point -> prog unit) (fds_of : point -> list desc) (text_of : point -> list Z).
Context (console : forall pt, fds_of pt !! 1%nat = Some Console).

(** What process [i] has written. *)
Definition voice (i : nat) (s : list (nat * Z)) : list Z := (filter (fun x => x.1 = i) s).*2.

Definition tracked (p : pool) (i : nat) (t : task) (x : list Z * point) : Prop :=
  t_fds t = fds_of x.2 /\ emits 1 (t_tree t) x.1 (tree_of x.2) /\ voice i (said p) ++ x.1 = text_of x.2.

(** [ph] describes all processes of the pool. *)
Record tracks (p : pool) (ph : list (list Z * point)) : Prop := {
  tr_len : length (tasks p) = length ph;
  tr_at : forall i t x, tasks p !! i = Some t -> ph !! i = Some x -> tracked p i t x;
  tr_mute : forall i, (length ph <= i)%nat -> voice i (said p) = []
}.

Lemma voice_say i j l s : voice i (s ++ (pair j <$> l)) = voice i s ++ (if decide (i = j) then l else []).
Proof.
  unfold voice. rewrite filter_app, fmap_app. f_equal. induction l as [|c l IH]; [by destruct (decide _)|].
  cbn [fmap list_fmap]. rewrite filter_cons. cbn [fst]. destruct (decide (i = j)) as [->|Hne].
  - rewrite decide_True by done. cbn [fmap list_fmap snd]. f_equal. exact IH.
  - rewrite decide_False by done. exact IH.
Qed.

Lemma tracks_lookup p ph i x :
  tracks p ph -> ph !! i = Some x -> exists t, tasks p !! i = Some t /\ tracked p i t x.
Proof.
  intros Ht Hx. destruct (lookup_lt_is_Some_2 (tasks p) i) as [t Et].
  { rewrite (tr_len _ _ Ht). by eapply lookup_lt_Some. }
  exists t. split; [done|]. by eapply tr_at.
Qed.

(** One process moves, and says [l]. *)
Lemma tracks_update p ph i t x l qs :
  tracks p ph -> is_Some (ph !! i) ->
  t_fds t = fds_of x.2 -> emits 1 (t_tree t) x.1 (tree_of x.2) ->
  voice i (said p) ++ l ++ x.1 = text_of x.2 ->
  tracks (Pool (<[i := t]> (tasks p)) qs (said p ++ (pair i <$> l))) (<[i := x]> ph).
Proof.
  intros [Hlen Hat Hm] [y Hy] Hf He Hv. assert (i < length ph)%nat as Hi by by eapply lookup_lt_Some.
  split; cbn [tasks said].
  - by rewrite !length_insert.
  - intros j t' x' Et Ex. unfold tracked. cbn [said]. rewrite voice_say.
    destruct (decide (j = i)) as [->|Hne].
    + rewrite list_lookup_insert_eq in Et by lia. rewrite list_lookup_insert_eq in Ex by done.
      injection Et as <-. injection Ex as <-. by rewrite <- app_assoc.
    + rewrite list_lookup_insert_ne in Et by done. rewrite list_lookup_insert_ne in Ex by done. rewrite app_nil_r. by apply Hat.
  - intros j. rewrite length_insert. intros Hj. rewrite voice_say, Hm, decide_False by lia. done.
Qed.

Lemma resume_insert i u t p :
  tasks p !! i = Some t ->
  resume i u p = Pool (<[i := Task u (t_fds t)]> (tasks p)) (queues p) (said p).
Proof.
  intros E. unfold resume. f_equal. apply list_eq. intros j. destruct (decide (i = j)) as [<-|Hne].
  - rewrite list_lookup_alter_eq, list_lookup_insert_eq by by eapply lookup_lt_Some. by rewrite E.
  - by rewrite list_lookup_alter_ne, list_lookup_insert_ne.
Qed.

(** The next character. *)
Lemma tracks_say p ph i c l pt :
  tracks p ph -> ph !! i = Some (c :: l, pt) ->
  exists p', act i p = Some p' /\ tracks p' (<[i := (l, pt)]> ph) /\ queues p' = queues p.
Proof.
  intros Ht Hx. destruct (tracks_lookup p ph i _ Ht Hx) as ([t fds] & Et & Hf & He & Hv).
  cbn [fst snd t_tree t_fds] in *. subst fds.
  destruct (act_emits i p t (fds_of pt) c l (tree_of pt) Et (console pt) He) as (t' & Ea & He').
  exists (resume i t' (say i [c] p)). split; [done|]. split; [|done].
  rewrite (resume_insert i t' (Task t (fds_of pt)) (say i [c] p)) by exact Et. cbn [tasks say said queues t_fds].
  by apply tracks_update.
Qed.

(** The process gets to its point and moves on to another one. *)
Lemma tracks_move p ph i pt t' l' pt' fds' qs :
  tracks p ph -> ph !! i = Some ([], pt) ->
  fds' = fds_of pt' -> emits 1 t' l' (tree_of pt') -> text_of pt' = text_of pt ++ l' ->
  tracks (Pool (<[i := Task t' fds']> (tasks p)) qs (said p)) (<[i := (l', pt')]> ph).
Proof.
  intros Ht Hx Hf He Hv. destruct (tracks_lookup p ph i _ Ht Hx) as (t & Et & _ & _ & Hv0).
  cbn [fst snd] in Hv0. rewrite app_nil_r in Hv0.
  pose proof (tracks_update p ph i (Task t' fds') (l', pt') [] qs Ht) as Hu. cbn [fmap list_fmap] in Hu.
  rewrite app_nil_r in Hu. apply Hu; [by exists ([], pt)|done|done|]. cbn [fst snd app]. by rewrite Hv, Hv0.
Qed.

Lemma tracks_resume p p1 ph i pt t' l' pt' :
  tracks p ph -> ph !! i = Some ([], pt) -> tasks p1 = tasks p -> said p1 = said p ->
  fds_of pt' = fds_of pt -> emits 1 t' l' (tree_of pt') -> text_of pt' = text_of pt ++ l' ->
  tracks (resume i t' p1) (<[i := (l', pt')]> ph) /\ queues (resume i t' p1) = queues p1.
Proof.
  intros Ht Hx E1 E2 Hf He Hv. destruct (tracks_lookup p ph i _ Ht Hx) as ([t fds] & Et & Ef & _).
  cbn [t_fds fst snd] in *. subst fds. split; [|done].
  rewrite (resume_insert i t' (Task t (fds_of pt)) p1) by (by rewrite E1). rewrite E1, E2.
  by apply (tracks_move p ph i pt).
Qed.

(** What the process at a point does. *)
Lemma tracks_act p ph i pt :
  tracks p ph -> ph !! i = Some ([], pt) ->
  exists t, tasks p !! i = Some t /\ t_fds t = fds_of pt /\
  act i p = match observe (tree_of pt) with
            | RetF _ => None
            | TauF v => Some (resume i v p)
            | VisF e k => serve e i (fds_of pt) p k
            end.
Proof.
  intros Ht Hx. destruct (tracks_lookup p ph i _ Ht Hx) as ([t fds] & Et & Hf & He & Hv).
  cbn [fst snd t_tree t_fds] in *. subst fds. exists (Task t (fds_of pt)). split; [done|]. split; [done|].
  inversion He; subst. by apply (act_observe i p t).
Qed.

(** A new process. *)
Lemma tracks_fork p ph t x :
  tracks p ph -> t_fds t = fds_of x.2 -> emits 1 (t_tree t) x.1 (tree_of x.2) -> x.1 = text_of x.2 ->
  tracks (Pool (tasks p ++ [t]) (queues p) (said p)) (ph ++ [x]).
Proof.
  intros [Hlen Hat Hm] Hf He Hv. split; cbn [tasks said].
  - rewrite !length_app. cbn. lia.
  - intros i t' x' Et Ex. destruct (decide (i < length ph)%nat) as [Hi|Hi].
    + rewrite lookup_app_l in Et by lia. rewrite lookup_app_l in Ex by done. by apply Hat.
    + rewrite lookup_app_r in Et by lia. rewrite lookup_app_r in Ex by lia.
      apply list_lookup_singleton_Some in Et as [E0 <-]. apply list_lookup_singleton_Some in Ex as [_ <-].
      unfold tracked. cbn [said]. rewrite Hm by lia. by split_and!.
  - intros i. rewrite length_app. cbn. intros Hi. apply Hm. lia.
Qed.

End track.

End pool.
