(* ===== verification/Unicast.v ===== *)
(** * unicast delivers the message

    The parent and the children of user/unicast.c as a pool of processes: whatever the order in
    which they run, the target gets the message and the parent gets its acknowledgement. *)

From S2P Require Import Prelude Bytes User Ulib Uprintf Pipe Pool Messages.
From ITree Require Import Core.ITreeDefinition.

Open Scope prog_scope.

(** The text of a format whose arguments are right. *)
Definition txt (fmt : list Z) (ap : list va) : list Z := default [] (format fmt false ap).

Lemma emits_printf fmt ap : is_Some (format fmt false ap) -> emits 1 (printf fmt ap) (txt fmt ap) (done tt).
Proof. intros [l E]. unfold txt. rewrite E. by apply emits_vprintf. Qed.

(** [printf(...)] followed by the rest of a program. *)
Lemma emits_print {B} fmt ap (k : prog B) l u :
  is_Some (format fmt false ap) -> emits 1 k l u -> emits 1 (printf fmt ap;; k) (txt fmt ap ++ l) u.
Proof. intros Hf Hk. by apply emits_then; [apply emits_printf|]. Qed.

Lemma emits_here {A} fd (t : prog A) : emits fd t [] t.
Proof. by apply emits_nil. Qed.

#[local] Opaque txt.

Section unicast.
Context `{machine} (st : stack) (N tgt : nat) (text : list Z).
Hypothesis HN : Z.of_nat N < 2 ^ 31.
Hypothesis Htgt : (tgt < N)%nat.
Hypothesis Hstack : length (st_msg st) = Z.to_nat UMSG.
Hypothesis Hlen : Z.of_nat (length text) < MAX_MSG_SIZE.
Hypothesis Hnul : 0 ∉ text.

(** ** The message *)

Definition umsg : list Z := unle 4 (Z.of_nat tgt) ++ text ++ 0 :: drop (S (length text)) (drop 4 (st_msg st)).

Lemma umsg_strcpy :
  strcpy (drop 4 (st_msg st)) text = Some (text ++ 0 :: drop (S (length text)) (drop 4 (st_msg st))).
Proof. apply strcpy_fits. rewrite length_drop, Hstack. unfold UMSG, MAX_MSG_SIZE in *. lia. Qed.

Lemma length_umsg : length umsg = Z.to_nat UMSG.
Proof.
  unfold umsg. rewrite !length_app, unle_length. cbn [length]. rewrite !length_drop, Hstack.
  unfold UMSG, MAX_MSG_SIZE in *. lia.
Qed.

Lemma umsg_target : i32 (get32 umsg 0) = Z.of_nat tgt.
Proof.
  unfold get32, slice, umsg. rewrite drop_0, take_app_le by (rewrite unle_length; done).
  rewrite take_ge by (rewrite unle_length; done). rewrite le_unle, Z.mod_small by (cbn; lia). apply i32_small. lia.
Qed.

Lemma umsg_content : string_in (drop 4 umsg) (st_beyond st) = text.
Proof.
  unfold string_in, umsg. rewrite drop_app_length' by (by rewrite unle_length).
  rewrite <- app_assoc. by apply chars_until_nul_app.
Qed.

(** ** The points of the programs *)

Definition uto : Z * Z := (3, 4).
Definition ufrom : Z * Z := (5, 6).
Definition uchild : Z -> prog unit := unicast_child st uto ufrom umsg.
Definition uparent : prog unit := unicast_parent st uto ufrom umsg (Z.of_nat tgt).

Inductive point : Type :=
| PPipe1                 (* the parent makes the first pipe *)
| PPipe2
| PFork (j : nat)        (* it has made [j] children *)
| PSleep (j : nat)       (* it has just made child [j] *)
| PRecv                  (* it waits for the acknowledgement *)
| PExit
| PDone
| CRead (i : nat)        (* child [i] waits for the message *)
| CWrite (i : nat)       (* it is to acknowledge the message or to write it back *)
| CExit (i : nat)
| CDone (i : nat).

(** The rest of [main] after what the [j]th round of the loop does. *)
Definition in_round (j : nat) (u : prog unit) : prog unit :=
  ITree.bind (ITree.bind u (fun _ =>
    call (Sleep 1);; fork_children (N - S j) (Z.of_nat j + 1) uchild)) (fun _ => uparent).

Definition ack : list Z := str "received!" ++ [0].

Definition tree_of (pt : point) : prog unit :=
  match pt with
  | PPipe1 =>
      to <- pipe1;;
      from <- pipe1;;
      fork_children N 0 (unicast_child st to from umsg);;
      unicast_parent st to from umsg (Z.of_nat tgt)
  | PPipe2 =>
      from <- pipe1;;
      fork_children N 0 (unicast_child st uto from umsg);;
      unicast_parent st uto from umsg (Z.of_nat tgt)
  | PFork j => fork_children (N - j) (Z.of_nat j) uchild;; uparent
  | PSleep j => in_round j (done tt)
  | PRecv =>
      r <- call (Read ufrom.1 20);;
      printf (line "Parent receives: %s")
        [V_str (Some (string_in (stored_at (take 20 (st_recv st)) r) (st_beyond st)))];;
      exit 0
  | PExit => exit 0
  | PDone | CDone _ => done tt
  | CRead i => in_round i (r <- call (Read uto.1 UMSG);; unicast_got st uto ufrom (stored_at umsg r) (Z.of_nat i))
  | CWrite i =>
      in_round i (call (if decide (i = tgt) then Write ufrom.2 ack else Write uto.2 umsg);; exit 0)
  | CExit i => in_round i (exit 0)
  end.

Definition fds_of (pt : point) : list desc :=
  [Console; Console; Console] ++
  match pt with
  | PPipe1 => []
  | PPipe2 => [RdEnd 0; WrEnd 0]
  | _ => [RdEnd 0; WrEnd 0; RdEnd 1; WrEnd 1]
  end.

Definition t_made (j : nat) : list Z := txt (line "Parent: creates child process with id: %d") [V_int (Z.of_nat j)].
Definition t_sends : list Z :=
  txt (line "Parent sends to Child %d: %s") [V_int (Z.of_nat tgt); V_str (Some text)].
Definition t_receives : list Z := txt (line "Parent receives: %s") [V_str (Some (str "received!"))].
Definition t_start (i : nat) : list Z := txt (line "Child %d: start!") [V_int (Z.of_nat i)].
Definition t_got (i : nat) : list Z :=
  txt (line "Child %d: get msg (%s) to Child %d") [V_int (Z.of_nat i); V_str (Some text); V_int (Z.of_nat tgt)] ++
  (if decide (i = tgt) then txt (line "Child %d: the msg is for me.") [V_int (Z.of_nat i)]
   else txt (line "Child %d: the msg is not for me.") [V_int (Z.of_nat i)] ++
     txt (line "Child %d: write the msg back to pipe.") [V_int (Z.of_nat i)]).
Definition t_creates (j : nat) : list Z := concat (t_made <$> seq 0 j).

Definition text_of (pt : point) : list Z :=
  match pt with
  | PPipe1 | PPipe2 => []
  | PFork j => t_creates j
  | PSleep j => t_creates (S j)
  | PRecv => t_creates N ++ t_sends
  | PExit | PDone => t_creates N ++ t_sends ++ t_receives
  | CRead i => t_start i
  | CWrite i | CExit i | CDone i => t_start i ++ t_got i
  end.

Lemma in_round_emits i t l u : emits 1 t l u -> emits 1 (in_round i t) l (in_round i u).
Proof. intros He. by do 2 apply emits_inside. Qed.

(** *** What follows each point *)

Lemma made_emits j :
  emits 1 (in_round j (printf (line "Parent: creates child process with id: %d") [V_int (Z.of_nat j)]))
    (t_made j) (tree_of (PSleep j)).
Proof. apply in_round_emits, emits_printf. by eexists. Qed.

Lemma start_emits i : emits 1 (in_round i (uchild (Z.of_nat i))) (t_start i) (tree_of (CRead i)).
Proof.
  apply in_round_emits. unfold uchild, unicast_child. rewrite <- (app_nil_r (t_start i)).
  apply emits_print; [by eexists|apply emits_here].
Qed.

Lemma got_emits i :
  (i < N)%nat -> emits 1 (in_round i (unicast_got st uto ufrom umsg (Z.of_nat i))) (t_got i) (tree_of (CWrite i)).
Proof.
  intros Hi. apply in_round_emits. unfold unicast_got. rewrite umsg_target, umsg_content.
  apply emits_inside. unfold t_got. destruct (Z.eqb_spec (Z.of_nat i) (Z.of_nat tgt)) as [E|Hne].
  - rewrite !decide_True by lia. apply emits_print; [by eexists|].
    rewrite <- (app_nil_r (txt (line "Child %d: the msg is for me.") _)).
    apply emits_print; [by eexists|apply emits_here].
  - rewrite !decide_False by lia. do 2 (apply emits_print; [by eexists|]).
    rewrite <- (app_nil_r (txt (line "Child %d: write the msg back to pipe.") _)).
    apply emits_print; [by eexists|apply emits_here].
Qed.

(** The calls at the points, and where they lead. *)

Lemma fork_next j :
  (j < N)%nat -> exists k, observe (tree_of (PFork j)) = VisF Fork k /\
    emits 1 (k 0) (t_start j) (tree_of (CRead j)) /\
    (forall x, 0 < x -> emits 1 (k x) (t_made j) (tree_of (PSleep j))).
Proof.
  intros Hj. cbn [tree_of]. replace (N - j)%nat with (S (N - S j)) by lia.
  destruct (fork_children_call (N - S j) (Z.of_nat j) uchild (fun _ => uparent)) as (h & E & Hh).
  exists h. split; [exact E|]. split.
  - eapply emits_observe; [apply Hh; lia|]. apply start_emits.
  - intros x Hx. eapply emits_observe; [apply Hh; lia|].
    rewrite (proj2 (Z.eqb_neq x 0)) by lia. apply made_emits.
Qed.

Lemma pipe1_next :
  exists k, observe (tree_of PPipe1) = VisF Pipe k /\ observe (k (Some uto)) = observe (tree_of PPipe2).
Proof.
  cbn [tree_of]. edestruct (pipe1_call (B := unit)) as (h & E & Hh). exists h. split; [exact E|]. apply Hh.
Qed.

Lemma pipe2_next :
  exists k, observe (tree_of PPipe2) = VisF Pipe k /\ observe (k (Some ufrom)) = observe (tree_of (PFork 0)).
Proof.
  cbn [tree_of]. rewrite Nat.sub_0_r. edestruct (pipe1_call (B := unit)) as (h & E & Hh).
  exists h. split; [exact E|]. apply Hh.
Qed.

Lemma send_next :
  exists k, observe (tree_of (PFork N)) = VisF (Write uto.2 umsg) k /\
    forall r, emits 1 (k r) t_sends (tree_of PRecv).
Proof.
  cbn [tree_of]. rewrite Nat.sub_diag. cbn [fork_children]. unfold done at 1. rewrite observe_ret_bind.
  eexists. split; [apply observe_call_bind|]. intros r. cbv beta.
  eapply emits_observe; [apply observe_ret_bind|]. rewrite umsg_content.
  rewrite <- (app_nil_r t_sends). apply emits_print; [by eexists|apply emits_here].
Qed.

Lemma sleep_next j :
  exists k, observe (tree_of (PSleep j)) = VisF (Sleep 1) k /\
    forall r, observe (k r) = observe (tree_of (PFork (S j))).
Proof.
  cbn [tree_of]. eexists. split.
  - unfold in_round. eapply observe_bind_call. unfold done at 1. rewrite observe_ret_bind. apply observe_call_bind.
  - intros r. cbv beta. apply observe_bind_cong. rewrite observe_ret_bind. by replace (Z.of_nat j + 1) with (Z.of_nat (S j)) by lia.
Qed.

Lemma recv_next :
  exists k, observe (tree_of PRecv) = VisF (Read ufrom.1 20) k /\ emits 1 (k (Some ack)) t_receives (tree_of PExit).
Proof.
  cbn [tree_of]. eexists. split; [apply observe_call_bind|]. cbv beta.
  eapply emits_observe; [apply observe_ret_bind|].
  replace (string_in (stored_at (take 20 (st_recv st)) (Some ack)) (st_beyond st)) with (str "received!")
    by (symmetry; unfold string_in, stored_at, ack; rewrite <- !app_assoc;
        apply (chars_until_nul_app (str "received!")), strchr_None; reflexivity).
  rewrite <- (app_nil_r t_receives). apply emits_print; [by eexists|apply emits_here].
Qed.

Lemma read_next i :
  (i < N)%nat -> exists k, observe (tree_of (CRead i)) = VisF (Read uto.1 UMSG) k /\
    emits 1 (k (Some umsg)) (t_got i) (tree_of (CWrite i)).
Proof.
  intros Hi. cbn [tree_of]. eexists. split; [do 2 eapply observe_bind_call; apply observe_call_bind|].
  cbv beta. eapply emits_observe; [|apply got_emits; exact Hi].
  do 2 apply observe_bind_cong. rewrite observe_ret_bind. unfold stored_at.
  by rewrite drop_ge, app_nil_r by lia.
Qed.

Lemma write_next i :
  exists k, observe (tree_of (CWrite i)) =
      VisF (if decide (i = tgt) then Write ufrom.2 ack else Write uto.2 umsg) k /\
    forall r, observe (k r) = observe (tree_of (CExit i)).
Proof.
  cbn [tree_of]. eexists. split; [do 2 eapply observe_bind_call; apply observe_call_bind|].
  intros r. cbv beta. do 2 apply observe_bind_cong. by rewrite observe_ret_bind.
Qed.

Lemma exit_next i :
  exists k k', observe (tree_of (CExit i)) = VisF (Exit 0) k /\ observe (tree_of PExit) = VisF (Exit 0) k'.
Proof.
  do 2 eexists. split; [cbn [tree_of]; do 2 eapply observe_bind_call|cbn [tree_of]];
    unfold exit; apply observe_call_bind.
Qed.

(** ** Where the message is *)

Inductive token : Type :=
| Boot1 | Boot2          (* the pipes are not made yet *)
| Nowhere                (* the parent has not sent it *)
| InPipe
| With (i : nat)         (* child [i] has it *)
| Acked                  (* the acknowledgement is in the other pipe *)
| Received.              (* the parent has got it *)

Definition queues_of (tok : token) : list (list Z) :=
  match tok with
  | Boot1 => []
  | Boot2 => [[]]
  | InPipe => [umsg; []]
  | Acked => [[]; ack]
  | _ => [[]; []]
  end.

(** Where the parent is when there are [n] children, and where child [i] is. *)
Definition parent_ok (tok : token) (n : nat) (pt : point) : Prop :=
  match pt with
  | PPipe1 => tok = Boot1 /\ n = 0%nat
  | PPipe2 => tok = Boot2 /\ n = 0%nat
  | PFork j => tok = Nowhere /\ n = j /\ (j <= N)%nat
  | PSleep j => tok = Nowhere /\ n = S j /\ (j < N)%nat
  | PRecv => n = N /\ (tok = InPipe \/ (exists i, tok = With i /\ (i < N)%nat) \/ tok = Acked)
  | PExit | PDone => n = N /\ tok = Received
  | _ => False
  end.

Definition child_ok (tok : token) (i : nat) (pt : point) : Prop :=
  match pt with
  | CRead i' => i' = i /\ tok <> With i /\ (i = tgt -> tok <> Acked /\ tok <> Received)
  | CWrite i' => i' = i /\ tok = With i
  | CExit i' | CDone i' => i' = i /\ tok <> With i /\ (i = tgt -> tok = Acked \/ tok = Received)
  | _ => False
  end.

Definition ustate : Type := (list Z * point) * list (list Z * point) * token.

Record inv (p : pool) (s : ustate) : Prop := {
  in_tracks : tracks tree_of fds_of text_of p (s.1.1 :: s.1.2);
  in_queues : queues p = queues_of s.2;
  in_parent : parent_ok s.2 (length s.1.2) s.1.1.2;
  in_child : forall i x, s.1.2 !! i = Some x -> child_ok s.2 i x.2;
  in_count : (length s.1.2 <= N)%nat
}.

(** *** The number of steps left *)

Definition rank_read (i : nat) : nat := 3 + length (t_got i).
Definition rank_recv : nat := 2 + length t_receives.
Fixpoint rank_fork (k : nat) : nat :=
  match k with
  | O => 1 + length t_sends + rank_recv
  | S k => 2 + length (t_made (N - S k)) + length (t_start (N - S k)) + rank_read (N - S k) + rank_fork k
  end.
Definition rank (pt : point) : nat :=
  match pt with
  | PPipe1 => 2 + rank_fork N
  | PPipe2 => 1 + rank_fork N
  | PFork j => rank_fork (N - j)
  | PSleep j => 1 + rank_fork (N - S j)
  | PRecv => rank_recv
  | CRead i => rank_read i
  | CWrite _ => 2
  | PExit | CExit _ => 1
  | PDone | CDone _ => 0
  end.
Definition weight (x : list Z * point) : nat := length x.1 + rank x.2.
Definition left (s : ustate) : nat := weight s.1.1 + sum_list_with weight s.1.2.

Lemma left_child x0 cs tok i y y' tok' :
  cs !! i = Some y -> (weight y' < weight y)%nat ->
  (left (x0, <[i := y']> cs, tok') < left (x0, cs, tok))%nat.
Proof.
  intros Hy Hw. unfold left. cbn [fst snd]. apply Nat.add_lt_mono_l. revert i Hy.
  induction cs as [|c cs IH]; intros [|i] Hy; try done.
  - injection Hy as ->. cbn [insert list_insert sum_list_with]. lia.
  - specialize (IH i Hy). exact (proj1 (Nat.add_lt_mono_l _ _ (weight c)) IH).
Qed.

(** ** Every step keeps the invariant *)

Definition settled (tok : token) : Prop := tok = Acked \/ tok = Received.

(** The message moves, but not to or from child [j]. *)
Lemma child_ok_move tok tok' j pt :
  tok <> With j -> tok' <> With j -> (j = tgt -> settled tok <-> settled tok') ->
  child_ok tok j pt -> child_ok tok' j pt.
Proof. unfold settled. destruct pt; cbn; naive_solver. Qed.

(** The process can go on, keeping the invariant, and there is less to do. *)
Definition goes (i : nat) (p : pool) (s : ustate) : Prop :=
  exists p' s', act i p = Some p' /\ inv p' s' /\ (left s' < left s)%nat.

Lemma console_open pt : fds_of pt !! 1%nat = Some Console.
Proof. reflexivity. Qed.

Lemma goes_say_parent p c l pt cs tok : inv p ((c :: l, pt), cs, tok) -> goes 0 p ((c :: l, pt), cs, tok).
Proof.
  intros [Ht Hq Hp Hc Hn]. cbn [fst snd] in *.
  destruct (tracks_say _ _ _ console_open p _ 0 c l pt Ht eq_refl) as (p' & E & Ht' & Hq').
  exists p', ((l, pt), cs, tok). split; [exact E|]. split; [|unfold left, weight; cbn; lia].
  split; cbn [fst snd]; try done. by rewrite Hq'.
Qed.

Lemma goes_say_child p x0 cs tok i c l pt :
  inv p (x0, cs, tok) -> cs !! i = Some (c :: l, pt) -> goes (S i) p (x0, cs, tok).
Proof.
  intros [Ht Hq Hp Hc Hn] Hi. cbn [fst snd] in *.
  destruct (tracks_say _ _ _ console_open p _ (S i) c l pt Ht Hi) as (p' & E & Ht' & Hq').
  exists p', (x0, <[i := (l, pt)]> cs, tok). split; [exact E|].
  split; [|eapply left_child; [exact Hi|unfold weight; cbn; lia]].
  split; cbn [fst snd]; [exact Ht'|by rewrite Hq'|by rewrite length_insert| |by rewrite length_insert].
  intros j x. destruct (decide (i = j)) as [<-|Hne].
  - rewrite list_lookup_insert_eq by by eapply lookup_lt_Some. intros [= <-]. exact (Hc i _ Hi).
  - rewrite list_lookup_insert_ne by done. apply Hc.
Qed.

(** The parent moves to [pt'] and the message to [tok']. *)
Lemma goes_parent p pt cs tok t' l' pt' tok' p1 :
  inv p (([], pt), cs, tok) -> act 0 p = Some (resume 0 t' p1) ->
  tasks p1 = tasks p -> said p1 = said p -> queues p1 = queues_of tok' ->
  fds_of pt' = fds_of pt -> emits 1 t' l' (tree_of pt') -> text_of pt' = text_of pt ++ l' ->
  parent_ok tok' (length cs) pt' ->
  (forall i x, child_ok tok i x -> child_ok tok' i x) ->
  (length l' + rank pt' < rank pt)%nat -> goes 0 p (([], pt), cs, tok).
Proof.
  intros [Ht Hq Hp Hc Hn] E E1 E2 E3 Hf He Hv Hp' Hs Hr. cbn [fst snd] in *.
  destruct (tracks_resume _ _ _ p p1 _ 0 pt t' l' pt' Ht eq_refl E1 E2 Hf He Hv) as [Ht' Hq'].
  exists (resume 0 t' p1), ((l', pt'), cs, tok'). split; [exact E|]. split; [|unfold left, weight; cbn; lia].
  split; cbn [fst snd]; [exact Ht'|by rewrite Hq'|done| |done].
  intros i x Hx. by apply Hs, Hc.
Qed.

(** Child [i] moves. *)
Lemma goes_child p x0 cs tok i pt t' l' pt' tok' p1 :
  inv p (x0, cs, tok) -> cs !! i = Some ([], pt) -> act (S i) p = Some (resume (S i) t' p1) ->
  tasks p1 = tasks p -> said p1 = said p -> queues p1 = queues_of tok' ->
  fds_of pt' = fds_of pt -> emits 1 t' l' (tree_of pt') -> text_of pt' = text_of pt ++ l' ->
  (parent_ok tok (length cs) x0.2 -> parent_ok tok' (length cs) x0.2) -> child_ok tok' i pt' ->
  (forall j x, j <> i -> child_ok tok j x -> child_ok tok' j x) ->
  (length l' + rank pt' < rank pt)%nat -> goes (S i) p (x0, cs, tok).
Proof.
  intros [Ht Hq Hp Hc Hn] Hi E E1 E2 E3 Hf He Hv Hp' Hc' Hs Hr. cbn [fst snd] in *.
  destruct (tracks_resume _ _ _ p p1 _ (S i) pt t' l' pt' Ht Hi E1 E2 Hf He Hv) as [Ht' Hq'].
  exists (resume (S i) t' p1), (x0, <[i := (l', pt')]> cs, tok'). split; [exact E|].
  split; [|eapply left_child; [exact Hi|unfold weight; cbn; lia]].
  split; cbn [fst snd]; [exact Ht'|by rewrite Hq'|rewrite length_insert; by apply Hp'| |by rewrite length_insert].
  intros j x. destruct (decide (i = j)) as [<-|Hne].
  - rewrite list_lookup_insert_eq by by eapply lookup_lt_Some. by intros [= <-].
  - rewrite list_lookup_insert_ne by done. intros Hx. apply Hs; [done|]. by apply Hc.
Qed.

(** *** The parent *)

Lemma tracked_call i p ph pt X (e : sysE X) k :
  tracks tree_of fds_of text_of p ph -> ph !! i = Some ([], pt) -> observe (tree_of pt) = VisF e k ->
  act i p = serve e i (fds_of pt) p k.
Proof. intros Ht Hi E. destruct (tracks_act _ _ _ p ph i pt Ht Hi) as (t & _ & _ & Ea). by rewrite Ea, E. Qed.

Lemma goes_pipe1 p cs tok : inv p (([], PPipe1), cs, tok) -> goes 0 p (([], PPipe1), cs, tok).
Proof.
  intros [Ht Hq [Htok Hn0] Hc Hn]. cbn [fst snd] in *. destruct cs; [|done]. subst tok. cbn [queues_of] in Hq.
  destruct pipe1_next as (k & E & Ek). pose proof (tracked_call 0 p _ PPipe1 _ _ _ Ht eq_refl E) as Ea.
  cbn [serve] in Ea. rewrite Hq in Ea. eexists _, (([], PPipe2), [], Boot2).
  split; [exact Ea|]. split; [|unfold left, weight; cbn; lia].
  split; cbn [fst snd]; [|done|done|done|cbn; lia].
  apply (tracks_move _ _ _ p [([], PPipe1)] 0 PPipe1 _ [] PPipe2); [done|done|done|by apply emits_nil|done].
Qed.

Lemma goes_pipe2 p cs tok : inv p (([], PPipe2), cs, tok) -> goes 0 p (([], PPipe2), cs, tok).
Proof.
  intros [Ht Hq [Htok Hn0] Hc Hn]. cbn [fst snd] in *. destruct cs; [|done]. subst tok. cbn [queues_of] in Hq.
  destruct pipe2_next as (k & E & Ek). pose proof (tracked_call 0 p _ PPipe2 _ _ _ Ht eq_refl E) as Ea.
  cbn [serve] in Ea. rewrite Hq in Ea. eexists _, (([], PFork 0), [], Nowhere).
  split; [exact Ea|]. split; [|unfold left, weight; cbn -[rank_fork]; rewrite Nat.sub_0_r; lia].
  split; cbn [fst snd]; [|done|split; [done|cbn; lia]|done|cbn; lia].
  apply (tracks_move _ _ _ p [([], PPipe2)] 0 PPipe2 _ [] (PFork 0)); [done|done|done|by apply emits_nil|done].
Qed.

Lemma t_creates_S j : t_creates (S j) = t_creates j ++ t_made j.
Proof. unfold t_creates. rewrite seq_S, fmap_app, concat_app. cbn. by rewrite app_nil_r. Qed.

Lemma rank_fork_step j : (j < N)%nat ->
  rank_fork (N - j) = (2 + length (t_made j) + length (t_start j) + rank_read j + rank_fork (N - S j))%nat.
Proof.
  intros Hj. replace (N - j)%nat with (S (N - S j)) by lia. cbn [rank_fork].
  by replace (N - S (N - S j))%nat with j by lia.
Qed.

Lemma goes_fork p j cs tok :
  (j < N)%nat -> inv p (([], PFork j), cs, tok) -> goes 0 p (([], PFork j), cs, tok).
Proof.
  intros Hj [Ht Hq Hp Hc Hn]. cbn [fst snd] in *. destruct Hp as (-> & Hn0 & _).
  destruct (fork_next j Hj) as (k & E & Hchild & Hparent).
  pose proof (tracked_call 0 p _ (PFork j) _ _ _ Ht eq_refl E) as Ea. cbn [serve] in Ea.
  eexists _, ((t_made j, PSleep j), cs ++ [(t_start j, CRead j)], Nowhere). split; [exact Ea|]. split.
  - split; cbn [fst snd]; [|exact Hq| | |rewrite length_app; cbn; lia].
    + apply (tracks_fork _ _ _ (Pool _ _ _) ((t_made j, PSleep j) :: cs) (Task (k 0) _) (t_start j, CRead j));
        [|done|exact Hchild|done].
      apply (tracks_move _ _ _ p (([], PFork j) :: cs) 0 (PFork j) _ (t_made j) (PSleep j)); [done|done|done| |apply t_creates_S].
      apply Hparent. rewrite (tr_len _ _ _ _ _ Ht). cbn. lia.
    + split; [done|]. rewrite length_app. cbn. lia.
    + intros i x. rewrite lookup_app_Some. intros [Hx|[Hge Hx]].
      * by apply Hc.
      * apply list_lookup_singleton_Some in Hx as [E0 <-]. cbn. split; [lia|done].
  - unfold left, weight. cbn [fst snd length rank]. rewrite sum_list_with_app, (rank_fork_step j Hj).
    cbn [sum_list_with weight fst snd rank]. unfold weight. cbn. lia.
Qed.

Lemma umsg_room : (length umsg <=? Z.to_nat PIPESIZE - length (@nil Z))%nat = true.
Proof. rewrite length_umsg. reflexivity. Qed.

Lemma goes_send p cs tok : inv p (([], PFork N), cs, tok) -> goes 0 p (([], PFork N), cs, tok).
Proof.
  intros Hi. pose proof Hi as [Ht Hq Hp Hc Hn]. cbn [fst snd] in *. destruct Hp as (-> & Hn0 & _).
  destruct send_next as (k & E & Hk).
  pose proof (tracked_call 0 p _ (PFork N) _ _ _ Ht eq_refl E) as Ea. cbn [serve] in Ea.
  change (fd_desc (fds_of (PFork N)) uto.2) with (Some (WrEnd 0)) in Ea. cbv beta iota zeta in Ea.
  rewrite Hq in Ea. change (default [] (queues_of Nowhere !! 0%nat)) with (@nil Z) in Ea. rewrite umsg_room in Ea.
  eapply (goes_parent p (PFork N) cs Nowhere _ _ PRecv InPipe _ Hi Ea);
    [done|done|cbn; by rewrite Hq|done|apply Hk|done|cbn; tauto| |cbn [rank]; rewrite Nat.sub_diag; cbn; lia].
  intros i x. apply child_ok_move; [done|done|]. unfold settled. naive_solver.
Qed.

Lemma goes_sleep p j cs tok : inv p (([], PSleep j), cs, tok) -> goes 0 p (([], PSleep j), cs, tok).
Proof.
  intros Hi. pose proof Hi as [Ht Hq Hp Hc Hn]. cbn [fst snd] in *. destruct Hp as (-> & Hn0 & Hj).
  destruct (sleep_next j) as (k & E & Hk).
  pose proof (tracked_call 0 p _ (PSleep j) _ _ _ Ht eq_refl E) as Ea. cbn [serve] in Ea.
  eapply (goes_parent p (PSleep j) cs Nowhere _ [] (PFork (S j)) Nowhere _ Hi Ea);
    [done|done|done|done|by apply emits_nil|by rewrite app_nil_r|split; [done|lia]|done|cbn; lia].
Qed.

Lemma goes_recv p cs : inv p (([], PRecv), cs, Acked) -> goes 0 p (([], PRecv), cs, Acked).
Proof.
  intros Hi. pose proof Hi as [Ht Hq Hp Hc Hn]. cbn [fst snd] in *. destruct Hp as (Hn0 & _).
  destruct recv_next as (k & E & Hk).
  pose proof (tracked_call 0 p _ PRecv _ _ _ Ht eq_refl E) as Ea. cbn [serve] in Ea.
  change (fd_desc (fds_of PRecv) ufrom.1) with (Some (RdEnd 1)) in Ea. cbv beta iota zeta in Ea.
  rewrite Hq in Ea. change (queues_of Acked !! 1%nat) with (Some ack) in Ea.
  change ack with (114 :: tail ack) in Ea at 1. cbv iota in Ea. change (114 :: tail ack) with ack in Ea.
  change (take (Z.to_nat 20) ack) with ack in Ea. change (drop (Z.to_nat 20) ack) with (@nil Z) in Ea.
  eapply (goes_parent p PRecv cs Acked _ _ PExit Received _ Hi Ea);
    [done|done|cbn; by rewrite Hq|done|exact Hk|cbn; by rewrite app_assoc|done| |cbn; unfold rank_recv; lia].
  intros i x. apply child_ok_move; [done|done|]. intros _. split; intros _; [by right|by left].
Qed.

Lemma goes_exit p cs tok : inv p (([], PExit), cs, tok) -> goes 0 p (([], PExit), cs, tok).
Proof.
  intros Hi. pose proof Hi as [Ht Hq Hp Hc Hn]. cbn [fst snd] in *. destruct Hp as (Hn0 & ->).
  destruct (exit_next 0) as (_ & k & _ & E).
  pose proof (tracked_call 0 p _ PExit _ _ _ Ht eq_refl E) as Ea. cbn [serve] in Ea.
  eapply (goes_parent p PExit cs Received _ [] PDone Received _ Hi Ea);
    [done|done|done|done|by apply emits_nil|by rewrite app_nil_r|done|done|cbn; lia].
Qed.

(** The parent goes on, unless it has exited or waits for an acknowledgement that is not there. *)
Lemma parent_goes p l pt cs tok :
  inv p ((l, pt), cs, tok) ->
  goes 0 p ((l, pt), cs, tok) \/ act 0 p = None /\ l = [] /\ (pt = PDone \/ pt = PRecv /\ tok <> Acked).
Proof.
  intros Hi. destruct l as [|c l]; [|left; by apply goes_say_parent].
  pose proof Hi as [Ht Hq Hp Hc Hn]. cbn [fst snd] in *.
  destruct pt; try done; try (left; by auto using goes_pipe1, goes_pipe2, goes_sleep, goes_exit).
  - left. destruct (decide (j = N)) as [->|Hne]; [by apply goes_send|].
    apply goes_fork; [|done]. destruct Hp as (_ & _ & Hle). lia.
  - destruct (decide (queues_of tok !! 1%nat = Some ack)) as [Ha|Ha].
    + left. destruct Hp as [_ [->|[(i & -> & _)| ->]]]; [done|done|]. by apply goes_recv.
    + right. destruct recv_next as (k & E & _).
      pose proof (tracked_call 0 p _ PRecv _ _ _ Ht eq_refl E) as Ea. cbn [serve] in Ea.
      change (fd_desc (fds_of PRecv) ufrom.1) with (Some (RdEnd 1)) in Ea. cbv beta iota zeta in Ea.
      rewrite Hq in Ea. destruct Hp as [_ [->|[(i & -> & _)| ->]]]; [..|done].
      all: split; [exact Ea|]; split; [done|]; by right.
  - right. destruct (tracks_act _ _ _ p _ 0 PDone Ht eq_refl) as (t & _ & _ & Ea).
    split; [exact Ea|]. split; [done|]. by left.
Qed.

(** *** The children *)

(** While the message is on its way the parent waits. *)
Lemma parent_waits tok n pt :
  tok = InPipe \/ (exists i, tok = With i) -> parent_ok tok n pt -> pt = PRecv /\ n = N.
Proof.
  intros Htok Hp. destruct pt; cbn in Hp; try done; destruct Hp as [E1 E2]; try done;
    destruct Htok as [Et|[i Et]]; congruence.
Qed.

Lemma not_settled tok : tok = InPipe \/ tok = Nowhere \/ (exists i, tok = With i) -> ~ settled tok.
Proof. intros [->|[->|[i ->]]] [|]; done. Qed.

Lemma child_bound p x0 cs tok i x : inv p (x0, cs, tok) -> cs !! i = Some x -> (i < N)%nat.
Proof. intros [_ _ _ _ Hn] Hx. cbn in Hn. apply lookup_lt_Some in Hx. lia. Qed.

Lemma goes_read p x0 cs i :
  inv p (x0, cs, InPipe) -> cs !! i = Some ([], CRead i) -> goes (S i) p (x0, cs, InPipe).
Proof.
  intros Hi Hx. pose proof Hi as [Ht Hq Hp Hc Hn]. cbn [fst snd] in *.
  pose proof (child_bound _ _ _ _ _ _ Hi Hx) as Hb. destruct (read_next i Hb) as (k & E & Hk).
  pose proof (tracked_call (S i) p _ (CRead i) _ _ _ Ht Hx E) as Ea. cbn [serve] in Ea.
  change (fd_desc (fds_of (CRead i)) uto.1) with (Some (RdEnd 0)) in Ea. cbv beta iota zeta in Ea.
  rewrite Hq in Ea. change (queues_of InPipe !! 0%nat) with (Some umsg) in Ea.
  assert (exists c l, umsg = c :: l) as (c & l & Em).
  { pose proof length_umsg as Hl. destruct umsg as [|c l]; [done|eauto]. }
  rewrite Em in Ea at 1. cbv iota in Ea. rewrite <- Em in Ea.
  rewrite take_ge, drop_ge in Ea by (rewrite length_umsg; lia).
  eapply (goes_child p x0 cs InPipe i (CRead i) _ _ (CWrite i) (With i) _ Hi Hx Ea);
    [done|done|cbn; by rewrite Hq|done|exact Hk|done| |done| |cbn; unfold rank_read; lia].
  - intros Hp'. destruct (parent_waits InPipe _ _ (or_introl eq_refl) Hp') as [-> ->].
    split; [done|]. right. left. eauto.
  - intros j x Hne. apply child_ok_move; [done|congruence|]. intros _.
    split; intros Hs; exfalso; eapply not_settled, Hs; eauto.
Qed.

Lemma goes_write p x0 cs tok i :
  inv p (x0, cs, tok) -> cs !! i = Some ([], CWrite i) -> goes (S i) p (x0, cs, tok).
Proof.
  intros Hi Hx. pose proof Hi as [Ht Hq Hp Hc Hn]. cbn [fst snd] in *.
  destruct (Hc i _ Hx) as [_ ->]. destruct (write_next i) as (k & E & Hk).
  pose proof (parent_waits (With i) (length cs) x0.2 ltac:(eauto)) as Hpr.
  assert (tok_after : exists tok', tok' = (if decide (i = tgt) then Acked else InPipe)) by eauto.
  destruct tok_after as [tok' Etok].
  assert (exists p1, act (S i) p = Some (resume (S i) (k (Z.of_nat (length (if decide (i = tgt) then ack else umsg)))) p1) /\
    tasks p1 = tasks p /\ said p1 = said p /\ queues p1 = queues_of tok') as (p1 & Ea & E1 & E2 & E3).
  { rewrite (tracked_call (S i) p _ (CWrite i) _ _ _ Ht Hx E), Etok. destruct (decide (i = tgt)); cbn [serve].
    - change (fd_desc (fds_of (CWrite i)) ufrom.2) with (Some (WrEnd 1)). cbv beta iota zeta.
      rewrite Hq. by exists (set_queue 1 ack p); cbn; rewrite Hq.
    - change (fd_desc (fds_of (CWrite i)) uto.2) with (Some (WrEnd 0)). cbv beta iota zeta. rewrite Hq.
      change (default [] (queues_of (With i) !! 0%nat)) with (@nil Z). rewrite umsg_room.
      by exists (set_queue 0 umsg p); cbn; rewrite Hq. }
  eapply (goes_child p x0 cs (With i) i (CWrite i) _ [] (CExit i) tok' _ Hi Hx Ea);
    [done|done|done|done|apply emits_nil, Hk|by rewrite app_nil_r| | | |cbn; lia]; subst tok'.
  - intros [-> ->]%Hpr. split; [done|]. destruct (decide _); tauto.
  - destruct (decide (i = tgt)) as [->|Hne]; cbn; [split_and!; try done; tauto|done].
  - intros j x Hne. apply child_ok_move; [congruence|by destruct (decide _)|]. intros ->.
    rewrite decide_False by done. split; intros Hs; exfalso; eapply not_settled, Hs; eauto.
Qed.

Lemma goes_child_exit p x0 cs tok i :
  inv p (x0, cs, tok) -> cs !! i = Some ([], CExit i) -> goes (S i) p (x0, cs, tok).
Proof.
  intros Hi Hx. pose proof Hi as [Ht Hq Hp Hc Hn]. cbn [fst snd] in *.
  destruct (exit_next i) as (k & _ & E & _).
  pose proof (tracked_call (S i) p _ (CExit i) _ _ _ Ht Hx E) as Ea. cbn [serve] in Ea.
  eapply (goes_child p x0 cs tok i (CExit i) _ [] (CDone i) tok _ Hi Hx Ea);
    [done|done|done|done|by apply emits_nil|by rewrite app_nil_r|done|exact (Hc i _ Hx)|done|cbn; lia].
Qed.

(** A child goes on, unless it has exited or waits for the message. *)
Lemma child_goes p x0 cs tok i l pt :
  inv p (x0, cs, tok) -> cs !! i = Some (l, pt) ->
  goes (S i) p (x0, cs, tok) \/
  act (S i) p = None /\ l = [] /\ (pt = CDone i \/ pt = CRead i /\ tok <> InPipe).
Proof.
  intros Hi Hx. destruct l as [|c l]; [|left; by eapply goes_say_child].
  pose proof Hi as [Ht Hq Hp Hc Hn]. cbn [fst snd] in *. pose proof (Hc i _ Hx) as Hci.
  destruct pt as [| | | | | | |i'|i'|i'|i']; try done; destruct Hci as [-> Hci].
  - destruct (decide (queues_of tok !! 0%nat = Some umsg)) as [Ha|Ha].
    + left. assert (tok = InPipe) as ->; [|by apply goes_read].
      assert ([] <> umsg) as Hne. { intros Em. pose proof length_umsg as Hl. by rewrite <- Em in Hl. }
      destruct tok; try done; by injection Ha.
    + right. destruct (read_next i (child_bound _ _ _ _ _ _ Hi Hx)) as (k & E & _).
      pose proof (tracked_call (S i) p _ (CRead i) _ _ _ Ht Hx E) as Ea. cbn [serve] in Ea.
      change (fd_desc (fds_of (CRead i)) uto.1) with (Some (RdEnd 0)) in Ea. cbv beta iota zeta in Ea.
      rewrite Hq in Ea. assert (tok <> InPipe) as Hne by (intros ->; done).
      split; [|split; [done|by right]]. by destruct tok.
  - left. by apply goes_write.
  - left. by apply goes_child_exit.
  - right. destruct (tracks_act _ _ _ p _ (S i) (CDone i) Ht Hx) as (t & _ & _ & Ea).
    split; [exact Ea|]. split; [done|]. by left.
Qed.

(** ** Every run delivers the message *)

Lemma inv_step p s p' : inv p s -> moves p p' -> exists s', inv p' s' /\ (left s' < left s)%nat.
Proof.
  intros Hi [i Ea]. destruct s as [[[l pt] cs] tok].
  assert (goes i p ((l, pt), cs, tok) -> exists s', inv p' s' /\ (left s' < left ((l, pt), cs, tok))%nat) as Hg.
  { intros (p2 & s' & E & Hi' & Hl). rewrite Ea in E. injection E as <-. eauto. }
  destruct i as [|i].
  - destruct (parent_goes p l pt cs tok Hi) as [?|[E _]]; [auto|congruence].
  - destruct (cs !! i) as [[l' pt']|] eqn:Ex.
    + destruct (child_goes p (l, pt) cs tok i l' pt' Hi Ex) as [?|[E _]]; [auto|congruence].
    + pose proof (tr_len _ _ _ _ _ (in_tracks _ _ Hi)) as Hl. cbn in Hl. unfold act in Ea.
      apply lookup_ge_None in Ex. rewrite lookup_ge_None_2 in Ea by lia. done.
Qed.

(** Process [k] has exited, or waits in [read], and has written [w]. *)
Definition exited (p : pool) (k : nat) (w : list Z) : Prop :=
  (exists t, tasks p !! k = Some t /\ observe (t_tree t) = RetF tt) /\ voice k (said p) = w.
Definition waits (p : pool) (k : nat) (w : list Z) : Prop :=
  (exists t h, tasks p !! k = Some t /\ observe (t_tree t) = VisF (Read uto.1 UMSG) h) /\ voice k (said p) = w.

Lemma at_point p s k pt :
  inv p s -> (s.1.1 :: s.1.2) !! k = Some ([], pt) ->
  exists t, tasks p !! k = Some t /\ observe (t_tree t) = observe (tree_of pt) /\ voice k (said p) = text_of pt.
Proof.
  intros Hi Hk. destruct (tracks_lookup _ _ _ p _ k _ (in_tracks _ _ Hi) Hk) as (t & Et & _ & He & Hv).
  exists t. cbn [fst snd] in *. rewrite app_nil_r in Hv. inversion He. done.
Qed.

(** What holds when no process can go on. *)
Definition delivered (p : pool) : Prop :=
  queues p = [[]; []] /\ length (tasks p) = S N /\
  exited p 0 (t_creates N ++ t_sends ++ t_receives) /\
  exited p (S tgt) (t_start tgt ++ t_got tgt) /\
  forall i, (i < N)%nat -> i <> tgt ->
    exited p (S i) (t_start i ++ t_got i) \/ waits p (S i) (t_start i).

(** Every child is there, and has exited or waits. *)
Lemma child_stuck p x0 cs tok i :
  inv p (x0, cs, tok) -> (forall k, act k p = None) -> (i < length cs)%nat ->
  (cs !! i = Some ([], CDone i) \/ cs !! i = Some ([], CRead i) /\ tok <> InPipe).
Proof.
  intros Hi Hn Hlt. destruct (cs !! i) as [[l pt]|] eqn:Ex; [|apply lookup_ge_None in Ex; lia].
  destruct (child_goes p x0 cs tok i l pt Hi Ex) as [(p' & s' & E & _)|(_ & -> & [->|[-> ?]])]; [|auto..].
  by rewrite Hn in E.
Qed.

Lemma inv_end p s : inv p s -> (forall i, act i p = None) -> delivered p.
Proof.
  intros Hi Hn. destruct s as [[[l pt] cs] tok]. pose proof Hi as [Ht Hq Hp Hc Hm]. cbn [fst snd] in *.
  destruct (parent_goes p l pt cs tok Hi) as [(p' & s' & E & _)|(_ & -> & Hpt)]; [by rewrite Hn in E|].
  assert (length cs = N) as HlN by (destruct Hpt as [->|[-> _]]; apply Hp).
  assert (pt = PDone /\ tok = Received) as [-> ->].
  { destruct Hpt as [->|[-> Htok]]; [split; [done|apply Hp]|exfalso].
    destruct Hp as [_ [->|[(i & -> & Hi')|?]]]; [| |done].
    - destruct (child_stuck p _ cs InPipe tgt Hi Hn) as [E|[_ ?]]; [lia| |done].
      destruct (Hc _ _ E) as (_ & _ & Hs). by destruct (Hs eq_refl).
    - destruct (child_stuck p _ cs (With i) i Hi Hn) as [E|[E _]]; [lia| |];
        destruct (Hc _ _ E) as (_ & ? & _); done. }
  pose proof (tr_len _ _ _ _ _ Ht) as Hl. cbn in Hl.
  assert (forall i, (i < N)%nat -> cs !! i = Some ([], CDone i) -> exited p (S i) (t_start i ++ t_got i)) as Hdone.
  { intros i _ Ex. destruct (at_point p _ (S i) (CDone i) Hi Ex) as (t & Et & Eo & Ev).
    split; [|exact Ev]. by exists t. }
  split; [exact Hq|]. split; [lia|]. split; [|split].
  - destruct (at_point p _ 0 PDone Hi eq_refl) as (t & Et & Eo & Ev). split; [|exact Ev]. by exists t.
  - destruct (child_stuck p _ cs Received tgt Hi Hn) as [E|[E _]]; [lia|by apply Hdone|].
    destruct (Hc _ _ E) as (_ & _ & Hs). by destruct (Hs eq_refl).
  - intros i Hlt _. destruct (child_stuck p _ cs Received i Hi Hn) as [E|[E _]]; [lia|left; by apply Hdone|right].
    destruct (at_point p _ (S i) (CRead i) Hi E) as (t & Et & Eo & Ev). split; [|exact Ev].
    destruct (read_next i Hlt) as (h & Eh & _). exists t, h. by rewrite Eo.
Qed.

Lemma inv_start a0 a1 a2 more :
  atoi a1 = Z.of_nat N -> atoi a2 = Z.of_nat tgt ->
  inv (Pool [Task (unicast_main st (a0 :: a1 :: a2 :: text :: more)) [Console; Console; Console]] [] [])
    (([], PPipe1), [], Boot1).
Proof.
  intros E1 E2. split; cbn [fst snd]; [|done|done|done|cbn; lia]. split; cbn [tasks said]; [done| |done].
  intros [|i] t x Et Ex; [|done]. injection Et as <-. injection Ex as <-.
  split; [done|]. split; [|done]. cbn [fst snd t_tree]. apply emits_nil. cbn [unicast_main tree_of].
  rewrite umsg_strcpy, E1, E2, Nat2Z.id. reflexivity.
Qed.


End unicast.

Definition demo_stack : stack := Stack (replicate 260 7) (replicate 296 7) (0, 0) [].

