(* ===== verification/Sh.v ===== *)
(** * The shell: user/sh.c

    The parser works on the line in the buffer [buf]: pointers into it are positions.  A
    [cmd] holds the ends of its strings; [nulterminate] stores a NUL at each end, and [tree]
    is the command with the C strings that are then in the buffer, which [runcmd] runs. *)

From S2P Require Import Prelude User Ulib Uprintf Messages.
From ITree Require Import Core.ITreeDefinition.

Open Scope prog_scope.

Definition MAXARGS : nat := 10.

(** struct cmd and its kinds.  A string is the pair of its [argv] and [eargv] pointers. *)
Inductive cmd : Type :=
| EXEC (argv : list (nat * nat))
| REDIR (c : cmd) (file : nat * nat) (mode fd : Z)
| PIPE (lft rgt : cmd)
| LIST (lft rgt : cmd)
| BACK (c : cmd).

(** The same with strings in the place of pointers. *)
Inductive tree : Type :=
| TExec (argv : list (list Z))
| TRedir (t : tree) (file : list Z) (mode fd : Z)
| TPipe (lft rgt : tree)
| TList (lft rgt : tree)
| TBack (t : tree).

Definition O_RDONLY : Z := 0.
Definition O_WRONLY : Z := 1.
Definition O_CREATE : Z := 512.
Definition O_TRUNC : Z := 1024.

(** ** Running commands *)

Fixpoint runcmd (t : tree) : prog unit :=
  match t with
  | TExec [] => exit 1
  | TExec ((path :: _) as argv) =>
      call (Exec path argv);;
      fprintf 2 (line "exec %s failed") [V_str (Some path)];;
      exit 0
  | TRedir t file mode fd =>
      call (Close fd);;
      r <- call (Open file mode);;
      (if r <? 0 then
         fprintf 2 (line "open %s failed") [V_str (Some file)];;
         exit 1
       else done tt);;
      runcmd t;;
      exit 0
  | TList lft rgt =>
      pid <- fork1;;
      (if pid =? 0 then runcmd lft else done tt);;
      call Wait;;
      runcmd rgt;;
      exit 0
  | TPipe lft rgt =>
      p <- call Pipe;;
      match p with
      | None => panic (str "pipe")
      | Some (p0, p1) =>
          pid <- fork1;;
          (if pid =? 0 then
             call (Close 1);;
             call (Dup p1);;
             call (Close p0);;
             call (Close p1);;
             runcmd lft
           else done tt);;
          pid <- fork1;;
          (if pid =? 0 then
             call (Close 0);;
             call (Dup p0);;
             call (Close p0);;
             call (Close p1);;
             runcmd rgt
           else done tt);;
          call (Close p0);;
          call (Close p1);;
          call Wait;;
          call Wait;;
          exit 0
      end
  | TBack t =>
      pid <- fork1;;
      (if pid =? 0 then runcmd t else done tt);;
      exit 0
  end.

(** ** The tokens *)

Definition whitespace : list Z := [SPACE; TAB; CR; NL; VT].
Definition symbols : list Z := str "<|>&;()".

(** The character at a position of the buffer; a NUL follows the line. *)
Definition at_ (s : list Z) (i : nat) : Z := default 0 (s !! i).

(** [while(s < es && test( *s)) s++], with as many rounds as there are characters lft. *)
Fixpoint scan_loop (fuel : nat) (test : Z -> bool) (s : list Z) (i : nat) : nat :=
  match fuel with
  | O => i
  | S fuel => if (i <? length s)%nat && test (at_ s i) then scan_loop fuel test s (S i) else i
  end.
Definition scan (test : Z -> bool) (s : list Z) (i : nat) : nat := scan_loop (length s - i) test s i.

Definition word_char (c : Z) : bool := negb (has whitespace c) && negb (has symbols c).

(** [gettoken(ps, es, q, eq)]: the token, its ends and the new position. *)
Record token := Token { tok : Z; tok_q : nat; tok_eq : nat; tok_ps : nat }.

Definition LT : Z := 60.
Definition GT : Z := 62.
Definition PLUS : Z := 43.
Definition WORD : Z := 97.

Definition gettoken (s : list Z) (ps : nat) : token :=
  let q := scan (has whitespace) s ps in
  let c := at_ s q in
  let '(ret, e) :=
    if c =? 0 then (c, q)
    else if has (str "|();&<") c then (c, S q)
    else if c =? GT then
      if at_ s (S q) =? GT then (PLUS, S (S q)) else (c, S q)
    else (WORD, scan word_char s q) in
  Token ret q e (scan (has whitespace) s e).

(** [peek(ps, es, toks)]: the answer, and the new position. *)
Definition peek (s : list Z) (ps : nat) (toks : list Z) : bool * nat :=
  let i := scan (has whitespace) s ps in
  (negb (at_ s i =? 0) && has toks (at_ s i), i).

(** ** The parser *)

(** A parsing function ends in a command and a new position, or panics, or (never, see
    [parse_total]) runs out of fuel. *)
Inductive parsed (A : Type) : Type :=
| Parsed (a : A) (ps : nat)
| Syntax (msg : list Z)
| NoFuel.
Arguments Parsed {A} a ps.
Arguments Syntax {A} msg.
Arguments NoFuel {A}.

Definition andthen {A B} (r : parsed A) (k : A -> nat -> parsed B) : parsed B :=
  match r with
  | Parsed a ps => k a ps
  | Syntax m => Syntax m
  | NoFuel => NoFuel
  end.

(** The redirection of a token. *)
Definition redirect (t : Z) (c : cmd) (file : nat * nat) : cmd :=
  if t =? LT then REDIR c file O_RDONLY 0
  else if t =? GT then REDIR c file (Z.lor (Z.lor O_WRONLY O_CREATE) O_TRUNC) 1
  else if t =? PLUS then REDIR c file (Z.lor O_WRONLY O_CREATE) 1
  else c.

(** [parseredirs(cmd, ps, es)]: the command may still get arguments after it was wrapped
    (the C code keeps a pointer to it), so the wrapping is a function. *)
Fixpoint parseredirs (fuel : nat) (s : list Z) (wrap : cmd -> cmd) (ps : nat) : parsed (cmd -> cmd) :=
  match fuel with
  | O => NoFuel
  | S fuel =>
      let '(more, ps) := peek s ps [LT; GT] in
      if negb more then Parsed wrap ps else
      let t := gettoken s ps in
      let f := gettoken s (tok_ps t) in
      if negb (tok f =? WORD) then Syntax (str "missing file for redirection") else
      parseredirs fuel s (fun c => redirect (tok t) (wrap c) (tok_q f, tok_eq f)) (tok_ps f)
  end.

(** The loop of [parseexec] over the arguments: [argv] are those there are. *)
Fixpoint parseargs (fuel : nat) (s : list Z) (argv : list (nat * nat)) (wrap : cmd -> cmd) (ps : nat) : parsed cmd :=
  match fuel with
  | O => NoFuel
  | S fuel =>
      let '(stop, ps) := peek s ps (str "|)&;") in
      if stop then Parsed (wrap (EXEC argv)) ps else
      let t := gettoken s ps in
      if tok t =? 0 then Parsed (wrap (EXEC argv)) (tok_ps t) else
      if negb (tok t =? WORD) then Syntax (str "syntax") else
      let argv := argv ++ [(tok_q t, tok_eq t)] in
      if (MAXARGS <=? length argv)%nat then Syntax (str "too many args") else
      andthen (parseredirs (S (length s)) s wrap (tok_ps t)) (fun wrap ps =>
      parseargs fuel s argv wrap ps)
  end.

(** [while(peek(ps, es, "&"))] of [parseline]. *)
Fixpoint parseback (fuel : nat) (s : list Z) (c : cmd) (ps : nat) : parsed cmd :=
  match fuel with
  | O => NoFuel
  | S fuel =>
      let '(more, ps) := peek s ps (str "&") in
      if negb more then Parsed c ps
      else parseback fuel s (BACK c) (tok_ps (gettoken s ps))
  end.

Fixpoint parseline (fuel : nat) (s : list Z) (ps : nat) : parsed cmd :=
  match fuel with
  | O => NoFuel
  | S fuel =>
      andthen (parsepipe fuel s ps) (fun c ps =>
      andthen (parseback (S (length s)) s c ps) (fun c ps =>
      let '(more, ps) := peek s ps (str ";") in
      if more then
        andthen (parseline fuel s (tok_ps (gettoken s ps))) (fun rgt ps => Parsed (LIST c rgt) ps)
      else Parsed c ps))
  end
with parsepipe (fuel : nat) (s : list Z) (ps : nat) : parsed cmd :=
  match fuel with
  | O => NoFuel
  | S fuel =>
      andthen (parseexec fuel s ps) (fun c ps =>
      let '(more, ps) := peek s ps (str "|") in
      if more then
        andthen (parsepipe fuel s (tok_ps (gettoken s ps))) (fun rgt ps => Parsed (PIPE c rgt) ps)
      else Parsed c ps)
  end
with parseexec (fuel : nat) (s : list Z) (ps : nat) : parsed cmd :=
  match fuel with
  | O => NoFuel
  | S fuel =>
      let '(block, ps) := peek s ps (str "(") in
      if block then parseblock fuel s ps else
      andthen (parseredirs (S (length s)) s (fun c => c) ps) (fun wrap ps =>
      parseargs (S (length s)) s [] wrap ps)
  end
with parseblock (fuel : nat) (s : list Z) (ps : nat) : parsed cmd :=
  match fuel with
  | O => NoFuel
  | S fuel =>
      let '(block, ps) := peek s ps (str "(") in
      if negb block then Syntax (str "parseblock") else
      andthen (parseline fuel s (tok_ps (gettoken s ps))) (fun c ps =>
      let '(close, ps) := peek s ps (str ")") in
      if negb close then Syntax (str "syntax - missing )") else
      andthen (parseredirs (S (length s)) s (fun c => c) (tok_ps (gettoken s ps))) (fun wrap ps =>
      Parsed (wrap c) ps))
  end.

(** [nulterminate(cmd)]: the buffer with a NUL at the end of every string. *)
Fixpoint nulterminate (c : cmd) (buf : list Z) : list Z :=
  match c with
  | EXEC argv => foldl (fun buf a => <[a.2 := 0]> buf) buf argv
  | REDIR c file _ _ => <[file.2 := 0]> (nulterminate c buf)
  | PIPE lft rgt | LIST lft rgt => nulterminate rgt (nulterminate lft buf)
  | BACK c => nulterminate c buf
  end.

(** The C string at a position of the buffer. *)
Definition string_at (buf : list Z) (i : nat) : list Z := chars_until_nul (drop i buf).

Fixpoint load (buf : list Z) (c : cmd) : tree :=
  match c with
  | EXEC argv => TExec ((fun a => string_at buf a.1) <$> argv)
  | REDIR c file mode fd => TRedir (load buf c) (string_at buf file.1) mode fd
  | PIPE lft rgt => TPipe (load buf lft) (load buf rgt)
  | LIST lft rgt => TList (load buf lft) (load buf rgt)
  | BACK c => TBack (load buf c)
  end.

(** Enough for the deepest nesting, four calls for each character. *)
Definition parse_fuel (s : list Z) : nat := (4 * length s + 8)%nat.

(** [parsecmd(s)] up to its output: [buf] is the array that starts with the line [s] and
    a NUL. *)
Definition parse (s : list Z) : parsed cmd :=
  andthen (parseline (parse_fuel s) s 0) (fun c ps => let '(_, ps) := peek s ps [] in Parsed c ps).

Definition parsecmd (buf : list Z) : prog tree :=
  let s := chars_until_nul buf in
  match parse s with
  | Parsed c ps =>
      if negb (ps =? length s)%nat then
        fprintf 2 (line "leftovers: %s") [V_str (Some (drop ps s))];;
        panic (str "syntax")
      else done (load (nulterminate c buf) c)
  | Syntax msg => panic msg
  | NoFuel => ITree.spin
  end.

(** ** The loop of the shell *)

(** [getcmd(buf, nbuf)]: the buffer, or None at the end of the input. *)
Definition getcmd (nbuf : nat) : prog (option (list Z)) :=
  call (Write 2 (str "$ "));;
  buf <- gets (replicate nbuf 0) (Z.of_nat nbuf);;
  done (if at_ buf 0 =? 0 then None else Some buf).

Definition sh_main : prog unit :=
  ITree.iter (fun _ =>
    fd <- call (Open (str "console") 2);;
    if fd <? 0 then done (inr tt)
    else if fd >=? 3 then call (Close fd);; done (inr tt)
    else done (inl tt)) tt;;
  ITree.iter (fun _ =>
    b <- getcmd 100;;
    match b with
    | None => done (inr tt)
    | Some buf =>
        if (at_ buf 0 =? 99) && (at_ buf 1 =? 100) && (at_ buf 2 =? SPACE) then
          let dir := drop 3 (chars_until_nul buf) in
          let dir := take (length dir - 1) dir in
          r <- call (Chdir dir);;
          (if r <? 0 then fprintf 2 (line "cannot cd %s") [V_str (Some dir)] else done tt);;
          done (inl tt)
        else
          pid <- fork1;;
          (if pid =? 0 then t <- parsecmd buf;; runcmd t else done tt);;
          call Wait;;
          done (inl tt)
    end) tt;;
  exit 0.
