(* ===== verification/ShSyntax.v ===== *)
(** * The grammar of the shell

    Syntax trees of the shell's grammar, their text, and the commands they mean: [parse]
    reads the text of a tree back as its command. *)

From S2P Require Import Prelude User Ulib Uprintf Messages Sh ShSpec.
From ITree Require Import Core.ITreeDefinition.

(** ** Syntax trees *)

(** [< file], [> file] and [>> file]. *)
Inductive rop : Type := RIn | ROut | RAppend.
Definition redir : Type := rop * list Z.

(** A line is pipelines, some run in the background, separated by semicolons; a
    pipeline is commands separated by bars; a command is words and redirections, or a
    line in parentheses with redirections. *)
Inductive sline : Type :=
| LLast (p : spipe) (amps : nat)
| LSeq (p : spipe) (amps : nat) (l : sline)
with spipe : Type :=
| POne (e : sexec)
| PBar (e : sexec) (p : spipe)
with sexec : Type :=
| ESimple (rs : list redir) (args : list (list Z * list redir))
| EBlock (l : sline) (rs : list redir).

Scheme sline_mut := Induction for sline Sort Prop
with spipe_mut := Induction for spipe Sort Prop
with sexec_mut := Induction for sexec Sort Prop.
Combined Scheme syntax_mut from sline_mut, spipe_mut, sexec_mut.

(** *** What a tree means *)

Definition mean_redir (t : tree) (r : redir) : tree :=
  match r.1 with
  | RIn => TRedir t r.2 O_RDONLY 0
  | ROut => TRedir t r.2 (Z.lor (Z.lor O_WRONLY O_CREATE) O_TRUNC) 1
  | RAppend => TRedir t r.2 (Z.lor O_WRONLY O_CREATE) 1
  end.

Fixpoint mean_line (l : sline) : tree :=
  match l with
  | LLast p amps => Nat.iter amps TBack (mean_pipe p)
  | LSeq p amps l => TList (Nat.iter amps TBack (mean_pipe p)) (mean_line l)
  end
with mean_pipe (p : spipe) : tree :=
  match p with
  | POne e => mean_exec e
  | PBar e p => TPipe (mean_exec e) (mean_pipe p)
  end
with mean_exec (e : sexec) : tree :=
  match e with
  | ESimple rs args => foldl mean_redir (TExec args.*1) (rs ++ concat args.*2)
  | EBlock l rs => foldl mean_redir (mean_line l) rs
  end.

(** *** Its text *)

Definition op_text (o : rop) : list Z :=
  match o with RIn => [LT] | ROut => [GT] | RAppend => [GT; GT] end.
Definition redir_toks (r : redir) : list (list Z) := [op_text r.1; r.2].
Definition redirs_toks (rs : list redir) : list (list Z) := concat (redir_toks <$> rs).
Definition arg_toks (a : list Z * list redir) : list (list Z) := a.1 :: redirs_toks a.2.

Fixpoint line_toks (l : sline) : list (list Z) :=
  match l with
  | LLast p amps => pipe_toks p ++ replicate amps (str "&")
  | LSeq p amps l => pipe_toks p ++ replicate amps (str "&") ++ str ";" :: line_toks l
  end
with pipe_toks (p : spipe) : list (list Z) :=
  match p with
  | POne e => exec_toks e
  | PBar e p => exec_toks e ++ str "|" :: pipe_toks p
  end
with exec_toks (e : sexec) : list (list Z) :=
  match e with
  | ESimple rs args => redirs_toks rs ++ concat (arg_toks <$> args)
  | EBlock l rs => str "(" :: line_toks l ++ str ")" :: redirs_toks rs
  end.

(** Every token is followed by a space. *)
Definition render (ts : list (list Z)) : list Z := concat ((fun t => t ++ [SPACE]) <$> ts).

(** *** Well-formed trees *)

Definition wf_word (w : list Z) : Prop := w <> [] /\ Forall (fun c => word_char c = true /\ c <> 0) w.
Definition wf_redirs (rs : list redir) : Prop := Forall (fun r => wf_word r.2) rs.

Fixpoint wf_line (l : sline) : Prop :=
  match l with
  | LLast p _ => wf_pipe p
  | LSeq p _ l => wf_pipe p /\ wf_line l
  end
with wf_pipe (p : spipe) : Prop :=
  match p with
  | POne e => wf_exec e
  | PBar e p => wf_exec e /\ wf_pipe p
  end
with wf_exec (e : sexec) : Prop :=
  match e with
  | ESimple rs args => wf_redirs rs /\ Forall (fun a => wf_word a.1 /\ wf_redirs a.2) args /\
      (length args < MAXARGS)%nat
  | EBlock l rs => wf_line l /\ wf_redirs rs
  end.

(** ** Reading tokens *)

Definition wf_tok (t : list Z) : Prop :=
  wf_word t \/ t ∈ [str "|"; str "("; str ")"; str ";"; str "&"; [LT]; [GT]; [GT; GT]].

(** From [ps] on the line is the text of [ts]. *)
Record view (s : list Z) (ps : nat) (ts : list (list Z)) : Prop := {
  vw_le : (ps <= length s)%nat;
  vw_text : drop ps s = render ts;
  vw_toks : Forall wf_tok ts
}.

(** A token does not start with white space. *)
Lemma wf_tok_head t : wf_tok t -> exists c t', t = c :: t' /\ has whitespace c = false /\ c <> 0.
Proof.
  intros [[Hne Hw]|Ht].
  - destruct t as [|c t]; [done|]. exists c, t. split; [done|]. apply Forall_cons in Hw as [[Hc H0] _].
    split; [|done]. unfold word_char in Hc. apply andb_true_iff in Hc as [Hc _]. by apply negb_true_iff in Hc.
  - repeat (apply elem_of_cons in Ht as [->|Ht]; [by do 2 eexists|]). by apply elem_of_nil in Ht.
Qed.

Lemma at_view s i l : drop i s = l -> at_ s i = default 0 (head l).
Proof. intros <-. apply at_drop. Qed.

Lemma scan_step test s i c l :
  drop i s = c :: l -> scan test s i = if test c then scan test s (S i) else i.
Proof.
  intros E. unfold scan. assert (i < length s)%nat as Hi.
  { destruct (decide (i < length s)%nat); [done|]. by rewrite drop_ge in E by lia. }
  replace (length s - i)%nat with (S (length s - S i)) by lia. cbn [scan_loop].
  rewrite (proj2 (Nat.ltb_lt _ _) Hi), (at_view s i _ E). done.
Qed.

Lemma drop_S_view s i (c : Z) l : drop i s = c :: l -> drop (S i) s = l.
Proof. intros E. rewrite <- (Nat.add_1_r i), <- drop_drop, E. done. Qed.

Lemma scan_view test s l : forall i r,
  drop i s = l ++ r -> Forall (fun c => test c = true) l ->
  (forall c, head r = Some c -> test c = false) -> scan test s i = (i + length l)%nat.
Proof.
  induction l as [|c l IH]; intros i r E Hl Hr; cbn [app length] in *.
  - rewrite Nat.add_0_r. destruct r as [|c r].
    + unfold scan. assert (length s <= i)%nat by (apply (f_equal length) in E; rewrite length_drop in E; cbn in E; lia).
      by replace (length s - i)%nat with 0%nat by lia.
    + by rewrite (scan_step test s i c r E), (Hr c).
  - apply Forall_cons in Hl as [Hc Hl]. rewrite (scan_step test s i c _ E), Hc.
    rewrite (IH (S i) r (drop_S_view s i c _ E) Hl Hr). lia.
Qed.

(** No white space before a token, or at the end. *)
Lemma scan_here s ps ts : view s ps ts -> scan (has whitespace) s ps = ps.
Proof.
  intros [_ E Ht]. rewrite (scan_view _ s [] ps (render ts)); [apply Nat.add_0_r|exact E|constructor|].
  intros c Hc. destruct ts as [|t ts]; [done|]. apply Forall_cons in Ht as [Ht _].
  destruct (wf_tok_head t Ht) as (c' & t' & -> & Hw & _). cbn in Hc. by injection Hc as <-.
Qed.

(** The space after a token. *)
Lemma view_next s ps t ts :
  view s ps (t :: ts) ->
  view s (ps + length t + 1) ts /\ drop (ps + length t) s = SPACE :: render ts /\
  scan (has whitespace) s (ps + length t) = (ps + length t + 1)%nat.
Proof.
  intros [Hle E Ht]. unfold render in E. cbn [fmap list_fmap concat] in E. fold (render ts) in E.
  rewrite <- app_assoc in E. apply Forall_cons in Ht as [_ Ht].
  assert (drop (ps + length t) s = SPACE :: render ts) as E1 by (rewrite <- drop_drop, E, drop_app_length; done).
  assert (view s (ps + length t + 1) ts) as Hv.
  { split; [|rewrite Nat.add_1_r; by apply drop_S_view with SPACE|done].
    apply (f_equal length) in E1. rewrite length_drop in E1. cbn in E1. lia. }
  split; [exact Hv|]. split; [exact E1|]. rewrite (scan_step _ s _ SPACE _ E1). change (has whitespace SPACE) with true.
  cbn iota. rewrite <- Nat.add_1_r. exact (scan_here _ _ _ Hv).
Qed.

Lemma peek_view s ps ts toks :
  view s ps ts ->
  peek s ps toks = (match ts with t :: _ => has toks (default 0 (head t)) | [] => false end, ps).
Proof.
  intros Hv. unfold peek. rewrite (scan_here s ps ts Hv). destruct Hv as [_ E Ht].
  rewrite (at_view s ps _ E). destruct ts as [|t ts]; [done|]. apply Forall_cons in Ht as [Ht _].
  destruct (wf_tok_head t Ht) as (c & t' & -> & _ & Hc). cbn.
  by rewrite (proj2 (Z.eqb_neq c 0) Hc).
Qed.

(** The end of the line. *)
Lemma gettoken_end s ps : view s ps [] -> gettoken s ps = Token 0 ps ps ps.
Proof.
  intros Hv. unfold gettoken. rewrite (scan_here s ps [] Hv), (at_view s ps [] (vw_text _ _ _ Hv)).
  cbn. by rewrite (scan_here s ps [] Hv).
Qed.

Lemma gettoken_word s ps w ts :
  view s ps (w :: ts) -> wf_word w ->
  gettoken s ps = Token WORD ps (ps + length w) (ps + length w + 1).
Proof.
  intros Hv [Hne Hw]. destruct (view_next s ps w ts Hv) as (_ & E1 & Es). unfold gettoken.
  rewrite (scan_here _ _ _ Hv). destruct Hv as [_ E Ht]. unfold render in E. cbn [fmap list_fmap concat] in E.
  fold (render ts) in E. rewrite <- app_assoc in E.
  assert (scan word_char s ps = (ps + length w)%nat) as Ew.
  { apply (scan_view _ s w ps ([SPACE] ++ render ts)); [exact E| |by intros c [= <-]].
    eapply Forall_impl; [exact Hw|]. by intros c [? _]. }
  destruct w as [|c w]; [done|]. apply Forall_cons in Hw as [[Hc Hc0] _].
  rewrite (at_view s ps _ E). cbn [app head default from_option id]. rewrite (proj2 (Z.eqb_neq c 0) Hc0).
  unfold word_char in Hc. apply andb_true_iff in Hc as [_ Hc]. apply negb_true_iff in Hc.
  rewrite has_elem in *. apply bool_decide_eq_false in Hc.
  rewrite bool_decide_false by (intros Hin; apply Hc; revert Hin; cbn; set_solver).
  destruct (Z.eqb_spec c GT) as [->|_]; [destruct Hc; cbn; set_solver|]. by rewrite Ew, Es.
Qed.

(** The symbols of one character, and [>>]. *)
Lemma gettoken_symbol s ps c ts :
  view s ps ([c] :: ts) -> c ∈ str "|();&<>" -> gettoken s ps = Token c ps (ps + 1) (ps + 2).
Proof.
  intros Hv Hc. destruct (view_next s ps [c] ts Hv) as (_ & E1 & Es). unfold gettoken. cbn [length] in *.
  rewrite (scan_here _ _ _ Hv). destruct Hv as [_ E _].
  rewrite (at_view s ps _ E). unfold render. cbn [fmap list_fmap concat app head default from_option id].
  assert (at_ s (S ps) = SPACE) as En by (rewrite <- Nat.add_1_r; exact (at_view _ _ _ E1)).
  rewrite En. replace (ps + 2)%nat with (ps + 1 + 1)%nat by lia. rewrite <- Es, <- Nat.add_1_r.
  revert Hc. cbn. intros Hc. repeat (apply elem_of_cons in Hc as [->|Hc]; [reflexivity|]). by apply elem_of_nil in Hc.
Qed.

Lemma gettoken_append s ps ts :
  view s ps ([GT; GT] :: ts) -> gettoken s ps = Token PLUS ps (ps + 2) (ps + 3).
Proof.
  intros Hv. destruct (view_next s ps [GT; GT] ts Hv) as (_ & E1 & Es). unfold gettoken. cbn [length] in *.
  rewrite (scan_here _ _ _ Hv). destruct Hv as [_ E _].
  assert (at_ s ps = GT) as E0 by exact (at_view s ps _ E).
  assert (at_ s (S ps) = GT) as En by exact (at_view s (S ps) _ (drop_S_view s ps GT _ E)).
  rewrite E0, En. change (GT =? 0) with false. change (has (str "|();&<") GT) with false. cbv iota.
  change (GT =? GT) with true. cbv beta iota. replace (S (S ps)) with (ps + 2)%nat by lia. rewrite Es. f_equal. lia.
Qed.

(** ** Parsing the text of a tree *)

Section parse.
Context (s : list Z).

(** The next token starts with one of [toks]. *)
Definition looks (ts : list (list Z)) (toks : list Z) : bool :=
  match ts with t :: _ => has toks (default 0 (head t)) | [] => false end.

Lemma peek_looks ps ts toks : view s ps ts -> peek s ps toks = (looks ts toks, ps).
Proof. apply peek_view. Qed.

Lemma cut_view ps w ts : view s ps (w :: ts) -> cut s (ps, (ps + length w)%nat) = w.
Proof.
  intros [_ E _]. unfold cut. cbn [fst snd]. rewrite E. unfold render. cbn [fmap list_fmap concat].
  rewrite <- app_assoc. replace (ps + length w - ps)%nat with (length w) by lia. apply take_app_length.
Qed.

Lemma looks_word w ts toks : wf_word w -> (forall c, c ∈ toks -> c ∈ symbols) -> looks (w :: ts) toks = false.
Proof.
  intros [Hne Hw] Hs. destruct w as [|c w]; [done|]. apply Forall_cons in Hw as [[Hc _] _]. cbn [looks head default].
  unfold word_char in Hc. apply andb_true_iff in Hc as [_ Hc]. apply negb_true_iff in Hc.
  cbn [from_option id]. rewrite has_elem in *. apply bool_decide_eq_false in Hc. apply bool_decide_eq_false. auto.
Qed.

Definition op_code (o : rop) : Z := match o with RIn => LT | ROut => GT | RAppend => PLUS end.

Lemma gettoken_op ps o ts :
  view s ps (op_text o :: ts) -> exists e, gettoken s ps = Token (op_code o) ps e (ps + length (op_text o) + 1).
Proof.
  intros Hv. destruct o; cbn [op_text op_code length] in *.
  - exists (ps + 1)%nat. rewrite (gettoken_symbol s ps LT ts Hv) by (cbn; set_solver). f_equal. lia.
  - exists (ps + 1)%nat. rewrite (gettoken_symbol s ps GT ts Hv) by (cbn; set_solver). f_equal. lia.
  - exists (ps + 2)%nat. rewrite (gettoken_append s ps ts Hv). f_equal. lia.
Qed.

(** [wrap] adds the redirections [rs]. *)
Definition wraps (wrap : cmd -> cmd) (rs : list redir) : Prop :=
  forall c, erase s (wrap c) = foldl mean_redir (erase s c) rs.

Lemma wraps_redirect wrap rs o f a :
  wraps wrap rs -> cut s a = f -> wraps (fun c => redirect (op_code o) (wrap c) a) (rs ++ [(o, f)]).
Proof.
  intros Hw <- c. rewrite foldl_app. cbn [foldl]. rewrite <- (Hw c). by destruct o.
Qed.

Lemma redirs_parse rs : forall fuel wrap rs0 ps ts,
  view s ps (redirs_toks rs ++ ts) -> wf_redirs rs -> looks ts [LT; GT] = false -> wraps wrap rs0 ->
  (length s - ps < fuel)%nat ->
  exists wrap' ps', parseredirs fuel s wrap ps = Parsed wrap' ps' /\ view s ps' ts /\ (ps <= ps')%nat /\
    wraps wrap' (rs0 ++ rs).
Proof.
  induction rs as [|[o f] rs IH]; intros fuel wrap rs0 ps ts Hv Hwf Hl Hw Hf;
    (destruct fuel as [|fuel]; [lia|]); cbn [parseredirs].
  { cbn in Hv. rewrite (peek_looks ps ts _ Hv), Hl. cbn [negb]. exists wrap, ps. rewrite app_nil_r. done. }
  apply Forall_cons in Hwf as [Hwf Hwfs]. cbn [snd] in Hwf.
  change (redirs_toks ((o, f) :: rs) ++ ts) with (op_text o :: f :: redirs_toks rs ++ ts) in Hv.
  rewrite (peek_looks ps _ _ Hv). replace (looks (op_text o :: _) [LT; GT]) with true by by destruct o. cbn [negb].
  destruct (gettoken_op ps o _ Hv) as [e Et]. rewrite Et. cbn [tok tok_ps].
  destruct (view_next s ps _ _ Hv) as (Hv2 & _). set (ps2 := (ps + length (op_text o) + 1)%nat) in *.
  rewrite (gettoken_word s ps2 f _ Hv2 Hwf). cbn [tok tok_q tok_eq tok_ps]. change (WORD =? WORD) with true. cbn [negb].
  destruct (view_next s ps2 f _ Hv2) as (Hv3 & _).
  destruct (IH fuel (fun c => redirect (op_code o) (wrap c) (ps2, (ps2 + length f)%nat)) (rs0 ++ [(o, f)])
    (ps2 + length f + 1)%nat ts Hv3 Hwfs Hl) as (wrap' & ps' & E & Hv' & Hle & Hw').
  - apply wraps_redirect; [done|]. by eapply cut_view.
  - pose proof (vw_le _ _ _ Hv3). lia.
  - exists wrap', ps'. split; [exact E|]. split; [done|]. split; [lia|]. by rewrite <- app_assoc in Hw'.
Qed.

(** The token after a simple command. *)
Definition stops (ts : list (list Z)) (toks : list Z) : Prop := ts = [] \/ looks ts toks = true.

Lemma stops_not ts toks toks' :
  stops ts toks -> (forall c, c ∈ toks -> c ∉ toks') -> looks ts toks' = false.
Proof.
  intros [->|Hl] Hd; [done|]. destruct ts as [|t ts]; [done|]. cbn [looks] in *. rewrite has_elem in *.
  apply bool_decide_eq_true in Hl. apply bool_decide_eq_false. by apply Hd.
Qed.

Lemma stops_mono ts toks toks' : stops ts toks -> (forall c, c ∈ toks -> c ∈ toks') -> stops ts toks'.
Proof.
  intros [->|Hl] Hd; [by left|right]. destruct ts as [|t ts]; [done|]. cbn [looks] in *. rewrite has_elem in *.
  apply bool_decide_eq_true in Hl. apply bool_decide_eq_true. by apply Hd.
Qed.

Lemma args_parse args : forall fuel argv wrap rs0 ps ts,
  view s ps (concat (arg_toks <$> args) ++ ts) ->
  Forall (fun a => wf_word a.1 /\ wf_redirs a.2) args -> (length argv + length args < MAXARGS)%nat ->
  stops ts (str "|)&;") -> wraps wrap rs0 -> (length s - ps < fuel)%nat ->
  exists c ps', parseargs fuel s argv wrap ps = Parsed c ps' /\ view s ps' ts /\ (ps <= ps')%nat /\
    erase s c = foldl mean_redir (TExec ((cut s <$> argv) ++ args.*1)) (rs0 ++ concat args.*2).
Proof.
  induction args as [|[w rs] args IH]; intros fuel argv wrap rs0 ps ts Hv Hwf Hn Hst Hw Hf;
    (destruct fuel as [|fuel]; [lia|]); cbn [parseargs].
  { cbn in Hv. rewrite (peek_looks ps ts _ Hv). exists (wrap (EXEC argv)), ps. cbn [fmap list_fmap concat].
    rewrite !app_nil_r. destruct Hst as [->|Hl]; [|by rewrite Hl, Hw].
    cbn [looks]. rewrite (gettoken_end s ps Hv). cbn. by rewrite Hw. }
  apply Forall_cons in Hwf as [[Hww Hwr] Hwf]. cbn [fst snd] in Hww, Hwr.
  change (concat (arg_toks <$> (w, rs) :: args) ++ ts) with (w :: (redirs_toks rs ++ concat (arg_toks <$> args)) ++ ts) in Hv.
  rewrite <- app_assoc in Hv. rewrite (peek_looks ps _ _ Hv).
  rewrite (looks_word w) by (done || (cbn; set_solver)). rewrite (gettoken_word s ps w _ Hv Hww).
  cbn [tok tok_q tok_eq tok_ps]. change (WORD =? 0) with false. change (WORD =? WORD) with true. cbn [negb].
  cbn [length] in Hn. rewrite (proj2 (Nat.leb_gt _ _)) by (rewrite length_app; cbn; lia).
  destruct (view_next s ps w _ Hv) as (Hv2 & _).
  destruct (redirs_parse rs (S (length s)) wrap rs0 _ _ Hv2 Hwr) as (wrap' & ps2 & E2 & Hv3 & Hle2 & Hw2);
    [|done|lia|].
  { destruct args as [|[w2 rs2] args]; [cbn; eapply stops_not; [exact Hst|cbn; set_solver]|].
    apply Forall_cons in Hwf as [[Hw2 _] _]. apply (looks_word w2); [done|cbn; set_solver]. }
  rewrite E2. cbn [andthen].
  destruct (IH fuel (argv ++ [(ps, (ps + length w)%nat)]) wrap' (rs0 ++ rs) ps2 ts Hv3 Hwf) as (c & ps' & E & Hv' & Hle & Hc);
    [rewrite length_app; cbn; lia|done|done|pose proof (vw_le _ _ _ Hv3); lia|].
  exists c, ps'. split; [exact E|]. split; [done|]. split; [lia|]. rewrite Hc, fmap_app, <- !app_assoc.
  cbn [fmap list_fmap concat app]. by rewrite (cut_view ps w _ Hv).
Qed.

Lemma back_parse amps : forall fuel c ps ts,
  view s ps (replicate amps (str "&") ++ ts) -> looks ts (str "&") = false -> (length s - ps < fuel)%nat ->
  exists c' ps', parseback fuel s c ps = Parsed c' ps' /\ view s ps' ts /\ (ps <= ps')%nat /\
    erase s c' = Nat.iter amps TBack (erase s c).
Proof.
  induction amps as [|amps IH]; intros fuel c ps ts Hv Hl Hf;
    (destruct fuel as [|fuel]; [lia|]); cbn [parseback]; cbn [replicate app] in Hv.
  - rewrite (peek_looks ps ts _ Hv), Hl. by exists c, ps.
  - rewrite (peek_looks ps _ _ Hv). change (looks (str "&" :: _) (str "&")) with true. cbn [negb].
    destruct (view_next s ps _ _ Hv) as (Hv2 & _). change (length (str "&")) with 1%nat in Hv2.
    rewrite (gettoken_symbol s ps 38 _ Hv) by (cbn; set_solver). cbn [tok_ps].
    replace (ps + 1 + 1)%nat with (ps + 2)%nat in Hv2 by lia.
    destruct (IH fuel (BACK c) (ps + 2)%nat ts Hv2 Hl) as (c' & ps' & E & Hv' & Hle & Hc);
      [pose proof (vw_le _ _ _ Hv2); lia|].
    exists c', ps'. split; [exact E|]. split; [done|]. split; [lia|]. rewrite Hc. cbn [erase].
    by rewrite <- Nat.iter_succ_r.
Qed.

(** The next token is a symbol, which is skipped. *)
Lemma symbol_skip ps c ts :
  view s ps ([c] :: ts) -> c ∈ str "|();&<>" ->
  view s (tok_ps (gettoken s ps)) ts /\ (ps < tok_ps (gettoken s ps) <= length s)%nat.
Proof.
  intros Hv Hc. rewrite (gettoken_symbol s ps c ts Hv Hc). cbn [tok_ps].
  destruct (view_next s ps _ _ Hv) as (Hv2 & _). cbn [length] in Hv2.
  replace (ps + 1 + 1)%nat with (ps + 2)%nat in Hv2 by lia. split; [done|]. pose proof (vw_le _ _ _ Hv2). lia.
Qed.

(** Parsing [toks], followed by [ts], from [ps] gives a command that means [t]. *)
Definition reads (run : nat -> parsed cmd) (toks : list (list Z)) (t : tree) (k : nat) (follow : list Z) (fuel : nat) : Prop :=
  forall ps ts, view s ps (toks ++ ts) -> stops ts follow -> (4 * (length s - ps) + k <= fuel)%nat ->
  exists c ps', run ps = Parsed c ps' /\ view s ps' ts /\ (ps <= ps')%nat /\ erase s c = t.

Lemma exec_simple rs args fuel :
  wf_exec (ESimple rs args) ->
  reads (parseexec fuel s) (exec_toks (ESimple rs args)) (mean_exec (ESimple rs args)) 2 (str "|)&;") fuel.
Proof.
  intros (Hr & Ha & Hn) ps ts Hv Hst Hf. destruct fuel as [|fuel]; [lia|]. cbn [parseexec exec_toks mean_exec] in *.
  rewrite <- app_assoc in Hv. rewrite (peek_looks ps _ _ Hv).
  assert (looks (concat (arg_toks <$> args) ++ ts) [LT; GT] = false /\
          looks (concat (arg_toks <$> args) ++ ts) (str "(") = false) as [Hl1 Hl2].
  { destruct args as [|[w rs2] args].
    - split; (eapply stops_not; [exact Hst|cbn; set_solver]).
    - apply Forall_cons in Ha as [[Hw _] _]. split; (apply (looks_word w); [done|cbn; set_solver]). }
  replace (looks (redirs_toks rs ++ _) (str "(")) with false
    by (destruct rs as [|[[] f] rs]; [exact (eq_sym Hl2)|done..]).
  destruct (redirs_parse rs (S (length s)) (fun c => c) [] ps _ Hv Hr Hl1) as (wrap & ps1 & E1 & Hv1 & Hle1 & Hw1);
    [by intros c|lia|].
  rewrite E1. cbn [andthen].
  destruct (args_parse args (S (length s)) [] wrap rs ps1 ts Hv1 Ha Hn Hst Hw1) as (c & ps' & E & Hv' & Hle & Hc); [lia|].
  exists c, ps'. split; [exact E|]. split; [done|]. split; [lia|exact Hc].
Qed.

Lemma exec_block l rs fuel :
  wf_redirs rs -> (forall fuel, reads (parseline fuel s) (line_toks l) (mean_line l) 4 (str ")") fuel) ->
  reads (parseexec fuel s) (exec_toks (EBlock l rs)) (mean_exec (EBlock l rs)) 2 (str "|)&;") fuel.
Proof.
  intros Hr IH ps ts Hv Hst Hf. destruct fuel as [|[|fuel]]; [lia|lia|]. cbn [parseexec exec_toks mean_exec app] in *.
  rewrite (peek_looks ps _ _ Hv). change (looks (str "(" :: _) (str "(")) with true. cbv iota. cbn [parseblock].
  rewrite (peek_looks ps _ _ Hv). change (looks (str "(" :: _) (str "(")) with true. cbn [negb].
  destruct (symbol_skip ps _ _ Hv ltac:(cbn; set_solver)) as [Hv1 Hps1].
  rewrite <- app_assoc in Hv1. cbn [app] in Hv1.
  destruct (IH fuel _ _ Hv1) as (c & ps2 & E2 & Hv2 & Hle2 & Hc); [by right|lia|]. rewrite E2. cbn [andthen].
  rewrite (peek_looks ps2 _ _ Hv2). change (looks (str ")" :: _) (str ")")) with true. cbn [negb].
  destruct (symbol_skip ps2 _ _ Hv2 ltac:(cbn; set_solver)) as [Hv3 Hps3].
  destruct (redirs_parse rs (S (length s)) (fun c => c) [] _ _ Hv3 Hr) as (wrap & ps4 & E4 & Hv4 & Hle4 & Hw4);
    [eapply stops_not; [exact Hst|cbn; set_solver]|by intros c'|lia|].
  rewrite E4. cbn [andthen]. exists (wrap c), ps4. split; [done|]. split; [done|]. split; [lia|].
  rewrite Hw4, Hc. done.
Qed.

Lemma pipe_one e fuel :
  (forall fuel, reads (parseexec fuel s) (exec_toks e) (mean_exec e) 2 (str "|)&;") fuel) ->
  reads (parsepipe fuel s) (exec_toks e) (mean_exec e) 3 (str ")&;") fuel.
Proof.
  intros IH ps ts Hv Hst Hf. destruct fuel as [|fuel]; [lia|]. cbn [parsepipe].
  destruct (IH fuel ps ts Hv) as (c & ps1 & E & Hv1 & Hle & Hc);
    [eapply stops_mono; [exact Hst|cbn; set_solver]|lia|]. rewrite E. cbn [andthen].
  rewrite (peek_looks ps1 _ _ Hv1), (stops_not _ _ (str "|") Hst) by (cbn; set_solver). by exists c, ps1.
Qed.

Lemma pipe_bar e p fuel :
  (forall fuel, reads (parseexec fuel s) (exec_toks e) (mean_exec e) 2 (str "|)&;") fuel) ->
  (forall fuel, reads (parsepipe fuel s) (pipe_toks p) (mean_pipe p) 3 (str ")&;") fuel) ->
  reads (parsepipe fuel s) (pipe_toks (PBar e p)) (mean_pipe (PBar e p)) 3 (str ")&;") fuel.
Proof.
  intros IHe IHp ps ts Hv Hst Hf. destruct fuel as [|fuel]; [lia|]. cbn [parsepipe pipe_toks mean_pipe] in *.
  rewrite <- app_assoc in Hv. cbn [app] in Hv.
  destruct (IHe fuel ps _ Hv) as (c & ps1 & E & Hv1 & Hle & Hc); [by right|lia|]. rewrite E. cbn [andthen].
  rewrite (peek_looks ps1 _ _ Hv1). change (looks (str "|" :: _) (str "|")) with true. cbv iota.
  destruct (symbol_skip ps1 _ _ Hv1 ltac:(cbn; set_solver)) as [Hv2 Hps2].
  destruct (IHp fuel _ ts Hv2 Hst) as (c2 & ps3 & E3 & Hv3 & Hle3 & Hc3); [lia|]. rewrite E3. cbn [andthen].
  exists (PIPE c c2), ps3. split; [done|]. split; [done|]. split; [lia|]. cbn [erase]. by rewrite Hc, Hc3.
Qed.

(** A pipeline and its ampersands. *)
Lemma amps_parse p amps fuel ps ts :
  (forall fuel, reads (parsepipe fuel s) (pipe_toks p) (mean_pipe p) 3 (str ")&;") fuel) ->
  view s ps (pipe_toks p ++ replicate amps (str "&") ++ ts) -> stops ts (str ");") ->
  (4 * (length s - ps) + 3 <= fuel)%nat ->
  exists c ps', andthen (parsepipe fuel s ps) (fun c ps => parseback (S (length s)) s c ps) = Parsed c ps' /\
    view s ps' ts /\ (ps <= ps')%nat /\ erase s c = Nat.iter amps TBack (mean_pipe p).
Proof.
  intros IH Hv Hst Hf. destruct (IH fuel ps _ Hv) as (c & ps1 & E & Hv1 & Hle & Hc); [|lia|].
  { destruct amps; [|by right]. eapply stops_mono; [exact Hst|cbn; set_solver]. }
  rewrite E. cbn [andthen].
  destruct (back_parse amps (S (length s)) c ps1 ts Hv1) as (c2 & ps2 & E2 & Hv2 & Hle2 & Hc2);
    [eapply stops_not; [exact Hst|cbn; set_solver]|lia|].
  exists c2, ps2. split; [exact E2|]. split; [done|]. split; [lia|]. by rewrite Hc2, Hc.
Qed.

Lemma parseline_unfold fuel ps :
  parseline (S fuel) s ps =
    andthen (andthen (parsepipe fuel s ps) (fun c ps => parseback (S (length s)) s c ps)) (fun c ps =>
      let '(more, ps) := peek s ps (str ";") in
      if more then
        andthen (parseline fuel s (tok_ps (gettoken s ps))) (fun rgt ps => Parsed (LIST c rgt) ps)
      else Parsed c ps).
Proof. cbn [parseline]. by destruct (parsepipe fuel s ps). Qed.

Lemma line_last p amps fuel :
  (forall fuel, reads (parsepipe fuel s) (pipe_toks p) (mean_pipe p) 3 (str ")&;") fuel) ->
  reads (parseline fuel s) (line_toks (LLast p amps)) (mean_line (LLast p amps)) 4 (str ")") fuel.
Proof.
  intros IH ps ts Hv Hst Hf. destruct fuel as [|fuel]; [lia|]. cbn [line_toks mean_line] in *.
  rewrite <- app_assoc in Hv. rewrite parseline_unfold.
  destruct (amps_parse p amps fuel ps ts IH Hv) as (c & ps1 & E & Hv1 & Hle & Hc);
    [eapply stops_mono; [exact Hst|cbn; set_solver]|lia|]. rewrite E. cbn [andthen].
  rewrite (peek_looks ps1 _ _ Hv1), (stops_not _ _ (str ";") Hst) by (cbn; set_solver). by exists c, ps1.
Qed.

Lemma line_seq p amps l fuel :
  (forall fuel, reads (parsepipe fuel s) (pipe_toks p) (mean_pipe p) 3 (str ")&;") fuel) ->
  (forall fuel, reads (parseline fuel s) (line_toks l) (mean_line l) 4 (str ")") fuel) ->
  reads (parseline fuel s) (line_toks (LSeq p amps l)) (mean_line (LSeq p amps l)) 4 (str ")") fuel.
Proof.
  intros IHp IHl ps ts Hv Hst Hf. destruct fuel as [|fuel]; [lia|]. cbn [line_toks mean_line] in *.
  rewrite <- !app_assoc in Hv. cbn [app] in Hv. rewrite parseline_unfold.
  destruct (amps_parse p amps fuel ps _ IHp Hv) as (c & ps1 & E & Hv1 & Hle & Hc); [by right|lia|].
  rewrite E. cbn [andthen]. rewrite (peek_looks ps1 _ _ Hv1).
  change (looks (str ";" :: _) (str ";")) with true. cbv iota.
  destruct (symbol_skip ps1 _ _ Hv1 ltac:(cbn; set_solver)) as [Hv2 Hps2].
  destruct (IHl fuel _ ts Hv2 Hst) as (c2 & ps3 & E3 & Hv3 & Hle3 & Hc3); [lia|]. rewrite E3. cbn [andthen].
  exists (LIST c c2), ps3. split; [done|]. split; [done|]. split; [lia|]. cbn [erase]. by rewrite Hc, Hc3.
Qed.

Lemma syntax_parse :
  (forall l, wf_line l -> forall fuel, reads (parseline fuel s) (line_toks l) (mean_line l) 4 (str ")") fuel) /\
  (forall p, wf_pipe p -> forall fuel, reads (parsepipe fuel s) (pipe_toks p) (mean_pipe p) 3 (str ")&;") fuel) /\
  (forall e, wf_exec e -> forall fuel, reads (parseexec fuel s) (exec_toks e) (mean_exec e) 2 (str "|)&;") fuel).
Proof.
  apply syntax_mut.
  - intros p IHp amps Hw fuel. by apply line_last, IHp.
  - intros p IHp amps l IHl [Hp Hl] fuel. by apply line_seq; [apply IHp|apply IHl].
  - intros e IHe Hw fuel. by apply pipe_one, IHe.
  - intros e IHe p IHp [He Hp] fuel. by apply pipe_bar; [apply IHe|apply IHp].
  - intros rs args Hw fuel. by apply exec_simple.
  - intros l IHl rs [Hl Hr] fuel. by apply exec_block; [|apply IHl].
Qed.

End parse.

(** The tokens of a tree. *)
Lemma redirs_toks_wf rs : wf_redirs rs -> Forall wf_tok (redirs_toks rs).
Proof.
  induction 1 as [|[o f] rs Hf _ IH]; [constructor|]. change (redirs_toks ((o, f) :: rs)) with (op_text o :: f :: redirs_toks rs).
  constructor; [right; destruct o; set_solver|]. constructor; [by left|done].
Qed.

Lemma toks_wf :
  (forall l, wf_line l -> Forall wf_tok (line_toks l)) /\
  (forall p, wf_pipe p -> Forall wf_tok (pipe_toks p)) /\
  (forall e, wf_exec e -> Forall wf_tok (exec_toks e)).
Proof.
  assert (forall n, Forall wf_tok (replicate n (str "&"))) as Hamps.
  { intros n. apply Forall_replicate. right. set_solver. }
  apply syntax_mut; cbn [wf_line wf_pipe wf_exec line_toks pipe_toks exec_toks].
  - intros p IHp amps Hw. apply Forall_app. auto.
  - intros p IHp amps l IHl [Hp Hl]. rewrite !Forall_app, Forall_cons. split_and!; auto. right. set_solver.
  - auto.
  - intros e IHe p IHp [He Hp]. rewrite Forall_app, Forall_cons. split_and!; auto. right. set_solver.
  - intros rs args (Hr & Ha & _). apply Forall_app. split; [by apply redirs_toks_wf|].
    induction Ha as [|[w rs2] args [Hw Hr2] _ IH]; [constructor|].
    change (concat (arg_toks <$> (w, rs2) :: args)) with (w :: redirs_toks rs2 ++ concat (arg_toks <$> args)).
    constructor; [by left|]. apply Forall_app. split; [by apply redirs_toks_wf|done].
  - intros l IHl rs [Hl Hr]. rewrite Forall_cons, Forall_app, Forall_cons.
    split_and!; [right; set_solver|auto|right; set_solver|by apply redirs_toks_wf].
Qed.

Lemma render_nonzero ts : Forall wf_tok ts -> 0 ∉ render ts.
Proof.
  induction 1 as [|t ts Ht _ IH]; [set_solver|]. unfold render. cbn [fmap list_fmap concat]. fold (render ts).
  rewrite !elem_of_app. intros [[Hin|Hin]|Hin]; [|by apply list_elem_of_singleton in Hin|done].
  destruct Ht as [[_ Hw]|Ht].
  - eapply Forall_forall in Hw as [_ Hw]; [|exact Hin]. done.
  - repeat (apply elem_of_cons in Ht as [->|Ht]; [by apply strchr_None in Hin|]). by apply elem_of_nil in Ht.
Qed.

(** C4: [parsecmd] reads the text of every well-formed syntax tree of the shell's grammar back as
    the command the tree means: pipelines and lists associate to the right, ampersands and redirections
    apply to the pipeline and the command before them, parentheses group, and every
    argument and file name is the word that was written (fewer than [MAXARGS] of them). *)
Theorem parse_render l rest :
  wf_line l -> observe (parsecmd (render (line_toks l) ++ 0 :: rest)) = RetF (mean_line l).
Proof.
  intros Hw. set (s := render (line_toks l)). pose proof (proj1 toks_wf l Hw) as Ht.
  assert (0 ∉ s) as Hnul by by apply render_nonzero.
  assert (view s 0 (line_toks l ++ [])) as Hv by (rewrite app_nil_r; split; [lia|by rewrite drop_0|done]).
  destruct (proj1 (syntax_parse s) l Hw (parse_fuel s) 0%nat [] Hv) as (c & ps & E & Hv' & _ & Hc);
    [by left|unfold parse_fuel; lia|].
  assert (ps = length s) as ->.
  { pose proof (vw_le _ _ _ Hv'). pose proof (f_equal length (vw_text _ _ _ Hv')) as El.
    rewrite length_drop in El. cbn in El. lia. }
  assert (parse s = Parsed c (length s)) as Ep.
  { unfold parse. rewrite E. cbn [andthen]. by rewrite (peek_looks s _ _ _ Hv'). }
  unfold parsecmd. rewrite (chars_until_nul_app s rest Hnul), Ep, Nat.eqb_refl. cbn [negb].
  pose proof (parse_good s Hnul) as Hg. rewrite Ep in Hg.
  by rewrite nulterminate_strings, Hc by (done || apply Hg).
Qed.

Definition demo_line : sline :=
  LSeq (PBar (ESimple [(RIn, str "in")] [(str "grep", []); (str "a.*b", [])])
       (POne (EBlock (LLast (POne (ESimple [] [(str "wc", [(RAppend, str "out")])])) 0) []))) 1
    (LLast (POne (ESimple [] [(str "echo", []); (str "done", [])])) 0).

Lemma parse_render_witness :
  observe (parsecmd (str "< in grep a.*b | ( wc >> out ) & ; echo done " ++ [0])) =
    RetF (TList (TBack (TPipe (TRedir (TExec [str "grep"; str "a.*b"]) (str "in") 0 0)
                          (TRedir (TExec [str "wc"]) (str "out") 513 1)))
                (TExec [str "echo"; str "done"])).
Proof.
  apply (parse_render demo_line []). repeat (split || constructor || done || lia).
Defined.
