(* ===== verification/Umalloc.v ===== *)
(** * The allocator of user programs: user/umalloc.c

    The free blocks form a circular list in the order of their addresses, through the headers
    at their starts.  The memory of a process is modelled by the headers it holds: [hdr] maps
    an address to the header that was last stored there.  What a program writes into its own
    blocks may change the headers inside them, so the invariant of [UmallocSpec] only
    speaks of the headers of free blocks and of the first header of a block in use. *)

From S2P Require Import Prelude User.
From ITree Require Import Core.ITreeDefinition.

Open Scope prog_scope.

(** union header *)
Record header := Header { h_ptr : Z; h_size : Z }.
Definition HEADER : Z := 16.

(** The headers in memory and [freep]. *)
Record umem := Umem { hdr : gmap Z header; freep : Z }.

Definition nxt (m : umem) (p : Z) : option Z := h_ptr <$> hdr m !! p.
Definition set_hdr (a : Z) (h : header) (m : umem) : umem := Umem (<[a := h]> (hdr m)) (freep m).
Definition set_freep (p : Z) (m : umem) : umem := Umem (hdr m) p.

(** [a->s.size = n]: the other field stays, whatever it is. *)
Definition set_size (a n : Z) (m : umem) : umem :=
  set_hdr a (Header (default 0 (nxt m a)) n) m.

(** [p + n] on pointers to headers. *)
Definition unit_add (p n : Z) : Z := u64 (p + HEADER * n).

(** The search of [free] for the free block after which [bp] goes.  [None]: a pointer led
    outside the allocator's headers, or the search did not end. *)
Fixpoint free_loop (fuel : nat) (m : umem) (bp p : Z) : option Z :=
  match fuel with
  | O => None
  | S fuel =>
      match nxt m p with
      | None => None
      | Some q =>
          if (p <? bp) && (bp <? q) then Some p
          else if (q <=? p) && ((p <? bp) || (bp <? q)) then Some p
          else free_loop fuel m bp q
      end
  end.

(** [bp] joined to the block after it, which starts at [q]. *)
Definition join_next (m : umem) (bp q : Z) : option umem :=
  match hdr m !! bp with
  | None => None
  | Some b =>
      if unit_add bp (h_size b) =? q then
        match hdr m !! q with
        | None => None
        | Some n => Some (set_hdr bp (Header (h_ptr n) (u32 (h_size b + h_size n))) m)
        end
      else Some (set_hdr bp (Header q (h_size b)) m)
  end.

(** [p] joined to the block [bp], which goes after it. *)
Definition join_prev (m : umem) (p bp : Z) : option umem :=
  match hdr m !! p, hdr m !! bp with
  | Some a, Some b =>
      Some (if unit_add p (h_size a) =? bp
            then set_hdr p (Header (h_ptr b) (u32 (h_size a + h_size b))) m
            else set_hdr p (Header bp (h_size a)) m)
  | _, _ => None
  end.

Definition free (m : umem) (ap : Z) : option umem :=
  let bp := unit_add ap (-1) in
  match free_loop (S (size (hdr m))) m bp (freep m) with
  | None => None
  | Some p =>
      match nxt m p with
      | None => None
      | Some q =>
          match join_next m bp q with
          | None => None
          | Some m => set_freep p <$> join_prev m p bp
          end
      end
  end.

(** The answer 0 stands for a null pointer. *)
Definition morecore (m : umem) (nu : Z) : prog (option (Z * umem)) :=
  let nu := if nu <? 4096 then 4096 else nu in
  p <- call (Sbrk (i32 (nu * HEADER)));;
  if p =? -1 then done (Some (0, m))
  else done ((fun m => (freep m, m)) <$> free (set_size p nu m) (unit_add p 1)).

Definition units (nbytes : Z) : Z := u32 (u64 (u64 (nbytes + HEADER) - 1) / HEADER + 1).

(** The block [p], which is large enough, or its end. *)
Definition take_block (m : umem) (prevp p nunits : Z) (h : header) : option (Z * umem) :=
  if h_size h =? nunits then
    match hdr m !! prevp with
    | None => None
    | Some a => Some (unit_add p 1, set_freep prevp (set_hdr prevp (Header (h_ptr h) (h_size a)) m))
    end
  else
    let left_ := u32 (h_size h - nunits) in
    let m := set_size p left_ m in
    let p := unit_add p left_ in
    let m := set_size p nunits m in
    Some (unit_add p 1, set_freep prevp m).

(** [prevp = p, p = p->s.ptr] *)
Definition advance (m : umem) (p : Z) : umem * Z * Z + option (Z * umem) :=
  match nxt m p with
  | Some q => inl (m, p, q)
  | None => inr None
  end.

(** The loop of [malloc]; its state is the memory, [prevp] and [p]. *)
Definition malloc_body (nunits : Z) (st : umem * Z * Z) : prog (umem * Z * Z + option (Z * umem)) :=
  let '(m, prevp, p) := st in
  match hdr m !! p with
  | None => done (inr None)
  | Some h =>
      if nunits <=? h_size h then done (inr (take_block m prevp p nunits h))
      else if p =? freep m then
        r <- morecore m nunits;;
        match r with
        | None => done (inr None)
        | Some (p, m) => if p =? 0 then done (inr (Some (0, m))) else done (advance m p)
        end
      else done (advance m p)
  end.

(** [base] is the address of the static variable of that name. *)
Definition malloc (base : Z) (m : umem) (nbytes : Z) : prog (option (Z * umem)) :=
  let nunits := units nbytes in
  let m := if freep m =? 0 then Umem (<[base := Header base 0]> (hdr m)) base else m in
  match nxt m (freep m) with
  | None => done None
  | Some p => ITree.iter (malloc_body nunits) (m, freep m, p)
  end.

(** What is there before the first call: static variables are zero. *)
Definition umem_init (base : Z) : umem := Umem {[ base := Header 0 0 ]} 0.
