(* ===== verification/UmallocRing.v ===== *)
(** * The circular list of free blocks of user/umalloc.c

    The invariant of the list ([ring]): it runs in the order of addresses from [base] and back
    to it, no two free blocks touch, and [freep] points to one of them.  [free_ok]: [free] puts a
    block in and joins it to its neighbours; [take_block_ok]: the end of [malloc] takes one out.
    Blocks are pairs of an address and a number of units. *)

From S2P Require Import Prelude User Umalloc.
From ITree Require Import Core.ITreeDefinition.

(** The bytes of a block of [n] units at [a], its header included. *)
Definition inblock (a n x : Z) : Prop := a <= x < a + HEADER * n.

(** A process has less memory than the machine, which has 128 megabytes; 64 gigabytes are
    enough for sizes of type [uint]. *)
Definition LIMIT : Z := 2 ^ 36.

(** ** The list of free blocks *)

Notation block := (Z * Z)%type.

Definition infree (l : list block) (x : Z) : Prop := exists b, b ∈ l /\ inblock b.1 b.2 x.

(** The address after the blocks of [l], where the list goes on with [back]. *)
Definition first (l : list block) (back : Z) : Z := match l with [] => back | b :: _ => b.1 end.

(** The headers of [l] are in memory, each pointing to the next. *)
Fixpoint links (m : umem) (l : list block) (back : Z) : Prop :=
  match l with
  | [] => True
  | b :: l => hdr m !! b.1 = Some (Header (first l back) b.2) /\ links m l back
  end.

(** In the order of addresses, above [lo], with a gap between any two. *)
Fixpoint spread (lo : Z) (l : list block) : Prop :=
  match l with
  | [] => True
  | b :: l => lo < b.1 /\ b.1 mod HEADER = 0 /\ 0 < b.2 /\ spread (b.1 + HEADER * b.2) l
  end.
Fixpoint end_ (lo : Z) (l : list block) : Z :=
  match l with
  | [] => lo
  | b :: l => end_ (b.1 + HEADER * b.2) l
  end.

Lemma links_app m l1 l2 back : links m (l1 ++ l2) back <-> links m l1 (first l2 back) /\ links m l2 back.
Proof.
  induction l1 as [|b l1 IH]; cbn [app links]; [tauto|]. rewrite IH.
  assert (first (l1 ++ l2) back = first l1 (first l2 back)) as -> by by destruct l1. tauto.
Qed.

Lemma links_ext m m' l back :
  links m l back -> (forall a, a ∈ l.*1 -> hdr m' !! a = hdr m !! a) -> links m' l back.
Proof.
  induction l as [|b l IH]; cbn [links fmap list_fmap]; [done|]. intros [Hb Hl] Hm.
  split; [rewrite Hm by set_solver; exact Hb|]. apply IH; [done|set_solver].
Qed.

Lemma spread_app lo l1 l2 : spread lo (l1 ++ l2) <-> spread lo l1 /\ spread (end_ lo l1) l2.
Proof. revert lo. induction l1 as [|b l1 IH]; intros lo; cbn [app spread end_]; [tauto|]. rewrite IH. tauto. Qed.

Lemma end_app lo l1 l2 : end_ lo (l1 ++ l2) = end_ (end_ lo l1) l2.
Proof. revert lo. induction l1 as [|b l1 IH]; intros lo; cbn [app end_]; [done|]. apply IH. Qed.

Lemma spread_le lo l : spread lo l -> lo <= end_ lo l.
Proof.
  revert lo. induction l as [|b l IH]; intros lo; cbn [spread end_]; [lia|]. intros (? & _ & ? & Hl).
  apply IH in Hl. unfold HEADER in *. lia.
Qed.

Lemma spread_in lo l b : spread lo l -> b ∈ l ->
  lo < b.1 /\ b.1 mod HEADER = 0 /\ 0 < b.2 /\ b.1 + HEADER * b.2 <= end_ lo l.
Proof.
  intros Hl (l1 & l2 & ->)%list_elem_of_split. apply spread_app in Hl as [H1 (? & ? & ? & H2)].
  rewrite end_app. cbn [end_]. apply spread_le in H1, H2. split_and!; lia || done.
Qed.

Lemma spread_weaken lo lo' l : spread lo l -> lo' <= lo -> spread lo' l.
Proof. destruct l; [done|]. cbn [spread]. intros (? & ? & ? & ?) ?. split_and!; done || lia. Qed.

Lemma infree_app l1 l2 x : infree (l1 ++ l2) x <-> infree l1 x \/ infree l2 x.
Proof. unfold infree. set_solver. Qed.

Lemma infree_cons b l x : infree (b :: l) x <-> inblock b.1 b.2 x \/ infree l x.
Proof. unfold infree. set_solver. Qed.

Lemma infree_nil x : infree [] x <-> False.
Proof. unfold infree. set_solver. Qed.

Lemma infree_bounds lo l x : spread lo l -> infree l x -> lo < x < end_ lo l.
Proof. intros Hl (b & Hb & Hx). eapply spread_in in Hb; [|exact Hl]. unfold inblock in Hx. lia. Qed.

Lemma spread_nodup lo l : spread lo l -> NoDup l.*1.
Proof.
  revert lo. induction l as [|b l IH]; intros lo; cbn [spread fmap list_fmap]; [constructor|].
  intros (_ & _ & Hp & Hl). constructor; [|by eapply IH]. intros (b' & E & Hb)%list_elem_of_fmap.
  eapply spread_in in Hb; [|exact Hl]. unfold HEADER in *. lia.
Qed.

(** ** The search of free *)

Fixpoint inc (lo : Z) (l : list block) : Prop :=
  match l with
  | [] => True
  | b :: l => lo < b.1 /\ inc b.1 l
  end.

Lemma inc_app lo l1 l2 : inc lo (l1 ++ l2) -> inc lo l1 /\ exists lo', lo <= lo' /\ inc lo' l2.
Proof.
  revert lo. induction l1 as [|b l1 IH]; intros lo; cbn [app inc]; [intros H; split; [done|exists lo; split; [lia|done]]|].
  intros [Hb (H1 & lo' & Hlo & H2)%IH]. split; [done|]. exists lo'. split; [lia|done].
Qed.

Lemma inc_last lo l b : inc lo (l ++ [b]) -> first (l ++ [b]) 0 <= b.1.
Proof.
  revert lo. induction l as [|c l IH]; intros lo; cbn [app inc first]; [lia|]. intros [_ H].
  pose proof (IH _ H). destruct l as [|d l]; cbn in *; lia.
Qed.

Lemma spread_inc lo l : spread lo l -> inc lo l.
Proof.
  revert lo. induction l as [|b l IH]; intros lo; cbn [spread inc]; [done|]. intros (? & _ & ? & Hl).
  split; [done|]. apply IH. eapply spread_weaken; [exact Hl|unfold HEADER; lia].
Qed.

(** From a block before the place of [bp] the search goes up to it. *)
Lemma free_loop_up m bp p n q v : forall fuel lo,
  inc lo (v ++ [(p, n)]) -> links m (v ++ [(p, n)]) q -> p < bp -> bp < q \/ q <= p -> (length v < fuel)%nat ->
  free_loop fuel m bp (first (v ++ [(p, n)]) 0) = Some p.
Proof.
  induction v as [|b v IH]; intros fuel lo Hinc Hl Hp Hq Hf; (destruct fuel as [|fuel]; [cbn in Hf; lia|]).
  - destruct Hl as [Hl _]. cbn [app first fst free_loop]. unfold nxt. cbn in Hl. rewrite Hl. cbn [fmap option_fmap option_map h_ptr].
    rewrite (proj2 (Z.ltb_lt p bp)) by done. destruct Hq as [Hq|Hq].
    + by rewrite (proj2 (Z.ltb_lt bp q)).
    + rewrite (proj2 (Z.leb_le q p)) by done. by destruct (bp <? q).
  - cbn [app] in *. destruct Hinc as [_ Hinc], Hl as [Hb Hl]. cbn [first free_loop]. unfold nxt. rewrite Hb.
    cbn [fmap option_fmap option_map h_ptr].
    assert (first (v ++ [(p, n)]) q = first (v ++ [(p, n)]) 0) as -> by by destruct v.
    pose proof (inc_last _ _ _ Hinc) as Hle. cbn in Hle.
    assert (b.1 < first (v ++ [(p, n)]) 0) by (destruct v; apply Hinc).
    rewrite (proj2 (Z.ltb_ge bp _)), andb_false_r, (proj2 (Z.leb_gt _ _)) by lia. cbn [andb].
    eapply IH; try done. cbn in Hf. lia.
Qed.

(** From a block after the place of [bp] it goes through the end of the list to [base]. *)
Lemma free_loop_wrap m bp base r : forall fuel lo,
  inc lo r -> bp <= lo -> base < bp -> links m r base -> r <> [] ->
  free_loop (length r + fuel) m bp (first r 0) = free_loop fuel m bp base.
Proof.
  induction r as [|b r IH]; intros fuel lo Hinc Hlo Hbase Hl Hr; [done|]. destruct Hinc as [Hb Hinc], Hl as [Hh Hl].
  cbn [length Nat.add first free_loop]. unfold nxt. rewrite Hh. cbn [fmap option_fmap option_map h_ptr].
  rewrite (proj2 (Z.ltb_ge b.1 bp)) by lia. cbn [andb orb]. destruct r as [|c r].
  - cbn [first length Nat.add]. by rewrite (proj2 (Z.ltb_ge bp base)), andb_false_r by lia.
  - cbn [first]. assert (b.1 < c.1) by apply Hinc. rewrite (proj2 (Z.leb_gt c.1 b.1)) by lia. cbn [andb].
    apply (IH fuel b.1); done || lia.
Qed.

Lemma suffix_at (u : list block) p n a :
  a ∈ (u ++ [(p, n)]).*1 -> exists s v, u = s ++ v /\ first (v ++ [(p, n)]) 0 = a.
Proof.
  rewrite fmap_app, elem_of_app. intros [(b & -> & (s & v & ->)%list_elem_of_split)%list_elem_of_fmap|Ha].
  - by exists s, (b :: v).
  - apply list_elem_of_singleton in Ha as ->. exists u, []. by rewrite app_nil_r.
Qed.

(** The search finds the block [p] that [bp] follows, from wherever it starts. *)
Lemma free_loop_finds m bp base u p n l2 fuel lo :
  inc lo (u ++ (p, n) :: l2) -> base < bp -> links m (u ++ (p, n) :: l2) base ->
  first (u ++ [(p, n)]) 0 = base -> p < bp -> inc bp l2 ->
  freep m ∈ (u ++ (p, n) :: l2).*1 -> (length (u ++ (p, n) :: l2) <= fuel)%nat ->
  free_loop fuel m bp (freep m) = Some p.
Proof.
  rewrite (cons_middle (p, n) u l2), app_assoc. intros Hinc Hb [Hl1 Hl2]%links_app Hfst Hp Hi2 Hin Hf.
  apply inc_app in Hinc as [Hi1 _].
  assert (bp < first l2 base \/ first l2 base <= p) as Hq.
  { destruct l2 as [|c l2]; [right|left; apply Hi2]. cbn. rewrite <- Hfst. exact (inc_last _ _ _ Hi1). }
  rewrite !length_app in Hf. cbn in Hf. rewrite fmap_app, elem_of_app in Hin. destruct Hin as [Hin|Hin].
  - apply suffix_at in Hin as (s & v & -> & <-). rewrite <- app_assoc in Hi1, Hl1.
    apply links_app in Hl1 as [_ Hl1]. apply inc_app in Hi1 as (_ & lo' & _ & Hi1).
    rewrite length_app in Hf. eapply free_loop_up; done || lia.
  - apply list_elem_of_fmap in Hin as (b & -> & (s & r & ->)%list_elem_of_split).
    apply links_app in Hl2 as [_ Hl2]. apply inc_app in Hi2 as (_ & lo' & Hlo & Hi2).
    rewrite length_app in Hf. replace fuel with (length (b :: r) + (fuel - length (b :: r)))%nat by (cbn in *; lia).
    change b.1 with (first (b :: r) 0). rewrite (free_loop_wrap m bp base (b :: r) _ lo') by (done || lia).
    rewrite <- Hfst. eapply free_loop_up; try done. cbn in *. lia.
Qed.

(** The place of a block among the free ones. *)
Lemma spread_split l bp k : forall lo,
  spread lo l -> lo <= bp -> 0 < k -> (forall x, inblock bp k x -> ~ infree l x) ->
  exists l1 l2, l = l1 ++ l2 /\ end_ lo l1 <= bp /\ spread (bp + HEADER * k - 1) l2.
Proof.
  induction l as [|b l IH]; intros lo Hl Hle Hk Hd; [by exists [], []|]. destruct Hl as (Hb & Ha & Hn & Hl).
  assert (forall x, inblock bp k x -> ~ inblock b.1 b.2 x /\ ~ infree l x) as Hd'.
  { intros x Hx. specialize (Hd x Hx). rewrite infree_cons in Hd. tauto. }
  unfold inblock, HEADER in *. destruct (decide (b.1 < bp)) as [Hlt|Hge].
  - destruct (IH (b.1 + 16 * b.2)) as (l1 & l2 & -> & Hend & Hl2); [done| |done|intros x Hx; by apply Hd'|].
    { destruct (Hd' bp) as [Hno _]; [lia|]. lia. }
    exists (b :: l1), l2. by cbn [app end_].
  - exists [], (b :: l). cbn [app end_ spread]. unfold HEADER. split_and!; try done.
    destruct (decide (b.1 < bp + 16 * k)); [|lia]. destruct (Hd' b.1) as [Hno _]; lia.
Qed.

Lemma links_size m l back : links m l back -> NoDup l.*1 -> (length l <= size (hdr m))%nat.
Proof.
  intros Hl Hnd. rewrite <- (length_fmap fst l), <- size_dom, <- (size_list_to_set (C := gset Z) l.*1) by done.
  apply subseteq_size. intros a Ha. apply elem_of_list_to_set in Ha. apply elem_of_dom. clear Hnd.
  induction l as [|b l IH]; [by apply elem_of_nil in Ha|]. destruct Hl as [Hb Hl].
  apply elem_of_cons in Ha as [->|Ha]; [by eexists|by apply IH].
Qed.

Lemma unit_add_id p n : 0 <= p + HEADER * n <= LIMIT -> unit_add p n = p + HEADER * n.
Proof. intros H. unfold unit_add, u64. apply Z.mod_small. unfold LIMIT in H. lia. Qed.

Lemma u32_id n : 0 <= HEADER * n < LIMIT -> u32 n = n.
Proof. unfold u32, HEADER, LIMIT. intros H. apply Z.mod_small. lia. Qed.

Lemma inblock_join a n k x : 0 <= n -> 0 <= k -> inblock a (n + k) x <-> inblock a n x \/ inblock (a + HEADER * n) k x.
Proof. unfold inblock, HEADER. lia. Qed.

Lemma links_frame m l back (a : Z) h :
  links m l back -> a ∉ l.*1 -> links (set_hdr a h m) l back.
Proof. intros Hl Ha. apply (links_ext m); [done|]. intros a' Ha'. cbn. apply lookup_insert_ne. set_solver. Qed.

Lemma spread_above lo l b a : spread lo l -> b ∈ l.*1 -> a <= lo -> a < b.
Proof. intros Hl (c & -> & Hc)%list_elem_of_fmap Ha. eapply spread_in in Hc; [|exact Hl]. lia. Qed.

Lemma in_fst (a n : Z) (l1 l2 : list block) : a ∈ (l1 ++ (a, n) :: l2).*1.
Proof. rewrite fmap_app. apply elem_of_app. right. apply elem_of_cons. by left. Qed.

Lemma split_unique (l1 l2 l1' l2' : list block) (p n n' : Z) :
  NoDup (l1 ++ (p, n) :: l2).*1 -> l1 ++ (p, n) :: l2 = l1' ++ (p, n') :: l2' -> l1 = l1'.
Proof.
  revert l1'. induction l1 as [|b l1 IH]; intros [|b' l1']; cbn [app fmap list_fmap]; intros Hnd E; injection E as E1 E2.
  - done.
  - subst. exfalso. apply NoDup_cons in Hnd as [Hp _]. apply Hp, in_fst.
  - subst. exfalso. apply NoDup_cons in Hnd as [Hp _]. apply Hp, in_fst.
  - subst. f_equal. apply NoDup_cons in Hnd as [_ Hnd]. by apply IH.
Qed.

Lemma spread_disjoint lo l1 b l2 x : spread lo (l1 ++ b :: l2) -> infree (l1 ++ l2) x -> ~ inblock b.1 b.2 x.
Proof.
  intros [H1 (H2 & _ & _ & H3)]%spread_app [Hx|Hx]%infree_app.
  - apply (infree_bounds _ _ _ H1) in Hx. unfold inblock. lia.
  - apply (infree_bounds _ _ _ H3) in Hx. unfold inblock. lia.
Qed.

Lemma spread_remove lo l1 b l2 : spread lo (l1 ++ b :: l2) -> spread lo (l1 ++ l2) /\ end_ lo (l1 ++ l2) <= end_ lo (l1 ++ b :: l2).
Proof.
  intros [H1 (H2 & _ & H3 & H4)]%spread_app. rewrite spread_app, !end_app. cbn [end_]. split; [split; [done|]|].
  - eapply spread_weaken; [exact H4|unfold HEADER; lia].
  - pose proof (spread_le _ _ H4). destruct l2; cbn in *; unfold HEADER in *; lia.
Qed.

Lemma spread_shrink lo l1 p n j l2 : 0 < j < n -> spread lo (l1 ++ (p, n) :: l2) ->
  spread lo (l1 ++ (p, n - j) :: l2) /\ end_ lo (l1 ++ (p, n - j) :: l2) <= end_ lo (l1 ++ (p, n) :: l2) /\
  forall x, infree (l1 ++ (p, n - j) :: l2) x -> ~ inblock (p + HEADER * (n - j)) j x.
Proof.
  intros Hj [H1 (H2 & H3 & H4 & H5)]%spread_app. rewrite spread_app, !end_app. cbn [end_ spread fst snd] in *.
  split_and!; try done; [lia|eapply spread_weaken; [exact H5|]|destruct l2; cbn|]; try (unfold HEADER; lia).
  intros x [Hx|[Hx|Hx]%infree_cons]%infree_app.
  - apply (infree_bounds _ _ _ H1) in Hx. unfold inblock, HEADER. lia.
  - unfold inblock, HEADER in *. cbn in Hx. lia.
  - apply (infree_bounds _ _ _ H5) in Hx. unfold inblock, HEADER in *. lia.
Qed.

Lemma infree_start lo l c k : spread lo l -> (c, k) ∈ l -> infree l c.
Proof.
  intros Hs Hc. exists (c, k). split; [done|]. eapply spread_in in Hc; [|exact Hs]. cbn in *. unfold inblock, HEADER. lia.
Qed.

Lemma links_freep p m l back : links m l back -> links (set_freep p m) l back.
Proof. intros Hl. by eapply links_ext. Qed.

(** ** free *)

Section ring.
Context (base : Z) (Hbase : 0 < base).

(** The circular list: [base], a block of no units below all others, and the free blocks [bs]. *)
Record ring (m : umem) (bs : list block) : Prop := {
  rg_links : links m ((base, 0) :: bs) base;
  rg_spread : spread (base + HEADER - 1) bs;
  rg_end : end_ (base + HEADER - 1) bs <= LIMIT;
  rg_freep : freep m ∈ base :: bs.*1
}.

Lemma join_next_ok m bp pt k l2 :
  links m l2 base -> hdr m !! bp = Some (Header pt k) -> base < bp -> 0 < k -> bp + HEADER * k <= LIMIT ->
  spread (bp + HEADER * k - 1) l2 -> end_ (bp + HEADER * k - 1) l2 <= LIMIT ->
  exists k' l2', join_next m bp (first l2 base) = Some (set_hdr bp (Header (first l2' base) k') m) /\
    links m l2' base /\ k <= k' /\ spread (bp + HEADER * k') l2' /\
    end_ (bp + HEADER * k') l2' <= Z.max (bp + HEADER * k) (end_ (bp + HEADER * k - 1) l2) /\
    (forall x, inblock bp k' x \/ infree l2' x <-> inblock bp k x \/ infree l2 x) /\
    forall b, b ∈ l2' -> b ∈ l2.
Proof.
  intros Hl Hbp Hlt Hk Hlim Hs He. unfold join_next. rewrite Hbp. cbn [h_size].
  rewrite unit_add_id by (unfold HEADER in *; lia). destruct l2 as [|[a n] l2].
  { exists k, []. cbn [first]. rewrite (proj2 (Z.eqb_neq _ _)) by (unfold HEADER in *; lia). cbn [end_ links spread].
    split_and!; try done; lia. }
  destruct Hl as [Ha Hl], Hs as (Hs1 & Hs2 & Hs3 & Hs). cbn [fst snd first end_] in *.
  destruct (Z.eqb_spec (bp + HEADER * k) a) as [<-|Hne].
  - rewrite Ha. cbn [h_size h_ptr]. pose proof (spread_le _ _ Hs).
    exists (k + n), l2. rewrite u32_id by (unfold HEADER in *; lia).
    assert (bp + HEADER * (k + n) = bp + HEADER * k + HEADER * n) as -> by (unfold HEADER; lia).
    split_and!; try done; [lia|lia| |set_solver].
    intros x. rewrite infree_cons, inblock_join by lia. cbn. tauto.
  - exists k, ((a, n) :: l2). cbn [links first spread end_ fst snd]. split_and!; try done; unfold HEADER in *; lia.
Qed.

Lemma ring_inc m bs : ring m bs -> inc 0 ((base, 0) :: bs) /\ NoDup ((base, 0) :: bs).*1.
Proof.
  intros R. pose proof (rg_spread _ _ R) as Hs. split.
  - split; [done|]. apply spread_inc. eapply spread_weaken; [exact Hs|unfold HEADER; cbn; lia].
  - cbn. constructor; [|by eapply spread_nodup]. intros (c & -> & Hc)%list_elem_of_fmap.
    eapply spread_in in Hc; [|exact Hs]. unfold HEADER in *. lia.
Qed.

(** The predecessor of the place of a block. *)
Lemma ring_split m bs l1 l2 : ring m bs -> bs = l1 ++ l2 ->
  exists u p n, (base, 0) :: l1 = u ++ [(p, n)] /\ links m u p /\
    hdr m !! p = Some (Header (first l2 base) n) /\ links m l2 base.
Proof.
  intros R ->. destruct (exists_last (l := (base, 0) :: l1)) as (u & [p n] & E); [done|].
  exists u, p, n. split; [exact E|]. pose proof (rg_links _ _ R) as Hl. rewrite app_comm_cons, E, links_app, links_app in Hl.
  destruct Hl as [[Hu [Hp _]] Hl]. done.
Qed.

(** The predecessor is below the block, and its address is not among those before it. *)
Lemma prev_facts u p n l1 bp :
  (base, 0) :: l1 = u ++ [(p, n)] -> spread (base + HEADER - 1) l1 -> end_ (base + HEADER - 1) l1 <= bp ->
  base + HEADER - 1 < bp ->
  0 < p < bp /\ p ∉ u.*1 /\ bp ∉ u.*1 /\
  ((u = [] /\ l1 = [] /\ p = base /\ n = 0) \/
   exists u', u = (base, 0) :: u' /\ l1 = u' ++ [(p, n)] /\ end_ (base + HEADER - 1) l1 = p + HEADER * n /\ 0 < n).
Proof.
  intros E Hs He Hlt. assert (NoDup ((base, 0) :: l1).*1) as Hnd.
  { cbn. constructor; [|by eapply spread_nodup]. intros Ha. eapply spread_above in Ha; [|exact Hs|reflexivity]. unfold HEADER in *. lia. }
  assert (bp ∉ ((base, 0) :: l1).*1) as Hbp.
  { cbn. intros [->|(c & -> & Hc)%list_elem_of_fmap]%elem_of_cons; [unfold HEADER in *; lia|].
    eapply spread_in in Hc; [|exact Hs]. unfold HEADER in *. lia. }
  rewrite E, fmap_app in Hnd, Hbp. apply NoDup_app in Hnd as (_ & Hnd & _).
  assert (p ∉ u.*1) as Hpu by (intros Hp; apply (Hnd p Hp); set_solver).
  destruct u as [|c u]; injection E as E1 E2.
  - subst. split; [unfold HEADER in *; lia|]. split_and!; [set_solver|set_solver|by left].
  - subst. assert (end_ (base + HEADER - 1) (u ++ [(p, n)]) = p + HEADER * n) as En by by rewrite end_app.
    assert (0 < p /\ 0 < n) as [??] by (apply (spread_in _ _ (p, n)) in Hs; [cbn in Hs; unfold HEADER in *; lia|set_solver]).
    split; [unfold HEADER in *; lia|]. split_and!; [done|set_solver|right; by exists u].
Qed.

(** What [join_prev] makes of the list [l1], the block [bp] and the list [l2]. *)
Definition joined (m m' : umem) (l1 : list block) (p bp k : Z) (l2 : list block) : Prop :=
  exists bs', links m' ((base, 0) :: bs') base /\ spread (base + HEADER - 1) bs' /\
    end_ (base + HEADER - 1) bs' = end_ (bp + HEADER * k) l2 /\
    (forall x, infree bs' x <-> infree l1 x \/ inblock bp k x \/ infree l2 x) /\ p ∈ base :: bs'.*1 /\
    (exists b, b ∈ bs' /\ k <= b.2) /\ forall a, a <> p -> a <> bp -> hdr m' !! a = hdr m !! a.

Section join.
Context (m : umem) (u : list block) (p n : Z) (l1 : list block) (bp k : Z) (l2 : list block).
Hypothesis E : (base, 0) :: l1 = u ++ [(p, n)].
Hypothesis Hs : spread (base + HEADER - 1) l1.
Hypothesis He : end_ (base + HEADER - 1) l1 <= bp.
Hypothesis Hlt : base + HEADER - 1 < bp.
Hypothesis Hal : bp mod HEADER = 0.
Hypothesis Hk : 0 < k.
Hypothesis Hs2 : spread (bp + HEADER * k) l2.
Hypothesis Hu : links m u p.
Hypothesis Hl2 : links m l2 base.

Lemma after_not a : a <= bp -> a ∉ l2.*1.
Proof. intros Ha Hin. eapply (spread_above _ _ _ a) in Hin; [|exact Hs2|]; unfold HEADER in *; lia. Qed.

Let m1 := set_hdr bp (Header (first l2 base) k) m.

Lemma join_prev_merge :
  p + HEADER * n = bp -> joined m (set_hdr p (Header (first l2 base) (n + k)) m1) l1 p bp k l2.
Proof.
  intros Eb. destruct (prev_facts _ _ _ _ _ E Hs He Hlt) as (Hpb & Hpu & Hbu & Hcase).
  destruct Hcase as [(_ & _ & -> & ->)|(u' & -> & -> & En & Hn)]; [unfold HEADER in *; lia|].
  assert (p + HEADER * (n + k) = bp + HEADER * k) as Ek by (unfold HEADER in *; lia).
  apply spread_app in Hs as [Hs1 (Hs3 & Hs4 & _)]. exists (u' ++ (p, n + k) :: l2). split_and!.
  - rewrite app_comm_cons, links_app. split; [apply links_frame; [by apply links_frame|done]|]. split.
    + cbn. apply lookup_insert_eq.
    + apply links_frame; [apply links_frame; [done|]|]; apply after_not; lia.
  - apply spread_app. cbn [spread fst snd]. rewrite Ek. split_and!; done || lia.
  - rewrite end_app. cbn [end_ fst snd]. by rewrite Ek.
  - intros x. rewrite !infree_app, !infree_cons, infree_nil. cbn [fst snd]. rewrite inblock_join, Eb by lia. tauto.
  - apply elem_of_cons. right. apply in_fst.
  - exists (p, n + k). split; [apply elem_of_app; right; apply elem_of_cons; by left|cbn; lia].
  - intros a Ha Ha'. cbn. by rewrite !lookup_insert_ne.
Qed.

Lemma join_prev_link : p + HEADER * n <> bp -> joined m (set_hdr p (Header bp n) m1) l1 p bp k l2.
Proof.
  intros Nb. destruct (prev_facts _ _ _ _ _ E Hs He Hlt) as (Hpb & Hpu & Hbu & Hcase).
  exists (l1 ++ (bp, k) :: l2). split_and!.
  - rewrite app_comm_cons, E, <- app_assoc, links_app. split; [apply links_frame; [by apply links_frame|done]|]. split; [|split].
    + cbn. apply lookup_insert_eq.
    + cbn. rewrite lookup_insert_ne by lia. apply lookup_insert_eq.
    + apply links_frame; [apply links_frame; [done|]|]; apply after_not; lia.
  - apply spread_app. cbn [spread fst snd]. split_and!; try done.
    destruct Hcase as [(_ & -> & _)|(u' & _ & _ & En & _)]; [cbn; lia|lia].
  - by rewrite end_app.
  - intros x. rewrite infree_app, infree_cons. cbn [fst snd]. tauto.
  - change (p ∈ ((base, 0) :: l1 ++ (bp, k) :: l2).*1). rewrite app_comm_cons, E, <- app_assoc. apply in_fst.
  - exists (bp, k). split; [apply elem_of_app; right; apply elem_of_cons; by left|cbn; lia].
  - intros a Ha Ha'. cbn. by rewrite !lookup_insert_ne.
Qed.

Lemma join_prev_ok q : hdr m !! p = Some (Header q n) -> end_ (bp + HEADER * k) l2 <= LIMIT ->
  exists m', join_prev m1 p bp = Some m' /\ joined m m' l1 p bp k l2.
Proof.
  intros Hp He2. destruct (prev_facts _ _ _ _ _ E Hs He Hlt) as (Hpb & Hpu & Hbu & Hcase).
  assert (p + HEADER * n <= bp /\ 0 <= n) as [Hpn Hn0].
  { destruct Hcase as [(_ & _ & -> & ->)|(u' & _ & _ & En & Hn)]; unfold HEADER in *; lia. }
  pose proof (spread_le _ _ Hs2). unfold join_prev, m1. cbn [set_hdr hdr freep].
  rewrite lookup_insert_ne, Hp, lookup_insert_eq by lia. cbn [h_size h_ptr].
  rewrite unit_add_id by (unfold HEADER in *; lia).
  destruct (Z.eqb_spec (p + HEADER * n) bp) as [Eb|Nb]; eexists; (split; [reflexivity|]).
  - rewrite u32_id by (unfold HEADER in *; lia). by apply join_prev_merge.
  - by apply join_prev_link.
Qed.

End join.

(** [free] puts a block into the list, wherever it lies and wherever [freep] points to, joined to its
    neighbours; other headers stay. *)
Lemma free_ok m bs bp k pt :
  ring m bs -> hdr m !! bp = Some (Header pt k) -> base + HEADER <= bp -> bp mod HEADER = 0 -> 0 < k ->
  bp + HEADER * k <= LIMIT -> (forall x, inblock bp k x -> ~ infree bs x) ->
  exists m' bs', free m (bp + HEADER) = Some m' /\ ring m' bs' /\
    end_ (base + HEADER - 1) bs' <= Z.max (bp + HEADER * k) (end_ (base + HEADER - 1) bs) /\
    (forall x, infree bs' x <-> infree bs x \/ inblock bp k x) /\ (exists b, b ∈ bs' /\ k <= b.2) /\
    forall a, a ∉ base :: bs.*1 -> a <> bp -> hdr m' !! a = hdr m !! a.
Proof.
  intros R Hbp Hlo Hal Hk Hlim Hd. set (lo := base + HEADER - 1).
  destruct (spread_split bs bp k lo) as (l1 & l2 & Ebs & Hend & Hs2); [apply R|unfold lo; lia|done|done|].
  destruct (ring_split m bs l1 l2 R Ebs) as (u & p & n & E & Hu & Hp & Hl2).
  pose proof (rg_spread _ _ R) as Hs. pose proof (rg_end _ _ R) as He. rewrite Ebs in Hs, He.
  apply spread_app in Hs as [Hs1 Hs2']. rewrite end_app in He. fold lo in He, Hs1, Hs2'.
  destruct (prev_facts u p n l1 bp E Hs1 Hend ltac:(lia)) as (Hpb & Hpu & Hbu & _).
  assert (end_ (bp + HEADER * k - 1) l2 <= Z.max (bp + HEADER * k) (end_ (end_ lo l1) l2)) as Hmax
    by (destruct l2; cbn; lia).
  assert (free_loop (S (size (hdr m))) m bp (freep m) = Some p) as Hfind.
  { pose proof (rg_links _ _ R) as Hl. pose proof (rg_freep _ _ R) as Hfp. pose proof (ring_inc m bs R) as [Hinc Hnd].
    pose proof (links_size _ _ _ Hl Hnd) as Hsz. change (base :: bs.*1) with ((base, 0) :: bs).*1 in Hfp.
    rewrite Ebs, app_comm_cons, E, <- app_assoc in Hl, Hfp, Hinc, Hsz. cbn [app] in Hl, Hfp, Hinc, Hsz.
    apply (free_loop_finds m bp base u p n l2 _ 0); try done; [unfold HEADER in *; lia|by rewrite <- E|lia| |lia].
    apply spread_inc. eapply spread_weaken; [exact Hs2|unfold HEADER in *; lia]. }
  destruct (join_next_ok m bp pt k l2) as (k' & l2' & Ej & Hl2' & Hk' & Hs3 & He3 & Hin3 & Hsub);
    try done; [unfold HEADER in *; lia|lia|].
  destruct (join_prev_ok m u p n l1 bp k' l2') with (q := first l2 base)
    as (m' & Ep & bs' & Hl' & Hs' & He' & Hin' & Hp' & (b & Hb & Hkb) & Hfr); try done; try lia.
  exists (set_freep p m'), bs'. split_and!.
  - unfold free. rewrite unit_add_id by (unfold HEADER in *; lia).
    replace (bp + HEADER + HEADER * -1) with bp by (unfold HEADER; lia).
    rewrite Hfind. unfold nxt. rewrite Hp. cbn [fmap option_fmap option_map h_ptr]. by rewrite Ej, Ep.
  - split; [by eapply links_ext|exact Hs'|rewrite He'; lia|exact Hp'].
  - fold lo in He'. rewrite He', Ebs, end_app. lia.
  - intros x. rewrite Hin', Ebs, infree_app. specialize (Hin3 x). tauto.
  - exists b. split; [done|lia].
  - intros a Ha Hab. apply Hfr; [|done]. intros ->. apply Ha. change (base :: bs.*1) with ((base, 0) :: bs).*1.
    rewrite Ebs, app_comm_cons, E, <- app_assoc. apply in_fst.
Qed.

(** ** malloc *)

(** The block before [p] in the list is the one that points to it. *)
Lemma prev_unique m bs l1 p n l2 prevp :
  ring m bs -> bs = l1 ++ (p, n) :: l2 -> prevp ∈ base :: bs.*1 -> nxt m prevp = Some p ->
  exists u k, (base, 0) :: l1 = u ++ [(prevp, k)].
Proof.
  intros R Ebs Hin Hnxt. destruct (ring_inc _ _ R) as [_ Hnd]. pose proof (rg_links _ _ R) as Hl.
  change (base :: bs.*1) with ((base, 0) :: bs).*1 in Hin.
  apply list_elem_of_fmap in Hin as ([a k] & -> & (s & v & E)%list_elem_of_split). cbn [fst] in *.
  rewrite E, links_app in Hl. destruct Hl as [_ [Ha _]]. unfold nxt in Hnxt. cbn [fst snd] in Ha. rewrite Ha in Hnxt.
  injection Hnxt as Hp. destruct v as [|[p' n'] v].
  - cbn in Hp. subst. cbn in Hnd. apply NoDup_cons in Hnd as [Hnd _]. by destruct Hnd; apply in_fst.
  - cbn in Hp. subst p'. exists s, k. rewrite Ebs, app_comm_cons in Hnd.
    apply (split_unique _ l2 _ v p n n' Hnd). rewrite <- app_assoc. cbn [app]. by rewrite <- E, Ebs.
Qed.

(** What [take_block] gives: the block at [r - HEADER], and the list without it. *)
Definition taken (m : umem) (bs : list block) (nunits r : Z) (m' : umem) : Prop :=
  exists bs' pt, ring m' bs' /\ end_ (base + HEADER - 1) bs' <= end_ (base + HEADER - 1) bs /\
    hdr m' !! (r - HEADER) = Some (Header pt nunits) /\ base + HEADER <= r - HEADER /\ (r - HEADER) mod HEADER = 0 /\
    (forall x, infree bs x <-> infree bs' x \/ inblock (r - HEADER) nunits x) /\
    (forall x, infree bs' x -> ~ inblock (r - HEADER) nunits x) /\
    forall a, a ∉ base :: bs.*1 -> a <> r - HEADER -> hdr m' !! a = hdr m !! a.

Section take.
Context (m : umem) (l1 : list block) (p n : Z) (l2 : list block) (prevp nunits : Z).
Let bs := l1 ++ (p, n) :: l2.
Hypothesis R : ring m bs.
Hypothesis Hprev : prevp ∈ base :: bs.*1.
Hypothesis Hnxt : nxt m prevp = Some p.

Lemma block_facts : base + HEADER <= p /\ p mod HEADER = 0 /\ 0 < n /\ p + HEADER * n <= LIMIT.
Proof.
  pose proof (rg_spread _ _ R) as Hs. pose proof (rg_end _ _ R) as He.
  apply (spread_in _ _ (p, n)) in Hs; [|unfold bs; apply elem_of_app; right; apply elem_of_cons; by left].
  cbn [fst snd] in Hs. unfold HEADER in *. lia.
Qed.

(** The whole block. *)
Lemma take_whole a h : nunits = n -> hdr m !! prevp = Some a -> hdr m !! p = Some h ->
  taken m bs nunits (p + HEADER) (set_freep prevp (set_hdr prevp (Header (h_ptr h) (h_size a)) m)).
Proof.
  intros -> Ha Hh. destruct block_facts as (F1 & F2 & F3 & F4). destruct (ring_inc _ _ R) as [_ Hnd].
  pose proof (rg_links _ _ R) as Hl. pose proof (rg_spread _ _ R) as Hs. pose proof (rg_end _ _ R) as He.
  destruct (prev_unique m bs l1 p n l2 prevp R eq_refl Hprev Hnxt) as (u & k & E).
  unfold bs in Hl, Hnd. rewrite app_comm_cons, E, <- app_assoc in Hl, Hnd. cbn [app] in Hl, Hnd.
  apply links_app in Hl as [Hu [Hk [Hp Hl2]]]. cbn [fst snd first] in Hk, Hp. rewrite Hk in Ha. injection Ha as <-.
  rewrite Hp in Hh. injection Hh as <-. cbn [h_ptr h_size].
  rewrite fmap_app in Hnd. apply NoDup_app in Hnd as (_ & Hnu & Hnd). cbn in Hnd.
  apply NoDup_cons in Hnd as [Hn1 [Hn2 _]%NoDup_cons].
  assert (prevp ∉ u.*1) by (intros Hin; apply (Hnu _ Hin), elem_of_cons; by left).
  exists (l1 ++ l2), (first l2 base). replace (p + HEADER - HEADER) with p by lia.
  destruct (spread_remove _ _ _ _ Hs) as [Hs' He']. split_and!; try done.
  - split; [apply links_freep|done|unfold bs in He; lia|].
    + rewrite app_comm_cons, E, <- app_assoc. cbn [app]. apply links_app. split; [by apply links_frame|]. split.
      * cbn. apply lookup_insert_eq.
      * apply (links_frame _ _ _ _ _ Hl2). intros Hin. apply Hn1, elem_of_cons. by right.
    + change (prevp ∈ ((base, 0) :: l1 ++ l2).*1). rewrite app_comm_cons, E, <- app_assoc. apply in_fst.
  - cbn. rewrite lookup_insert_ne; [done|]. intros ->. apply Hn1, elem_of_cons. by left.
  - intros x. unfold bs. rewrite !infree_app, infree_cons. cbn [fst snd]. tauto.
  - intros x Hx. by eapply (spread_disjoint _ l1 (p, n) l2).
  - intros a Ha _. cbn. apply lookup_insert_ne. by intros <-.
Qed.

(** The end of a larger block. *)
Lemma take_end pt : 0 < nunits < n -> hdr m !! p = Some (Header pt n) ->
  taken m bs nunits (p + HEADER * (n - nunits) + HEADER)
    (set_freep prevp (set_size (p + HEADER * (n - nunits)) nunits (set_size p (n - nunits) m))).
Proof.
  intros Hn Hh. destruct block_facts as (F1 & F2 & F3 & F4). destruct (ring_inc _ _ R) as [_ Hnd].
  pose proof (rg_links _ _ R) as Hl. pose proof (rg_end _ _ R) as He.
  destruct (spread_shrink _ _ _ _ _ _ Hn (rg_spread _ _ R)) as (Hs & Hle & Hdis).
  fold bs in Hle. set (b := p + HEADER * (n - nunits)) in *. set (bs' := l1 ++ (p, n - nunits) :: l2) in *.
  assert (((base, 0) :: bs').*1 = ((base, 0) :: bs).*1) as Ek by (cbn; unfold bs, bs'; by rewrite !fmap_app).
  assert (b ∉ ((base, 0) :: bs').*1) as Hb.
  { cbn. intros [Eb|([c k] & Eb & Hc)%list_elem_of_fmap]%elem_of_cons; [unfold b, HEADER in *; lia|]. cbn [fst] in Eb.
    apply (Hdis b); [rewrite Eb; by eapply infree_start|unfold inblock, HEADER; lia]. }
  assert (links (set_size p (n - nunits) m) ((base, 0) :: bs') base) as Hl'.
  { unfold bs' , bs in *. rewrite app_comm_cons in *. apply links_app in Hl as [Hl1 [Hp Hl2]]. cbn [fst snd] in Hp.
    rewrite fmap_app in Hnd. apply NoDup_app in Hnd as (_ & Hn1 & [Hn2 _]%NoDup_cons). apply links_app. split; [|split].
    - apply links_frame; [done|]. intros Hin. by apply (Hn1 p Hin), elem_of_cons; left.
    - cbn. rewrite lookup_insert_eq. unfold nxt. by rewrite Hp.
    - by apply links_frame. }
  exists bs', (default 0 (nxt (set_size p (n - nunits) m) b)). replace (b + HEADER - HEADER) with b by lia.
  split_and!; try done.
  - split; [by apply links_freep, links_frame|done|lia|]. change (prevp ∈ ((base, 0) :: bs').*1). by rewrite Ek.
  - cbn. apply lookup_insert_eq.
  - unfold b, HEADER in *. lia.
  - unfold b. rewrite Z.mul_comm, Z.mod_add by done. done.
  - intros x. unfold bs, bs', b. rewrite !infree_app, !infree_cons. cbn [fst snd].
    replace n with (n - nunits + nunits) at 1 by lia. rewrite inblock_join by lia. tauto.
  - intros a Ha Hab. cbn. rewrite !lookup_insert_ne; [done| |done]. intros <-. apply Ha, elem_of_cons. right. apply in_fst.
Qed.

Lemma take_block_ok h : hdr m !! p = Some h -> 0 < nunits <= n ->
  exists r m', take_block m prevp p nunits h = Some (r, m') /\ taken m bs nunits r m'.
Proof.
  intros Hh Hn. destruct block_facts as (F1 & F2 & F3 & F4).
  assert (exists pt, h = Header pt n) as [pt ->].
  { pose proof (rg_links _ _ R) as Hl. unfold bs in Hl. rewrite app_comm_cons, links_app in Hl.
    destruct Hl as [_ [Hp _]]. cbn in Hp. rewrite Hp in Hh. injection Hh as <-. by eexists. }
  unfold take_block. cbn [h_size h_ptr]. destruct (Z.eqb_spec n nunits) as [E|Ne].
  - pose proof Hnxt as Hq. unfold nxt in Hq. destruct (hdr m !! prevp) as [a|] eqn:Ha; [|done]. eexists _, _. split; [reflexivity|].
    rewrite unit_add_id by (unfold HEADER in *; lia). rewrite Z.mul_1_r. by eapply (take_whole a (Header pt n)).
  - eexists _, _. split; [reflexivity|]. rewrite u32_id by (unfold HEADER in *; lia).
    rewrite (unit_add_id p) by (unfold HEADER in *; lia). rewrite unit_add_id by (unfold HEADER in *; lia). rewrite Z.mul_1_r.
    apply (take_end pt); [lia|done].
Qed.

End take.

End ring.
