(* ===== verification/UmallocSpec.v ===== *)
(** * What malloc and free promise

    An [arena] is what a program may know of its heap: the bytes that are available, the
    blocks it holds and the end of the heap.  The circular list of user/umalloc.c
    implements it ([holds]): [malloc] takes its block out of the available bytes or out of new
    memory, [free] gives the block back, and no byte is ever lost or handed out twice. *)

From S2P Require Import Prelude User Umalloc UmallocRing.
From ITree Require Import Core.ITreeDefinition.

(** ** The specification *)

Record arena := Arena { avail : Z -> Prop; live : gmap Z Z; brk : Z }.

(** The blocks in use do not overlap each other or what is available. *)
Record arena_ok (A : arena) : Prop := {
  ao_live : forall a n x, live A !! a = Some n -> inblock a n x -> ~ avail A x /\ 0 < x < brk A;
  ao_apart : forall a n b k x, live A !! a = Some n -> live A !! b = Some k ->
    inblock a n x -> inblock b k x -> a = b;
  ao_avail : forall x, avail A x -> 0 < x < brk A
}.

(** [malloc(nbytes)] answers [r]; [refused]: the kernel gave no memory. *)
Definition malloc_spec (nbytes : Z) (A : arena) (r : Z) (A' : arena) (refused : bool) : Prop :=
  (r = 0 /\ refused = true /\ live A' = live A /\ brk A' = brk A /\ forall x, avail A' x <-> avail A x) \/
  exists n, nbytes <= HEADER * (n - 1) < nbytes + HEADER /\ 0 < r /\ r mod HEADER = 0 /\
    live A !! (r - HEADER) = None /\ live A' = <[r - HEADER := n]> (live A) /\ brk A <= brk A' /\
    forall x, avail A' x \/ inblock (r - HEADER) n x <-> avail A x \/ brk A <= x < brk A'.

(** [free(ap)] of a block of [n] units. *)
Definition free_spec (ap n : Z) (A A' : arena) : Prop :=
  live A' = delete (ap - HEADER) (live A) /\ brk A' = brk A /\
  forall x, avail A' x <-> avail A x \/ inblock (ap - HEADER) n x.

(** The kernel as the allocator sees it: [sbrk] moves the end of the heap, or refuses. *)
Definition heap_step (X : Type) (e : sysE X) : Z * bool -> X -> Z * bool -> Prop :=
  match e in sysE X return Z * bool -> X -> Z * bool -> Prop with
  | Sbrk n => fun w r w' => 0 < n /\
      ((r = -1 /\ w' = (w.1, true)) \/ (r = w.1 /\ w' = (w.1 + n, w.2) /\ w.1 + n <= LIMIT))
  | _ => fun _ _ _ => False
  end.
#[export] Instance heap_world : world := World (Z * bool) heap_step.

(** ** The invariant *)

Section heap.
Context (base : Z) (Hbase : 0 < base).

(** The list [bs] and the blocks in use implement [A]. *)
Record heap (m : umem) (bs : list block) (A : arena) : Prop := {
  hp_ring : ring base m bs;
  hp_avail : forall x, avail A x <-> infree bs x;
  hp_end : end_ (base + HEADER - 1) bs <= brk A;
  hp_brk : base + HEADER <= brk A <= LIMIT /\ brk A mod HEADER = 0;
  hp_live : forall a n, live A !! a = Some n -> (exists pt, hdr m !! a = Some (Header pt n)) /\
    base + HEADER <= a /\ a mod HEADER = 0 /\ 0 < n /\ a + HEADER * n <= brk A /\ forall x, inblock a n x -> ~ infree bs x;
  hp_apart : forall a n b k x, live A !! a = Some n -> live A !! b = Some k -> inblock a n x -> inblock b k x -> a = b
}.

(** Before the first call there is no list yet. *)
Definition holds (m : umem) (A : arena) : Prop :=
  (freep m = 0 /\ live A = ∅ /\ (forall x, ~ avail A x) /\ base + HEADER <= brk A <= LIMIT /\ brk A mod HEADER = 0) \/
  exists bs, heap m bs A.

Lemma holds_arena_ok m A : holds m A -> arena_ok A.
Proof.
  intros [(_ & Hl & Ha & _)|[bs H]].
  - split; [intros a n x|intros a n b k x|]; try (rewrite Hl; by rewrite lookup_empty). intros x Hx. by apply Ha in Hx.
  - split; [|apply H|].
    + intros a n x (_ & ? & _ & ? & ? & Hd)%(hp_live _ _ _ H) Hx. rewrite (hp_avail _ _ _ H).
      split; [by apply Hd|unfold inblock, HEADER in *; lia].
    + intros x Hx%(hp_avail _ _ _ H). apply (infree_bounds _ _ _ (rg_spread _ _ _ (hp_ring _ _ _ H))) in Hx.
      pose proof (hp_end _ _ _ H). unfold HEADER in *. lia.
Qed.

(** A block in use is not in the list. *)
Lemma live_not_ring m bs A a n : heap m bs A -> live A !! a = Some n -> a ∉ base :: bs.*1.
Proof.
  intros H (_ & Ha & _ & Hn & _ & Hd)%(hp_live _ _ _ H) [->|([c k] & -> & Hc)%list_elem_of_fmap]%elem_of_cons.
  - unfold HEADER in *. lia.
  - apply (Hd c); [unfold inblock, HEADER; cbn; lia|]. eapply infree_start; [|exact Hc]. apply H.
Qed.

Lemma heap_free m bs A ap n :
  heap m bs A -> live A !! (ap - HEADER) = Some n ->
  exists m' A', free m ap = Some m' /\ holds m' A' /\ free_spec ap n A A'.
Proof.
  intros H Hn. pose proof (hp_live _ _ _ H _ _ Hn) as ([pt Hh] & Ha & Hal & Hpos & Hle & Hd).
  destruct (free_ok base Hbase m bs (ap - HEADER) n pt) as (m' & bs' & E & R & He & Hin & _ & Hfr);
    try done; [apply H|pose proof (hp_brk _ _ _ H); lia|].
  replace (ap - HEADER + HEADER) with ap in E by lia.
  exists m', (Arena (infree bs') (delete (ap - HEADER) (live A)) (brk A)). split; [done|]. split.
  - right. exists bs'. split; cbn [avail live brk]; [done|done|pose proof (hp_end _ _ _ H); lia|apply H| |].
    + intros a k [Hne Hk]%lookup_delete_Some. pose proof (hp_live _ _ _ H _ _ Hk) as (Hh' & F1 & F2 & F3 & F4 & F5).
      split_and!; try done.
      * rewrite Hfr; [done|by eapply live_not_ring|done].
      * intros x Hx [Hx'|Hx']%Hin; [by eapply F5|]. by apply Hne, (hp_apart _ _ _ H _ _ _ _ x Hn Hk).
    + intros a k b j x [_ ?]%lookup_delete_Some [_ ?]%lookup_delete_Some. by apply (hp_apart _ _ _ H).
  - split_and!; try done. intros x. cbn. by rewrite Hin, (hp_avail _ _ _ H).
Qed.

(** The arena after [sbrk] was called, or not. *)
Definition grown (A A' : arena) : Prop :=
  live A' = live A /\ brk A <= brk A' /\ forall x, avail A' x <-> avail A x \/ brk A <= x < brk A'.

Lemma heap_take m bs A A1 nbytes nunits r m' f :
  heap m bs A1 -> grown A A1 -> 0 < nunits -> nbytes <= HEADER * (nunits - 1) < nbytes + HEADER ->
  taken base m bs nunits r m' -> exists A', holds m' A' /\ brk A' = brk A1 /\ malloc_spec nbytes A r A' f.
Proof.
  intros H (Hlv & Hbrk & Hav) Hpos Hn (bs' & pt & R & He & Hh & Hlo & Hal & Hin & Hdis & Hfr).
  set (b := r - HEADER) in *. assert (forall x, inblock b nunits x -> infree bs x) as Hsub by (intros x Hx; apply Hin; by right).
  assert (inblock b nunits b) as Hb by (unfold inblock, HEADER; lia).
  assert (live A1 !! b = None) as Hnone.
  { destruct (live A1 !! b) as [k|] eqn:Ek; [exfalso|done].
    pose proof (hp_live _ _ _ H _ _ Ek) as (_ & _ & _ & Hk & _ & Hd). apply (Hd b); [unfold inblock, HEADER; lia|by apply Hsub]. }
  assert (b + HEADER * nunits <= brk A1) as Htop.
  { assert (infree bs (b + HEADER * nunits - 1)) as Hx by (apply Hsub; unfold inblock, HEADER; lia).
    apply (infree_bounds _ _ _ (rg_spread _ _ _ (hp_ring _ _ _ H))) in Hx. pose proof (hp_end _ _ _ H). lia. }
  exists (Arena (infree bs') (<[b := nunits]> (live A1)) (brk A1)). split_and!.
  - right. exists bs'. split; cbn [avail live brk]; [done|done|pose proof (hp_end _ _ _ H); lia|apply H| |].
    + intros a n [[<- <-]|[Hne Ha]]%lookup_insert_Some.
      { split_and!; try done; [by eexists|]. intros x Hx Hx'. by apply (Hdis x). }
      pose proof (hp_live _ _ _ H _ _ Ha) as (Hh' & F1 & F2 & F3 & F4 & F5). split_and!; try done.
      * rewrite Hfr; [done|by eapply live_not_ring|done].
      * intros x Hx Hx'. apply (F5 x Hx), Hin. by left.
    + assert (forall a n x, live A1 !! a = Some n -> inblock a n x -> ~ inblock b nunits x) as Hsep.
      { intros a n x Ha Hx Hx'. destruct (hp_live _ _ _ H _ _ Ha) as (_ & _ & _ & _ & _ & Hd). by apply (Hd x Hx), Hsub. }
      intros a n c k x [[<- <-]|[_ Ha]]%lookup_insert_Some [[<- <-]|[_ Hc]]%lookup_insert_Some Hx Hx'; [done| | |].
      * by destruct (Hsep _ _ _ Hc Hx').
      * by destruct (Hsep _ _ _ Ha Hx).
      * by apply (hp_apart _ _ _ H _ _ _ _ x Ha Hc).
  - done.
  - right. exists nunits. cbn [avail live brk]. fold b. rewrite <- Hlv. split_and!; try done; try (unfold b, HEADER in *; lia).
    + replace r with (b + 1 * HEADER) by (unfold b; lia). by rewrite Z.mod_add.
    + intros x. rewrite <- Hav, (hp_avail _ _ _ H), Hin. done.
Qed.

(** New memory goes into the list as one block. *)
Lemma heap_grow m bs A nu :
  heap m bs A -> 0 < nu -> brk A + HEADER * nu <= LIMIT ->
  exists m' bs' A', free (set_size (brk A) nu m) (unit_add (brk A) 1) = Some m' /\
    heap m' bs' A' /\ grown A A' /\ brk A' = brk A + HEADER * nu /\ exists b, b ∈ bs' /\ nu <= b.2.
Proof.
  intros H Hnu Hlim. pose proof (hp_brk _ _ _ H) as [Hb Hbal]. pose proof (hp_end _ _ _ H) as He.
  pose proof (rg_spread _ _ _ (hp_ring _ _ _ H)) as Hs. set (m1 := set_size (brk A) nu m).
  assert (brk A ∉ base :: bs.*1) as Hnew.
  { intros [E|([c k] & E & Hc)%list_elem_of_fmap]%elem_of_cons; [unfold HEADER in *; lia|].
    eapply spread_in in Hc; [|exact Hs]. cbn [fst snd] in *. unfold HEADER in *. lia. }
  assert (ring base m1 bs) as R1 by (destruct (hp_ring _ _ _ H); split; [by apply links_frame|done..]).
  destruct (free_ok base Hbase m1 bs (brk A) nu (default 0 (nxt m (brk A)))) as (m' & bs' & E & R & He' & Hin & Hbig & Hfr);
    [done|cbn; apply lookup_insert_eq|lia|done|done|lia| |].
  { intros x Hx Hx'. apply (infree_bounds _ _ _ Hs) in Hx'. unfold inblock in Hx. lia. }
  exists m', bs', (Arena (infree bs') (live A) (brk A + HEADER * nu)).
  rewrite unit_add_id, Z.mul_1_r by (unfold HEADER in *; lia). split; [exact E|]. split; [|split; [|done]].
  - split; cbn [avail live brk]; [done|done|unfold HEADER in *; lia| |intros a n Ha|apply H].
    + split; [unfold HEADER in *; lia|]. rewrite Z.mul_comm, Z.mod_add by done. done.
    + pose proof (hp_live _ _ _ H _ _ Ha) as ([pt Hh] & F1 & F2 & F3 & F4 & F5).
      split_and!; try done; [| unfold HEADER in *; lia|].
      * exists pt. rewrite Hfr; [cbn; rewrite lookup_insert_ne|by eapply live_not_ring|]; try done; unfold HEADER in *; lia.
      * intros x Hx [Hx'|Hx']%Hin; [by eapply F5|]. unfold inblock in *. lia.
  - split; [done|]. cbn [avail brk]. split; [unfold HEADER in *; lia|]. intros x. by rewrite Hin, (hp_avail _ _ _ H).
Qed.

(** [morecore] is refused, or leaves a block that is large enough. *)
Definition more (A : arena) (m : umem) (nunits : Z) (f : bool) (r : option (Z * umem)) (w : Z * bool) : Prop :=
  (r = Some (0, m) /\ w = (brk A, true)) \/
  exists m' bs' A', r = Some (freep m', m') /\ heap m' bs' A' /\ grown A A' /\ w = (brk A', f) /\
    exists b, b ∈ bs' /\ nunits <= b.2.

Lemma morecore_ok m bs A nunits f R :
  heap m bs A -> 0 < nunits -> HEADER * nunits < 2 ^ 31 ->
  must (more A m nunits f) R (morecore m nunits) (brk A, f).
Proof.
  intros H Hn Hlim. unfold morecore. set (nu := if nunits <? 4096 then 4096 else nunits).
  assert (nunits <= nu /\ 0 < nu /\ nu * HEADER < 2 ^ 31) as (H1 & H2 & H3).
  { unfold nu, HEADER in *. destruct (Z.ltb_spec nunits 4096); lia. }
  assert (i32 (nu * HEADER) = nu * HEADER) as ->.
  { unfold i32. rewrite Z.mod_small; unfold HEADER in *; lia. }
  apply must_bind, must_trigger.
  - exists (-1), (brk A, true). cbn. split; [unfold HEADER; lia|by left].
  - intros x w' [_ [[-> ->]|(-> & -> & Hle)]]; cbn [fst snd] in *.
    + apply must_ret. by left.
    + pose proof (hp_brk _ _ _ H) as [Hb _]. rewrite (proj2 (Z.eqb_neq _ _)) by (unfold HEADER in *; lia).
      destruct (heap_grow m bs A nu H H2) as (m' & bs' & A' & E & H' & Hg & Hbrk & b & Hb1 & Hb2); [lia|].
      rewrite E. apply must_ret. right. exists m', bs', A'. split_and!; try done; [by rewrite Hbrk, Z.mul_comm|].
      exists b. split; [done|lia].
Qed.

(** ** The loop of malloc *)

(** The way from the block after [freep] round the list. *)
Lemma ring_round m bs : ring base m bs ->
  exists t k back, links m (t ++ [(freep m, k)]) back /\ nxt m (freep m) = Some (first (t ++ [(freep m, k)]) 0) /\
    freep m ∉ t.*1 /\ t ++ [(freep m, k)] ≡ₚ (base, 0) :: bs.
Proof.
  intros R. pose proof (rg_links _ _ _ R) as Hl. destruct (ring_inc base Hbase _ _ R) as [_ Hnd].
  pose proof (rg_freep _ _ _ R) as Hin. change (base :: bs.*1) with ((base, 0) :: bs).*1 in Hin.
  apply list_elem_of_fmap in Hin as ([a k] & Ea & (u & v & E)%list_elem_of_split). cbn [fst] in Ea. rewrite Ea in *.
  pose proof Hl as Hl0. rewrite E in Hl, Hnd. rewrite (cons_middle (a, k) u v), app_assoc, links_app in Hl. destruct Hl as [H1 H2].
  exists (v ++ u), k, (first v base). rewrite <- app_assoc.
  assert (first (u ++ [(a, k)]) (first v base) = base) as Hf by (destruct u; by simplify_eq/=).
  split_and!.
  - apply links_app. split; [by rewrite Hf|done].
  - unfold nxt. apply links_app in H1 as [_ [H1 _]]. cbn [fst snd first] in H1. rewrite H1. cbn.
    f_equal. destruct v; [|done]. destruct u; by simplify_eq/=.
  - rewrite fmap_app in Hnd |- *. apply NoDup_app in Hnd as (_ & Hu & [Hv _]%NoDup_cons).
    intros [?|Hin]%elem_of_app; [done|]. apply (Hu _ Hin), elem_of_cons. by left.
  - rewrite E, (Permutation_app_comm v), <- app_assoc. done.
Qed.

Lemma ring_freep m bs : ring base m bs -> freep m <> 0.
Proof.
  intros R E. pose proof (rg_freep _ _ _ R) as Hin. rewrite E in Hin.
  apply elem_of_cons in Hin as [Eb|([c k] & Ec & Hc)%list_elem_of_fmap]; [lia|].
  eapply spread_in in Hc; [|apply R]. cbn in *. unfold HEADER in *. lia.
Qed.

Section loop.
Context (A : arena) (nbytes nunits : Z) (R : Z -> W -> Prop).
Hypothesis Hn : nbytes <= HEADER * (nunits - 1) < nbytes + HEADER.
Hypothesis Hpos : 0 < nunits.

(** The promise of [malloc]. *)
Definition promise (r : option (Z * umem)) (w : W) : Prop :=
  exists p m' A', r = Some (p, m') /\ holds m' A' /\ brk A' = w.1 /\ malloc_spec nbytes A p A' w.2.

(** The loop is at the block [p] after [prevp], with the blocks [t] and that of [freep] ahead. *)
Record at_ (m : umem) (bs : list block) (A1 : arena) (prevp p : Z) (t : list block) (k : Z) : Prop := {
  at_heap : heap m bs A1;
  at_grown : grown A A1;
  at_prev : prevp ∈ base :: bs.*1;
  at_nxt : nxt m prevp = Some p;
  at_p : p = first (t ++ [(freep m, k)]) 0;
  at_links : exists back, links m (t ++ [(freep m, k)]) back;
  at_freep : freep m ∉ t.*1;
  at_in : forall b, b ∈ t ++ [(freep m, k)] -> b ∈ (base, 0) :: bs
}.

Lemma at_start m bs A1 : heap m bs A1 -> grown A A1 ->
  exists q t k, nxt m (freep m) = Some q /\ at_ m bs A1 (freep m) q t k /\ t ++ [(freep m, k)] ≡ₚ (base, 0) :: bs.
Proof.
  intros H Hg. destruct (ring_round m bs (hp_ring _ _ _ H)) as (t & k & back & Hl & Hq & Hf & Hp).
  eexists _, t, k. split; [exact Hq|]. split; [|done]. split; try done; [apply H|by exists back|]. intros b. by rewrite Hp.
Qed.

(** A block that is large enough is taken. *)
Lemma body_takes m bs A1 prevp p t k n f :
  at_ m bs A1 prevp p t k -> head (t ++ [(freep m, k)]) = Some (p, n) -> nunits <= n ->
  must (fun r w => match r with inl st => must promise R (ITree.iter (malloc_body nunits) st) w | inr r => promise r w end)
    R (malloc_body nunits (m, prevp, p)) ((brk A1, f) : W).
Proof.
  intros Hat Hhd Hle. assert ((p, n) ∈ (base, 0) :: bs) as Hin.
  { apply (at_in _ _ _ _ _ _ _ Hat). apply head_Some_elem_of, Hhd. }
  apply elem_of_cons in Hin as [[= -> ->]|(l1 & l2 & E)%list_elem_of_split]; [lia|].
  destruct Hat as [H Hg Hprev Hnxt _ _ _ _]. subst bs.
  pose proof (rg_links _ _ _ (hp_ring _ _ _ H)) as Hl. rewrite app_comm_cons, links_app in Hl.
  destruct Hl as [_ [Hp _]]. cbn [fst snd] in Hp. unfold malloc_body. rewrite Hp. cbn [h_size].
  rewrite (proj2 (Z.leb_le nunits n)) by done.
  destruct (take_block_ok base Hbase m l1 p n l2 prevp nunits (hp_ring _ _ _ H) Hprev Hnxt _ Hp) as (r & m' & E & Ht); [lia|].
  rewrite E. apply must_ret. destruct (heap_take m _ A A1 nbytes nunits r m' f H Hg Hpos Hn Ht) as (A' & H' & Hb & Hs).
  by exists r, m', A'.
Qed.

(** A block that is too small is passed, if it is not the last. *)
Lemma body_passes m bs A1 prevp p b t k :
  at_ m bs A1 prevp p (b :: t) k -> b.2 < nunits ->
  exists q, at_ m bs A1 p q t k /\ malloc_body nunits (m, prevp, p) = done (inl (m, p, q)).
Proof.
  intros [H Hg Hprev Hnxt -> [back [Hb Hl]] Hf Hin] Hlt. cbn [app first] in *.
  exists (first (t ++ [(freep m, k)]) 0). apply not_elem_of_cons in Hf as [Hne Hf].
  assert (first (t ++ [(freep m, k)]) back = first (t ++ [(freep m, k)]) 0) as E by by destruct t.
  assert (nxt m b.1 = Some (first (t ++ [(freep m, k)]) 0)) as Hq by (unfold nxt; by rewrite Hb, <- E).
  split.
  - split; try done; [|by exists back|intros c Hc; apply Hin, elem_of_cons; by right].
    change (base :: bs.*1) with ((base, 0) :: bs).*1. apply list_elem_of_fmap. exists b. split; [done|].
    apply Hin, elem_of_cons. by left.
  - unfold malloc_body. rewrite Hb. cbn [h_size]. rewrite (proj2 (Z.leb_gt _ _)), (proj2 (Z.eqb_neq _ _)) by done.
    unfold advance. by rewrite Hq.
Qed.

(** With a large block ahead the loop ends with one. *)
Lemma loop_finds m bs A1 f k t : forall prevp p,
  at_ m bs A1 prevp p t k -> (exists b, b ∈ t ++ [(freep m, k)] /\ nunits <= b.2) ->
  must promise R (ITree.iter (malloc_body nunits) (m, prevp, p)) ((brk A1, f) : W).
Proof.
  induction t as [|b t IH]; intros prevp p Hat (c & Hc & Hle); apply must_iter_step.
  - apply list_elem_of_singleton in Hc as ->. eapply body_takes; [exact Hat| |exact Hle].
    by rewrite (at_p _ _ _ _ _ _ _ Hat).
  - destruct (decide (nunits <= b.2)) as [Hb|Hb].
    + eapply body_takes; [exact Hat| |exact Hb]. rewrite (at_p _ _ _ _ _ _ _ Hat). by destruct b.
    + destruct (body_passes m bs A1 prevp p b t k Hat) as (q & Hat' & ->); [lia|].
      apply must_ret, IH; [done|]. exists c. split; [|done]. cbn in Hc. apply elem_of_cons in Hc as [->|Hc]; [lia|done].
Qed.

(** The loop gets to a block, or through the list and asks for memory. *)
Lemma loop_ends m bs f k t : HEADER * nunits < 2 ^ 31 -> forall prevp p,
  at_ m bs A prevp p t k ->
  must promise R (ITree.iter (malloc_body nunits) (m, prevp, p)) ((brk A, f) : W).
Proof.
  intros Hlim. induction t as [|b t IH]; intros prevp p Hat; apply must_iter_step.
  - pose proof (at_p _ _ _ _ _ _ _ Hat) as Ep. cbn in Ep. rewrite Ep in *.
    destruct (decide (nunits <= k)) as [Hk|Hk]; [by eapply body_takes; [exact Hat|done|done]|].
    destruct (at_links _ _ _ _ _ _ _ Hat) as [back [Hh _]]. cbn [fst snd] in Hh. unfold malloc_body. rewrite Hh. cbn [h_size].
    rewrite (proj2 (Z.leb_gt _ _)), Z.eqb_refl by lia. pose proof (at_heap _ _ _ _ _ _ _ Hat) as H.
    apply must_bind. eapply must_mono; [|by intros st w'; exact (fun x => x)|by apply (morecore_ok m bs)].
    intros r w [[-> ->]|(m' & bs' & A' & -> & H' & Hg & -> & b & Hb & Hle)].
    + apply must_ret. exists 0, m, A. split_and!; [done|right; by exists bs|done|by left].
    + destruct (at_start m' bs' A' H' Hg) as (q & t & j & Hq & Hat' & Hp).
      rewrite (proj2 (Z.eqb_neq _ _)) by (apply (ring_freep m' bs'), H').
      unfold advance. rewrite Hq. apply must_ret. eapply loop_finds; [exact Hat'|]. exists b. split; [|done].
      rewrite Hp. apply elem_of_cons. by right.
  - destruct (decide (nunits <= b.2)) as [Hb|Hb].
    + eapply body_takes; [exact Hat| |exact Hb]. rewrite (at_p _ _ _ _ _ _ _ Hat). by destruct b.
    + destruct (body_passes m bs A prevp p b t k Hat) as (q & Hat' & ->); [lia|]. by apply must_ret, IH.
Qed.

End loop.

Lemma units_ok nbytes : 0 <= nbytes <= 2 ^ 31 - 32 ->
  nbytes <= HEADER * (units nbytes - 1) < nbytes + HEADER /\ 0 < units nbytes /\ HEADER * units nbytes < 2 ^ 31.
Proof.
  intros H. unfold units, HEADER, u64, u32. rewrite (Z.mod_small (nbytes + 16)) by lia. rewrite (Z.mod_small (nbytes + 16 - 1)) by lia.
  pose proof (Z_div_mod_eq_full (nbytes + 16 - 1) 16). pose proof (Z.mod_pos_bound (nbytes + 16 - 1) 16).
  rewrite Z.mod_small by lia. lia.
Qed.

Lemma malloc_ok m A nbytes f :
  holds m A -> 0 <= nbytes <= 2 ^ 31 - 32 ->
  must (promise A nbytes) (fun _ _ => False) (malloc base m nbytes) ((brk A, f) : W).
Proof.
  intros H Hn. destruct (units_ok nbytes Hn) as (Hu & Hpos & Hlim). unfold malloc.
  set (m0 := if freep m =? 0 then _ else m). assert (exists bs, heap m0 bs A) as [bs H0].
  { destruct H as [(Hf & Hl & Ha & Hb)|[bs H]]; unfold m0.
    - rewrite Hf. cbn. exists []. split; try done; cbn [end_]; [|intros x; rewrite infree_nil|lia| |].
      + split; cbn; [by rewrite lookup_insert_eq|done|lia|set_solver].
      + split; [by intros ?%Ha|done].
      + intros a n. rewrite Hl. by rewrite lookup_empty.
      + intros a n b k x. rewrite Hl. by rewrite lookup_empty.
    - rewrite (proj2 (Z.eqb_neq _ _)); [by exists bs|]. eapply ring_freep, H. }
  destruct (at_start A m0 bs A H0) as (q & t & k & Hq & Hat & _).
  { split_and!; [done|lia|]. intros x. split; [by left|]. intros [?|?]; [done|lia]. }
  rewrite Hq. by eapply loop_ends.
Qed.

End heap.


(** A heap with one free block of 4095 units at 12288 and one block of a unit in use, after it. *)
Definition demo_heap : umem :=
  Umem {[ 4096 := Header 12288 0; 12288 := Header 4096 4095; 77808 := Header 0 1 ]} 4096.
Definition demo_arena : arena := Arena (inblock 12288 4095) {[ 77808 := 1 ]} 77824.

